(** * File-integrity monitor of the enforcer: share/fsmon/monitor.go

    A shallow embedding of the [FileWatch] aggregator of package [fsmon]
    (groups registry, pending file events, learning engine, classifier and
    reporter) and the properties of its natural-language specification.

    Conventions.
    - Go [int], [uint32] masks and [time.Duration] values are [Z]; masks are
      combined with [Z.lor] and tested with [Z.land].
    - Go strings are [string] (sequences of bytes).
    - Go maps are stdpp [gmap]s, [utils.Set] is a [gset string].
    - [*osutil.FileInfoExt] values are shared between the drivers and the
      pending events and are written by the classifier, so they live in an
      explicit store ([finfos]) and are named by locations.
    - Calls into the two notification drivers ([FaNotify], [Inotify]) and into
      the report and rule callbacks are recorded, in order, as a list of
      [Effect]s: the drivers themselves are not part of monitor.go. *)

From Stdlib Require Import ZArith Ascii String List DecimalString.
From stdpp Require Import base decidable option list gmap strings fin_maps fin_sets.

Local Open Scope string_scope.
Local Open Scope list_scope.

(** ** The pieces of Go's standard library that monitor.go calls *)

(** Package [strings], on byte strings. *)
Module GoStrings.

(** [s[i:]] *)
Definition slice_from (s : string) (i : nat) : string :=
    substring i (String.length s - i) s.

(** [strings.HasPrefix] *)
Definition HasPrefix (s pre : string) : bool := String.prefix pre s.

(** [strings.HasSuffix]:
      [len(s) >= len(suffix) && s[len(s)-len(suffix):] == suffix] *)
Definition HasSuffix (s suffix : string) : bool :=
    (String.length suffix <=? String.length s)%nat
    && String.eqb (slice_from s (String.length s - String.length suffix)) suffix.

(** [strings.Index]: the index of the first instance of [substr] in [s],
      or [-1] when there is none. *)
Definition Index (s substr : string) : Z :=
    match String.index 0 substr s with
    | Some i => Z.of_nat i
    | None => (-1)%Z
    end.

(** [strings.Replace(s, "\\.", ".", -1)]: every backslash before a dot is
    dropped. *)
Fixpoint unescape_dots (s : string) : string :=
  match s with
  | EmptyString => EmptyString
  | String c rest =>
      match rest with
      | String d rest' =>
          if Ascii.eqb c "\" && Ascii.eqb d "." then String d (unescape_dots rest')
          else String c (unescape_dots rest)
      | EmptyString => String c EmptyString
      end
  end.

(** [strings.LastIndexByte(s, '/')], as a natural number when found. *)
Fixpoint last_slash_from (i : nat) (s : string) : option nat :=
    match s with
    | EmptyString => None
    | String c rest =>
        match last_slash_from (S i) rest with
        | Some j => Some j
        | None => if Ascii.eqb c "/" then Some i else None
        end
    end.

(** The path elements between separators: [strings.Split(s, "/")]. *)
Fixpoint split_slash_aux (cur : string) (s : string) : list string :=
    match s with
    | EmptyString => [String.rev cur]
    | String c rest =>
        if Ascii.eqb c "/" then String.rev cur :: split_slash_aux EmptyString rest
        else split_slash_aux (String c cur) rest
    end.

Definition split_slash (s : string) : list string := split_slash_aux EmptyString s.

(** [strings.Join(elems, "/")] *)
Fixpoint join_slash (elems : list string) : string :=
    match elems with
    | [] => ""
    | [e] => e
    | e :: rest => e +:+ "/" +:+ join_slash rest
    end.

End GoStrings.

(** Package [path/filepath] on Unix (separator '/', no volume names). *)
Module filepath.
Import GoStrings.

(** One step of [Clean]'s scan over the path elements. [out] holds the
      elements written so far, last one first. An empty element and "." are
      skipped; ".." removes the last element written when there is one that is
      not itself "..", is dropped at the root, and is kept otherwise. *)
Definition clean_step (rooted : bool) (out : list string) (elem : string) : list string :=
    if String.eqb elem "" then out
    else if String.eqb elem "." then out
    else if String.eqb elem ".." then
      match out with
      | top :: below => if String.eqb top ".." then elem :: out else below
      | [] => if rooted then out else [elem]
      end
    else elem :: out.

(** [filepath.Clean] *)
Definition Clean (path : string) : string :=
    match path with
    | EmptyString => "."
    | String c _ =>
        let rooted := Ascii.eqb c "/" in
        let out := rev (fold_left (clean_step rooted) (split_slash path) []) in
        if rooted then "/" +:+ join_slash out
        else match out with [] => "." | _ => join_slash out end
    end.

(** [filepath.Dir]: everything up to the last separator, cleaned. *)
Definition Dir (path : string) : string :=
    match last_slash_from 0 path with
    | Some i => Clean (substring 0 (S i) path)
    | None => Clean ""
    end.

(** [filepath.Join(a, b)] with a non-empty first element. *)
Definition Join2 (a b : string) : string :=
    if String.eqb a "" then (if String.eqb b "" then "" else Clean b)
    else Clean (a +:+ "/" +:+ b).

(** [filepath.Base] *)
Definition Base (path : string) : string :=
    match path with
    | EmptyString => "."
    | _ =>
        match List.filter (fun e => negb (String.eqb e "")) (split_slash path) with
        | [] => "/"
        | e :: es => List.last es e
        end
    end.

End filepath.


(** [fmt.Sprintf("%d", n)] *)
Definition sprintf_d (n : Z) : string := DecimalString.NilZero.string_of_int (Z.to_int n).

(** ** Constants of packages [syscall] (Linux inotify bits) and [os] *)

Module syscall.
Definition IN_ACCESS : Z := 0x1.
Definition IN_MODIFY : Z := 0x2.
Definition IN_ATTRIB : Z := 0x4.
Definition IN_CLOSE_WRITE : Z := 0x8.
Definition IN_MOVED_FROM : Z := 0x40.
Definition IN_MOVED_TO : Z := 0x80.
Definition IN_MOVE : Z := Z.lor IN_MOVED_FROM IN_MOVED_TO.
Definition IN_CREATE : Z := 0x100.
Definition IN_DELETE : Z := 0x200.
Definition IN_DELETE_SELF : Z := 0x400.
Definition IN_MOVE_SELF : Z := 0x800.
Definition IN_UNMOUNT : Z := 0x2000.
Definition IN_IGNORED : Z := 0x8000.
Definition IN_ISDIR : Z := 0x40000000.
End syscall.

Module os.
(** [os.FileMode] is a [uint32]; [ModeDir] is bit 31 and [ModeSymlink] bit 27. *)
Definition ModeDir : Z := Z.shiftl 1 31.
Definition ModeSymlink : Z := Z.shiftl 1 27.
Definition IsDir (m : Z) : bool := negb (Z.land m ModeDir =? 0)%Z.
End os.

(** ** monitor.go: constants *)

Definition inodeMovedMask : Z :=
  Z.lor (Z.lor syscall.IN_MOVE syscall.IN_MOVE_SELF) syscall.IN_MOVED_TO.

(** [fileEvent*  uint32 = (1 << iota)] *)
Definition fileEventAttr : Z := Z.shiftl 1 0.
Definition fileEventDirAttr : Z := Z.shiftl 1 1.
Definition fileEventCreate : Z := Z.shiftl 1 2.
Definition fileEventModified : Z := Z.shiftl 1 3.
Definition fileEventRemoved : Z := Z.shiftl 1 4.
Definition fileEventSymCreate : Z := Z.shiftl 1 5.
Definition fileEventSymModified : Z := Z.shiftl 1 6.
Definition fileEventDirSymCreate : Z := Z.shiftl 1 7.
Definition fileEventDirSymModified : Z := Z.shiftl 1 8.
Definition fileEventReplaced : Z := Z.shiftl 1 9.
Definition fileEventDirCreate : Z := Z.shiftl 1 10.
Definition fileEventDirRemoved : Z := Z.shiftl 1 11.
Definition fileEventAccessed : Z := Z.shiftl 1 12.
Definition fileEventDenied : Z := Z.shiftl 1 13.
Definition fileEventMovedFrom : Z := Z.shiftl 1 14.
Definition fileEventMovedTo : Z := Z.shiftl 1 15.
Definition fileEventDirMovedFrom : Z := Z.shiftl 1 16.
Definition fileEventDirMovedTo : Z := Z.shiftl 1 17.

Definition fileEventMsg : gmap Z string :=
  list_to_map
    [ (fileEventAttr, "File attribute is changed.");
      (fileEventDirAttr, "Directory attribute is changed.");
      (fileEventModified, "File was modified.");
      (fileEventReplaced, "File was replaced.");
      (fileEventCreate, "File created in watched directory.");
      (fileEventRemoved, "File deleted from watched directory.");
      (fileEventSymCreate, "File symlink was created.");
      (fileEventSymModified, "File symlink was modified.");
      (fileEventDirSymCreate, "Directory symlink was created.");
      (fileEventDirSymModified, "Directory symlink was modified.");
      (fileEventDirCreate, "Directory was created.");
      (fileEventDirRemoved, "Directory was deleted.");
      (fileEventAccessed, "File was accessed.");
      (fileEventDenied, "File access was denied.");
      (fileEventMovedFrom, "File was moved from.");
      (fileEventMovedTo, "File was moved to.");
      (fileEventDirMovedFrom, "Directory was moved from.");
      (fileEventDirMovedTo, "Directory was moved to.") ].

(** [time.Second * 60], in nanoseconds *)
Definition sixty_seconds : Z := 60 * 1000000000.

(** ** Data model *)

(** [share.CLUSFileMonitorFilter], the fields monitor.go reads. *)
Record CLUSFileMonitorFilter := {
  flt_Behavior : string;
  flt_Path : string;
  flt_Regex : string;
  flt_Recursive : bool;
  flt_CustomerAdd : bool;
  flt_DerivedGroup : string;
}.

(** [share.CLUSFileMonitorProfile] *)
Record CLUSFileMonitorProfile := {
  prf_Group : string;
  prf_Mode : string;
  prf_Filters : list CLUSFileMonitorFilter;
  prf_FiltersCRD : list CLUSFileMonitorFilter;
}.

Definition set_prf_Mode (mode : string) (p : CLUSFileMonitorProfile) : CLUSFileMonitorProfile :=
  {| prf_Group := prf_Group p; prf_Mode := mode;
     prf_Filters := prf_Filters p; prf_FiltersCRD := prf_FiltersCRD p |}.

(** One entry of [share.CLUSFileAccessRule.Filters]. *)
Record CLUSFileAccessFilterRule := {
  afr_Apps : list string;
  afr_CustomerAdd : bool;
}.

(** [share.CLUSFileAccessRule]: [Filters] is keyed by the filter index key. *)
Record CLUSFileAccessRule := {
  ar_Filters : gmap string CLUSFileAccessFilterRule;
}.

(** [share.CLUSFileAccessRuleReq] *)
Record CLUSFileAccessRuleReq := {
  req_GroupName : string;
  req_Filter : string;
  req_Path : string;
}.

Record FsmonConfig := {
  cfg_Profile : CLUSFileMonitorProfile;
  cfg_Rule : option CLUSFileAccessRule;
}.

Record ProcInfo := {
  pi_RootPid : Z;
  pi_Name : string;
  pi_Path : string;
  pi_Cmds : option (list string);
  pi_Pid : Z;
  pi_EUid : Z;
  pi_EUser : string;
  pi_PPid : Z;
  pi_PName : string;
  pi_PPath : string;
  pi_Deny : bool;
  pi_InProfile : bool;
}.

#[global] Instance ProcInfo_eq_dec : EqDecision ProcInfo.
Proof. solve_decision. Defined.

Record MonitorMessage := {
  msg_ID : string;
  msg_Path : string;
  msg_Package : bool;
  msg_ProcName : string;
  msg_ProcPath : string;
  msg_ProcCmds : option (list string);
  msg_ProcPid : Z;
  msg_ProcEUid : Z;
  msg_ProcEUser : string;
  msg_ProcPPid : Z;
  msg_ProcPName : string;
  msg_ProcPPath : string;
  msg_Group : string;
  msg_Msg : string;
  msg_Count : Z;
  msg_StartAt : Z;
  msg_Action : string;
}.

(** The [*filterRegex] a [FileInfoExt] carries in its [Filter] field; its
    compiled [regex] is a function of [path] and is left out. *)
Record filterRegex := {
  fr_path : string;
  fr_recursive : bool;
}.

(** Modelled from the spec: the content hash of [osutil.FileInfoExt], "zero
    until first read", read as a number; [osutil.HashZero] tests it. *)
Definition Hash := N.
Definition HashZero (h : Hash) : bool := (h =? 0)%N.

(** Locations of [FileInfoExt] objects. *)
Definition loc := positive.

(** [osutil.FileInfoExt], the fields monitor.go reads and writes;
    [fi_Children] holds pointers. *)
Record FileInfoExt := {
  fi_ContainerId : string;
  fi_FileMode : Z;
  fi_Path : string;
  fi_Link : string;
  fi_Hash : Hash;
  fi_Filter : filterRegex;
  fi_Protect : bool;
  fi_UserAdded : bool;
  fi_Children : list loc;
}.

#[global] Instance FileInfoExt_inhabited : Inhabited FileInfoExt :=
  populate {| fi_ContainerId := ""; fi_FileMode := 0; fi_Path := ""; fi_Link := "";
              fi_Hash := 0%N; fi_Filter := {| fr_path := ""; fr_recursive := false |};
              fi_Protect := false; fi_UserAdded := false; fi_Children := [] |}.

Definition set_fi_ContainerId (v : string) (f : FileInfoExt) : FileInfoExt :=
  {| fi_ContainerId := v; fi_FileMode := fi_FileMode f; fi_Path := fi_Path f;
     fi_Link := fi_Link f; fi_Hash := fi_Hash f; fi_Filter := fi_Filter f;
     fi_Protect := fi_Protect f; fi_UserAdded := fi_UserAdded f;
     fi_Children := fi_Children f |}.
Definition set_fi_FileMode (v : Z) (f : FileInfoExt) : FileInfoExt :=
  {| fi_ContainerId := fi_ContainerId f; fi_FileMode := v; fi_Path := fi_Path f;
     fi_Link := fi_Link f; fi_Hash := fi_Hash f; fi_Filter := fi_Filter f;
     fi_Protect := fi_Protect f; fi_UserAdded := fi_UserAdded f;
     fi_Children := fi_Children f |}.
Definition set_fi_Path (v : string) (f : FileInfoExt) : FileInfoExt :=
  {| fi_ContainerId := fi_ContainerId f; fi_FileMode := fi_FileMode f; fi_Path := v;
     fi_Link := fi_Link f; fi_Hash := fi_Hash f; fi_Filter := fi_Filter f;
     fi_Protect := fi_Protect f; fi_UserAdded := fi_UserAdded f;
     fi_Children := fi_Children f |}.
Definition set_fi_Hash (v : Hash) (f : FileInfoExt) : FileInfoExt :=
  {| fi_ContainerId := fi_ContainerId f; fi_FileMode := fi_FileMode f; fi_Path := fi_Path f;
     fi_Link := fi_Link f; fi_Hash := v; fi_Filter := fi_Filter f;
     fi_Protect := fi_Protect f; fi_UserAdded := fi_UserAdded f;
     fi_Children := fi_Children f |}.
Definition set_fi_Filter (v : filterRegex) (f : FileInfoExt) : FileInfoExt :=
  {| fi_ContainerId := fi_ContainerId f; fi_FileMode := fi_FileMode f; fi_Path := fi_Path f;
     fi_Link := fi_Link f; fi_Hash := fi_Hash f; fi_Filter := v;
     fi_Protect := fi_Protect f; fi_UserAdded := fi_UserAdded f;
     fi_Children := fi_Children f |}.
Definition set_fi_Children (v : list loc) (f : FileInfoExt) : FileInfoExt :=
  {| fi_ContainerId := fi_ContainerId f; fi_FileMode := fi_FileMode f; fi_Path := fi_Path f;
     fi_Link := fi_Link f; fi_Hash := fi_Hash f; fi_Filter := fi_Filter f;
     fi_Protect := fi_Protect f; fi_UserAdded := fi_UserAdded f; fi_Children := v |}.

(** The answer of the walker task, [workerlet.WalkPathResult]: the
    directories and files under the requested prefixes, with their modes. *)
Record DirData := {
  dd_Dir : string;
  dd_Mode : Z;
}.

Record FileData := {
  fd_File : string;
  fd_Mode : Z;
}.

Record WalkPathResult := {
  wr_Dirs : list DirData;
  wr_Files : list FileData;
}.

(** [fileMod]: a pending, aggregated event. [fm_pInfo] is [nil] or holds the
    non-nil process records [cbNotify] appended. *)
Record fileMod := {
  fm_mask : Z;
  fm_delay : Z;
  fm_finfo : loc;
  fm_pInfo : list ProcInfo;
}.

Record groupInfo := {
  bNeuvector : bool;
  profile : CLUSFileMonitorProfile;
  mode : string;
  applyRules : gmap string (gset string);
  learnRules : gmap string (gset string);
  startAt : Z;
}.

#[global] Instance groupInfo_inhabited : Inhabited groupInfo :=
  populate {| bNeuvector := false;
              profile := {| prf_Group := ""; prf_Mode := ""; prf_Filters := [];
                            prf_FiltersCRD := [] |};
              mode := ""; applyRules := ∅; learnRules := ∅; startAt := 0 |}.

Definition set_learnRules (v : gmap string (gset string)) (g : groupInfo) : groupInfo :=
  {| bNeuvector := bNeuvector g; profile := profile g; mode := mode g;
     applyRules := applyRules g; learnRules := v; startAt := startAt g |}.
Definition set_applyRules (v : gmap string (gset string)) (g : groupInfo) : groupInfo :=
  {| bNeuvector := bNeuvector g; profile := profile g; mode := mode g;
     applyRules := v; learnRules := learnRules g; startAt := startAt g |}.
Definition set_profile_mode (p : CLUSFileMonitorProfile) (m : string) (g : groupInfo) : groupInfo :=
  {| bNeuvector := bNeuvector g; profile := p; mode := m;
     applyRules := applyRules g; learnRules := learnRules g; startAt := startAt g |}.

(** [FileWatch]: the fields that hold state. The callbacks [sendrpt] and
    [sendRule] and the two drivers appear as [Effect]s; [finfos] is the store
    of the [FileInfoExt] objects the events point to. *)
Record FileWatch := {
  bEnable : bool;
  aufs : bool;
  bNVProtect : bool;
  fileEvents : gmap string fileMod;
  groups : gmap Z groupInfo;
  finfos : gmap loc FileInfoExt;
}.

Definition set_fileEvents (v : gmap string fileMod) (w : FileWatch) : FileWatch :=
  {| bEnable := bEnable w; aufs := aufs w; bNVProtect := bNVProtect w;
     fileEvents := v; groups := groups w; finfos := finfos w |}.
Definition set_groups (v : gmap Z groupInfo) (w : FileWatch) : FileWatch :=
  {| bEnable := bEnable w; aufs := aufs w; bNVProtect := bNVProtect w;
     fileEvents := fileEvents w; groups := v; finfos := finfos w |}.
Definition set_finfos (v : gmap loc FileInfoExt) (w : FileWatch) : FileWatch :=
  {| bEnable := bEnable w; aufs := aufs w; bNVProtect := bNVProtect w;
     fileEvents := fileEvents w; groups := groups w; finfos := v |}.
Definition set_bNVProtect (v : bool) (w : FileWatch) : FileWatch :=
  {| bEnable := bEnable w; aufs := aufs w; bNVProtect := v;
     fileEvents := fileEvents w; groups := groups w; finfos := finfos w |}.

Record FaMonProbeData := {
  NRoots : Z; NMntRoots : Z; NDirMarks : Z; NRules : Z; fa_NPaths : Z; fa_NDirs : Z;
}.

Record IMonProbeData := {
  NWds : Z; ino_NPaths : Z; ino_NDirs : Z;
}.

Record FmonProbeData := {
  NFileEvents : Z;
  NGroups : Z;
  Fan : FaMonProbeData;
  Ino : IMonProbeData;
}.

(** What monitor.go does to the outside, in program order: the calls into
    the fanotify and inotify drivers, and the two outbound callbacks. *)
Inductive Effect :=
| FaAddMonitorFile (path : string) (flt : filterRegex) (protect userAdded : bool) (params : loc)
| InoAddMonitorFile (path : string) (params : loc)
| FaAddMonitorDirFile (path : string) (flt : filterRegex) (protect userAdded : bool)
    (files : gmap string loc) (params : loc)
| InoAddMonitorDirFile (path : string) (params : loc)
| FaRemoveMonitorFile (path : string)
| InoRemoveMonitorFile (path : string)
| FaSetMode (rootPid : Z) (access perm capBlock bNeuvectorSvc : bool)
| FaStartMonitor (rootPid : Z)
| FaUpdateAccessRule (rootPid : Z) (conf : CLUSFileAccessRule)
| FaContainerCleanup (rootPid : Z)
| InoContainerCleanup (rootPid : Z)
| SendReport (msg : MonitorMessage)
| SendRule (rules : list CLUSFileAccessRuleReq).

(** The reports among a list of effects. *)
Definition reports (effs : list Effect) : list MonitorMessage :=
  omap (fun e => match e with SendReport m => Some m | _ => None end) effs.

(** ** What monitor.go takes from the rest of the program

    Package [regexp], the constants of package [share], two helpers of
    [global.SYS] and [osutil], and the callback [estRuleSrc] given at
    construction. [regexp_Compile] is [None] when the pattern does not
    compile. *)
Class Platform := {
  Regexp : Type;
  regexp_Compile : string -> option Regexp;
  MatchString : Regexp -> string -> bool;
  PolicyModeLearn : string;
  PolicyModeEvaluate : string;
  PolicyModeEnforce : string;
  PolicyActionViolate : string;
  PolicyActionDeny : string;
  FileAccessBehaviorBlock : string;
  ContainerFilePath : Z -> string -> string;
  ParseContainerFilePath : string -> Z * string;
  IsPackageLib : string -> bool;
  estRuleSrc : string -> string -> bool -> string;
  CLUSFileMonitorFile : Type;
}.

(** The host as one call observes it: the process table, the file system,
    the walker task and the drivers' answers to queries. [Lstat], [Stat],
    [Readlink] and [GetFileHash] are [None] when the call fails.
    [walk pid cid dirs] is the answer of the walker task to the request of
    [getRootFs], [None] when the semaphore, the task or the decoding of its
    answer fails. [NewFileWatcher] creates both drivers whenever the profile
    function is enabled, and the operations that test [bEnable] use no
    driver otherwise: the drivers are never nil where the model queries
    them. [SetNVProtectFlag] makes no such test. *)
Record Host `{Platform} := {
  IsPidValid : Z -> bool;
  Lstat : string -> option Z;
  Stat : string -> option Z;
  Readlink : string -> option string;
  GetFileHash : string -> option Hash;
  GetFileInfoExtFromPath : Z -> string -> filterRegex -> bool -> bool -> list FileInfoExt;
  walk : Z -> string -> list string -> option WalkPathResult;
  fa_GetWatchFileList : Z -> option (list CLUSFileMonitorFile);
  fa_GetWatches : option (list CLUSFileMonitorFile);
  fa_GetProbeData : FaMonProbeData;
  ino_GetProbeData : IMonProbeData;
}.

Section Fsmon.
Context `{Platform}.

(** [NewFileWatcher]: the state it builds. *)
Definition NewFileWatcher (ProfileEnable IsAufs NVProtect : bool) : FileWatch :=
  {| bEnable := ProfileEnable; aufs := IsAufs; bNVProtect := NVProtect;
     fileEvents := ∅; groups := ∅; finfos := ∅ |}.

Definition new_msg (cid path : string) (event : Z) (eventMsg : string) : MonitorMessage :=
  {| msg_ID := cid; msg_Path := path;
     msg_Package := IsPackageLib path;
     msg_ProcName := ""; msg_ProcPath := ""; msg_ProcCmds := None; msg_ProcPid := 0;
     msg_ProcEUid := 0; msg_ProcEUser := ""; msg_ProcPPid := 0; msg_ProcPName := "";
     msg_ProcPPath := "";
     msg_Group := estRuleSrc cid path (event =? fileEventDenied)%Z;
     msg_Msg := eventMsg; msg_Count := 0; msg_StartAt := 0;
     msg_Action := PolicyActionViolate |}.

Definition proc_msg (cid path : string) (event : Z) (eventMsg : string) (pi : ProcInfo) :
  MonitorMessage :=
  let msg := new_msg cid path event eventMsg in
  {| msg_ID := msg_ID msg; msg_Path := msg_Path msg; msg_Package := msg_Package msg;
     msg_ProcName := pi_Name pi; msg_ProcPath := pi_Path pi; msg_ProcCmds := pi_Cmds pi;
     msg_ProcPid := pi_Pid pi; msg_ProcEUid := pi_EUid pi; msg_ProcEUser := pi_EUser pi;
     msg_ProcPPid := pi_PPid pi; msg_ProcPName := pi_PName pi; msg_ProcPPath := pi_PPath pi;
     msg_Group := msg_Group msg;
     msg_Msg := if pi_Deny pi then default "" (fileEventMsg !! fileEventDenied) else msg_Msg msg;
     msg_Count := 0; msg_StartAt := 0;
     msg_Action := if pi_Deny pi then PolicyActionDeny else msg_Action msg |}.

(** The loop of [sendMsg]: one message per process record that differs
    (by [reflect.DeepEqual]) from the one before it. *)
Fixpoint sendMsg_procs (cid path : string) (event : Z) (eventMsg : string)
  (prev : option ProcInfo) (pInfo : list ProcInfo) : list Effect :=
  match pInfo with
  | [] => []
  | pi :: rest =>
      (if bool_decide (prev = Some pi) then []
       else [SendReport (proc_msg cid path event eventMsg pi)])
      ++ sendMsg_procs cid path event eventMsg (Some pi) rest
  end.

Definition sendMsg (cid path : string) (event : Z) (pInfo : list ProcInfo) (mode : string) :
  list Effect :=
  match fileEventMsg !! event with
  | None => []
  | Some eventMsg =>
      match pInfo with
      | [] => [SendReport (new_msg cid path event eventMsg)]
      | _ => sendMsg_procs cid path event eventMsg None pInfo
      end
  end.

(** The rules one group hands over: a request per filter key and learned
    process path. *)
Definition group_learned (grp : groupInfo) : list CLUSFileAccessRuleReq :=
  '(flt, rule) ← map_to_list (learnRules grp);
  (fun prf => {| req_GroupName := prf_Group (profile grp); req_Filter := flt; req_Path := prf |})
    <$> elements rule.

Definition reportLearningRules (w : FileWatch) : FileWatch * list Effect :=
  let learned :=
    '(_, grp) ← map_to_list (groups w);
    if (0 <? size (learnRules grp))%nat then group_learned grp else [] in
  let w' :=
    set_groups
      ((fun grp => if (0 <? size (learnRules grp))%nat then set_learnRules ∅ grp else grp)
         <$> groups w) w in
  (w', if (0 <? length learned)%nat then [SendRule learned] else []).

Definition filterIndexKey (filter : CLUSFileMonitorFilter) : string :=
  flt_Path filter +:+ "/" +:+ flt_Regex filter.

Definition filterPathMatch (path : string) (flt : CLUSFileMonitorFilter) : bool :=
  if String.eqb (flt_Regex flt) "" then String.eqb (flt_Path flt) path
  else
    let fstr := filepath.Dir path +:+ "/" +:+ flt_Regex flt in
    match regexp_Compile ("^" +:+ fstr +:+ "$") with
    | Some regx => MatchString regx path
    | None => false
    end.

(** The loop of [addLearnedRules] over the process records. *)
Definition learn_procs (applied learned : gset string) (pInfo : list ProcInfo) : gset string :=
  foldl (fun learned pf =>
           if negb (String.eqb (pi_Path pf) "") then
             if negb (bool_decide (pi_Path pf ∈ applied))
                && negb (bool_decide (pi_Path pf ∈ learned))
             then {[pi_Path pf]} ∪ learned
             else learned
           else learned)
        learned pInfo.

Definition addLearnedRules (grp : groupInfo) (flt : CLUSFileMonitorFilter)
  (pInfo : list ProcInfo) : groupInfo :=
  let index := filterIndexKey flt in
  match applyRules grp !! index with
  | Some applied =>
      let learned := learn_procs applied (default ∅ (learnRules grp !! index)) pInfo in
      if (0 <? size learned)%nat
      then set_learnRules (<[index := learned]> (learnRules grp)) grp
      else grp
  | None => grp
  end.

(** The two loops of [learnFromEvents] over [Filters] and [FiltersCRD]. *)
Definition learn_filters (path : string) (pInfo : list ProcInfo)
  (grp : groupInfo) (filters : list CLUSFileMonitorFilter) : groupInfo :=
  foldl (fun grp flt =>
           if flt_CustomerAdd flt && filterPathMatch path flt
           then addLearnedRules grp flt pInfo else grp)
        grp filters.

Definition isRunTimeAddedFile (path : string) : bool :=
  GoStrings.HasSuffix path "/root/etc/hosts"
  || GoStrings.HasSuffix path "/root/etc/hostname"
  || GoStrings.HasSuffix path "/root/etc/resolv.conf".

(** The path a report carries: the link target when the object has one,
    cut after the first "/root" when "/root/" occurs at a positive index. *)
Definition report_path (path link : string) : string :=
  if negb (String.eqb link "") then
    let index := GoStrings.Index link "/root/" in
    if (0 <? index)%Z then GoStrings.slice_from link (Z.to_nat (index + 5)) else link
  else path.

Definition learnFromEvents (w : FileWatch) (rootPid : Z) (fmod : fileMod) (path : string)
  (event : Z) (now : Z) : FileWatch * list Effect :=
  match groups w !! rootPid with
  | None => (w, [])
  | Some grp =>
      let mode := mode grp in
      let w' :=
        if String.eqb mode PolicyModeLearn && (0 <? length (fm_pInfo fmod))%nat then
          let grp' :=
            learn_filters path (fm_pInfo fmod)
              (learn_filters path (fm_pInfo fmod) grp (prf_Filters (profile grp)))
              (prf_FiltersCRD (profile grp)) in
          set_groups (<[rootPid := grp']> (groups w)) w
        else w in
      if isRunTimeAddedFile (filepath.Join2 "/root" path)
         && ((event =? fileEventAccessed)%Z || (now - startAt grp <? sixty_seconds)%Z)
      then (w', [])
      else if negb (event =? fileEventAccessed)%Z
              || (String.eqb mode PolicyModeEnforce || String.eqb mode PolicyModeEvaluate)
      then
        let finfo := finfos w !!! fm_finfo fmod in
        (w', sendMsg (fi_ContainerId finfo) (report_path path (fi_Link finfo)) event
               (fm_pInfo fmod) mode)
      else (w', [])
  end.

(** The sets [UpdateAccessRules] builds from the customer-added rules. *)
Definition apply_rules_of (conf : CLUSFileAccessRule) : gmap string (gset string) :=
  (fun rule => list_to_set (afr_Apps rule))
    <$> filter (fun kv => afr_CustomerAdd kv.2 = true) (ar_Filters conf).

Definition UpdateAccessRules (w : FileWatch) (name : string) (rootPid : Z)
  (conf : CLUSFileAccessRule) : FileWatch * list Effect :=
  if negb (bEnable w) then (w, [])
  else
    match groups w !! rootPid with
    | None => (w, [])
    | Some grp =>
        (set_groups (<[rootPid := set_applyRules (apply_rules_of conf) grp]> (groups w)) w,
         [FaUpdateAccessRule rootPid conf])
    end.

Definition removeFile (fullpath : string) : list Effect :=
  [FaRemoveMonitorFile fullpath; InoRemoveMonitorFile fullpath].

(** The merge of [cbNotify] into a pending event: the process record is
    appended unless one with its pid is there. *)
Definition merge_pInfo (pInfos : list ProcInfo) (pInfo : option ProcInfo) : list ProcInfo :=
  match pInfo with
  | Some p =>
      if existsb (fun q => (pi_Pid q =? pi_Pid p)%Z) pInfos then pInfos else pInfos ++ [p]
  | None => pInfos
  end.

Definition cbNotify (w : FileWatch) (filePath : string) (mask : Z) (params : loc)
  (pInfo : option ProcInfo) : FileWatch * list Effect :=
  if negb (Z.land mask syscall.IN_IGNORED =? 0)%Z || negb (Z.land mask syscall.IN_UNMOUNT =? 0)%Z
  then (w, removeFile filePath)
  else
    match fileEvents w !! filePath with
    | Some fm =>
        let fm' := {| fm_mask := Z.lor (fm_mask fm) mask; fm_delay := 0;
                      fm_finfo := fm_finfo fm;
                      fm_pInfo := merge_pInfo (fm_pInfo fm) pInfo |} in
        (set_fileEvents (<[filePath := fm']> (fileEvents w)) w, [])
    | None =>
        let fmod := {| fm_mask := mask; fm_delay := 0; fm_finfo := params;
                       fm_pInfo := merge_pInfo [] pInfo |} in
        (set_fileEvents (<[filePath := fmod]> (fileEvents w)) w, [])
    end.

Definition addFile (w : FileWatch) (bIncInotify : bool) (finfo : loc) : list Effect :=
  if negb (bEnable w) then []
  else
    let fi := finfos w !!! finfo in
    FaAddMonitorFile (fi_Path fi) (fi_Filter fi) (fi_Protect fi) (fi_UserAdded fi) finfo
    :: (if bIncInotify && negb (GoStrings.HasSuffix (fr_path (fi_Filter fi)) "/.*")
        then [InoAddMonitorFile (fi_Path fi) finfo] else []).

Definition addDir (w : FileWatch) (bIncInotify : bool) (finfo : loc)
  (files : gmap string loc) : list Effect :=
  if negb (bEnable w) then []
  else
    let fi := finfos w !!! finfo in
    FaAddMonitorDirFile (fi_Path fi) (fi_Filter fi) (fi_Protect fi) (fi_UserAdded fi) files finfo
    :: (if bIncInotify then [InoAddMonitorDirFile (fi_Path fi) finfo] else []).

(** Writes through the [finfo] pointer of a pending event. *)
Definition update_finfo (f : FileInfoExt -> FileInfoExt) (l : loc) (w : FileWatch) : FileWatch :=
  set_finfos (<[l := f (finfos w !!! l)]> (finfos w)) w.

(** A new object in the store. *)
Definition alloc_finfo (fi : FileInfoExt) (w : FileWatch) : loc * FileWatch :=
  let l := fresh (dom (finfos w)) in (l, set_finfos (<[l := fi]> (finfos w)) w).

(** The objects [GetFileInfoExtFromPath] returned, stamped with the container
    id and stored under one key: the map [dirFiles] of [handleDirEvents]. *)
Definition store_dirFiles (cid key : string) (files : list FileInfoExt) (w : FileWatch) :
  gmap string loc * FileWatch :=
  foldl (fun '(dirFiles, w) file =>
           let '(l, w') := alloc_finfo (set_fi_ContainerId cid file) w in
           (<[key := l]> dirFiles, w'))
        (∅, w) files.

Definition mask_has (mask bits : Z) : bool := (0 <? Z.land mask bits)%Z.

(** The block "add the new file to monitor" of [handleDirEvents]. *)
Definition add_new_dir (h : Host) (w : FileWatch) (finfo : loc) (fullPath path : string)
  (pid : Z) : FileWatch * list Effect :=
  let fi := finfos w !!! finfo in
  let '(dirFiles, w') :=
    store_dirFiles (fi_ContainerId fi) (filepath.Base path)
      (GetFileInfoExtFromPath h pid fullPath (fi_Filter fi) (fi_Protect fi) (fi_UserAdded fi))
      w in
  (w', addDir w' true finfo dirFiles).

(** The kind of a new symbolic link: [fileEventDirSymCreate] when the link
    can be read and its target is a directory. *)
Definition sym_create_event (h : Host) (fullPath : string) (pid : Z) : Z :=
  match Readlink h fullPath with
  | Some link_to =>
      let link_to :=
        if GoStrings.HasPrefix link_to "/"
        then filepath.Join2 ("/proc/" +:+ sprintf_d pid +:+ "/root") link_to
        else filepath.Join2 (filepath.Dir fullPath) link_to in
      match Stat h link_to with
      | Some tm => if os.IsDir tm then fileEventDirSymCreate else fileEventSymCreate
      | None => fileEventSymCreate
      end
  | None => fileEventSymCreate
  end.

(** [handleDirEvents]: the event kind, with the writes to the store and the
    driver calls made on the way. *)
Definition handleDirEvents (h : Host) (w : FileWatch) (fmod : fileMod) (info : option Z)
  (fullPath path : string) (pid : Z) : FileWatch * list Effect * Z :=
  let finfo := fm_finfo fmod in
  match info with
  | Some m =>
      let bIsDir := os.IsDir m in
      if mask_has (fm_mask fmod) (Z.lor syscall.IN_MOVED_TO syscall.IN_CREATE) then
        if mask_has (fm_mask fmod) syscall.IN_MOVED_TO then
          (add_new_dir h w finfo fullPath path pid,
           if bIsDir then fileEventDirMovedTo else fileEventMovedTo)
        else if bIsDir then
          let w1 := update_finfo (fun fi => set_fi_FileMode m (set_fi_Path fullPath fi)) finfo w in
          if negb (fr_recursive (fi_Filter (finfos w1 !!! finfo)))
          then (w1, [], fileEventDirCreate)
          else (add_new_dir h w1 finfo fullPath path pid, fileEventDirCreate)
        else if negb (Z.land m os.ModeSymlink =? 0)%Z then
          (add_new_dir h w finfo fullPath path pid, sym_create_event h fullPath pid)
        else (w, addFile w false finfo, fileEventCreate)
      else if mask_has (fm_mask fmod) syscall.IN_ATTRIB then
        (w, [], if bIsDir then fileEventDirAttr else fileEventAttr)
      else if mask_has (fm_mask fmod)
                (Z.lor (Z.lor syscall.IN_ACCESS syscall.IN_CLOSE_WRITE) syscall.IN_MODIFY) then
        if negb bIsDir then
          match GetFileHash h fullPath with
          | Some hash =>
              let old := fi_Hash (finfos w !!! finfo) in
              if negb (hash =? old)%N then
                (update_finfo (set_fi_Hash hash) finfo w, [],
                 if negb (HashZero old) then fileEventModified else fileEventAccessed)
              else (w, [], fileEventAccessed)
          | None =>
              (w, [], if mask_has (fm_mask fmod) syscall.IN_MODIFY
                      then fileEventModified else fileEventAccessed)
          end
        else (w, [], fileEventAccessed)
      else (w, [], 0%Z)
  | None =>
      if String.eqb fullPath (fi_Path (finfos w !!! finfo)) then (w, [], fileEventDirRemoved)
      else
        (w, removeFile fullPath,
         if mask_has (fm_mask fmod) inodeMovedMask then
           if mask_has (fm_mask fmod) syscall.IN_ISDIR
           then fileEventDirMovedFrom else fileEventMovedFrom
         else fileEventRemoved)
  end.

(** The event kind [handleFileEvents] falls back on when it has no hash
    to compare with. *)
Definition modified_by_mask (mask : Z) : Z :=
  if mask_has mask (Z.lor syscall.IN_CLOSE_WRITE syscall.IN_MODIFY)
  then fileEventModified else fileEventAccessed.

(** [handleFileEvents] *)
Definition handleFileEvents (h : Host) (w : FileWatch) (fmod : fileMod) (info : option Z)
  (fullPath : string) (pid : Z) : FileWatch * list Effect * Z :=
  let finfo := fm_finfo fmod in
  match info with
  | Some m =>
      if mask_has (fm_mask fmod) inodeMovedMask then
        (w, addFile w true finfo, fileEventMovedTo)
      else if mask_has (fm_mask fmod) syscall.IN_ATTRIB then
        (update_finfo (set_fi_FileMode m) finfo w, [], fileEventAttr)
      else if mask_has (fm_mask fmod)
                (Z.lor (Z.lor syscall.IN_ACCESS syscall.IN_CLOSE_WRITE) syscall.IN_MODIFY) then
        match GetFileHash h fullPath with
        | Some hash =>
            let old := fi_Hash (finfos w !!! finfo) in
            if negb (hash =? old)%N then
              if negb (HashZero old)
              then (update_finfo (set_fi_Hash hash) finfo w, [], fileEventModified)
              else (update_finfo (set_fi_Hash hash) finfo w, [],
                    modified_by_mask (fm_mask fmod))
            else (w, [], fileEventAccessed)
        | None => (w, [], modified_by_mask (fm_mask fmod))
        end
      else (w, [], 0%Z)
  | None =>
      if mask_has (fm_mask fmod) inodeMovedMask then (w, [], fileEventMovedFrom)
      else (w, removeFile fullPath, fileEventRemoved)
  end.

(** The body of the loop of [HandleWatchedFiles] for one pending event. *)
Definition handleEvent (h : Host) (now : Z) (w : FileWatch) (fullPath : string)
  (fmod : fileMod) : FileWatch * list Effect :=
  let '(pid, path) := ParseContainerFilePath fullPath in
  if IsPidValid h pid then
    let info := Lstat h fullPath in
    let '(w1, effs, event) :=
      if os.IsDir (fi_FileMode (finfos w !!! fm_finfo fmod))
         || match info with Some m => os.IsDir m | None => false end
      then handleDirEvents h w fmod info fullPath path pid
      else handleFileEvents h w fmod info fullPath pid in
    if negb (event =? 0)%Z then
      let '(w2, effs') := learnFromEvents w1 pid fmod path event now in
      (w2, effs ++ effs')
    else (w1, effs)
  else (w, []).

(** [HandleWatchedFiles] over the pending events taken in the order [events]
    (Go leaves the order of a map's keys open). *)
Definition handleEvents (h : Host) (now : Z) (w : FileWatch)
  (events : list (string * fileMod)) : FileWatch * list Effect :=
  foldl (fun '(w, effs) '(fullPath, fmod) =>
           let '(w', effs') := handleEvent h now w fullPath fmod in (w', effs ++ effs'))
        (w, []) events.

Definition HandleWatchedFiles (h : Host) (now : Z) (w : FileWatch) : FileWatch * list Effect :=
  handleEvents h now (set_fileEvents ∅ w) (map_to_list (fileEvents w)).

(** *** Enumerating the targets of a profile *)

Definition getBaseDirPrefix (filter : CLUSFileMonitorFilter) : string :=
  let dir := GoStrings.unescape_dots (flt_Path filter) in
  let index := GoStrings.Index dir ".*" in
  let dir := if (0 <? index)%Z then substring 0 (Z.to_nat (index - 1)) dir else dir in
  if String.eqb (flt_Regex filter) "" then filepath.Dir dir else dir.

(** [getRootFs]: the walker is asked for the base prefixes of all filters
    (a set, listed in some order). *)
Definition getRootFs (h : Host) (pid : Z) (cid : string) (profile : CLUSFileMonitorProfile) :
  option WalkPathResult :=
  let dirSet : gset string :=
    list_to_set (getBaseDirPrefix <$> (prf_Filters profile ++ prf_FiltersCRD profile)) in
  walk h pid cid (elements dirSet).

(** The object [getDirFileList] builds for a directory or a file. *)
Definition new_finfo (mode : Z) (fpath : string) (filter : CLUSFileMonitorFilter) : FileInfoExt :=
  {| fi_ContainerId := ""; fi_FileMode := mode; fi_Path := fpath; fi_Link := "";
     fi_Hash := 0%N;
     fi_Filter := {| fr_path := filterIndexKey filter; fr_recursive := flt_Recursive filter |};
     fi_Protect := String.eqb (flt_Behavior filter) FileAccessBehaviorBlock;
     fi_UserAdded := flt_CustomerAdd filter;
     fi_Children := [] |}.

(** Whether the second loop of [getDirFileList] passes over a file. *)
Definition skips_file (filter : CLUSFileMonitorFilter) (base file : string) : bool :=
  if negb (String.eqb file base) then
    negb (GoStrings.HasPrefix file (base +:+ "/"))
    || match regexp_Compile ("^" +:+ (filepath.Dir file +:+ "/" +:+ flt_Regex filter) +:+ "$") with
       | Some rgx => negb (MatchString rgx file)
       | None => false
       end
    || (negb (flt_Recursive filter) && negb (String.eqb (filepath.Dir file) base))
  else false.

(** [getDirFileList]: the directory objects by host path, and the files
    that have no directory object of this filter above them. *)
Definition getDirFileList (w : FileWatch) (pid : Z) (res : WalkPathResult)
  (filter : CLUSFileMonitorFilter) : FileWatch * gmap string loc * list loc :=
  let base := GoStrings.unescape_dots (flt_Path filter) in
  let '(w1, dirList) :=
    foldl (fun '(w, dirList) d =>
             if negb (String.eqb (dd_Dir d) base)
                && negb (GoStrings.HasPrefix (dd_Dir d) (base +:+ "/"))
             then (w, dirList)
             else if negb (flt_Recursive filter)
                     && (String.length base <? String.length (dd_Dir d))%nat
             then (w, dirList)
             else
               let fpath := ContainerFilePath pid (dd_Dir d) in
               let '(l, w') := alloc_finfo (new_finfo (dd_Mode d) fpath filter) w in
               (w', <[fpath := l]> dirList))
          (w, ∅) (wr_Dirs res) in
  let '(w2, singleFiles) :=
    foldl (fun '(w, singleFiles) f =>
             if skips_file filter base (fd_File f) then (w, singleFiles)
             else
               let fpath := ContainerFilePath pid (fd_File f) in
               let '(l, w') := alloc_finfo (new_finfo (fd_Mode f) fpath filter) w in
               match dirList !! filepath.Dir fpath with
               | Some di =>
                   (update_finfo (fun fi => set_fi_Children (fi_Children fi ++ [l]) fi) di w',
                    singleFiles)
               | None => (w', singleFiles ++ [l])
               end)
          (w1, []) (wr_Files res) in
  (w2, dirList, singleFiles).

(** [getDirAndFileList]: the directories of one filter are merged into
    those of the filters before it. *)
Definition getDirAndFileList (w : FileWatch) (pid : Z) (res : WalkPathResult)
  (filter : CLUSFileMonitorFilter) (dirList : gmap string loc) :
  FileWatch * gmap string loc * list loc :=
  let '(w1, dirs, singles) := getDirFileList w pid res filter in
  let '(w2, dirList') :=
    foldl (fun '(w, dirList) '(_, di) =>
             let dobj := finfos w !!! di in
             match dirList !! fi_Path dobj with
             | Some diExist =>
                 (update_finfo
                    (fun fi => set_fi_Children (fi_Children fi ++ fi_Children dobj) fi)
                    diExist w,
                  dirList)
             | None => (w, <[fi_Path dobj := di]> dirList)
             end)
          (w1, dirList) (map_to_list dirs) in
  (w2, dirList', singles).

Definition getCoreFile (h : Host) (w : FileWatch) (cid : string) (pid : Z)
  (profile : CLUSFileMonitorProfile) : FileWatch * gmap string loc * list loc :=
  match getRootFs h pid cid profile with
  | Some res =>
      foldl (fun '(w, dirList, singleFiles) filter =>
               let '(w', dirList', singles) := getDirAndFileList w pid res filter dirList in
               (w', dirList', singleFiles ++ singles))
            (w, ∅, []) (prf_Filters profile ++ prf_FiltersCRD profile)
  | None => (w, ∅, [])
  end.

(** The map [files] that [addCoreFile] hands over with a directory: its
    children by base name, each stamped with the container id. *)
Definition stamp_children (cid : string) (children : list loc) (w : FileWatch) :
  FileWatch * gmap string loc :=
  foldl (fun '(w, files) file =>
           let w' := update_finfo (set_fi_ContainerId cid) file w in
           (w', <[filepath.Base (fi_Path (finfos w' !!! file)) := file]> files))
        (w, ∅) children.

Definition addCoreFile (w : FileWatch) (bIncINotify : bool) (cid : string)
  (dirList : gmap string loc) (singleFiles : list loc) : FileWatch * list Effect :=
  let '(w1, effs1) :=
    foldl (fun '(w, effs) finfo =>
             let fi := finfos w !!! finfo in
             match dirList !! filepath.Dir (fi_Path fi) with
             | Some di =>
                 if negb (isRunTimeAddedFile (fi_Path fi)) then
                   let w1 := update_finfo (set_fi_Filter (fi_Filter (finfos w !!! di))) finfo w in
                   (update_finfo (fun d => set_fi_Children (fi_Children d ++ [finfo]) d) di w1,
                    effs)
                 else
                   let w1 := update_finfo (set_fi_ContainerId cid) finfo w in
                   (w1, effs ++ addFile w1 bIncINotify finfo)
             | None =>
                 let w1 := update_finfo (set_fi_ContainerId cid) finfo w in
                 (w1, effs ++ addFile w1 bIncINotify finfo)
             end)
          (w, []) singleFiles in
  foldl (fun '(w, effs) '(_, dir) =>
           let '(w1, files) := stamp_children cid (fi_Children (finfos w !!! dir)) w in
           let w2 := update_finfo (set_fi_ContainerId cid) dir w1 in
           (w2, effs ++ addDir w2 bIncINotify dir files))
        (w1, effs1) (map_to_list dirList).

(** The flags [StartWatch] hands to [SetMode], from the effective mode. *)
Definition watch_flags (w : FileWatch) (mode : string) (rootPid : Z)
  (capBlock bNeuvectorSvc : bool) : bool * bool :=
  if String.eqb mode PolicyModeEnforce && negb (aufs w) && capBlock then (false, true)
  else if (rootPid =? 1)%Z || bNeuvectorSvc then (false, false)
  else if String.eqb mode PolicyModeLearn then (true, false)
  else (false, false).

Definition StartWatch (h : Host) (now : Z) (w : FileWatch) (id : string) (rootPid : Z)
  (conf : FsmonConfig) (capBlock bNeuvectorSvc : bool) : FileWatch * list Effect :=
  if negb (bEnable w) then (w, [])
  else if negb (IsPidValid h rootPid) then (w, [])
  else
    let prf :=
      if String.eqb (prf_Mode (cfg_Profile conf)) ""
      then set_prf_Mode PolicyModeLearn (cfg_Profile conf) else cfg_Profile conf in
    let '(access, perm) := watch_flags w (prf_Mode prf) rootPid capBlock bNeuvectorSvc in
    let '(w0, dirs, files) := getCoreFile h w id rootPid prf in
    let '(w0, calls) := addCoreFile w0 (negb bNeuvectorSvc) id dirs files in
    let effs :=
      FaSetMode rootPid access perm capBlock bNeuvectorSvc :: calls ++ [FaStartMonitor rootPid] in
    let grp :=
      match groups w0 !! rootPid with
      | Some grp => grp
      | None => {| bNeuvector := bNeuvectorSvc; profile := prf; mode := "";
                   applyRules := ∅; learnRules := ∅; startAt := now |}
      end in
    let w1 :=
      set_groups (<[rootPid := set_profile_mode prf (prf_Mode prf) grp]> (groups w0)) w0 in
    if bNeuvectorSvc || (rootPid =? 1)%Z then (w1, effs)
    else
      match cfg_Rule conf with
      | Some rule =>
          let '(w2, effs') := UpdateAccessRules w1 (prf_Group prf) rootPid rule in
          (w2, effs ++ effs')
      | None => (w1, effs)
      end.

Definition ContainerCleanup (w : FileWatch) (rootPid : Z) (bLeave : bool) :
  FileWatch * list Effect :=
  if negb (bEnable w) then (w, [])
  else
    let events :=
      filter (fun kv => (ParseContainerFilePath kv.1).1 ≠ rootPid) (fileEvents w) in
    let grps :=
      match groups w !! rootPid with
      | Some grp =>
          if bLeave then delete rootPid (groups w)
          else <[rootPid := set_applyRules ∅ (set_learnRules ∅ grp)]> (groups w)
      | None => groups w
      end in
    (set_groups grps (set_fileEvents events w),
     [FaContainerCleanup rootPid; InoContainerCleanup rootPid]).

Definition GetWatchFileList (h : Host) (w : FileWatch) (rootPid : Z) :
  option (list CLUSFileMonitorFile) :=
  if negb (bEnable w) then None else fa_GetWatchFileList h rootPid.

Definition GetAllFileMonitorFile (h : Host) (w : FileWatch) : option (list CLUSFileMonitorFile) :=
  if negb (bEnable w) then None else fa_GetWatches h.

Definition GetProbeData (h : Host) (w : FileWatch) : option FmonProbeData :=
  if negb (bEnable w) then None
  else Some {| NFileEvents := Z.of_nat (size (fileEvents w));
               NGroups := Z.of_nat (size (groups w));
               Fan := fa_GetProbeData h; Ino := ino_GetProbeData h |}.

(** What a call that may dereference a nil pointer leaves behind: it
    returns, with the state it leaves and the flag it wrote to the fanotify
    driver, or it panics, with the state at that moment. *)
Inductive Outcome :=
| Returns (w : FileWatch) (fa_bNVProtect : bool)
| Panics (w : FileWatch).

(** [SetNVProtectFlag]: the flag of the watcher is written, then that of the
    fanotify driver, with no test of [bEnable]. [NewFileWatcher] sets
    [w.fanotifier] only on an enabled watcher; on a disabled one it is nil
    and the second assignment panics. *)
Definition SetNVProtectFlag (w : FileWatch) (bEnabled : bool) : Outcome :=
  let w' := set_bNVProtect bEnabled w in
  if bEnable w then Returns w' bEnabled else Panics w'.

(** ** The watcher as a state machine

    The operations that change a [FileWatch]: the three public ones, the
    drivers' callback and the two tickers of [loop]. *)
Inductive Op :=
| OpStartWatch (h : Host) (now : Z) (id : string) (rootPid : Z) (conf : FsmonConfig)
    (capBlock bNeuvectorSvc : bool)
| OpUpdateAccessRules (name : string) (rootPid : Z) (conf : CLUSFileAccessRule)
| OpContainerCleanup (rootPid : Z) (bLeave : bool)
| OpCbNotify (filePath : string) (mask : Z) (params : loc) (pInfo : option ProcInfo)
| OpHandleWatchedFiles (h : Host) (now : Z)
| OpReportLearningRules.

Definition run_op (op : Op) (w : FileWatch) : FileWatch * list Effect :=
  match op with
  | OpStartWatch h now id rootPid conf capBlock bNeuvectorSvc =>
      StartWatch h now w id rootPid conf capBlock bNeuvectorSvc
  | OpUpdateAccessRules name rootPid conf => UpdateAccessRules w name rootPid conf
  | OpContainerCleanup rootPid bLeave => ContainerCleanup w rootPid bLeave
  | OpCbNotify filePath mask params pInfo => cbNotify w filePath mask params pInfo
  | OpHandleWatchedFiles h now => HandleWatchedFiles h now w
  | OpReportLearningRules => reportLearningRules w
  end.

(** [NewFileWatcher] opens the drivers and starts [loop] only when the
    profile function is enabled: callbacks and ticks need [bEnable]. *)
Definition op_allowed (w : FileWatch) (op : Op) : Prop :=
  match op with
  | OpCbNotify _ _ _ _ | OpHandleWatchedFiles _ _ | OpReportLearningRules => bEnable w = true
  | _ => True
  end.

Inductive reachable : FileWatch -> Prop :=
| reachable_new ProfileEnable IsAufs NVProtect :
    reachable (NewFileWatcher ProfileEnable IsAufs NVProtect)
| reachable_step w op :
    reachable w -> op_allowed w op -> reachable (run_op op w).1.

(** Runs a list of operations, first one first. *)
Definition run_ops (ops : list Op) (w : FileWatch) : FileWatch :=
  foldl (fun w op => (run_op op w).1) w ops.

(** The invariant the spec states for the learning engine. *)
Definition grp_disjoint (g : groupInfo) : Prop :=
  forall f l a, learnRules g !! f = Some l -> applyRules g !! f = Some a -> l ## a.

Definition rules_disjoint (w : FileWatch) : Prop :=
  forall pid g, groups w !! pid = Some g -> grp_disjoint g.

(** A rule update that installs no process path the group still holds as
    learned, filter by filter. *)
Definition fresh_rules (w : FileWatch) (rootPid : Z) (conf : CLUSFileAccessRule) : Prop :=
  forall g f l r app,
    groups w !! rootPid = Some g -> learnRules g !! f = Some l ->
    ar_Filters conf !! f = Some r -> afr_CustomerAdd r = true ->
    app ∈ afr_Apps r -> app ∉ l.

Definition op_keeps_learned (w : FileWatch) (op : Op) : Prop :=
  match op with
  | OpUpdateAccessRules _ rootPid conf => fresh_rules w rootPid conf
  | OpStartWatch _ _ _ rootPid conf _ _ =>
      match cfg_Rule conf with
      | Some rule => fresh_rules w rootPid rule
      | None => True
      end
  | _ => True
  end.

(** The same along a run: each operation is judged in the state it meets. *)
Fixpoint ops_keep_learned (w : FileWatch) (ops : list Op) : Prop :=
  match ops with
  | [] => True
  | op :: rest => op_keeps_learned w op /\ ops_keep_learned (run_op op w).1 rest
  end.

Fixpoint ops_allowed (w : FileWatch) (ops : list Op) : Prop :=
  match ops with
  | [] => True
  | op :: rest => op_allowed w op /\ ops_allowed (run_op op w).1 rest
  end.

(** The match predicate as the spec words it: the anchored expression is
    built from the directory of the filter's path. *)
Definition spec_filterPathMatch (p : string) (f : CLUSFileMonitorFilter) : bool :=
  if String.eqb (flt_Regex f) "" then String.eqb p (flt_Path f)
  else
    match regexp_Compile ("^" +:+ (filepath.Dir (flt_Path f) +:+ "/" +:+ flt_Regex f) +:+ "$") with
    | Some regx => MatchString regx p
    | None => false
    end.

(** [i] is the first index at which [sub] occurs in [s]. *)
Definition first_index (s sub : string) (i : nat) : Prop :=
  substring i (String.length sub) s = sub
  /\ forall j, (j < i)%nat -> substring j (String.length sub) s <> sub.

(** *** The alert of the process guard *)

Definition fsNvProtectProcAlert : string := "NV.Protect: Process alert".

(** [SendNVProcessAlert]: the report is sent when the group is known. *)
Definition SendNVProcessAlert (w : FileWatch) (rootPid ppid : Z) (cid path ppath : string) :
  list Effect :=
  match groups w !! rootPid with
  | None => []
  | Some grp =>
      [SendReport
         {| msg_ID := cid; msg_Path := path; msg_Package := false;
            msg_ProcName := ""; msg_ProcPath := path; msg_ProcCmds := None;
            msg_ProcPid := ppid; msg_ProcEUid := 0; msg_ProcEUser := "";
            msg_ProcPPid := ppid; msg_ProcPName := ""; msg_ProcPPath := ppath;
            msg_Group := prf_Group (profile grp);
            msg_Msg := fsNvProtectProcAlert; msg_Count := 0; msg_StartAt := 0;
            msg_Action := PolicyActionDeny |}]
  end.

(** *** Notions used to state further properties *)

(** A burst of driver callbacks for one path, first one first. *)
Definition cbNotify_all (w : FileWatch) (filePath : string)
  (events : list (Z * loc * option ProcInfo)) : FileWatch :=
  foldl (fun w '(mask, params, pInfo) => (cbNotify w filePath mask params pInfo).1) w events.

(** A mask [cbNotify] records: neither [IN_IGNORED] nor [IN_UNMOUNT]. *)
Definition recorded_mask (mask : Z) : Prop :=
  Z.land mask syscall.IN_IGNORED = 0%Z /\ Z.land mask syscall.IN_UNMOUNT = 0%Z.

(** Whether a string holds a '/'. *)
Fixpoint has_slash (s : string) : bool :=
  match s with
  | EmptyString => false
  | String c rest => Ascii.eqb c "/" || has_slash rest
  end.

Definition is_rule_update (e : Effect) : bool :=
  match e with
  | FaUpdateAccessRule _ _ => true
  | _ => false
  end.

(** The profile [StartWatch] works with: [Learn] stands in for an empty
    mode. *)
Definition effective_profile (conf : FsmonConfig) : CLUSFileMonitorProfile :=
  if String.eqb (prf_Mode (cfg_Profile conf)) ""
  then set_prf_Mode PolicyModeLearn (cfg_Profile conf) else cfg_Profile conf.

(** *** Notions used to state further properties of the operations *)

(** No two process records of a pending event share a pid. *)
Definition pids_distinct (w : FileWatch) : Prop :=
  forall path fm, fileEvents w !! path = Some fm -> NoDup (pi_Pid <$> fm_pInfo fm).

(** Whether a driver call arms a target. *)
Definition is_add_call (e : Effect) : bool :=
  match e with
  | FaAddMonitorFile _ _ _ _ _ | InoAddMonitorFile _ _
  | FaAddMonitorDirFile _ _ _ _ _ _ | InoAddMonitorDirFile _ _ => true
  | _ => false
  end.

(** The group [StartWatch] registers for a container it does not know. *)
Definition new_group (bNeuvectorSvc : bool) (prf : CLUSFileMonitorProfile) (now : Z) :
  groupInfo :=
  {| bNeuvector := bNeuvectorSvc; profile := prf; mode := "";
     applyRules := ∅; learnRules := ∅; startAt := now |}.

(** The two loops of [getDirFileList], one step each. *)
Definition dir_step (pid : Z) (filter : CLUSFileMonitorFilter) (base : string) :
  FileWatch * gmap string loc -> DirData -> FileWatch * gmap string loc :=
  fun '(w, dirList) d =>
    if negb (String.eqb (dd_Dir d) base)
       && negb (GoStrings.HasPrefix (dd_Dir d) (base +:+ "/"))
    then (w, dirList)
    else if negb (flt_Recursive filter)
            && (String.length base <? String.length (dd_Dir d))%nat
    then (w, dirList)
    else
      let fpath := ContainerFilePath pid (dd_Dir d) in
      let '(l, w') := alloc_finfo (new_finfo (dd_Mode d) fpath filter) w in
      (w', <[fpath := l]> dirList).

Definition file_step (pid : Z) (filter : CLUSFileMonitorFilter) (base : string)
  (dirList : gmap string loc) : FileWatch * list loc -> FileData -> FileWatch * list loc :=
  fun '(w, singleFiles) f =>
    if skips_file filter base (fd_File f) then (w, singleFiles)
    else
      let fpath := ContainerFilePath pid (fd_File f) in
      let '(l, w') := alloc_finfo (new_finfo (fd_Mode f) fpath filter) w in
      match dirList !! filepath.Dir fpath with
      | Some di =>
          (update_finfo (fun fi => set_fi_Children (fi_Children fi ++ [l]) fi) di w',
           singleFiles)
      | None => (w', singleFiles ++ [l])
      end.

(** [fi] is the object [getDirFileList] builds for [fpath], up to its
    children. *)
Definition built_for (filter : CLUSFileMonitorFilter) (fpath : string) (mode : Z)
  (fi : FileInfoExt) : Prop :=
  set_fi_Children [] fi = new_finfo mode fpath filter.

(** The directories [getDirFileList] takes for a filter: its base, and
    what lies below it when the filter is recursive. *)
Definition takes_dir (filter : CLUSFileMonitorFilter) (dir : string) : Prop :=
  let base := GoStrings.unescape_dots (flt_Path filter) in
  dir = base \/ (flt_Recursive filter = true /\ GoStrings.HasPrefix dir (base +:+ "/") = true).

(** The loop of [getDirAndFileList], one step. *)
Definition merge_step : FileWatch * gmap string loc -> string * loc ->
  FileWatch * gmap string loc :=
  fun '(w, dirList) '(_, di) =>
    let dobj := finfos w !!! di in
    match dirList !! fi_Path dobj with
    | Some diExist =>
        (update_finfo (fun fi => set_fi_Children (fi_Children fi ++ fi_Children dobj) fi)
           diExist w,
         dirList)
    | None => (w, <[fi_Path dobj := di]> dirList)
    end.

(** The two loops of [addCoreFile], one step each. *)
Definition single_step (bIncINotify : bool) (cid : string) (dirList : gmap string loc) :
  FileWatch * list Effect -> loc -> FileWatch * list Effect :=
  fun '(w, effs) finfo =>
    let fi := finfos w !!! finfo in
    match dirList !! filepath.Dir (fi_Path fi) with
    | Some di =>
        if negb (isRunTimeAddedFile (fi_Path fi)) then
          let w1 := update_finfo (set_fi_Filter (fi_Filter (finfos w !!! di))) finfo w in
          (update_finfo (fun d => set_fi_Children (fi_Children d ++ [finfo]) d) di w1, effs)
        else
          let w1 := update_finfo (set_fi_ContainerId cid) finfo w in
          (w1, effs ++ addFile w1 bIncINotify finfo)
    | None =>
        let w1 := update_finfo (set_fi_ContainerId cid) finfo w in
        (w1, effs ++ addFile w1 bIncINotify finfo)
    end.

Definition dir_arm_step (bIncINotify : bool) (cid : string) :
  FileWatch * list Effect -> string * loc -> FileWatch * list Effect :=
  fun '(w, effs) '(_, dir) =>
    let '(w1, files) := stamp_children cid (fi_Children (finfos w !!! dir)) w in
    let w2 := update_finfo (set_fi_ContainerId cid) dir w1 in
    (w2, effs ++ addDir w2 bIncINotify dir files).

(** The objects a driver call arms. *)
Definition call_objects (e : Effect) : list loc :=
  match e with
  | FaAddMonitorFile _ _ _ _ finfo | InoAddMonitorFile _ finfo
  | InoAddMonitorDirFile _ finfo => [finfo]
  | FaAddMonitorDirFile _ _ _ _ files finfo => finfo :: (map_to_list files).*2
  | _ => []
  end.

(** Whether a driver call goes to inotify. *)
Definition is_ino_call (e : Effect) : bool :=
  match e with
  | InoAddMonitorFile _ _ | InoAddMonitorDirFile _ _ | InoRemoveMonitorFile _
  | InoContainerCleanup _ => true
  | _ => false
  end.

(** [w'] has the paths of the objects of [w], and every object that
    carries the container id [cid] in [w] carries it in [w']. *)
Definition keeps_stamps (cid : string) (w w' : FileWatch) : Prop :=
  bEnable w' = bEnable w
  /\ forall l, fi_Path (finfos w' !!! l) = fi_Path (finfos w !!! l)
               /\ (fi_ContainerId (finfos w !!! l) = cid ->
                   fi_ContainerId (finfos w' !!! l) = cid).


(** The invariant of the two loops: every object of a call made so far
    carries the container id. *)
Definition calls_stamped (cid : string) (w : FileWatch) (effs : list Effect) : Prop :=
  forall e l, e ∈ effs -> l ∈ call_objects e -> fi_ContainerId (finfos w !!! l) = cid.

(** Every group of [w] satisfies [P]. *)
Definition groups_all (P : groupInfo -> Prop) (w : FileWatch) : Prop :=
  forall pid g, groups w !! pid = Some g -> P g.

(** The mode of a group is that of its profile, and not empty. *)
Definition mode_set (g : groupInfo) : Prop :=
  mode g = prf_Mode (profile g) /\ mode g <> "".

(** No learned set of a group is empty or holds the empty path. *)
Definition learned_proper (g : groupInfo) : Prop :=
  forall k l, learnRules g !! k = Some l -> l <> ∅ /\ "" ∉ l.

(** ** Relations between states, used to state what an operation leaves alone *)

(** [w'] is [w] up to the store of [FileInfoExt] objects. *)
Definition only_finfos (w w' : FileWatch) : Prop :=
  bEnable w' = bEnable w /\ aufs w' = aufs w /\ bNVProtect w' = bNVProtect w
  /\ fileEvents w' = fileEvents w /\ groups w' = groups w.

(** [g'] is [g] up to its learned rules. *)
Definition same_fields (g g' : groupInfo) : Prop :=
  bNeuvector g' = bNeuvector g /\ profile g' = profile g /\ mode g' = mode g
  /\ applyRules g' = applyRules g /\ startAt g' = startAt g.

(** The group a call of [learnFromEvents] leaves under [rootPid]. *)
Definition learned_group (g : groupInfo) (fmod : fileMod) (path : string) : groupInfo :=
  if String.eqb (mode g) PolicyModeLearn && (0 <? length (fm_pInfo fmod))%nat then
    learn_filters path (fm_pInfo fmod)
      (learn_filters path (fm_pInfo fmod) g (prf_Filters (profile g)))
      (prf_FiltersCRD (profile g))
  else g.

(** [w'] has the groups of [w], each up to its learned rules, and is [w]
    in its flags and pending events. *)
Definition only_learned (w w' : FileWatch) : Prop :=
  bEnable w' = bEnable w /\ aufs w' = aufs w
  /\ fileEvents w' = fileEvents w
  /\ forall pid, option_Forall2 same_fields (groups w !! pid) (groups w' !! pid).

(** [w'] holds at [l] the object [w] holds there up to the fields the
    classifiers write: its container id and its link are those of [w], and
    the object is the same when [same] holds. *)
Definition object_kept (same : Prop) (l : loc) (w w' : FileWatch) : Prop :=
  forall x, finfos w !! l = Some x ->
    exists x', finfos w' !! l = Some x'
      /\ fi_ContainerId x' = fi_ContainerId x /\ fi_Link x' = fi_Link x
      /\ (same -> x' = x).

(** The learned process paths of a group under a filter key; a key that is
    not in the map holds none. *)
Definition learned_at (g : groupInfo) (k : string) : gset string :=
  default ∅ (learnRules g !! k).

(** A filter that [learnFromEvents] learns from. *)
Definition learns_from (path : string) (flt : CLUSFileMonitorFilter) : Prop :=
  flt_CustomerAdd flt = true /\ filterPathMatch path flt = true.

End Fsmon.

(** ** A concrete platform, to run the model on examples *)

(** A fragment of Go's regular expressions (RE2 syntax), enough for patterns
    such as ["^/lib/libc\..*$"]: a pattern is ["^"], then literal bytes,
    backslash-escaped punctuation, ["."] (any byte but a newline), each
    optionally followed by ["*"], then ["$"]. Matching is by Brzozowski
    derivatives. Patterns outside the fragment are not modelled:
    [compile] answers [None] for them. *)
Module Re.

Inductive re :=
| Nul
| Eps
| Chr (c : ascii)
| Dot
| Cat (r s : re)
| Star (r : re).

Fixpoint nullable (r : re) : bool :=
  match r with
  | Nul | Chr _ | Dot => false
  | Eps | Star _ => true
  | Cat r s => nullable r && nullable s
  end.

Fixpoint alt_free_deriv (a : ascii) (r : re) : list re :=
  match r with
  | Nul | Eps => []
  | Chr c => if Ascii.eqb a c then [Eps] else []
  | Dot => if Ascii.eqb a "010" then [] else [Eps]
  | Cat r s =>
      ((fun r' => Cat r' s) <$> alt_free_deriv a r)
      ++ (if nullable r then alt_free_deriv a s else [])
  | Star r => (fun r' => Cat r' (Star r)) <$> alt_free_deriv a r
  end.

(** The expressions a set of alternatives can become after the text [s]:
    the text matches when one of them accepts the empty text. *)
Fixpoint matches_any (rs : list re) (s : string) : bool :=
  match s with
  | EmptyString => existsb nullable rs
  | String a s' => matches_any (rs ≫= alt_free_deriv a) s'
  end.

Definition matches (r : re) (s : string) : bool := matches_any [r] s.

Inductive token := TChr (c : ascii) | TDot | TStar | TEnd.

Definition is_meta (c : ascii) : bool :=
  existsb (Ascii.eqb c) (list_ascii_of_string "\.+*?()|[]{}^$").

Fixpoint tokens (s : string) : option (list token) :=
  match s with
  | EmptyString => Some []
  | String c rest =>
      if Ascii.eqb c "\" then
        match rest with
        | String d rest' => if is_meta d then cons (TChr d) <$> tokens rest' else None
        | EmptyString => None
        end
      else if Ascii.eqb c "." then cons TDot <$> tokens rest
      else if Ascii.eqb c "*" then cons TStar <$> tokens rest
      else if Ascii.eqb c "$" then
        match rest with EmptyString => Some [TEnd] | _ => None end
      else if is_meta c then None
      else cons (TChr c) <$> tokens rest
  end.

Definition atom_of (t : token) : option re :=
  match t with
  | TChr c => Some (Chr c)
  | TDot => Some Dot
  | TStar | TEnd => None
  end.

Fixpoint build (ts : list token) : option re :=
  match ts with
  | [] => None
  | TEnd :: rest => match rest with [] => Some Eps | _ => None end
  | t :: rest =>
      a ← atom_of t;
      match rest with
      | TStar :: rest' => Cat (Star a) <$> build rest'
      | _ => Cat a <$> build rest
      end
  end.

Definition compile (pattern : string) : option re :=
  match pattern with
  | String c body => if Ascii.eqb c "^" then tokens body ≫= build else None
  | EmptyString => None
  end.

End Re.

(** Modelled from the spec: [global.SYS.ParseContainerFilePath], which is not
    part of monitor.go. "Paths are always addressed as
    /proc/<pid>/root/<container-path>": the root pid and the path in the
    container of such a path, and [(0, "")] for any other string. *)
Definition parse_proc_path (s : string) : Z * string :=
  if GoStrings.HasPrefix s "/proc/" then
    let rest := GoStrings.slice_from s 6 in
    match String.index 0 "/" rest with
    | Some i =>
        let tail := GoStrings.slice_from rest i in
        match NilZero.uint_of_string (substring 0 i rest) with
        | Some pid =>
            if GoStrings.HasPrefix tail "/root/" then (Z.of_uint pid, GoStrings.slice_from tail 5)
            else (0%Z, "")
        | None => (0%Z, "")
        end
    | None => (0%Z, "")
    end
  else (0%Z, "").

(** The demo platform: the regular-expression fragment above, the paths of
    the spec, and for the constants of package [share] the names its policy
    modes and actions go by. No path is a package database and reports carry
    no group. *)
Definition demo_platform : Platform :=
  {| Regexp := Re.re;
     regexp_Compile := Re.compile;
     MatchString := Re.matches;
     PolicyModeLearn := "Discover";
     PolicyModeEvaluate := "Monitor";
     PolicyModeEnforce := "Protect";
     PolicyActionViolate := "violate";
     PolicyActionDeny := "deny";
     FileAccessBehaviorBlock := "block_access";
     ContainerFilePath := fun pid path => "/proc/" +:+ sprintf_d pid +:+ "/root" +:+ path;
     ParseContainerFilePath := parse_proc_path;
     IsPackageLib := fun _ => false;
     estRuleSrc := fun _ _ _ => "";
     CLUSFileMonitorFile := string |}.

(** A host on which every process is alive, no file exists (every [Lstat],
    [Stat], [Readlink] and hash fails) and the walker finds nothing. *)
Definition empty_host : @Host demo_platform :=
  {| IsPidValid := fun _ => true;
     Lstat := fun _ => None;
     Stat := fun _ => None;
     Readlink := fun _ => None;
     GetFileHash := fun _ => None;
     GetFileInfoExtFromPath := fun _ _ _ _ _ => [];
     walk := fun _ _ _ => None;
     fa_GetWatchFileList := fun _ => Some [];
     fa_GetWatches := Some [];
     fa_GetProbeData := {| NRoots := 0; NMntRoots := 0; NDirMarks := 0; NRules := 0;
                           fa_NPaths := 0; fa_NDirs := 0 |};
     ino_GetProbeData := {| NWds := 0; ino_NPaths := 0; ino_NDirs := 0 |} |}.

(** ** Example states

    One container, root pid 42, with one target held at location 1 of the
    object store. *)

(** A host on which every process is alive and whose walker finds what
    [res] lists; [lstat] is the mode [Lstat] finds at every path, if any.
    Hashes, [Readlink] and [Stat] fail, and a new entry of a watched
    directory comes with the objects [fresh_infos]. *)
Definition demo_host (lstat : option Z) (res : WalkPathResult) (fresh_infos : list FileInfoExt) :
  @Host demo_platform :=
  {| IsPidValid := fun _ => true;
     Lstat := fun _ => lstat;
     Stat := fun _ => None;
     Readlink := fun _ => None;
     GetFileHash := fun _ => None;
     GetFileInfoExtFromPath := fun _ _ _ _ _ => fresh_infos;
     walk := fun _ _ _ => Some res;
     fa_GetWatchFileList := fun _ => Some [];
     fa_GetWatches := Some [];
     fa_GetProbeData := {| NRoots := 0; NMntRoots := 0; NDirMarks := 0; NRules := 0;
                           fa_NPaths := 0; fa_NDirs := 0 |};
     ino_GetProbeData := {| NWds := 0; ino_NPaths := 0; ino_NDirs := 0 |} |}.

Definition flt_passwd : CLUSFileMonitorFilter :=
  {| flt_Behavior := "monitor_change"; flt_Path := "/etc/passwd"; flt_Regex := "";
     flt_Recursive := false; flt_CustomerAdd := true; flt_DerivedGroup := "" |}.

Definition flt_tmp : CLUSFileMonitorFilter :=
  {| flt_Behavior := "monitor_change"; flt_Path := "/tmp"; flt_Regex := ".*";
     flt_Recursive := true; flt_CustomerAdd := true; flt_DerivedGroup := "" |}.

(** One of [ImportantFiles]. *)
Definition flt_libc : CLUSFileMonitorFilter :=
  {| flt_Behavior := "monitor_change"; flt_Path := "/lib"; flt_Regex := "libc\..*";
     flt_Recursive := true; flt_CustomerAdd := false; flt_DerivedGroup := "" |}.

Definition demo_profile (mode : string) : CLUSFileMonitorProfile :=
  {| prf_Group := "nv.web"; prf_Mode := mode;
     prf_Filters := [flt_passwd; flt_tmp; flt_libc]; prf_FiltersCRD := [] |}.

(** Access rules with [apps] under the key of [flt_passwd]. *)
Definition demo_rule (apps : list string) : CLUSFileAccessRule :=
  {| ar_Filters := {[ "/etc/passwd/" := {| afr_Apps := apps; afr_CustomerAdd := true |} ]} |}.

(** The container holds the regular file /etc/passwd, and the walker finds
    it: the object at location 1. *)
Definition host_passwd : @Host demo_platform :=
  demo_host (Some 420%Z)
    {| wr_Dirs := []; wr_Files := [{| fd_File := "/etc/passwd"; fd_Mode := 420 |}] |} [].

(** The walker finds the directory /tmp, the object at location 1, and
    nothing exists below it any more. *)
Definition host_tmp : @Host demo_platform :=
  demo_host None
    {| wr_Dirs := [{| dd_Dir := "/tmp"; dd_Mode := Z.lor os.ModeDir 493 |}]; wr_Files := [] |} [].

(** A symbolic link in the container, resolved on the host. *)
Definition link_info : FileInfoExt :=
  {| fi_ContainerId := ""; fi_FileMode := Z.lor os.ModeSymlink 511;
     fi_Path := "/proc/42/root/lib/libc.so";
     fi_Link := "/proc/42/root/usr/lib/libc.so.6"; fi_Hash := 0%N;
     fi_Filter := {| fr_path := "/lib/libc\..*"; fr_recursive := true |};
     fi_Protect := false; fi_UserAdded := false; fi_Children := [] |}.

(** The walker finds the directory /lib, the object at location 1; what
    exists is a symbolic link, and the object of a new entry of /lib is
    [link_info]. *)
Definition host_lib : @Host demo_platform :=
  demo_host (Some (Z.lor os.ModeSymlink 511))
    {| wr_Dirs := [{| dd_Dir := "/lib"; dd_Mode := Z.lor os.ModeDir 493 |}]; wr_Files := [] |}
    [link_info].

Definition proc_vi : ProcInfo :=
  {| pi_RootPid := 42; pi_Name := "vi"; pi_Path := "/bin/vi"; pi_Cmds := Some ["vi"];
     pi_Pid := 100; pi_EUid := 0; pi_EUser := "root"; pi_PPid := 90; pi_PName := "sh";
     pi_PPath := "/bin/sh"; pi_Deny := false; pi_InProfile := false |}.

Definition demo_conf (mode : string) (rule : option CLUSFileAccessRule) : FsmonConfig :=
  {| cfg_Profile := demo_profile mode; cfg_Rule := rule |}.

Definition demo_start (h : @Host demo_platform) (mode : string)
  (rule : option CLUSFileAccessRule) : @Op demo_platform :=
  OpStartWatch h 0 "c1" 42 (demo_conf mode rule) false false.

(** A watcher that learns [/bin/vi] for [/etc/passwd] from one access. *)
Definition ops_learn : list (@Op demo_platform) :=
  [ demo_start host_passwd "" (Some (demo_rule []));
    OpCbNotify "/proc/42/root/etc/passwd" syscall.IN_ACCESS 1%positive (Some proc_vi);
    OpHandleWatchedFiles host_passwd 5000000000 ].

(** It is then told, by a rule update, that [/bin/vi] is applied. *)
Definition ops_learn_then_apply : list (@Op demo_platform) :=
  ops_learn ++ [OpUpdateAccessRules "nv.web" 42 (demo_rule ["/bin/vi"])].

(** Or that [/bin/cat] is. *)
Definition ops_learn_then_other : list (@Op demo_platform) :=
  ops_learn ++ [OpUpdateAccessRules "nv.web" 42 (demo_rule ["/bin/cat"])].

(** The group of container 42 in mode [Learn], without access rules. *)
Definition w_learn_no_rules : FileWatch :=
  @run_ops demo_platform [demo_start host_passwd "" None] (NewFileWatcher true false false).

Definition fmod_access : fileMod :=
  {| fm_mask := syscall.IN_ACCESS; fm_delay := 0; fm_finfo := 1%positive;
     fm_pInfo := [proc_vi] |}.

(** The group of container 42 in mode [Learn], with an empty list of
    applications for [/etc/passwd]. *)
Definition w_learn_rules : FileWatch :=
  @run_ops demo_platform [demo_start host_passwd "" (Some (demo_rule []))]
    (NewFileWatcher true false false).

(** A watched /tmp in a container in mode [Evaluate], nothing pending. *)
Definition w_watching_tmp : FileWatch :=
  @run_ops demo_platform [demo_start host_tmp "Monitor" None] (NewFileWatcher true false false).

(** In it, [x] was created and deleted again. *)
Definition w_created_deleted : FileWatch :=
  @run_ops demo_platform
    [ OpCbNotify "/proc/42/root/tmp/x" syscall.IN_CREATE 1%positive None;
      OpCbNotify "/proc/42/root/tmp/x" syscall.IN_DELETE 1%positive None ]
    w_watching_tmp.

Definition fmod_created_deleted : fileMod :=
  {| fm_mask := Z.lor syscall.IN_CREATE syscall.IN_DELETE; fm_delay := 0;
     fm_finfo := 1%positive; fm_pInfo := [] |}.

(** In the watched /tmp, the directory [d] was made and removed again:
    both events carry [IN_ISDIR]. *)
Definition w_dir_created_deleted : FileWatch :=
  @run_ops demo_platform
    [ OpCbNotify "/proc/42/root/tmp/d" (Z.lor syscall.IN_CREATE syscall.IN_ISDIR)
        1%positive None;
      OpCbNotify "/proc/42/root/tmp/d" (Z.lor syscall.IN_DELETE syscall.IN_ISDIR)
        1%positive None ]
    w_watching_tmp.

Definition fmod_dir_created_deleted : fileMod :=
  {| fm_mask := Z.lor (Z.lor syscall.IN_CREATE syscall.IN_ISDIR)
                  (Z.lor syscall.IN_DELETE syscall.IN_ISDIR);
     fm_delay := 0; fm_finfo := 1%positive; fm_pInfo := [] |}.

(** A watched /lib in a container in mode [Evaluate], in which the symbolic
    link libc.so was created: the flush hands its object, at location 2, to
    the drivers. *)
Definition w_watching_link : FileWatch :=
  @run_ops demo_platform
    [ demo_start host_lib "Monitor" None;
      OpCbNotify "/proc/42/root/lib/libc.so" syscall.IN_CREATE 1%positive None;
      OpHandleWatchedFiles host_lib 5000000000 ]
    (NewFileWatcher true false false).

(** The pending event of a later write through the link, by vi. *)
Definition fmod_link_modified : fileMod :=
  {| fm_mask := syscall.IN_MODIFY; fm_delay := 0; fm_finfo := 2%positive;
     fm_pInfo := [proc_vi] |}.

(** ** Further example data *)

(** A second process, one the policy denied. *)
Definition proc_cat : ProcInfo :=
  {| pi_RootPid := 42; pi_Name := "cat"; pi_Path := "/bin/cat"; pi_Cmds := Some ["cat"];
     pi_Pid := 101; pi_EUid := 0; pi_EUser := "root"; pi_PPid := 90; pi_PName := "sh";
     pi_PPath := "/bin/sh"; pi_Deny := true; pi_InProfile := false |}.

(** A host on which no process is alive any more. *)
Definition host_dead : @Host demo_platform :=
  {| IsPidValid := fun _ => false;
     Lstat := fun _ => None;
     Stat := fun _ => None;
     Readlink := fun _ => None;
     GetFileHash := fun _ => None;
     GetFileInfoExtFromPath := fun _ _ _ _ _ => [];
     walk := fun _ _ _ => None;
     fa_GetWatchFileList := fun _ => Some [];
     fa_GetWatches := Some [];
     fa_GetProbeData := {| NRoots := 0; NMntRoots := 0; NDirMarks := 0; NRules := 0;
                           fa_NPaths := 0; fa_NDirs := 0 |};
     ino_GetProbeData := {| NWds := 0; ino_NPaths := 0; ino_NDirs := 0 |} |}.

(** A host on which every path is a regular file with the hash [hash]. *)
Definition host_hash (hash : Hash) : @Host demo_platform :=
  {| IsPidValid := fun _ => true;
     Lstat := fun _ => Some 420%Z;
     Stat := fun _ => None;
     Readlink := fun _ => None;
     GetFileHash := fun _ => Some hash;
     GetFileInfoExtFromPath := fun _ _ _ _ _ => [];
     walk := fun _ _ _ => None;
     fa_GetWatchFileList := fun _ => Some [];
     fa_GetWatches := Some [];
     fa_GetProbeData := {| NRoots := 0; NMntRoots := 0; NDirMarks := 0; NRules := 0;
                           fa_NPaths := 0; fa_NDirs := 0 |};
     ino_GetProbeData := {| NWds := 0; ino_NPaths := 0; ino_NDirs := 0 |} |}.

(** [flt_libc] as a customer would add it, to block. *)
Definition flt_libc_block : CLUSFileMonitorFilter :=
  {| flt_Behavior := "block_access"; flt_Path := "/lib"; flt_Regex := "libc\..*";
     flt_Recursive := false; flt_CustomerAdd := true; flt_DerivedGroup := "" |}.

(** A burst of callbacks for /tmp/x: created by vi, written by cat, closed
    by vi. *)
Definition burst_rest : list (Z * loc * option ProcInfo) :=
  [ (syscall.IN_MODIFY, 2%positive, Some proc_cat);
    (syscall.IN_CLOSE_WRITE, 1%positive, Some proc_vi) ].

(** A watcher in mode [Enforce] on which vi and cat wrote /etc/passwd. *)
Definition ops_two_writers : list (@Op demo_platform) :=
  [ demo_start host_passwd "Protect" None;
    OpCbNotify "/proc/42/root/etc/passwd" syscall.IN_ACCESS 1%positive (Some proc_vi);
    OpCbNotify "/proc/42/root/etc/passwd" syscall.IN_MODIFY 1%positive (Some proc_vi);
    OpCbNotify "/proc/42/root/etc/passwd" syscall.IN_MODIFY 1%positive (Some proc_cat) ].

Definition fmod_two_writers : fileMod :=
  {| fm_mask := Z.lor syscall.IN_ACCESS syscall.IN_MODIFY; fm_delay := 0;
     fm_finfo := 1%positive; fm_pInfo := [proc_vi; proc_cat] |}.

(** A write to the watched /etc/passwd. *)
Definition fmod_written : fileMod :=
  {| fm_mask := syscall.IN_MODIFY; fm_delay := 0; fm_finfo := 1%positive;
     fm_pInfo := [proc_vi] |}.

(** A directory made below the watched /tmp. *)
Definition fmod_mkdir : fileMod :=
  {| fm_mask := Z.lor syscall.IN_CREATE syscall.IN_ISDIR; fm_delay := 0;
     fm_finfo := 1%positive; fm_pInfo := [] |}.

(** The store after the enumeration of the targets of container 42: the
    object of /etc/passwd at location 1. *)
Definition w_enumerated : FileWatch :=
  (@getCoreFile demo_platform host_passwd (NewFileWatcher true false false) "c1" 42
     (demo_profile "Discover")).1.1.

(** * Properties *)

Section FsmonProperties.
Context `{Platform}.

(** ** A disabled watcher *)

(** The operations that test [bEnable]: on a watcher built with
    [ProfileEnable = false], [StartWatch], [UpdateAccessRules] and
    [ContainerCleanup] return the state as it was and make no driver call
    and no report, and [GetWatchFileList], [GetAllFileMonitorFile] and
    [GetProbeData] return nil. *)
Lemma disabled_watcher_is_inert (h : Host) (now : Z) (w : FileWatch) (id name : string)
  (rootPid : Z) (conf : FsmonConfig) (rule : CLUSFileAccessRule)
  (capBlock bNeuvectorSvc bLeave : bool) :
  bEnable w = false ->
  StartWatch h now w id rootPid conf capBlock bNeuvectorSvc = (w, [])
  /\ UpdateAccessRules w name rootPid rule = (w, [])
  /\ ContainerCleanup w rootPid bLeave = (w, [])
  /\ GetWatchFileList h w rootPid = None
  /\ GetAllFileMonitorFile h w = None
  /\ GetProbeData h w = None.
Proof.
  intros Hoff.
  unfold StartWatch, UpdateAccessRules, ContainerCleanup, GetWatchFileList,
    GetAllFileMonitorFile, GetProbeData.
  rewrite Hoff. simpl. repeat split.
Qed.

Lemma SetNVProtectFlag_disabled (w : FileWatch) (bEnabled : bool) :
  bEnable w = false -> SetNVProtectFlag w bEnabled = Panics (set_bNVProtect bEnabled w).
Proof. intros Hoff. unfold SetNVProtectFlag. rewrite Hoff. reflexivity. Qed.

(** C10 fails on the code at [SetNVProtectFlag]: on the watcher built with
    [ProfileEnable = false] the call [SetNVProtectFlag(true)] does not
    return; it has written [bNVProtect], which was false, when it panics on
    the nil [fanotifier]. The operations that test [bEnable] leave the same
    watcher as it is. *)
Theorem SetNVProtectFlag_on_disabled_watcher :
  bEnable (NewFileWatcher false false false) = false
  /\ bNVProtect (NewFileWatcher false false false) = false
  /\ SetNVProtectFlag (NewFileWatcher false false false) true
     = Panics (set_bNVProtect true (NewFileWatcher false false false))
  /\ bNVProtect (set_bNVProtect true (NewFileWatcher false false false)) = true
  /\ (forall w', SetNVProtectFlag (NewFileWatcher false false false) true
                 <> Returns w' true)
  /\ (forall rootPid bLeave,
        ContainerCleanup (NewFileWatcher false false false) rootPid bLeave
        = (NewFileWatcher false false false, [])).
Proof. repeat split. intros w'. discriminate. Qed.

(** ** The notification callback *)

Lemma cbNotify_released (w : FileWatch) (filePath : string) (mask : Z) (params : loc)
  (pInfo : option ProcInfo) :
  Z.land mask syscall.IN_IGNORED <> 0%Z \/ Z.land mask syscall.IN_UNMOUNT <> 0%Z ->
  cbNotify w filePath mask params pInfo = (w, removeFile filePath).
Proof.
  intros Hbits. unfold cbNotify.
  destruct (Z.eqb_spec (Z.land mask syscall.IN_IGNORED) 0) as [Hi|Hi];
    destruct (Z.eqb_spec (Z.land mask syscall.IN_UNMOUNT) 0) as [Hu|Hu];
    simpl; try reflexivity.
  destruct Hbits; contradiction.
Qed.

Lemma cbNotify_recorded (w : FileWatch) (filePath : string) (mask : Z) (params : loc)
  (pInfo : option ProcInfo) :
  Z.land mask syscall.IN_IGNORED = 0%Z -> Z.land mask syscall.IN_UNMOUNT = 0%Z ->
  (cbNotify w filePath mask params pInfo).2 = []
  /\ exists fm, fileEvents (cbNotify w filePath mask params pInfo).1 !! filePath = Some fm
       /\ Z.land (fm_mask fm) mask = mask.
Proof.
  intros Hi Hu. unfold cbNotify. rewrite Hi, Hu. simpl.
  destruct (fileEvents w !! filePath) as [fm|] eqn:Hfm; simpl.
  - split; [reflexivity|]. eexists. rewrite lookup_insert_eq. split; [reflexivity|].
    simpl. rewrite Z.land_comm, Z.land_lor_distr_r, Z.land_diag.
    apply Z.bits_inj'. intros n Hn.
    rewrite Z.lor_spec, Z.land_spec.
    destruct (Z.testbit mask n), (Z.testbit (fm_mask fm) n); reflexivity.
  - split; [reflexivity|]. eexists. rewrite lookup_insert_eq. split; [reflexivity|].
    simpl. apply Z.land_diag.
Qed.

(** C8 (as the code has it): when the mask of the event holds [IN_IGNORED]
    or [IN_UNMOUNT], [cbNotify] releases the path on both drivers and drops
    the event: the pending events and the rest of the state stay as they
    were, so nothing is recorded for the next flush. *)
Theorem cbNotify_ignored_event_is_dropped (w : FileWatch) (filePath : string) (mask : Z)
  (params : loc) (pInfo : option ProcInfo) :
  Z.land mask syscall.IN_IGNORED <> 0%Z \/ Z.land mask syscall.IN_UNMOUNT <> 0%Z ->
  (cbNotify w filePath mask params pInfo).2
    = [FaRemoveMonitorFile filePath; InoRemoveMonitorFile filePath]
  /\ (cbNotify w filePath mask params pInfo).1 = w
  /\ fileEvents (cbNotify w filePath mask params pInfo).1 !! filePath
     = fileEvents w !! filePath.
Proof.
  intros Hbits. rewrite (cbNotify_released _ _ _ _ _ Hbits). simpl. repeat split.
Qed.

(** ** The match predicate *)

Lemma HasPrefix_length (s pre : string) :
  GoStrings.HasPrefix s pre = true -> (String.length pre <= String.length s)%nat.
Proof.
  unfold GoStrings.HasPrefix. revert s.
  induction pre as [|a pre IH]; intros s; [simpl; lia|].
  destruct s as [|b s]; cbn [String.prefix String.length]; [discriminate|].
  destruct (ascii_dec a b); [|discriminate]. intros Hp. apply IH in Hp. lia.
Qed.

Lemma length_append_slash (s : string) : String.length (s +:+ "/") = S (String.length s).
Proof. induction s as [|a s IH]; simpl; [reflexivity|]. rewrite IH. reflexivity. Qed.

(** C3 (as the code has it): for an empty [f.regex], [filterPathMatch p f]
    holds exactly when [p] is [f.path]. For a regex and a candidate [p] the
    filter covers ([p] lies below the filter's path, [\.] unescaped, and
    directly in it unless the filter is recursive), it holds exactly when
    the anchored expression "^<dir(p)>/<f.regex>$", built from the
    directory of the candidate [p], compiles and matches [p]; when the
    expression compiles these are the files [getDirFileList] takes for the
    filter. *)
Theorem filterPathMatch_on_covered_paths (p : string) (f : CLUSFileMonitorFilter) :
  let base := GoStrings.unescape_dots (flt_Path f) in
  let pat := "^" +:+ (filepath.Dir p +:+ "/" +:+ flt_Regex f) +:+ "$" in
  (flt_Regex f = "" -> (filterPathMatch p f = true <-> p = flt_Path f))
  /\ (flt_Regex f <> "" ->
      GoStrings.HasPrefix p (base +:+ "/") = true ->
      flt_Recursive f = true \/ filepath.Dir p = base ->
      (filterPathMatch p f = true <->
       exists rgx, regexp_Compile pat = Some rgx /\ MatchString rgx p = true)
      /\ (is_Some (regexp_Compile pat) ->
          (filterPathMatch p f = true <-> skips_file f base p = false))).
Proof.
  intros base pat. split.
  - intros He. unfold filterPathMatch. rewrite He. cbn [String.eqb].
    rewrite String.eqb_eq. split; congruence.
  - intros Hne Hpre Hrec.
    assert (Hfm : filterPathMatch p f
                  = match regexp_Compile pat with
                    | Some rgx => MatchString rgx p
                    | None => false
                    end).
    { unfold filterPathMatch.
      destruct (String.eqb_spec (flt_Regex f) ""); [contradiction|reflexivity]. }
    split.
    + rewrite Hfm. split.
      * destruct (regexp_Compile pat) as [rgx|]; [|discriminate].
        intros Hm. exists rgx. split; [reflexivity|exact Hm].
      * intros (rgx & -> & Hm). exact Hm.
    + intros [rgx Hc]. rewrite Hfm, Hc. unfold skips_file.
      assert (Hpb : p <> base).
      { intros ->. apply HasPrefix_length in Hpre.
        rewrite length_append_slash in Hpre. lia. }
      destruct (String.eqb_spec p base) as [|_]; [contradiction|].
      cbn [negb]. rewrite Hpre. fold pat. rewrite Hc. cbn [negb orb].
      assert (Hin : negb (flt_Recursive f) && negb (String.eqb (filepath.Dir p) base) = false).
      { destruct Hrec as [->| ->]; [reflexivity|].
        rewrite String.eqb_refl. apply andb_false_r. }
      rewrite Hin, orb_false_r.
      destruct (MatchString rgx p); cbn [negb]; split; congruence.
Qed.

(** ** The classifier writes to the object store only *)

Lemma only_finfos_refl (w : FileWatch) : only_finfos w w.
Proof. repeat split. Qed.

Lemma only_finfos_trans (w1 w2 w3 : FileWatch) :
  only_finfos w1 w2 -> only_finfos w2 w3 -> only_finfos w1 w3.
Proof.
  unfold only_finfos. intros (?&?&?&?&?) (?&?&?&?&?). repeat split; congruence.
Qed.

Lemma only_finfos_set (store : gmap loc FileInfoExt) (w : FileWatch) :
  only_finfos w (set_finfos store w).
Proof. repeat split. Qed.

Lemma only_finfos_update (f : FileInfoExt -> FileInfoExt) (l : loc) (w : FileWatch) :
  only_finfos w (update_finfo f l w).
Proof. apply only_finfos_set. Qed.

Lemma store_dirFiles_only_finfos (cid key : string) (files : list FileInfoExt)
  (acc : gmap string loc) (w : FileWatch) :
  only_finfos w
    (foldl (fun '(dirFiles, w) file =>
              let '(l, w') := alloc_finfo (set_fi_ContainerId cid file) w in
              (<[key := l]> dirFiles, w'))
           (acc, w) files).2.
Proof.
  revert acc w. induction files as [|file files IH]; intros acc w; simpl.
  - apply only_finfos_refl.
  - eapply only_finfos_trans; [|apply IH]. apply only_finfos_set.
Qed.

Lemma reports_app (e1 e2 : list Effect) : reports (e1 ++ e2) = reports e1 ++ reports e2.
Proof. unfold reports. apply omap_app. Qed.

Lemma reports_removeFile (p : string) : reports (removeFile p) = [].
Proof. reflexivity. Qed.

Lemma reports_addFile (w : FileWatch) (b : bool) (l : loc) : reports (addFile w b l) = [].
Proof. unfold addFile. repeat case_match; reflexivity. Qed.

Lemma reports_addDir (w : FileWatch) (b : bool) (l : loc) (files : gmap string loc) :
  reports (addDir w b l files) = [].
Proof. unfold addDir. repeat case_match; reflexivity. Qed.

Lemma add_new_dir_frame (h : Host) (w : FileWatch) (finfo : loc) (fullPath path : string)
  (pid : Z) :
  only_finfos w (add_new_dir h w finfo fullPath path pid).1
  /\ reports (add_new_dir h w finfo fullPath path pid).2 = [].
Proof.
  unfold add_new_dir.
  set (fi := finfos w !!! finfo).
  pose proof (store_dirFiles_only_finfos (fi_ContainerId fi) (filepath.Base path)
                (GetFileInfoExtFromPath h pid fullPath (fi_Filter fi) (fi_Protect fi)
                   (fi_UserAdded fi)) ∅ w) as Hs.
  unfold store_dirFiles.
  destruct (foldl _ _ _) as [dirFiles w']. simpl in *.
  split; [exact Hs|apply reports_addDir].
Qed.

Lemma handleDirEvents_frame (h : Host) (w : FileWatch) (fmod : fileMod) (info : option Z)
  (fullPath path : string) (pid : Z) :
  only_finfos w (handleDirEvents h w fmod info fullPath path pid).1.1
  /\ reports (handleDirEvents h w fmod info fullPath path pid).1.2 = [].
Proof.
  unfold handleDirEvents.
  repeat case_match; simpl;
    try (split; [first [apply only_finfos_refl | apply only_finfos_update]
                |first [reflexivity | apply reports_addFile]]);
    try apply add_new_dir_frame.
  destruct (add_new_dir_frame h
              (update_finfo (fun fi => set_fi_FileMode z (set_fi_Path fullPath fi))
                 (fm_finfo fmod) w) (fm_finfo fmod) fullPath path pid) as [Hf Hr].
  split; [|exact Hr].
  eapply only_finfos_trans; [apply only_finfos_update|exact Hf].
Qed.

Lemma handleFileEvents_frame (h : Host) (w : FileWatch) (fmod : fileMod) (info : option Z)
  (fullPath : string) (pid : Z) :
  only_finfos w (handleFileEvents h w fmod info fullPath pid).1.1
  /\ reports (handleFileEvents h w fmod info fullPath pid).1.2 = [].
Proof.
  unfold handleFileEvents.
  repeat case_match; simpl;
    (split; [first [apply only_finfos_refl | apply only_finfos_update]
            |first [reflexivity | apply reports_addFile]]).
Qed.

(** ** Enumerating targets writes to the object store only *)

Lemma foldl_only_finfos {A S : Type} (f : FileWatch * S -> A -> FileWatch * S) :
  (forall w s a, only_finfos w (f (w, s) a).1) ->
  forall l w s, only_finfos w (foldl f (w, s) l).1.
Proof.
  intros Hf l. induction l as [|a l IH]; intros w s; simpl.
  - apply only_finfos_refl.
  - specialize (Hf w s a). destruct (f (w, s) a) as [w' s']. simpl in Hf.
    eapply only_finfos_trans; [exact Hf|apply IH].
Qed.

Lemma only_finfos_alloc (fi : FileInfoExt) (w : FileWatch) :
  only_finfos w (alloc_finfo fi w).2.
Proof. apply only_finfos_set. Qed.

Lemma alloc_finfo_keeps (fi : FileInfoExt) (w : FileWatch) (l : loc) (x : FileInfoExt) :
  finfos w !! l = Some x -> finfos (alloc_finfo fi w).2 !! l = Some x.
Proof.
  intros Hl. unfold alloc_finfo. cbn [snd finfos set_finfos].
  rewrite lookup_insert_ne; [exact Hl|].
  intros <-. pose proof (is_fresh (dom (finfos w))) as Hfresh.
  apply not_elem_of_dom in Hfresh. congruence.
Qed.

Lemma store_dirFiles_keeps (cid key : string) (files : list FileInfoExt) (w : FileWatch)
  (l : loc) (x : FileInfoExt) :
  finfos w !! l = Some x -> finfos (store_dirFiles cid key files w).2 !! l = Some x.
Proof.
  unfold store_dirFiles. generalize (∅ : gmap string loc). revert w.
  induction files as [|file files IH]; intros w dirFiles Hl; [exact Hl|].
  cbn [foldl].
  pose proof (alloc_finfo_keeps (set_fi_ContainerId cid file) w l x Hl) as Hk.
  destruct (alloc_finfo (set_fi_ContainerId cid file) w) as [l' w'].
  apply IH. exact Hk.
Qed.

Lemma add_new_dir_keeps (h : Host) (w : FileWatch) (finfo : loc) (fullPath path : string)
  (pid : Z) (l : loc) (x : FileInfoExt) :
  finfos w !! l = Some x ->
  finfos (add_new_dir h w finfo fullPath path pid).1 !! l = Some x.
Proof.
  intros Hl. unfold add_new_dir.
  pose proof (store_dirFiles_keeps (fi_ContainerId (finfos w !!! finfo)) (filepath.Base path)
                (GetFileInfoExtFromPath h pid fullPath (fi_Filter (finfos w !!! finfo))
                   (fi_Protect (finfos w !!! finfo)) (fi_UserAdded (finfos w !!! finfo)))
                w l x Hl) as Hk.
  destruct (store_dirFiles _ _ _ w) as [dirFiles w']. exact Hk.
Qed.

Lemma getDirFileList_frame (w : FileWatch) (pid : Z) (res : WalkPathResult)
  (filter : CLUSFileMonitorFilter) :
  only_finfos w (getDirFileList w pid res filter).1.1.
Proof.
  unfold getDirFileList.
  match goal with
  | |- context [foldl ?f (w, ∅) (wr_Dirs res)] =>
      assert (Hdirs : only_finfos w (foldl f (w, ∅) (wr_Dirs res)).1);
      [ apply foldl_only_finfos; intros w0 s a; simpl;
        repeat case_match; simpl; simplify_eq;
        first [apply only_finfos_refl | apply only_finfos_set]
      | destruct (foldl f (w, ∅) (wr_Dirs res)) as [w1 dirList] ]
  end.
  match goal with
  | |- context [foldl ?f (w1, []) (wr_Files res)] =>
      assert (Hfiles : only_finfos w1 (foldl f (w1, []) (wr_Files res)).1);
      [ apply foldl_only_finfos; intros w0 s a; simpl;
        repeat case_match; simpl; simplify_eq;
        first [ apply only_finfos_refl | apply only_finfos_set
              | eapply only_finfos_trans; [apply only_finfos_set|apply only_finfos_update] ]
      | destruct (foldl f (w1, []) (wr_Files res)) as [w2 singles] ]
  end.
  simpl in *. eapply only_finfos_trans; eassumption.
Qed.

Lemma getDirAndFileList_frame (w : FileWatch) (pid : Z) (res : WalkPathResult)
  (filter : CLUSFileMonitorFilter) (dirList : gmap string loc) :
  only_finfos w (getDirAndFileList w pid res filter dirList).1.1.
Proof.
  unfold getDirAndFileList.
  pose proof (getDirFileList_frame w pid res filter) as H1.
  destruct (getDirFileList w pid res filter) as [[w1 dirs] singles]. simpl in H1.
  match goal with
  | |- context [foldl ?f (w1, dirList) ?l] =>
      assert (H2 : only_finfos w1 (foldl f (w1, dirList) l).1);
      [ apply foldl_only_finfos; intros w0 s [k di]; simpl; case_match; simpl;
        [apply only_finfos_update|apply only_finfos_refl]
      | destruct (foldl f (w1, dirList) l) as [w2 dirList'] ]
  end.
  simpl in *. eapply only_finfos_trans; eassumption.
Qed.

Lemma getCoreFile_frame (h : Host) (w : FileWatch) (cid : string) (pid : Z)
  (profile : CLUSFileMonitorProfile) :
  only_finfos w (getCoreFile h w cid pid profile).1.1.
Proof.
  unfold getCoreFile. destruct (getRootFs h pid cid profile) as [res|];
    [|apply only_finfos_refl].
  generalize (prf_Filters profile ++ prf_FiltersCRD profile).
  generalize (∅ : gmap string loc) ([] : list loc).
  intros dirList singles filters. revert w dirList singles.
  induction filters as [|filter filters IH]; intros w dirList singles; simpl.
  - apply only_finfos_refl.
  - pose proof (getDirAndFileList_frame w pid res filter dirList) as H1.
    destruct (getDirAndFileList w pid res filter dirList) as [[w' dirList'] singles'].
    simpl in H1. eapply only_finfos_trans; [exact H1|apply IH].
Qed.

Lemma stamp_children_frame (cid : string) (children : list loc) (w : FileWatch) :
  only_finfos w (stamp_children cid children w).1.
Proof.
  unfold stamp_children. apply foldl_only_finfos.
  intros w0 s a. simpl. apply only_finfos_update.
Qed.

Lemma addCoreFile_frame (w : FileWatch) (bIncINotify : bool) (cid : string)
  (dirList : gmap string loc) (singleFiles : list loc) :
  only_finfos w (addCoreFile w bIncINotify cid dirList singleFiles).1.
Proof.
  unfold addCoreFile.
  match goal with
  | |- context [foldl ?f (w, []) singleFiles] =>
      assert (H1 : only_finfos w (foldl f (w, []) singleFiles).1);
      [ apply foldl_only_finfos; intros w0 s a; simpl;
        repeat case_match; simpl;
        first [ apply only_finfos_update
              | eapply only_finfos_trans; apply only_finfos_update ]
      | destruct (foldl f (w, []) singleFiles) as [w1 effs1] ]
  end.
  simpl in H1. eapply only_finfos_trans; [exact H1|].
  apply foldl_only_finfos. intros w0 s [k dir]. simpl.
  pose proof (stamp_children_frame cid (fi_Children (finfos w0 !!! dir)) w0) as Hs.
  destruct (stamp_children cid (fi_Children (finfos w0 !!! dir)) w0) as [w2 files].
  simpl in *. eapply only_finfos_trans; [exact Hs|apply only_finfos_update].
Qed.

(** The targets [StartWatch] arms, as the state and the driver calls of
    [getCoreFile] and [addCoreFile]. *)
Lemma StartWatch_targets (h : Host) (w : FileWatch) (id : string) (rootPid : Z)
  (prf : CLUSFileMonitorProfile) (b : bool) (w0 w1 : FileWatch) (dirs : gmap string loc)
  (files : list loc) (calls : list Effect) :
  getCoreFile h w id rootPid prf = (w0, dirs, files) ->
  addCoreFile w0 b id dirs files = (w1, calls) ->
  only_finfos w w1.
Proof.
  intros Hcore Hadd.
  pose proof (getCoreFile_frame h w id rootPid prf) as H0. rewrite Hcore in H0.
  pose proof (addCoreFile_frame w0 b id dirs files) as H1. rewrite Hadd in H1.
  simpl in *. eapply only_finfos_trans; eassumption.
Qed.

(** ** Reports of the classifier *)

Lemma sendMsg_procs_path (cid path : string) (event : Z) (eventMsg : string)
  (prev : option ProcInfo) (pInfo : list ProcInfo) (msg : MonitorMessage) :
  msg ∈ reports (sendMsg_procs cid path event eventMsg prev pInfo) ->
  msg_Path msg = path /\ msg_ID msg = cid.
Proof.
  revert prev. induction pInfo as [|pi rest IH]; intros prev; simpl.
  - intros Hin. inversion Hin.
  - rewrite reports_app, elem_of_app. intros [Hin|Hin]; [|eapply IH; exact Hin].
    case_bool_decide; simpl in Hin; [inversion Hin|].
    apply list_elem_of_singleton in Hin. subst msg. split; reflexivity.
Qed.

Lemma sendMsg_path (cid path : string) (event : Z) (pInfo : list ProcInfo) (mode : string)
  (msg : MonitorMessage) :
  msg ∈ reports (sendMsg cid path event pInfo mode) ->
  msg_Path msg = path /\ msg_ID msg = cid.
Proof.
  unfold sendMsg. destruct (fileEventMsg !! event) as [eventMsg|]; [|intros Hin; inversion Hin].
  destruct pInfo as [|pi rest].
  - simpl. intros Hin. apply list_elem_of_singleton in Hin. subst msg. split; reflexivity.
  - apply sendMsg_procs_path.
Qed.

Lemma sendMsg_procs_nonempty (cid path : string) (event : Z) (eventMsg : string)
  (pi : ProcInfo) (rest : list ProcInfo) :
  reports (sendMsg_procs cid path event eventMsg None (pi :: rest)) <> [].
Proof. simpl. discriminate. Qed.

Lemma sendMsg_nonempty (cid path : string) (event : Z) (pInfo : list ProcInfo) (mode : string) :
  is_Some (fileEventMsg !! event) ->
  reports (sendMsg cid path event pInfo mode) <> [].
Proof.
  intros [eventMsg He]. unfold sendMsg. rewrite He.
  destruct pInfo; [discriminate|apply sendMsg_procs_nonempty].
Qed.

(** What [learnFromEvents] reports, by cases. *)
Lemma learnFromEvents_reports (w : FileWatch) (rootPid : Z) (fmod : fileMod) (path : string)
  (event now : Z) :
  reports (learnFromEvents w rootPid fmod path event now).2 =
  match groups w !! rootPid with
  | None => []
  | Some grp =>
      if isRunTimeAddedFile (filepath.Join2 "/root" path)
         && ((event =? fileEventAccessed)%Z || (now - startAt grp <? sixty_seconds)%Z)
      then []
      else if negb (event =? fileEventAccessed)%Z
              || (String.eqb (mode grp) PolicyModeEnforce
                  || String.eqb (mode grp) PolicyModeEvaluate)
      then reports (sendMsg (fi_ContainerId (finfos w !!! fm_finfo fmod))
                      (report_path path (fi_Link (finfos w !!! fm_finfo fmod)))
                      event (fm_pInfo fmod) (mode grp))
      else []
  end.
Proof.
  unfold learnFromEvents. destruct (groups w !! rootPid) as [grp|]; [|reflexivity].
  cbn zeta. repeat case_match; reflexivity.
Qed.

Lemma handleEvent_reports (h : Host) (now : Z) (w : FileWatch) (fullPath : string)
  (fmod : fileMod) (msg : MonitorMessage) :
  msg ∈ reports (handleEvent h now w fullPath fmod).2 ->
  exists w1 event,
    only_finfos w w1
    /\ msg ∈ reports (learnFromEvents w1 (ParseContainerFilePath fullPath).1 fmod
                       (ParseContainerFilePath fullPath).2 event now).2.
Proof.
  unfold handleEvent. destruct (ParseContainerFilePath fullPath) as [pid path]. simpl.
  destruct (IsPidValid h pid); [|intros Hin; inversion Hin].
  set (r := if _ : bool then handleDirEvents h w fmod (Lstat h fullPath) fullPath path pid
            else handleFileEvents h w fmod (Lstat h fullPath) fullPath pid).
  assert (Hr : only_finfos w r.1.1 /\ reports r.1.2 = []).
  { unfold r. case_match; [apply handleDirEvents_frame|apply handleFileEvents_frame]. }
  destruct r as [[w1 effs] event]. simpl in Hr. destruct Hr as [Hw1 Heffs].
  destruct (negb (event =? 0)%Z).
  - destruct (learnFromEvents w1 pid fmod path event now) as [w2 effs'] eqn:Hl.
    simpl. rewrite reports_app, Heffs. simpl. intros Hin.
    exists w1, event. rewrite Hl. split; assumption.
  - simpl. rewrite Heffs. intros Hin. inversion Hin.
Qed.

(** ** Files the container runtime writes at start *)

Lemma runtime_added_paths (path : string) :
  path = "/etc/hosts" \/ path = "/etc/hostname" \/ path = "/etc/resolv.conf" ->
  isRunTimeAddedFile (filepath.Join2 "/root" path) = true.
Proof. intros [->|[->| ->]]; reflexivity. Qed.

(** C5: for an aggregated event whose path in the container is /etc/hosts,
    /etc/hostname or /etc/resolv.conf, no monitor message is emitted when
    the classified kind is [fileEventAccessed], or when less than 60 seconds
    lie between the group's [startAt] and the handling of the event; the
    second also read on the whole handling of a pending event by the flush. *)
Theorem runtime_added_files_are_suppressed (h : Host) (now : Z) (w : FileWatch)
  (rootPid : Z) (fmod : fileMod) (fullPath path : string) (event : Z) :
  path = "/etc/hosts" \/ path = "/etc/hostname" \/ path = "/etc/resolv.conf" ->
  (event = fileEventAccessed
   \/ (forall grp, groups w !! rootPid = Some grp -> (now - startAt grp < sixty_seconds)%Z) ->
   reports (learnFromEvents w rootPid fmod path event now).2 = [])
  /\ (ParseContainerFilePath fullPath = (rootPid, path) ->
      (forall grp, groups w !! rootPid = Some grp -> (now - startAt grp < sixty_seconds)%Z) ->
      reports (handleEvent h now w fullPath fmod).2 = []).
Proof.
  intros Hpath. pose proof (runtime_added_paths path Hpath) as Hrt.
  assert (Hlearn : forall w0 ev,
    ev = fileEventAccessed
    \/ (forall grp, groups w0 !! rootPid = Some grp -> (now - startAt grp < sixty_seconds)%Z) ->
    reports (learnFromEvents w0 rootPid fmod path ev now).2 = []).
  { intros w0 ev Hcase. rewrite learnFromEvents_reports.
    destruct (groups w0 !! rootPid) as [grp|] eqn:Hg; [|reflexivity].
    rewrite Hrt. simpl.
    destruct Hcase as [->|Hage].
    - reflexivity.
    - specialize (Hage grp eq_refl). apply Z.ltb_lt in Hage. rewrite Hage.
      rewrite orb_true_r. reflexivity. }
  split; [apply Hlearn|].
  intros Hparse Hage.
  destruct (reports (handleEvent h now w fullPath fmod).2) as [|msg rest] eqn:Hrep;
    [reflexivity|].
  assert (Hin : msg ∈ reports (handleEvent h now w fullPath fmod).2)
    by (rewrite Hrep; left).
  apply handleEvent_reports in Hin. destruct Hin as (w1 & ev & Hw1 & Hin).
  rewrite Hparse in Hin. simpl in Hin.
  rewrite Hlearn in Hin; [inversion Hin|].
  right. intros grp Hg. apply Hage. destruct Hw1 as (_&_&_&_&Hgr). rewrite <- Hgr. exact Hg.
Qed.

(** ** The path of a report *)

Lemma Index_first_index (s sub : string) (i : nat) :
  sub <> "" ->
  GoStrings.Index s sub = Z.of_nat i <-> first_index s sub i.
Proof.
  intros Hne. unfold GoStrings.Index, first_index.
  destruct (String.index 0 sub s) as [m|] eqn:Hidx.
  - split.
    + intros Hm. apply Nat2Z.inj in Hm. subst m. split.
      * eapply index_correct1; exact Hidx.
      * intros j Hj. eapply index_correct2; [exact Hidx|lia|exact Hj].
    + intros [Hat Hmin]. f_equal.
      destruct (lt_eq_lt_dec m i) as [[Hlt|Heq]|Hgt]; [|exact Heq|].
      * exfalso. apply (Hmin m Hlt). eapply index_correct1; exact Hidx.
      * exfalso. eapply index_correct2; [exact Hidx| |exact Hgt|exact Hat]. lia.
  - split.
    + intros Hm. lia.
    + intros [Hat _]. exfalso.
      eapply index_correct3; [exact Hidx|exact Hne| |exact Hat]. lia.
Qed.

Lemma Index_range (s sub : string) :
  GoStrings.Index s sub = (-1)%Z \/ exists i, GoStrings.Index s sub = Z.of_nat i.
Proof.
  unfold GoStrings.Index. destruct (String.index 0 sub s) as [m|]; [right; eauto|left; reflexivity].
Qed.

Lemma report_path_spec (path link : string) :
  link <> "" ->
  (forall i, first_index link "/root/" i -> (0 < i)%nat ->
             report_path path link = GoStrings.slice_from link (i + 5))
  /\ ((forall i, first_index link "/root/" i -> i = 0%nat) -> report_path path link = link).
Proof.
  intros Hlink. unfold report_path.
  destruct (String.eqb_spec link "") as [He|_]; [contradiction|]. simpl.
  split.
  - intros i Hi Hpos. apply Index_first_index in Hi; [|discriminate].
    rewrite Hi. destruct (Z.ltb_spec 0 (Z.of_nat i)) as [_|Hle]; [|lia].
    f_equal. lia.
  - intros Hfirst.
    destruct (Index_range link "/root/") as [Hnone|[i Hi]].
    + rewrite Hnone. reflexivity.
    + pose proof Hi as Hi'. apply Index_first_index in Hi'; [|discriminate].
      apply Hfirst in Hi'. subst i. rewrite Hi. reflexivity.
Qed.

(** C9: when the [FileInfoExt] of a classified event carries a non-empty
    [Link], every monitor message sent for the event reports the link target
    and not the event path; and when "/root/" occurs in the link target,
    first at a positive index [i], the reported path is the link target
    from index [i + 5] on, the "/" just after that "/root". *)
Theorem report_carries_link_target (w : FileWatch) (rootPid : Z) (fmod : fileMod)
  (path : string) (event now : Z) (link : string) (msg : MonitorMessage) :
  fi_Link (finfos w !!! fm_finfo fmod) = link ->
  link <> "" ->
  msg ∈ reports (learnFromEvents w rootPid fmod path event now).2 ->
  msg_Path msg = report_path path link
  /\ (forall i, first_index link "/root/" i -> (0 < i)%nat ->
                msg_Path msg = GoStrings.slice_from link (i + 5))
  /\ ((forall i, first_index link "/root/" i -> i = 0%nat) -> msg_Path msg = link).
Proof.
  intros Hl Hne Hin.
  assert (Hp : msg_Path msg = report_path path link).
  { rewrite learnFromEvents_reports in Hin.
    destruct (groups w !! rootPid) as [grp|]; [|inversion Hin].
    repeat case_match; try (inversion Hin; fail).
    apply sendMsg_path in Hin. rewrite Hl in Hin. apply Hin. }
  split; [exact Hp|]. rewrite Hp. apply report_path_spec. exact Hne.
Qed.

(** ** Starting a watch *)

Lemma watch_flags_spec (w : FileWatch) (m : string) (rootPid : Z) (capBlock nv : bool)
  (access perm : bool) :
  watch_flags w m rootPid capBlock nv = (access, perm) ->
  (perm = true <-> m = PolicyModeEnforce /\ aufs w = false /\ capBlock = true)
  /\ (access = true <->
      perm = false /\ rootPid <> 1%Z /\ nv = false /\ m = PolicyModeLearn).
Proof.
  unfold watch_flags.
  destruct (String.eqb_spec m PolicyModeEnforce) as [He|He];
    destruct (aufs w); destruct capBlock; simpl;
    destruct (Z.eqb_spec rootPid 1) as [Hp|Hp]; destruct nv; simpl;
    destruct (String.eqb_spec m PolicyModeLearn) as [Hl|Hl];
    intros [= <- <-]; (split; split); intros; intuition congruence.
Qed.

Lemma UpdateAccessRules_enabled (w : FileWatch) (name : string) (rootPid : Z)
  (conf : CLUSFileAccessRule) (grp : groupInfo) :
  bEnable w = true -> groups w !! rootPid = Some grp ->
  UpdateAccessRules w name rootPid conf =
  (set_groups (<[rootPid := set_applyRules (apply_rules_of conf) grp]> (groups w)) w,
   [FaUpdateAccessRule rootPid conf]).
Proof. intros Hen Hg. unfold UpdateAccessRules. rewrite Hen, Hg. reflexivity. Qed.

(** C4: a [StartWatch] on an enabled watcher with a valid root pid takes
    [Learn] for an empty profile mode, keeps that mode in the group, and
    calls [SetMode] with [perm] true exactly when the mode is [Enforce], the
    file system is not AUFS and [capBlock] holds, and with [access] true
    only when [perm] is false, the root pid is not 1, the container is not
    the agent's own and the mode is [Learn] (and always then). *)
Theorem StartWatch_mode_and_flags (h : Host) (now : Z) (w : FileWatch) (id : string)
  (rootPid : Z) (conf : FsmonConfig) (capBlock bNeuvectorSvc : bool) :
  bEnable w = true -> IsPidValid h rootPid = true ->
  exists m access perm calls g,
    m = (if String.eqb (prf_Mode (cfg_Profile conf)) "" then PolicyModeLearn
         else prf_Mode (cfg_Profile conf))
    /\ (StartWatch h now w id rootPid conf capBlock bNeuvectorSvc).2
       = FaSetMode rootPid access perm capBlock bNeuvectorSvc :: calls
    /\ groups (StartWatch h now w id rootPid conf capBlock bNeuvectorSvc).1 !! rootPid = Some g
    /\ mode g = m /\ prf_Mode (profile g) = m
    /\ (perm = true <-> m = PolicyModeEnforce /\ aufs w = false /\ capBlock = true)
    /\ (access = true <->
        perm = false /\ rootPid <> 1%Z /\ bNeuvectorSvc = false /\ m = PolicyModeLearn).
Proof.
  intros Hen Hpid. unfold StartWatch. rewrite Hen, Hpid. simpl.
  set (prf := if String.eqb (prf_Mode (cfg_Profile conf)) ""
              then set_prf_Mode PolicyModeLearn (cfg_Profile conf) else cfg_Profile conf).
  assert (Hm : prf_Mode prf
               = if String.eqb (prf_Mode (cfg_Profile conf)) "" then PolicyModeLearn
                 else prf_Mode (cfg_Profile conf)).
  { unfold prf. destruct (String.eqb _ ""); reflexivity. }
  destruct (watch_flags w (prf_Mode prf) rootPid capBlock bNeuvectorSvc)
    as [access perm] eqn:Hflags.
  apply watch_flags_spec in Hflags. destruct Hflags as [Hperm Hacc].
  destruct (getCoreFile h w id rootPid prf) as [[w0 dirs] files] eqn:Hcore.
  destruct (addCoreFile w0 (negb bNeuvectorSvc) id dirs files) as [w0' calls] eqn:Hadd.
  destruct (StartWatch_targets _ _ _ _ _ _ _ _ _ _ _ Hcore Hadd) as (Hen0 & _).
  rewrite <- Hen0 in Hen.
  set (grp := match groups w0' !! rootPid with
              | Some grp => grp
              | None => _
              end).
  set (w1 := set_groups _ _).
  assert (Hg1 : groups w1 !! rootPid = Some (set_profile_mode prf (prf_Mode prf) grp)).
  { unfold w1. simpl. apply lookup_insert_eq. }
  exists (prf_Mode prf), access, perm.
  destruct (bNeuvectorSvc || (rootPid =? 1)%Z) eqn:Hskip.
  - exists (calls ++ [FaStartMonitor rootPid]), (set_profile_mode prf (prf_Mode prf) grp).
    split; [exact Hm|]. split; [reflexivity|]. split; [exact Hg1|].
    split; [reflexivity|]. split; [reflexivity|]. split; assumption.
  - destruct (cfg_Rule conf) as [rule|].
    + rewrite (UpdateAccessRules_enabled w1 _ rootPid rule _ Hen Hg1).
      exists ((calls ++ [FaStartMonitor rootPid]) ++ [FaUpdateAccessRule rootPid rule]),
        (set_applyRules (apply_rules_of rule) (set_profile_mode prf (prf_Mode prf) grp)).
      split; [exact Hm|]. split; [reflexivity|].
      split; [simpl; apply lookup_insert_eq|].
      split; [reflexivity|]. split; [reflexivity|]. split; assumption.
    + exists (calls ++ [FaStartMonitor rootPid]), (set_profile_mode prf (prf_Mode prf) grp).
      split; [exact Hm|]. split; [reflexivity|]. split; [exact Hg1|].
      split; [reflexivity|]. split; [reflexivity|]. split; assumption.
Qed.

(** ** Learning touches the learned rules only *)

Lemma same_fields_refl (g : groupInfo) : same_fields g g.
Proof. repeat split. Qed.

Lemma same_fields_trans (g1 g2 g3 : groupInfo) :
  same_fields g1 g2 -> same_fields g2 g3 -> same_fields g1 g3.
Proof. unfold same_fields. intros (?&?&?&?&?) (?&?&?&?&?). repeat split; congruence. Qed.

Lemma addLearnedRules_fields (g : groupInfo) (flt : CLUSFileMonitorFilter)
  (pInfo : list ProcInfo) :
  same_fields g (addLearnedRules g flt pInfo).
Proof. unfold addLearnedRules. repeat case_match; repeat split. Qed.

Lemma learn_filters_fields (path : string) (pInfo : list ProcInfo)
  (filters : list CLUSFileMonitorFilter) (g : groupInfo) :
  same_fields g (learn_filters path pInfo g filters).
Proof.
  revert g. induction filters as [|flt filters IH]; intros g; simpl.
  - apply same_fields_refl.
  - eapply same_fields_trans; [|apply IH].
    case_match; [apply addLearnedRules_fields|apply same_fields_refl].
Qed.

Lemma learned_group_fields (g : groupInfo) (fmod : fileMod) (path : string) :
  same_fields g (learned_group g fmod path).
Proof.
  unfold learned_group. case_match; [|apply same_fields_refl].
  eapply same_fields_trans; apply learn_filters_fields.
Qed.

Lemma learnFromEvents_state (w : FileWatch) (rootPid : Z) (fmod : fileMod) (path : string)
  (event now : Z) :
  (learnFromEvents w rootPid fmod path event now).1 =
  match groups w !! rootPid with
  | None => w
  | Some g =>
      if String.eqb (mode g) PolicyModeLearn && (0 <? length (fm_pInfo fmod))%nat
      then set_groups (<[rootPid := learned_group g fmod path]> (groups w)) w
      else w
  end.
Proof.
  unfold learnFromEvents, learned_group.
  destruct (groups w !! rootPid) as [g|]; [|reflexivity].
  cbn zeta. destruct (String.eqb (mode g) PolicyModeLearn && _); repeat case_match; reflexivity.
Qed.

Lemma option_same_fields_refl (o : option groupInfo) : option_Forall2 same_fields o o.
Proof. destruct o; constructor. apply same_fields_refl. Qed.

Lemma only_learned_refl (w : FileWatch) : only_learned w w.
Proof. repeat split. intros pid. apply option_same_fields_refl. Qed.

Lemma only_learned_trans (w1 w2 w3 : FileWatch) :
  only_learned w1 w2 -> only_learned w2 w3 -> only_learned w1 w3.
Proof.
  unfold only_learned. intros (?&?&?&H12) (?&?&?&H23).
  repeat split; try congruence.
  intros pid. specialize (H12 pid). specialize (H23 pid).
  destruct H12 as [g1 g2 Ha|]; inversion H23; subst; constructor.
  eapply same_fields_trans; eassumption.
Qed.

Lemma only_finfos_learned (w w' : FileWatch) : only_finfos w w' -> only_learned w w'.
Proof.
  intros (?&?&?&?&Hg). repeat split; try assumption.
  intros pid. rewrite Hg. apply option_same_fields_refl.
Qed.

Lemma learnFromEvents_only_learned (w : FileWatch) (rootPid : Z) (fmod : fileMod)
  (path : string) (event now : Z) :
  only_learned w (learnFromEvents w rootPid fmod path event now).1
  /\ finfos (learnFromEvents w rootPid fmod path event now).1 = finfos w.
Proof.
  rewrite learnFromEvents_state.
  destruct (groups w !! rootPid) as [g|] eqn:Hg; [|split; [apply only_learned_refl|reflexivity]].
  case_match; [|split; [apply only_learned_refl|reflexivity]].
  split; [|reflexivity]. repeat split. simpl. intros pid.
  destruct (decide (rootPid = pid)) as [->|Hne].
  - rewrite lookup_insert_eq, Hg. constructor. apply learned_group_fields.
  - rewrite lookup_insert_ne by exact Hne. apply option_same_fields_refl.
Qed.

(** One pending event, as the flush handles it: the classifier, then
    [learnFromEvents] on the state the classifier left. *)
Lemma handleEvent_unfold (h : Host) (now : Z) (w : FileWatch) (fullPath : string)
  (fmod : fileMod) :
  let pid := (ParseContainerFilePath fullPath).1 in
  let path := (ParseContainerFilePath fullPath).2 in
  let r := if os.IsDir (fi_FileMode (finfos w !!! fm_finfo fmod))
              || match Lstat h fullPath with Some m => os.IsDir m | None => false end
           then handleDirEvents h w fmod (Lstat h fullPath) fullPath path pid
           else handleFileEvents h w fmod (Lstat h fullPath) fullPath pid in
  handleEvent h now w fullPath fmod =
  if IsPidValid h pid then
    if negb (r.2 =? 0)%Z then
      ((learnFromEvents r.1.1 pid fmod path r.2 now).1,
       r.1.2 ++ (learnFromEvents r.1.1 pid fmod path r.2 now).2)
    else r.1
  else (w, []).
Proof.
  unfold handleEvent. destruct (ParseContainerFilePath fullPath) as [pid path]. simpl.
  destruct (IsPidValid h pid); [|reflexivity].
  destruct (if _ : bool then _ else _) as [[w1 effs] event]. simpl.
  destruct (negb (event =? 0)%Z); [|reflexivity].
  destruct (learnFromEvents w1 pid fmod path event now); reflexivity.
Qed.

Lemma classifier_frame (h : Host) (w : FileWatch) (fmod : fileMod) (info : option Z)
  (fullPath path : string) (pid : Z) (b : bool) :
  let r := if b then handleDirEvents h w fmod info fullPath path pid
           else handleFileEvents h w fmod info fullPath pid in
  only_finfos w r.1.1 /\ reports r.1.2 = [].
Proof. destruct b; [apply handleDirEvents_frame|apply handleFileEvents_frame]. Qed.

Lemma handleEvent_only_learned (h : Host) (now : Z) (w : FileWatch) (fullPath : string)
  (fmod : fileMod) :
  only_learned w (handleEvent h now w fullPath fmod).1.
Proof.
  pose proof (handleEvent_unfold h now w fullPath fmod) as Hu. cbn zeta in Hu. rewrite Hu.
  destruct (IsPidValid h _); [|apply only_learned_refl].
  match goal with |- context [negb (?r.2 =? 0)%Z] => set (res := r) end.
  pose proof (classifier_frame h w fmod (Lstat h fullPath) fullPath
                (ParseContainerFilePath fullPath).2 (ParseContainerFilePath fullPath).1
                (os.IsDir (fi_FileMode (finfos w !!! fm_finfo fmod))
                 || match Lstat h fullPath with Some m => os.IsDir m | None => false end))
    as [Hf _].
  fold res in Hf.
  destruct (negb (res.2 =? 0)%Z); simpl.
  - eapply only_learned_trans; [apply only_finfos_learned; exact Hf|].
    apply learnFromEvents_only_learned.
  - apply only_finfos_learned. exact Hf.
Qed.

Lemma handleEvents_cons (h : Host) (now : Z) (w : FileWatch) (fullPath : string)
  (fmod : fileMod) (events : list (string * fileMod)) :
  handleEvents h now w ((fullPath, fmod) :: events) =
  ((handleEvents h now (handleEvent h now w fullPath fmod).1 events).1,
   (handleEvent h now w fullPath fmod).2
   ++ (handleEvents h now (handleEvent h now w fullPath fmod).1 events).2).
Proof.
  unfold handleEvents. simpl.
  destruct (handleEvent h now w fullPath fmod) as [w1 e1]. simpl.
  assert (Hacc : forall evs w0 acc,
    foldl (fun '(w, effs) '(fullPath, fmod) =>
             let '(w', effs') := handleEvent h now w fullPath fmod in (w', effs ++ effs'))
          (w0, acc) evs
    = ((foldl (fun '(w, effs) '(fullPath, fmod) =>
                 let '(w', effs') := handleEvent h now w fullPath fmod in (w', effs ++ effs'))
              (w0, []) evs).1,
       acc ++ (foldl (fun '(w, effs) '(fullPath, fmod) =>
                        let '(w', effs') := handleEvent h now w fullPath fmod in
                        (w', effs ++ effs'))
                     (w0, []) evs).2)).
  { induction evs as [|[fp fm] evs IH]; intros w0 acc; simpl.
    - rewrite app_nil_r. reflexivity.
    - destruct (handleEvent h now w0 fp fm) as [w' e']. simpl.
      rewrite (IH w' (acc ++ e')), (IH w' e'). simpl. rewrite app_assoc. reflexivity. }
  apply Hacc.
Qed.

Lemma handleEvents_only_learned (h : Host) (now : Z) (events : list (string * fileMod))
  (w : FileWatch) :
  only_learned w (handleEvents h now w events).1.
Proof.
  revert w. induction events as [|[fp fm] events IH]; intros w.
  - apply only_learned_refl.
  - rewrite handleEvents_cons. simpl.
    eapply only_learned_trans; [apply handleEvent_only_learned|apply IH].
Qed.

Lemma UpdateAccessRules_bEnable (w : FileWatch) (name : string) (rootPid : Z)
  (conf : CLUSFileAccessRule) :
  bEnable (UpdateAccessRules w name rootPid conf).1 = bEnable w.
Proof. unfold UpdateAccessRules. repeat case_match; reflexivity. Qed.

Lemma StartWatch_bEnable (h : Host) (now : Z) (w : FileWatch) (id : string) (rootPid : Z)
  (conf : FsmonConfig) (capBlock nv : bool) :
  bEnable (StartWatch h now w id rootPid conf capBlock nv).1 = bEnable w.
Proof.
  unfold StartWatch.
  destruct (negb (bEnable w)); [reflexivity|].
  destruct (negb (IsPidValid h rootPid)); [reflexivity|].
  set (prf := if String.eqb (prf_Mode (cfg_Profile conf)) ""
              then set_prf_Mode PolicyModeLearn (cfg_Profile conf) else cfg_Profile conf).
  destruct (watch_flags w (prf_Mode prf) rootPid capBlock nv) as [access perm].
  destruct (getCoreFile h w id rootPid prf) as [[w0 dirs] files] eqn:Hcore.
  destruct (addCoreFile w0 (negb nv) id dirs files) as [w0' calls] eqn:Hadd.
  destruct (StartWatch_targets _ _ _ _ _ _ _ _ _ _ _ Hcore Hadd) as (Hen0 & _).
  set (w1 := set_groups _ _).
  assert (Hen1 : bEnable w1 = bEnable w) by exact Hen0.
  destruct (nv || (rootPid =? 1)%Z); [exact Hen1|].
  destruct (cfg_Rule conf) as [rule|]; [|exact Hen1].
  pose proof (UpdateAccessRules_bEnable w1 (prf_Group prf) rootPid rule) as Hup.
  destruct (UpdateAccessRules w1 (prf_Group prf) rootPid rule) as [w2 effs'].
  simpl in *. congruence.
Qed.

Lemma run_op_bEnable (op : Op) (w : FileWatch) : bEnable (run_op op w).1 = bEnable w.
Proof.
  destruct op as [h now id rootPid conf capBlock nv|name rootPid conf|rootPid bLeave
                 |filePath mask params pInfo|h now|]; simpl.
  - apply StartWatch_bEnable.
  - unfold UpdateAccessRules. repeat case_match; reflexivity.
  - unfold ContainerCleanup. repeat case_match; reflexivity.
  - unfold cbNotify. repeat case_match; reflexivity.
  - unfold HandleWatchedFiles.
    destruct (handleEvents_only_learned h now (map_to_list (fileEvents w))
                (set_fileEvents ∅ w)) as [Hb _].
    rewrite Hb. reflexivity.
  - reflexivity.
Qed.

(** A disabled watcher never holds a group or a pending event. *)
Lemma reachable_disabled_empty (w : FileWatch) :
  reachable w -> bEnable w = false -> groups w = ∅ /\ fileEvents w = ∅.
Proof.
  induction 1 as [en au nv|w op Hr IH Hallowed]; intros Hoff.
  - split; reflexivity.
  - rewrite run_op_bEnable in Hoff. specialize (IH Hoff).
    destruct op as [h now id rootPid conf capBlock nvs|name rootPid conf|rootPid bLeave
                   |filePath mask params pInfo|h now|]; simpl in *; try congruence.
    + unfold StartWatch. rewrite Hoff. exact IH.
    + unfold UpdateAccessRules. rewrite Hoff. exact IH.
    + unfold ContainerCleanup. rewrite Hoff. exact IH.
Qed.

(** [HandleWatchedFiles] and [SendNVProcessAlert] make no test of [bEnable];
    on a disabled watcher they find no pending event and no group, and do
    nothing. *)
Lemma disabled_watcher_unguarded_operations (h : Host) (now : Z) (w : FileWatch)
  (rootPid ppid : Z) (cid path ppath : string) :
  reachable w -> bEnable w = false ->
  HandleWatchedFiles h now w = (w, [])
  /\ SendNVProcessAlert w rootPid ppid cid path ppath = [].
Proof.
  intros Hr Hoff. destruct (reachable_disabled_empty w Hr Hoff) as [Hg He]. split.
  - unfold HandleWatchedFiles. rewrite He, map_to_list_empty. unfold handleEvents.
    cbn [foldl]. f_equal. destruct w; cbn in *; subst; reflexivity.
  - unfold SendNVProcessAlert. rewrite Hg, lookup_empty. reflexivity.
Qed.

(** ** Cleaning up after a container *)

(** C6: in every reachable state, after [ContainerCleanup(rootPid, true)] the
    groups hold no entry under [rootPid] and the pending events hold no path
    of that container (no path that [ParseContainerFilePath] places under
    its /proc/<rootPid>/root); after [ContainerCleanup(rootPid, false)] on an
    existing group the entry is kept, its learned and applied rules are
    empty maps, and its profile, mode, start time and agent flag are as
    before. *)
Theorem ContainerCleanup_leaves_no_residue (w : FileWatch) (rootPid : Z) :
  reachable w ->
  (groups (ContainerCleanup w rootPid true).1 !! rootPid = None
   /\ forall path bLeave,
        (ParseContainerFilePath path).1 = rootPid ->
        fileEvents (ContainerCleanup w rootPid bLeave).1 !! path = None)
  /\ (forall grp,
        groups w !! rootPid = Some grp ->
        exists grp',
          groups (ContainerCleanup w rootPid false).1 !! rootPid = Some grp'
          /\ learnRules grp' = ∅ /\ applyRules grp' = ∅
          /\ profile grp' = profile grp /\ mode grp' = mode grp
          /\ startAt grp' = startAt grp /\ bNeuvector grp' = bNeuvector grp).
Proof.
  intros Hr. unfold ContainerCleanup.
  destruct (bEnable w) eqn:Hen; simpl.
  - split; [split|].
    + destruct (groups w !! rootPid) as [grp|] eqn:Hg; simpl.
      * apply lookup_delete_eq.
      * exact Hg.
    + intros path bLeave Hpid. simpl.
      apply map_lookup_filter_None. right. intros fm _ Hne. simpl in Hne.
      apply Hne. exact Hpid.
    + intros grp Hg. rewrite Hg. simpl. eexists. rewrite lookup_insert_eq.
      split; [reflexivity|]. repeat split.
  - destruct (reachable_disabled_empty w Hr Hen) as [Hg He].
    split; [split|].
    + rewrite Hg. apply lookup_empty.
    + intros path bLeave _. rewrite He. apply lookup_empty.
    + intros grp Hgrp. rewrite Hg, lookup_empty in Hgrp. discriminate.
Qed.

(** ** A file created and deleted within one window *)

Lemma object_kept_refl (same : Prop) (l : loc) (w : FileWatch) : object_kept same l w w.
Proof. intros x Hx. exists x. repeat split; auto. Qed.

Lemma object_kept_finfos (same : Prop) (l : loc) (w w' : FileWatch) :
  finfos w' = finfos w -> object_kept same l w w'.
Proof. intros Heq x Hx. exists x. rewrite Heq. repeat split; auto. Qed.

Lemma object_kept_trans (P Q : Prop) (l : loc) (w1 w2 w3 : FileWatch) :
  object_kept P l w1 w2 -> object_kept Q l w2 w3 -> object_kept (P /\ Q) l w1 w3.
Proof.
  intros H12 H23 x Hx. destruct (H12 x Hx) as (x2 & Hx2 & Hc2 & Hl2 & Hs2).
  destruct (H23 x2 Hx2) as (x3 & Hx3 & Hc3 & Hl3 & Hs3).
  exists x3. split; [exact Hx3|]. split; [congruence|]. split; [congruence|].
  intros [HP HQ]. rewrite (Hs3 HQ). exact (Hs2 HP).
Qed.

Lemma object_kept_weaken (P Q : Prop) (l : loc) (w w' : FileWatch) :
  (Q -> P) -> object_kept P l w w' -> object_kept Q l w w'.
Proof.
  intros HQP Hk x Hx. destruct (Hk x Hx) as (x' & Hx' & Hc & Hl & Hs).
  exists x'. repeat split; auto.
Qed.

Lemma object_kept_update (f : FileInfoExt -> FileInfoExt) (l0 l : loc) (w : FileWatch) :
  (forall y, fi_ContainerId (f y) = fi_ContainerId y /\ fi_Link (f y) = fi_Link y) ->
  object_kept (l0 <> l) l w (update_finfo f l0 w).
Proof.
  intros Hf x Hx. unfold update_finfo. cbn [finfos set_finfos].
  destruct (decide (l0 = l)) as [->|Hne].
  - rewrite lookup_insert_eq. eexists. split; [reflexivity|].
    rewrite (lookup_total_correct _ _ _ Hx). destruct (Hf x) as [Hc Hl].
    split; [exact Hc|]. split; [exact Hl|]. intros Hneq. contradiction.
  - rewrite lookup_insert_ne by exact Hne. exists x. repeat split; auto.
Qed.

Lemma object_kept_add_new_dir (same : Prop) (h : Host) (w : FileWatch) (finfo : loc)
  (fullPath path : string) (pid : Z) (l : loc) :
  object_kept same l w (add_new_dir h w finfo fullPath path pid).1.
Proof.
  intros x Hx. exists x. split; [apply add_new_dir_keeps; exact Hx|]. repeat split; auto.
Qed.

Lemma handleDirEvents_object (h : Host) (w : FileWatch) (fmod : fileMod) (info : option Z)
  (fullPath path : string) (pid : Z) (l : loc) :
  object_kept (fm_finfo fmod <> l) l w (handleDirEvents h w fmod info fullPath path pid).1.1.
Proof.
  unfold handleDirEvents.
  repeat case_match; cbn [fst];
    try apply object_kept_refl;
    try apply object_kept_add_new_dir;
    try (apply object_kept_update; intros y; split; reflexivity).
  eapply object_kept_weaken;
    [|eapply object_kept_trans;
        [apply (object_kept_update (fun fi => set_fi_FileMode z (set_fi_Path fullPath fi))
                  (fm_finfo fmod) l w); intros y; split; reflexivity
        |apply (object_kept_add_new_dir True)]].
  intros Hne. split; [exact Hne|exact I].
Qed.

Lemma handleFileEvents_object (h : Host) (w : FileWatch) (fmod : fileMod) (info : option Z)
  (fullPath : string) (pid : Z) (l : loc) :
  object_kept (fm_finfo fmod <> l) l w (handleFileEvents h w fmod info fullPath pid).1.1.
Proof.
  unfold handleFileEvents.
  repeat case_match; cbn [fst];
    try apply object_kept_refl;
    try (apply object_kept_update; intros y; split; reflexivity).
Qed.

Lemma learnFromEvents_finfos (w : FileWatch) (rootPid : Z) (fmod : fileMod) (path : string)
  (event now : Z) :
  finfos (learnFromEvents w rootPid fmod path event now).1 = finfos w.
Proof. rewrite learnFromEvents_state. repeat case_match; reflexivity. Qed.

Lemma handleEvent_object (h : Host) (now : Z) (w : FileWatch) (fullPath : string)
  (fmod : fileMod) (l : loc) :
  object_kept (fm_finfo fmod <> l) l w (handleEvent h now w fullPath fmod).1.
Proof.
  pose proof (handleEvent_unfold h now w fullPath fmod) as Hu. cbn zeta in Hu. rewrite Hu.
  destruct (IsPidValid h _); [|apply object_kept_refl].
  match goal with |- context [negb (?r.2 =? 0)%Z] => set (res := r) end.
  assert (Hres : object_kept (fm_finfo fmod <> l) l w res.1.1).
  { unfold res. destruct (_ || _); [apply handleDirEvents_object|apply handleFileEvents_object]. }
  destruct (negb (res.2 =? 0)%Z); cbn [fst]; [|exact Hres].
  eapply object_kept_weaken;
    [|eapply object_kept_trans;
        [exact Hres|apply (object_kept_finfos True); apply learnFromEvents_finfos]].
  intros Hne. split; [exact Hne|exact I].
Qed.

Lemma handleEvents_object (h : Host) (now : Z) (events : list (string * fileMod))
  (w : FileWatch) (l : loc) :
  object_kept (Forall (fun kv => fm_finfo kv.2 <> l) events) l w
    (handleEvents h now w events).1.
Proof.
  revert w. induction events as [|[fp fm] events IH]; intros w.
  - apply object_kept_refl.
  - rewrite handleEvents_cons. cbn [fst].
    eapply object_kept_weaken;
      [|eapply object_kept_trans; [apply (handleEvent_object h now w fp fm l)|apply IH]].
    intros Hall. inversion Hall; subst. split; assumption.
Qed.

Lemma handleEvents_app (h : Host) (now : Z) (w : FileWatch)
  (e1 e2 : list (string * fileMod)) :
  handleEvents h now w (e1 ++ e2)
  = ((handleEvents h now (handleEvents h now w e1).1 e2).1,
     (handleEvents h now w e1).2 ++ (handleEvents h now (handleEvents h now w e1).1 e2).2).
Proof.
  revert w. induction e1 as [|[fp fm] e1 IH]; intros w.
  - cbn [app]. change (handleEvents h now w []) with (w, @nil Effect). cbn [fst snd app].
    destruct (handleEvents h now w e2); reflexivity.
  - rewrite <- app_comm_cons, !handleEvents_cons, IH. cbn [fst snd].
    rewrite app_assoc. reflexivity.
Qed.

(** The classifiers on a path that is gone, for a mask without a move bit. *)
Lemma classify_gone (h : Host) (w : FileWatch) (fmod : fileMod) (fullPath path : string)
  (pid : Z) :
  mask_has (fm_mask fmod) inodeMovedMask = false ->
  (if os.IsDir (fi_FileMode (finfos w !!! fm_finfo fmod)) || false
   then handleDirEvents h w fmod None fullPath path pid
   else handleFileEvents h w fmod None fullPath pid)
  = (w,
     if os.IsDir (fi_FileMode (finfos w !!! fm_finfo fmod))
        && String.eqb fullPath (fi_Path (finfos w !!! fm_finfo fmod))
     then [] else removeFile fullPath,
     if os.IsDir (fi_FileMode (finfos w !!! fm_finfo fmod))
        && String.eqb fullPath (fi_Path (finfos w !!! fm_finfo fmod))
     then fileEventDirRemoved else fileEventRemoved).
Proof.
  intros Hmask. unfold handleDirEvents, handleFileEvents. rewrite Hmask.
  destruct (os.IsDir (fi_FileMode (finfos w !!! fm_finfo fmod))); cbn [orb andb];
    [|reflexivity].
  destruct (String.eqb fullPath (fi_Path (finfos w !!! fm_finfo fmod))); reflexivity.
Qed.

(** What [learnFromEvents] does with a removal. *)
Lemma learnFromEvents_removal (w : FileWatch) (rootPid : Z) (fmod : fileMod) (path : string)
  (now : Z) (b : bool) :
  (learnFromEvents w rootPid fmod path
     (if b then fileEventDirRemoved else fileEventRemoved) now).2
  = match groups w !! rootPid with
    | Some grp =>
        if isRunTimeAddedFile (filepath.Join2 "/root" path)
           && (now - startAt grp <? sixty_seconds)%Z
        then []
        else
          match fm_pInfo fmod with
          | [] =>
              [SendReport
                 (new_msg (fi_ContainerId (finfos w !!! fm_finfo fmod))
                    (report_path path (fi_Link (finfos w !!! fm_finfo fmod)))
                    (if b then fileEventDirRemoved else fileEventRemoved)
                    (if b then "Directory was deleted."
                     else "File deleted from watched directory."))]
          | _ =>
              sendMsg_procs (fi_ContainerId (finfos w !!! fm_finfo fmod))
                (report_path path (fi_Link (finfos w !!! fm_finfo fmod)))
                (if b then fileEventDirRemoved else fileEventRemoved)
                (if b then "Directory was deleted."
                 else "File deleted from watched directory.")
                None (fm_pInfo fmod)
          end
    | None => []
    end.
Proof.
  unfold learnFromEvents. destruct (groups w !! rootPid) as [grp|]; [|reflexivity].
  cbn zeta.
  assert (Hna : ((if b then fileEventDirRemoved else fileEventRemoved) =? fileEventAccessed)%Z
                = false) by (destruct b; reflexivity).
  assert (Hmsg : fileEventMsg !! (if b then fileEventDirRemoved else fileEventRemoved)
                 = Some (if b then "Directory was deleted."
                         else "File deleted from watched directory."))
    by (destruct b; vm_compute; reflexivity).
  rewrite Hna. cbn [orb negb].
  destruct (isRunTimeAddedFile _ && _); [reflexivity|].
  cbn [snd]. unfold sendMsg. rewrite Hmsg. reflexivity.
Qed.

Lemma handleEvent_gone (h : Host) (now : Z) (w : FileWatch) (fullPath : string)
  (fmod : fileMod) :
  mask_has (fm_mask fmod) inodeMovedMask = false ->
  Lstat h fullPath = None ->
  let pid := (ParseContainerFilePath fullPath).1 in
  let path := (ParseContainerFilePath fullPath).2 in
  let obj := finfos w !!! fm_finfo fmod in
  let gone_dir := os.IsDir (fi_FileMode obj) && String.eqb fullPath (fi_Path obj) in
  handleEvent h now w fullPath fmod
  = if IsPidValid h pid then
      ((learnFromEvents w pid fmod path
          (if gone_dir then fileEventDirRemoved else fileEventRemoved) now).1,
       (if gone_dir then [] else removeFile fullPath)
       ++ (learnFromEvents w pid fmod path
             (if gone_dir then fileEventDirRemoved else fileEventRemoved) now).2)
    else (w, []).
Proof.
  intros Hmask Hl pid path obj gone_dir.
  pose proof (handleEvent_unfold h now w fullPath fmod) as Hu. cbn zeta in Hu.
  rewrite Hu, Hl. fold pid path.
  destruct (IsPidValid h pid); [|reflexivity].
  rewrite (classify_gone h w fmod fullPath path pid Hmask). fold obj gone_dir.
  cbn [fst snd]. destruct gone_dir; reflexivity.
Qed.

Lemma sendMsg_procs_texts (cid path : string) (event : Z) (eventMsg : string)
  (prev : option ProcInfo) (pInfo : list ProcInfo) (msg : MonitorMessage) :
  msg ∈ reports (sendMsg_procs cid path event eventMsg prev pInfo) ->
  (msg_Msg msg = eventMsg /\ msg_Action msg = PolicyActionViolate)
  \/ (msg_Msg msg = "File access was denied." /\ msg_Action msg = PolicyActionDeny).
Proof.
  revert prev. induction pInfo as [|pi rest IH]; intros prev; cbn [sendMsg_procs].
  - intros Hin. inversion Hin.
  - rewrite reports_app, elem_of_app. intros [Hin|Hin]; [|eapply IH; exact Hin].
    case_bool_decide; cbn in Hin; [inversion Hin|].
    apply list_elem_of_singleton in Hin. subst msg. unfold proc_msg. cbn.
    destruct (pi_Deny pi); [right|left]; split; reflexivity.
Qed.

(** C7 (as the code has it): a pending path that is gone at the flush
    ([lstat] finds nothing), with a mask that holds no move bit (such as the
    mask of [IN_CREATE] and [IN_DELETE], with or without [IN_ISDIR]), is
    classified as removed: [fileEventDirRemoved], "Directory was deleted.",
    when the object of the event is a directory and the path is its path,
    and [fileEventRemoved], "File deleted from watched directory.", with
    the path released on both drivers, otherwise. When the root pid of the
    container is valid and its group exists, and unless the path is a
    runtime-added file of a group younger than 60 seconds, the flush sends
    for it one report of that kind, or one per process record (with "File
    access was denied." for a denied process); a dead root pid gives
    nothing, and a missing group or the runtime-added file gives no report.
    These are all the effects of the flush when the event is the only one
    pending; among other pending events they are a segment of its effects,
    the kind being decided on the object as the events handled before it
    left it: the object itself when no other pending event points to it. *)
Theorem created_then_deleted_is_reported_removed (h : Host) (now : Z) (w : FileWatch)
  (fullPath : string) (fmod : fileMod) :
  mask_has (fm_mask fmod) inodeMovedMask = false ->
  Lstat h fullPath = None ->
  let pid := (ParseContainerFilePath fullPath).1 in
  let path := (ParseContainerFilePath fullPath).2 in
  let l := fm_finfo fmod in
  let gone_dir := fun obj : FileInfoExt =>
    os.IsDir (fi_FileMode obj) && String.eqb fullPath (fi_Path obj) in
  let event := fun obj => if gone_dir obj then fileEventDirRemoved else fileEventRemoved in
  let text := fun obj =>
    if gone_dir obj then "Directory was deleted."
    else "File deleted from watched directory." in
  let sent := fun obj =>
    match fm_pInfo fmod with
    | [] =>
        [SendReport (new_msg (fi_ContainerId obj) (report_path path (fi_Link obj))
                       (event obj) (text obj))]
    | _ =>
        sendMsg_procs (fi_ContainerId obj) (report_path path (fi_Link obj))
          (event obj) (text obj) None (fm_pInfo fmod)
    end in
  let effs_of := fun obj =>
    if IsPidValid h pid then
      (if gone_dir obj then [] else removeFile fullPath)
      ++ match groups w !! pid with
         | Some grp =>
             if isRunTimeAddedFile (filepath.Join2 "/root" path)
                && (now - startAt grp <? sixty_seconds)%Z
             then []
             else sent obj
         | None => []
         end
    else [] in
  (handleEvent h now w fullPath fmod).2 = effs_of (finfos w !!! l)
  /\ finfos (handleEvent h now w fullPath fmod).1 = finfos w
  /\ (fileEvents w = {[fullPath := fmod]} ->
      (HandleWatchedFiles h now w).2 = effs_of (finfos w !!! l))
  /\ (fileEvents w !! fullPath = Some fmod ->
      exists w1 before after,
        (HandleWatchedFiles h now w).2 = before ++ effs_of (finfos w1 !!! l) ++ after
        /\ (forall x, finfos w !! l = Some x ->
              fi_ContainerId (finfos w1 !!! l) = fi_ContainerId x
              /\ fi_Link (finfos w1 !!! l) = fi_Link x)
        /\ ((forall fp fm, fileEvents w !! fp = Some fm -> fp <> fullPath ->
                           fm_finfo fm <> l) ->
            is_Some (finfos w !! l) -> finfos w1 !!! l = finfos w !!! l))
  /\ (forall obj, reports (sent obj) <> [])
  /\ (forall obj msg,
        msg ∈ reports (sent obj) ->
        msg_ID msg = fi_ContainerId obj
        /\ msg_Path msg = report_path path (fi_Link obj)
        /\ ((msg_Msg msg = text obj /\ msg_Action msg = PolicyActionViolate)
            \/ (msg_Msg msg = "File access was denied."
                /\ msg_Action msg = PolicyActionDeny))).
Proof.
  intros Hmask Hl pid path l gone_dir event text sent effs_of.
  assert (Hev : forall w',
             (forall p, option_Forall2 same_fields (groups w !! p) (groups w' !! p)) ->
             (handleEvent h now w' fullPath fmod).2 = effs_of (finfos w' !!! l)).
  { intros w' Hg. rewrite (handleEvent_gone h now w' fullPath fmod Hmask Hl).
    cbn zeta. fold pid path l. unfold effs_of.
    destruct (IsPidValid h pid); [|reflexivity]. cbn [snd]. f_equal.
    rewrite learnFromEvents_removal. specialize (Hg pid).
    destruct Hg as [g g' Hs|]; [|reflexivity].
    destruct Hs as (_&_&_&_&Hst). rewrite Hst. reflexivity. }
  split; [apply Hev; intros p; apply option_same_fields_refl|].
  split.
  { rewrite (handleEvent_gone h now w fullPath fmod Hmask Hl). cbn zeta.
    destruct (IsPidValid h _); [apply learnFromEvents_finfos|reflexivity]. }
  split.
  { intros Hsingle. unfold HandleWatchedFiles. rewrite Hsingle, map_to_list_singleton.
    rewrite handleEvents_cons. cbn [snd]. unfold handleEvents at 1. cbn [foldl snd].
    rewrite app_nil_r.
    apply (Hev (set_fileEvents ∅ w)). intros p. apply option_same_fields_refl. }
  split.
  { intros Hpending. apply elem_of_map_to_list in Hpending.
    destruct (list_elem_of_split _ _ Hpending) as (e1 & e2 & Heq).
    unfold HandleWatchedFiles. rewrite Heq, handleEvents_app, handleEvents_cons.
    cbn [fst snd].
    pose proof (handleEvents_only_learned h now e1 (set_fileEvents ∅ w)) as (_&_&_&Hg).
    pose proof (handleEvents_object h now e1 (set_fileEvents ∅ w) l) as Hobj.
    exists (handleEvents h now (set_fileEvents ∅ w) e1).1.
    eexists. eexists. split.
    { rewrite (Hev _ Hg). reflexivity. }
    split.
    - intros x Hx. destruct (Hobj x Hx) as (x' & Hx' & Hc & Hk & _).
      rewrite (lookup_total_correct _ _ _ Hx'). split; assumption.
    - intros Hunshared [x Hx]. destruct (Hobj x Hx) as (x' & Hx' & _ & _ & Hs).
      rewrite (lookup_total_correct _ _ _ Hx'), (lookup_total_correct _ _ _ Hx).
      apply Hs. apply Forall_forall. intros [fp fm] Hin. cbn [snd].
      apply (Hunshared fp fm).
      + apply elem_of_map_to_list. rewrite Heq. apply elem_of_app. left. exact Hin.
      + intros ->.
        pose proof (NoDup_fst_map_to_list (fileEvents w)) as Hnd.
        rewrite Heq, fmap_app in Hnd. apply NoDup_app in Hnd.
        destruct Hnd as (_ & Hdisj & _). apply (Hdisj fullPath).
        * apply list_elem_of_fmap. exists (fullPath, fm). split; [reflexivity|exact Hin].
        * rewrite fmap_cons. left. }
  split.
  { intros obj. unfold sent. destruct (fm_pInfo fmod) as [|pi rest];
      [discriminate|apply sendMsg_procs_nonempty]. }
  intros obj msg Hin. unfold sent in Hin.
  destruct (fm_pInfo fmod) as [|pi rest].
  - cbn in Hin. apply list_elem_of_singleton in Hin. subst msg.
    split; [reflexivity|]. split; [reflexivity|]. left. split; reflexivity.
  - destruct (sendMsg_procs_path _ _ _ _ _ _ _ Hin) as [Hp Hi].
    split; [exact Hi|]. split; [exact Hp|].
    exact (sendMsg_procs_texts _ _ _ _ _ _ _ Hin).
Qed.

(** ** The learning engine *)

Lemma learn_procs_elem (applied : gset string) (pInfo : list ProcInfo) (learned : gset string)
  (x : string) :
  x ∈ learn_procs applied learned pInfo <->
  x ∈ learned \/ ((x ∉ applied) /\ x <> "" /\ exists pf, pf ∈ pInfo /\ pi_Path pf = x).
Proof.
  unfold learn_procs. revert learned.
  induction pInfo as [|pf pInfo IH]; intros learned; simpl.
  - split; [auto|]. intros [Hx|(_ & _ & pf & Hpf & _)]; [exact Hx|inversion Hpf].
  - rewrite IH. clear IH.
    destruct (String.eqb_spec (pi_Path pf) "") as [Hempty|Hfull]; simpl.
    + split.
      * intros [Hx|(Ha & He & pf' & Hpf' & Hp)]; [auto|].
        right. repeat split; try assumption. exists pf'. split; [right; exact Hpf'|exact Hp].
      * intros [Hx|(Ha & He & pf' & Hpf' & Hp)]; [auto|].
        apply elem_of_cons in Hpf'. destruct Hpf' as [->|Hpf'].
        -- congruence.
        -- right. repeat split; try assumption. exists pf'. split; assumption.
    + repeat case_bool_decide; simpl.
      all: split;
        [ intros [Hx|(Ha & He & pf' & Hpf' & Hp)];
          [ first [ apply elem_of_union in Hx; destruct Hx as [Hx|Hx];
                    [ apply elem_of_singleton in Hx; subst x; right; repeat split;
                      try assumption; exists pf; split; [left|reflexivity]
                    | left; exact Hx ]
                  | left; exact Hx ]
          | right; repeat split; try assumption; exists pf'; split; [right; exact Hpf'|exact Hp] ]
        | intros [Hx|(Ha & He & pf' & Hpf' & Hp)];
          [ left; first [exact Hx | apply elem_of_union; right; exact Hx]
          | apply elem_of_cons in Hpf'; destruct Hpf' as [->|Hpf'];
            [ first [ left; apply elem_of_union; left; apply elem_of_singleton;
                      symmetry; exact Hp
                    | subst x; first [contradiction | left; assumption] ]
            | right; repeat split; try assumption; exists pf'; split; assumption ] ] ].
Qed.

Lemma learn_procs_disjoint (applied learned : gset string) (pInfo : list ProcInfo) :
  learned ## applied -> learn_procs applied learned pInfo ## applied.
Proof.
  intros Hd x Hx Ha. apply learn_procs_elem in Hx.
  destruct Hx as [Hx|(Hna & _)]; [exact (Hd x Hx Ha)|exact (Hna Ha)].
Qed.

Lemma learned_at_elem (g : groupInfo) (k x : string) :
  x ∈ learned_at g k <-> exists l, learnRules g !! k = Some l /\ x ∈ l.
Proof.
  unfold learned_at. destruct (learnRules g !! k) as [l|]; simpl.
  - split; [eauto|]. intros (l' & [= <-] & Hx). exact Hx.
  - split; [intros Hx; apply not_elem_of_empty in Hx; contradiction|].
    intros (l' & Hl & _). discriminate.
Qed.

Lemma size_zero_empty (X : gset string) : (0 <? size X)%nat = false -> X = ∅.
Proof.
  intros Hs. apply Nat.ltb_ge in Hs.
  apply leibniz_equiv. apply size_empty_inv. lia.
Qed.

Lemma addLearnedRules_other (g : groupInfo) (flt : CLUSFileMonitorFilter)
  (pInfo : list ProcInfo) (k : string) :
  k <> filterIndexKey flt \/ applyRules g !! filterIndexKey flt = None ->
  learnRules (addLearnedRules g flt pInfo) !! k = learnRules g !! k.
Proof.
  intros Hk. unfold addLearnedRules.
  destruct (applyRules g !! filterIndexKey flt) as [a|] eqn:Ha; [|reflexivity].
  destruct Hk as [Hk|Hk]; [|discriminate].
  case_match; [|reflexivity]. simpl. apply lookup_insert_ne. congruence.
Qed.

Lemma addLearnedRules_at (g : groupInfo) (flt : CLUSFileMonitorFilter)
  (pInfo : list ProcInfo) (a : gset string) :
  applyRules g !! filterIndexKey flt = Some a ->
  learned_at (addLearnedRules g flt pInfo) (filterIndexKey flt)
  = learn_procs a (learned_at g (filterIndexKey flt)) pInfo.
Proof.
  intros Ha. unfold addLearnedRules. rewrite Ha.
  fold (learned_at g (filterIndexKey flt)).
  destruct (0 <? size _)%nat eqn:Hs.
  - unfold learned_at at 1. simpl. rewrite lookup_insert_eq. reflexivity.
  - apply size_zero_empty in Hs. rewrite Hs.
    apply leibniz_equiv. intros x. split.
    + intros Hx. rewrite <- Hs. apply learn_procs_elem. left. exact Hx.
    + intros Hx. apply not_elem_of_empty in Hx. contradiction.
Qed.

Lemma addLearnedRules_mono (g : groupInfo) (flt : CLUSFileMonitorFilter)
  (pInfo : list ProcInfo) (k x : string) :
  x ∈ learned_at g k -> x ∈ learned_at (addLearnedRules g flt pInfo) k.
Proof.
  intros Hx.
  destruct (decide (k = filterIndexKey flt)) as [->|Hne].
  - destruct (applyRules g !! filterIndexKey flt) as [a|] eqn:Ha.
    + rewrite (addLearnedRules_at g flt pInfo a Ha). apply learn_procs_elem. left. exact Hx.
    + unfold learned_at. rewrite addLearnedRules_other by (right; exact Ha). exact Hx.
  - unfold learned_at. rewrite addLearnedRules_other by (left; exact Hne). exact Hx.
Qed.

Lemma addLearnedRules_disjoint (g : groupInfo) (flt : CLUSFileMonitorFilter)
  (pInfo : list ProcInfo) :
  grp_disjoint g -> grp_disjoint (addLearnedRules g flt pInfo).
Proof.
  intros Hd f l a Hl Ha.
  destruct (addLearnedRules_fields g flt pInfo) as (_&_&_&Happ&_). rewrite Happ in Ha.
  destruct (decide (f = filterIndexKey flt)) as [->|Hne].
  - pose proof (addLearnedRules_at g flt pInfo a Ha) as Hat.
    unfold learned_at at 1 in Hat. rewrite Hl in Hat. simpl in Hat. rewrite Hat.
    apply learn_procs_disjoint. unfold learned_at.
    destruct (learnRules g !! filterIndexKey flt) as [l0|] eqn:Hl0; simpl.
    + exact (Hd _ _ _ Hl0 Ha).
    + apply disjoint_empty_l.
  - rewrite addLearnedRules_other in Hl by (left; exact Hne). exact (Hd _ _ _ Hl Ha).
Qed.

Lemma learn_step_cases (path : string) (flt : CLUSFileMonitorFilter) :
  (flt_CustomerAdd flt && filterPathMatch path flt = true /\ learns_from path flt)
  \/ (flt_CustomerAdd flt && filterPathMatch path flt = false /\ ~ learns_from path flt).
Proof.
  unfold learns_from.
  destruct (flt_CustomerAdd flt), (filterPathMatch path flt); simpl;
    [left|right|right|right]; split; try reflexivity; try (split; reflexivity);
    intros [? ?]; discriminate.
Qed.

Lemma learn_filters_mono (path : string) (pInfo : list ProcInfo)
  (filters : list CLUSFileMonitorFilter) (g : groupInfo) (k x : string) :
  x ∈ learned_at g k -> x ∈ learned_at (learn_filters path pInfo g filters) k.
Proof.
  revert g. induction filters as [|flt filters IH]; intros g Hx; simpl; [exact Hx|].
  apply IH. case_match; [apply addLearnedRules_mono|]; exact Hx.
Qed.

Lemma learn_filters_disjoint (path : string) (pInfo : list ProcInfo)
  (filters : list CLUSFileMonitorFilter) (g : groupInfo) :
  grp_disjoint g -> grp_disjoint (learn_filters path pInfo g filters).
Proof.
  revert g. induction filters as [|flt filters IH]; intros g Hd; simpl; [exact Hd|].
  apply IH. case_match; [apply addLearnedRules_disjoint|]; exact Hd.
Qed.

Lemma learn_filters_adds (path : string) (pInfo : list ProcInfo)
  (filters : list CLUSFileMonitorFilter) (g : groupInfo) (flt : CLUSFileMonitorFilter)
  (a : gset string) (pf : ProcInfo) :
  flt ∈ filters -> learns_from path flt ->
  applyRules g !! filterIndexKey flt = Some a ->
  pf ∈ pInfo -> pi_Path pf <> "" -> pi_Path pf ∉ a ->
  pi_Path pf ∈ learned_at (learn_filters path pInfo g filters) (filterIndexKey flt).
Proof.
  intros Hin Hlf Ha Hpf Hne Hna. revert g Ha.
  induction filters as [|flt0 filters IH]; intros g Ha; [inversion Hin|].
  simpl. apply elem_of_cons in Hin. destruct Hin as [<-|Hin].
  - destruct (learn_step_cases path flt) as [[-> _]|[_ Hno]]; [|contradiction].
    apply learn_filters_mono. rewrite (addLearnedRules_at g flt pInfo a Ha).
    apply learn_procs_elem. right. repeat split; try assumption. exists pf. split; auto.
  - apply (IH Hin). case_match; [|exact Ha].
    destruct (addLearnedRules_fields g flt0 pInfo) as (_&_&_&Happ&_). rewrite Happ. exact Ha.
Qed.

Lemma learn_filters_other (path : string) (pInfo : list ProcInfo)
  (filters : list CLUSFileMonitorFilter) (g : groupInfo) (k : string) :
  (forall flt, flt ∈ filters -> learns_from path flt -> filterIndexKey flt <> k)
  \/ applyRules g !! k = None ->
  learnRules (learn_filters path pInfo g filters) !! k = learnRules g !! k.
Proof.
  revert g. induction filters as [|flt filters IH]; intros g Hk; simpl; [reflexivity|].
  rewrite IH.
  - destruct (learn_step_cases path flt) as [[-> Hlf]|[-> _]]; [|reflexivity].
    apply addLearnedRules_other.
    destruct Hk as [Hk|Hk].
    + left. intros ->. exact (Hk flt (list_elem_of_here _ _) Hlf eq_refl).
    + destruct (decide (k = filterIndexKey flt)) as [->|Hne]; [right; exact Hk|left; exact Hne].
  - destruct Hk as [Hk|Hk].
    + left. intros flt' Hin. apply Hk. right. exact Hin.
    + right. case_match; [|exact Hk].
      destruct (addLearnedRules_fields g flt pInfo) as (_&_&_&Happ&_). rewrite Happ. exact Hk.
Qed.

Lemma learn_filters_only (path : string) (pInfo : list ProcInfo)
  (filters : list CLUSFileMonitorFilter) (g : groupInfo) (k x : string) :
  x ∈ learned_at (learn_filters path pInfo g filters) k ->
  x ∈ learned_at g k
  \/ (exists flt a pf,
        flt ∈ filters /\ learns_from path flt /\ filterIndexKey flt = k
        /\ applyRules g !! k = Some a /\ (x ∉ a) /\ x <> ""
        /\ pf ∈ pInfo /\ pi_Path pf = x).
Proof.
  revert g. induction filters as [|flt filters IH]; intros g; simpl; [auto|].
  intros Hx. apply IH in Hx. clear IH.
  assert (Hweaken : forall g0,
    applyRules g0 = applyRules g ->
    (exists flt0 a pf,
       flt0 ∈ filters /\ learns_from path flt0 /\ filterIndexKey flt0 = k
       /\ applyRules g0 !! k = Some a /\ (x ∉ a) /\ x <> "" /\ pf ∈ pInfo /\ pi_Path pf = x) ->
    exists flt0 a pf,
       flt0 ∈ flt :: filters /\ learns_from path flt0 /\ filterIndexKey flt0 = k
       /\ applyRules g !! k = Some a /\ (x ∉ a) /\ x <> "" /\ pf ∈ pInfo /\ pi_Path pf = x).
  { intros g0 Happ (flt0 & a & pf & Hin & Hlf & Hkey & Ha & Hrest).
    exists flt0, a, pf. rewrite Happ in Ha. repeat split; try apply Hrest; try assumption.
    - right. exact Hin.
    - apply Hlf.
    - apply Hlf. }
  destruct (learn_step_cases path flt) as [[Hc Hlf]|[Hc _]]; rewrite Hc in Hx.
  - destruct (addLearnedRules_fields g flt pInfo) as (_&_&_&Happ&_).
    destruct Hx as [Hx|Hx]; [|right; exact (Hweaken _ Happ Hx)].
    destruct (decide (k = filterIndexKey flt)) as [->|Hne].
    + destruct (applyRules g !! filterIndexKey flt) as [a|] eqn:Ha.
      * rewrite (addLearnedRules_at g flt pInfo a Ha) in Hx.
        apply learn_procs_elem in Hx. destruct Hx as [Hx|(Hna & Hne & pf & Hpf & Hp)]; [auto|].
        right. exists flt, a, pf. repeat split; try assumption; try apply Hlf. left.
      * unfold learned_at in Hx. rewrite addLearnedRules_other in Hx by (right; exact Ha).
        left. exact Hx.
    + unfold learned_at in Hx. rewrite addLearnedRules_other in Hx by (left; exact Hne).
      left. exact Hx.
  - destruct Hx as [Hx|Hx]; [left; exact Hx|right; exact (Hweaken _ eq_refl Hx)].
Qed.

(** C2 (as the code has it): when an aggregated event with at least one
    process record is processed for a group in mode [Learn], then for every
    customer-added filter of the profile ([Filters] and [FiltersCRD]) whose
    match predicate accepts the path, and for whose key [apply_rules] has an
    entry, each process's non-empty path that is not in that entry is in
    [learn_rules] under the key afterwards; under a key without an entry in
    [apply_rules], or one no customer-added matching filter has,
    [learn_rules] is as before, and nothing else is learned; in another mode,
    or without a process record, the state is unchanged. *)
Theorem learnFromEvents_learns (w : FileWatch) (rootPid : Z) (fmod : fileMod)
  (path : string) (event now : Z) (g : groupInfo) :
  groups w !! rootPid = Some g ->
  (mode g = PolicyModeLearn -> fm_pInfo fmod <> [] ->
   exists g',
     groups (learnFromEvents w rootPid fmod path event now).1 !! rootPid = Some g'
     /\ applyRules g' = applyRules g
     /\ (forall flt a pf,
           flt ∈ prf_Filters (profile g) ++ prf_FiltersCRD (profile g) ->
           flt_CustomerAdd flt = true -> filterPathMatch path flt = true ->
           applyRules g !! filterIndexKey flt = Some a ->
           pf ∈ fm_pInfo fmod -> pi_Path pf <> "" -> pi_Path pf ∉ a ->
           exists l, learnRules g' !! filterIndexKey flt = Some l /\ pi_Path pf ∈ l)
     /\ (forall k,
           (forall flt,
              flt ∈ prf_Filters (profile g) ++ prf_FiltersCRD (profile g) ->
              flt_CustomerAdd flt = true -> filterPathMatch path flt = true ->
              filterIndexKey flt <> k)
           \/ applyRules g !! k = None ->
           learnRules g' !! k = learnRules g !! k)
     /\ (forall k l x,
           learnRules g' !! k = Some l -> x ∈ l ->
           (exists l0, learnRules g !! k = Some l0 /\ x ∈ l0)
           \/ (x <> "" /\ (exists pf, pf ∈ fm_pInfo fmod /\ pi_Path pf = x)
               /\ exists a, applyRules g !! k = Some a /\ x ∉ a)))
  /\ (mode g <> PolicyModeLearn \/ fm_pInfo fmod = [] ->
      (learnFromEvents w rootPid fmod path event now).1 = w).
Proof.
  intros Hg. rewrite learnFromEvents_state, Hg. split.
  - intros Hmode Hprocs.
    assert (Hcond : String.eqb (mode g) PolicyModeLearn
                    && (0 <? length (fm_pInfo fmod))%nat = true).
    { rewrite Hmode, String.eqb_refl. destruct (fm_pInfo fmod); [contradiction|reflexivity]. }
    rewrite Hcond. simpl. rewrite lookup_insert_eq.
    unfold learned_group. rewrite Hcond.
    set (g1 := learn_filters path (fm_pInfo fmod) g (prf_Filters (profile g))).
    set (g2 := learn_filters path (fm_pInfo fmod) g1 (prf_FiltersCRD (profile g))).
    destruct (learn_filters_fields path (fm_pInfo fmod) (prf_Filters (profile g)) g)
      as (_&_&_&Happ1&_). fold g1 in Happ1.
    destruct (learn_filters_fields path (fm_pInfo fmod) (prf_FiltersCRD (profile g)) g1)
      as (_&_&_&Happ2&_). fold g2 in Happ2.
    exists g2. split; [reflexivity|]. split; [congruence|]. split; [|split].
    + intros flt a pf Hin Hc Hm Ha Hpf Hne Hna.
      apply learned_at_elem. apply elem_of_app in Hin. destruct Hin as [Hin|Hin].
      * apply learn_filters_mono.
        apply (learn_filters_adds _ _ _ _ flt a pf); try assumption. split; assumption.
      * apply (learn_filters_adds _ _ _ _ flt a pf); try assumption; [split; assumption|].
        rewrite Happ1. exact Ha.
    + intros k Hk. unfold g2. rewrite learn_filters_other.
      * apply learn_filters_other. destruct Hk as [Hk|Hk]; [left|right; exact Hk].
        intros flt Hin [Hc Hm]. apply Hk; try assumption. apply elem_of_app. left. exact Hin.
      * destruct Hk as [Hk|Hk]; [left|right; rewrite Happ1; exact Hk].
        intros flt Hin [Hc Hm]. apply Hk; try assumption. apply elem_of_app. right. exact Hin.
    + intros k l x Hl Hx.
      assert (Hx2 : x ∈ learned_at g2 k) by (apply learned_at_elem; eauto).
      apply learn_filters_only in Hx2.
      destruct Hx2 as [Hx1|(flt & a & pf & _ & _ & _ & Ha & Hna & Hne & Hpf & Hp)].
      * apply learn_filters_only in Hx1.
        destruct Hx1 as [Hx0|(flt & a & pf & _ & _ & _ & Ha & Hna & Hne & Hpf & Hp)].
        -- left. apply learned_at_elem. exact Hx0.
        -- right. split; [exact Hne|]. split; [eauto|eauto].
      * right. rewrite Happ1 in Ha. split; [exact Hne|]. split; [eauto|eauto].
  - intros Hcase.
    assert (Hcond : String.eqb (mode g) PolicyModeLearn
                    && (0 <? length (fm_pInfo fmod))%nat = false).
    { destruct Hcase as [Hmode|Hnil].
      - apply String.eqb_neq in Hmode. rewrite Hmode. reflexivity.
      - rewrite Hnil. apply andb_false_r. }
    rewrite Hcond. reflexivity.
Qed.

(** ** Disjointness of learned and applied rules *)

Lemma apply_rules_of_lookup (conf : CLUSFileAccessRule) (f : string) (a : gset string) :
  apply_rules_of conf !! f = Some a ->
  exists r, ar_Filters conf !! f = Some r /\ afr_CustomerAdd r = true
            /\ a = list_to_set (afr_Apps r).
Proof.
  unfold apply_rules_of. rewrite lookup_fmap.
  destruct (filter _ (ar_Filters conf) !! f) as [r|] eqn:Hr; [|discriminate].
  simpl. intros [= <-].
  apply map_lookup_filter_Some in Hr. destruct Hr as [Hr Hc].
  exists r. repeat split; assumption.
Qed.

Lemma fresh_rules_disjoint (w : FileWatch) (rootPid : Z) (conf : CLUSFileAccessRule)
  (g : groupInfo) :
  fresh_rules w rootPid conf -> groups w !! rootPid = Some g ->
  grp_disjoint (set_applyRules (apply_rules_of conf) g).
Proof.
  intros Hfresh Hg f l a Hl Ha. simpl in Hl, Ha.
  apply apply_rules_of_lookup in Ha. destruct Ha as (r & Hr & Hc & ->).
  intros x Hx Hxa. apply elem_of_list_to_set in Hxa.
  exact (Hfresh g f l r x Hg Hl Hr Hc Hxa Hx).
Qed.

Lemma UpdateAccessRules_disjoint (w : FileWatch) (name : string) (rootPid : Z)
  (conf : CLUSFileAccessRule) :
  rules_disjoint w -> fresh_rules w rootPid conf ->
  rules_disjoint (UpdateAccessRules w name rootPid conf).1.
Proof.
  intros Hinv Hfresh. unfold UpdateAccessRules.
  destruct (negb (bEnable w)); [exact Hinv|].
  destruct (groups w !! rootPid) as [g|] eqn:Hg; [|exact Hinv].
  intros pid g' Hg'. simpl in Hg'.
  destruct (decide (rootPid = pid)) as [<-|Hne].
  - rewrite lookup_insert_eq in Hg'. injection Hg' as <-.
    eapply fresh_rules_disjoint; eassumption.
  - rewrite lookup_insert_ne in Hg' by exact Hne. exact (Hinv _ _ Hg').
Qed.

Lemma learned_group_disjoint (g : groupInfo) (fmod : fileMod) (path : string) :
  grp_disjoint g -> grp_disjoint (learned_group g fmod path).
Proof.
  intros Hd. unfold learned_group. case_match; [|exact Hd].
  apply learn_filters_disjoint. apply learn_filters_disjoint. exact Hd.
Qed.

Lemma learnFromEvents_disjoint (w : FileWatch) (rootPid : Z) (fmod : fileMod)
  (path : string) (event now : Z) :
  rules_disjoint w -> rules_disjoint (learnFromEvents w rootPid fmod path event now).1.
Proof.
  intros Hinv. rewrite learnFromEvents_state.
  destruct (groups w !! rootPid) as [g|] eqn:Hg; [|exact Hinv].
  case_match; [|exact Hinv].
  intros pid g' Hg'. simpl in Hg'.
  destruct (decide (rootPid = pid)) as [<-|Hne].
  - rewrite lookup_insert_eq in Hg'. injection Hg' as <-.
    apply learned_group_disjoint. exact (Hinv _ _ Hg).
  - rewrite lookup_insert_ne in Hg' by exact Hne. exact (Hinv _ _ Hg').
Qed.

Lemma only_finfos_disjoint (w w' : FileWatch) :
  only_finfos w w' -> rules_disjoint w -> rules_disjoint w'.
Proof. intros (_&_&_&_&Hg) Hinv pid g. rewrite Hg. apply Hinv. Qed.

Lemma handleEvent_disjoint (h : Host) (now : Z) (w : FileWatch) (fullPath : string)
  (fmod : fileMod) :
  rules_disjoint w -> rules_disjoint (handleEvent h now w fullPath fmod).1.
Proof.
  intros Hinv.
  pose proof (handleEvent_unfold h now w fullPath fmod) as Hu. cbn zeta in Hu. rewrite Hu.
  destruct (IsPidValid h _); [|exact Hinv].
  match goal with |- context [negb (?r.2 =? 0)%Z] => set (res := r) end.
  pose proof (classifier_frame h w fmod (Lstat h fullPath) fullPath
                (ParseContainerFilePath fullPath).2 (ParseContainerFilePath fullPath).1
                (os.IsDir (fi_FileMode (finfos w !!! fm_finfo fmod))
                 || match Lstat h fullPath with Some m => os.IsDir m | None => false end))
    as [Hf _].
  fold res in Hf. pose proof (only_finfos_disjoint _ _ Hf Hinv) as Hinv1.
  destruct (negb (res.2 =? 0)%Z); simpl.
  - apply learnFromEvents_disjoint. exact Hinv1.
  - exact Hinv1.
Qed.

Lemma handleEvents_disjoint (h : Host) (now : Z) (events : list (string * fileMod))
  (w : FileWatch) :
  rules_disjoint w -> rules_disjoint (handleEvents h now w events).1.
Proof.
  revert w. induction events as [|[fp fm] events IH]; intros w Hinv; [exact Hinv|].
  rewrite handleEvents_cons. simpl. apply IH. apply handleEvent_disjoint. exact Hinv.
Qed.

Lemma StartWatch_disjoint (h : Host) (now : Z) (w : FileWatch) (id : string) (rootPid : Z)
  (conf : FsmonConfig) (capBlock nv : bool) :
  rules_disjoint w ->
  match cfg_Rule conf with Some rule => fresh_rules w rootPid rule | None => True end ->
  rules_disjoint (StartWatch h now w id rootPid conf capBlock nv).1.
Proof.
  intros Hinv Hfresh. unfold StartWatch.
  destruct (negb (bEnable w)) eqn:Hen; [exact Hinv|].
  destruct (negb (IsPidValid h rootPid)); [exact Hinv|].
  set (prf := if String.eqb (prf_Mode (cfg_Profile conf)) ""
              then set_prf_Mode PolicyModeLearn (cfg_Profile conf) else cfg_Profile conf).
  destruct (watch_flags w (prf_Mode prf) rootPid capBlock nv) as [access perm].
  destruct (getCoreFile h w id rootPid prf) as [[w0 dirs] files] eqn:Hcore.
  destruct (addCoreFile w0 (negb nv) id dirs files) as [w0' calls] eqn:Hadd.
  destruct (StartWatch_targets _ _ _ _ _ _ _ _ _ _ _ Hcore Hadd) as (_ & _ & _ & _ & Hg0').
  set (grp := match groups w0' !! rootPid with
              | Some grp => grp
              | None => _
              end).
  set (w1 := set_groups _ _).
  assert (Hgrp : grp_disjoint grp).
  { unfold grp. rewrite Hg0'.
    destruct (groups w !! rootPid) as [g0|] eqn:Hg0; [exact (Hinv _ _ Hg0)|].
    intros f l a Hl _. simpl in Hl. rewrite lookup_empty in Hl. discriminate. }
  assert (Hinv1 : rules_disjoint w1).
  { intros pid g' Hg'. unfold w1 in Hg'. simpl in Hg'.
    destruct (decide (rootPid = pid)) as [<-|Hne].
    - rewrite lookup_insert_eq in Hg'. injection Hg' as <-. exact Hgrp.
    - rewrite lookup_insert_ne in Hg' by exact Hne. rewrite Hg0' in Hg'.
      exact (Hinv _ _ Hg'). }
  destruct (nv || (rootPid =? 1)%Z); [exact Hinv1|].
  destruct (cfg_Rule conf) as [rule|]; [|exact Hinv1].
  destruct (UpdateAccessRules w1 (prf_Group prf) rootPid rule) as [w2 effs'] eqn:Hup.
  change w2 with (w2, effs').1. rewrite <- Hup.
  apply UpdateAccessRules_disjoint; [exact Hinv1|].
  intros g f l r app Hg Hl Hr Hc Happ.
  unfold w1 in Hg. simpl in Hg. rewrite lookup_insert_eq in Hg. injection Hg as <-.
  simpl in Hl. unfold grp in Hl. rewrite Hg0' in Hl.
  destruct (groups w !! rootPid) as [g0|] eqn:Hg0.
  - exact (Hfresh g0 f l r app Hg0 Hl Hr Hc Happ).
  - simpl in Hl. rewrite lookup_empty in Hl. discriminate.
Qed.

Lemma ContainerCleanup_disjoint (w : FileWatch) (rootPid : Z) (bLeave : bool) :
  rules_disjoint w -> rules_disjoint (ContainerCleanup w rootPid bLeave).1.
Proof.
  intros Hinv. unfold ContainerCleanup.
  destruct (negb (bEnable w)); [exact Hinv|]. simpl.
  destruct (groups w !! rootPid) as [g|] eqn:Hg; [|exact Hinv].
  intros pid g' Hg'. destruct bLeave; simpl in Hg'.
  - apply lookup_delete_Some in Hg'. exact (Hinv _ _ (proj2 Hg')).
  - destruct (decide (rootPid = pid)) as [<-|Hne].
    + rewrite lookup_insert_eq in Hg'. injection Hg' as <-.
      intros f l a Hl _. simpl in Hl. rewrite lookup_empty in Hl. discriminate.
    + rewrite lookup_insert_ne in Hg' by exact Hne. exact (Hinv _ _ Hg').
Qed.

Lemma reportLearningRules_disjoint (w : FileWatch) :
  rules_disjoint w -> rules_disjoint (reportLearningRules w).1.
Proof.
  intros Hinv pid g' Hg'. unfold reportLearningRules in Hg'. simpl in Hg'.
  rewrite lookup_fmap in Hg'.
  destruct (groups w !! pid) as [g|] eqn:Hg; [|discriminate].
  simpl in Hg'. injection Hg' as <-.
  case_match; [|exact (Hinv _ _ Hg)].
  intros f l a Hl _. simpl in Hl. rewrite lookup_empty in Hl. discriminate.
Qed.

Lemma new_watcher_disjoint (en au nv : bool) : rules_disjoint (NewFileWatcher en au nv).
Proof. intros pid g Hg. simpl in Hg. rewrite lookup_empty in Hg. discriminate. Qed.

Lemma run_op_disjoint (op : Op) (w : FileWatch) :
  rules_disjoint w -> op_keeps_learned w op -> rules_disjoint (run_op op w).1.
Proof.
  intros Hinv Hkeep.
  destruct op as [h now id rootPid conf capBlock nv|name rootPid conf|rootPid bLeave
                 |filePath mask params pInfo|h now|]; simpl in *.
  - apply StartWatch_disjoint; assumption.
  - apply UpdateAccessRules_disjoint; assumption.
  - apply ContainerCleanup_disjoint; assumption.
  - unfold cbNotify. repeat case_match; exact Hinv.
  - unfold HandleWatchedFiles. apply handleEvents_disjoint. exact Hinv.
  - apply reportLearningRules_disjoint; assumption.
Qed.

Lemma run_ops_disjoint (ops : list Op) (w : FileWatch) :
  rules_disjoint w -> ops_keep_learned w ops -> rules_disjoint (run_ops ops w).
Proof.
  revert w. induction ops as [|op ops IH]; intros w Hinv Hkeep; [exact Hinv|].
  destruct Hkeep as [Hop Hrest]. simpl. apply IH; [|exact Hrest].
  apply run_op_disjoint; assumption.
Qed.

Lemma reachable_run_ops (ops : list Op) (w : FileWatch) :
  reachable w -> ops_allowed w ops -> reachable (run_ops ops w).
Proof.
  revert w. induction ops as [|op ops IH]; intros w Hr Hal; [exact Hr|].
  destruct Hal as [Hop Hrest]. simpl. apply IH; [|exact Hrest].
  apply reachable_step; assumption.
Qed.

(** C1 (as the code has it): in every state a new watcher reaches by
    [StartWatch], [UpdateAccessRules], callbacks of the drivers, flushes of
    the pending events (learning), flushes of the learned rules and
    [ContainerCleanup], [learn_rules[f]] and [apply_rules[f]] of every group
    are disjoint, provided every rule update on the way
    ([UpdateAccessRules], also the one inside [StartWatch]) installs, filter
    by filter, no process path the group holds as learned at that moment. *)
Theorem disjointness_is_kept (ProfileEnable IsAufs NVProtect : bool) (ops : list Op) :
  ops_keep_learned (NewFileWatcher ProfileEnable IsAufs NVProtect) ops ->
  rules_disjoint (run_ops ops (NewFileWatcher ProfileEnable IsAufs NVProtect)).
Proof.
  intros Hkeep. apply run_ops_disjoint; [apply new_watcher_disjoint|exact Hkeep].
Qed.

End FsmonProperties.

(** * Further properties of the operations *)

Section FsmonFurther.
Context `{Platform}.

(** * Further properties of monitor.go *)


(** ** Filter keys *)

Lemma has_slash_app (a b : string) : has_slash (a +:+ "/" +:+ b) = true.
Proof.
  induction a as [|c a IH]; simpl; [reflexivity|].
  rewrite IH. apply orb_true_r.
Qed.

Lemma key_split (p1 r1 p2 r2 : string) :
  p1 +:+ "/" +:+ r1 = p2 +:+ "/" +:+ r2 ->
  has_slash r1 = false -> has_slash r2 = false ->
  p1 = p2 /\ r1 = r2.
Proof.
  revert p2. induction p1 as [|c p1 IH]; intros [|c2 p2] Heq H1 H2.
  - cbn in Heq. injection Heq as Heq. split; [reflexivity|exact Heq].
  - change (String "/" r1 = String c2 (p2 +:+ "/" +:+ r2)) in Heq.
    injection Heq as _ Heq. rewrite Heq, has_slash_app in H1. discriminate.
  - change (String c (p1 +:+ "/" +:+ r1) = String "/" r2) in Heq.
    injection Heq as _ Heq. rewrite <- Heq, has_slash_app in H2. discriminate.
  - change (String c (p1 +:+ "/" +:+ r1) = String c2 (p2 +:+ "/" +:+ r2)) in Heq.
    injection Heq as -> Heq. destruct (IH p2 Heq H1 H2) as [-> ->]. split; reflexivity.
Qed.

(** X11: the key ["<path>/<regex>"] tells two filters apart whenever their
    regexes hold no '/': equal keys then mean equal paths and equal
    regexes. *)
Theorem filterIndexKey_injective (f1 f2 : CLUSFileMonitorFilter) :
  has_slash (flt_Regex f1) = false -> has_slash (flt_Regex f2) = false ->
  filterIndexKey f1 = filterIndexKey f2 ->
  flt_Path f1 = flt_Path f2 /\ flt_Regex f1 = flt_Regex f2.
Proof. intros H1 H2 Hk. exact (key_split _ _ _ _ Hk H1 H2). Qed.

(** ** Aggregation of driver callbacks *)

Lemma cbNotify_recorded_entry (w : FileWatch) (filePath : string) (mask : Z) (params : loc)
  (pInfo : option ProcInfo) :
  recorded_mask mask ->
  cbNotify w filePath mask params pInfo =
  (set_fileEvents
     (<[filePath :=
          match fileEvents w !! filePath with
          | Some fm => {| fm_mask := Z.lor (fm_mask fm) mask; fm_delay := 0;
                          fm_finfo := fm_finfo fm;
                          fm_pInfo := merge_pInfo (fm_pInfo fm) pInfo |}
          | None => {| fm_mask := mask; fm_delay := 0; fm_finfo := params;
                       fm_pInfo := merge_pInfo [] pInfo |}
          end]> (fileEvents w)) w, []).
Proof.
  intros [Hi Hu]. unfold cbNotify. rewrite Hi, Hu. simpl.
  destruct (fileEvents w !! filePath); reflexivity.
Qed.

Lemma cbNotify_all_pending (events : list (Z * loc * option ProcInfo)) (w : FileWatch)
  (filePath : string) (fm : fileMod) :
  fileEvents w !! filePath = Some fm ->
  Forall (fun e => recorded_mask e.1.1) events ->
  exists fm',
    fileEvents (cbNotify_all w filePath events) !! filePath = Some fm'
    /\ fm_mask fm' = foldl Z.lor (fm_mask fm) ((fun e => e.1.1) <$> events)
    /\ fm_finfo fm' = fm_finfo fm
    /\ fm_pInfo fm' = foldl merge_pInfo (fm_pInfo fm) ((fun e => e.2) <$> events)
    /\ groups (cbNotify_all w filePath events) = groups w
    /\ forall other, other <> filePath ->
         fileEvents (cbNotify_all w filePath events) !! other = fileEvents w !! other.
Proof.
  revert w fm. induction events as [|[[mask params] pInfo] events IH]; intros w fm Hfm Hall.
  - exists fm. repeat split; auto.
  - apply Forall_cons in Hall. destruct Hall as [Hm Hall]. simpl in Hm.
    change (cbNotify_all w filePath ((mask, params, pInfo) :: events))
      with (cbNotify_all (cbNotify w filePath mask params pInfo).1 filePath events).
    rewrite (cbNotify_recorded_entry _ _ _ _ _ Hm), Hfm. cbn [fst].
    match goal with |- context [cbNotify_all ?w1 _ _] => set (w' := w1) end.
    assert (Hfm1 : fileEvents w' !! filePath
                   = Some {| fm_mask := Z.lor (fm_mask fm) mask; fm_delay := 0;
                             fm_finfo := fm_finfo fm;
                             fm_pInfo := merge_pInfo (fm_pInfo fm) pInfo |})
      by apply lookup_insert_eq.
    destruct (IH w' _ Hfm1 Hall) as (fm' & Hfm' & Hmask & Hfinfo & Hprocs & Hgroups & Hother).
    exists fm'. split; [exact Hfm'|]. split; [exact Hmask|]. split; [exact Hfinfo|].
    split; [exact Hprocs|]. split; [exact Hgroups|].
    intros other Hne. rewrite (Hother other Hne). apply lookup_insert_ne. congruence.
Qed.

(** X1: a burst of callbacks for a path that has no pending event yet, none of
    them with [IN_IGNORED] or [IN_UNMOUNT], leaves one pending event for the
    path: its mask is the union of the masks of the burst, and its object is
    the one the first callback came with, whatever later callbacks pass;
    its process records are those of the burst, merged in the order of the
    callbacks. Other paths and the groups are as before. *)
Theorem cbNotify_burst_is_one_event (w : FileWatch) (filePath : string) (mask : Z)
  (params : loc) (pInfo : option ProcInfo) (events : list (Z * loc * option ProcInfo)) :
  fileEvents w !! filePath = None ->
  Forall (fun e => recorded_mask e.1.1) ((mask, params, pInfo) :: events) ->
  exists fm,
    fileEvents (cbNotify_all w filePath ((mask, params, pInfo) :: events)) !! filePath = Some fm
    /\ fm_mask fm = foldl Z.lor mask ((fun e => e.1.1) <$> events)
    /\ fm_finfo fm = params
    /\ fm_pInfo fm
       = foldl merge_pInfo [] ((fun e => e.2) <$> (mask, params, pInfo) :: events)
    /\ groups (cbNotify_all w filePath ((mask, params, pInfo) :: events)) = groups w
    /\ forall other, other <> filePath ->
         fileEvents (cbNotify_all w filePath ((mask, params, pInfo) :: events)) !! other
         = fileEvents w !! other.
Proof.
  intros Hnone Hall. apply Forall_cons in Hall. destruct Hall as [Hm Hall]. simpl in Hm.
  change (cbNotify_all w filePath ((mask, params, pInfo) :: events))
    with (cbNotify_all (cbNotify w filePath mask params pInfo).1 filePath events).
  rewrite (cbNotify_recorded_entry _ _ _ _ _ Hm), Hnone. cbn [fst].
  match goal with |- context [cbNotify_all ?w1 _ _] => set (w' := w1) end.
  assert (Hfm1 : fileEvents w' !! filePath
                 = Some {| fm_mask := mask; fm_delay := 0; fm_finfo := params;
                           fm_pInfo := merge_pInfo [] pInfo |})
    by apply lookup_insert_eq.
  destruct (cbNotify_all_pending events w' filePath _ Hfm1 Hall)
    as (fm' & Hfm' & Hmask & Hfinfo & Hprocs & Hgroups & Hother).
  exists fm'. split; [exact Hfm'|]. split; [exact Hmask|]. split; [exact Hfinfo|].
  split; [exact Hprocs|]. split; [exact Hgroups|].
  intros other Hne. rewrite (Hother other Hne). apply lookup_insert_ne. congruence.
Qed.

(** ** Process records of pending events *)

Lemma existsb_pid_false (pid : Z) (pInfos : list ProcInfo) :
  existsb (fun q => (pi_Pid q =? pid)%Z) pInfos = false -> pid ∉ pi_Pid <$> pInfos.
Proof.
  induction pInfos as [|q pInfos IH]; simpl; intros Hex Hin.
  - inversion Hin.
  - apply orb_false_iff in Hex. destruct Hex as [Hq Hrest].
    apply elem_of_cons in Hin. destruct Hin as [->|Hin].
    + rewrite Z.eqb_refl in Hq. discriminate.
    + exact (IH Hrest Hin).
Qed.

Lemma merge_pInfo_NoDup (pInfos : list ProcInfo) (pInfo : option ProcInfo) :
  NoDup (pi_Pid <$> pInfos) -> NoDup (pi_Pid <$> merge_pInfo pInfos pInfo).
Proof.
  intros Hnd. unfold merge_pInfo. destruct pInfo as [p|]; [|exact Hnd].
  destruct (existsb _ pInfos) eqn:Hex; [exact Hnd|].
  rewrite fmap_app. apply NoDup_app. split; [exact Hnd|]. split.
  - intros pid Hin Hp. simpl in Hp. apply list_elem_of_singleton in Hp. subst pid.
    exact (existsb_pid_false _ _ Hex Hin).
  - simpl. apply NoDup_singleton.
Qed.

Lemma cbNotify_pids_distinct (w : FileWatch) (filePath : string) (mask : Z) (params : loc)
  (pInfo : option ProcInfo) :
  pids_distinct w -> pids_distinct (cbNotify w filePath mask params pInfo).1.
Proof.
  intros Hinv. unfold cbNotify.
  destruct (_ || _); [exact Hinv|].
  destruct (fileEvents w !! filePath) as [fm0|] eqn:Hfm0; intros path fm Hfm; simpl in Hfm.
  - destruct (decide (filePath = path)) as [<-|Hne].
    + rewrite lookup_insert_eq in Hfm. injection Hfm as <-. simpl.
      apply merge_pInfo_NoDup. exact (Hinv _ _ Hfm0).
    + rewrite lookup_insert_ne in Hfm by exact Hne. exact (Hinv _ _ Hfm).
  - destruct (decide (filePath = path)) as [<-|Hne].
    + rewrite lookup_insert_eq in Hfm. injection Hfm as <-. simpl.
      apply merge_pInfo_NoDup. apply NoDup_nil_2.
    + rewrite lookup_insert_ne in Hfm by exact Hne. exact (Hinv _ _ Hfm).
Qed.

Lemma HandleWatchedFiles_fileEvents (h : Host) (now : Z) (w : FileWatch) :
  fileEvents (HandleWatchedFiles h now w).1 = ∅.
Proof.
  unfold HandleWatchedFiles.
  destruct (handleEvents_only_learned h now (map_to_list (fileEvents w)) (set_fileEvents ∅ w))
    as (_ & _ & Hev & _).
  rewrite Hev. reflexivity.
Qed.

Lemma UpdateAccessRules_fileEvents (w : FileWatch) (name : string) (rootPid : Z)
  (conf : CLUSFileAccessRule) :
  fileEvents (UpdateAccessRules w name rootPid conf).1 = fileEvents w
  /\ finfos (UpdateAccessRules w name rootPid conf).1 = finfos w.
Proof. unfold UpdateAccessRules. repeat case_match; split; reflexivity. Qed.

Lemma StartWatch_fileEvents (h : Host) (now : Z) (w : FileWatch) (id : string) (rootPid : Z)
  (conf : FsmonConfig) (capBlock nv : bool) :
  fileEvents (StartWatch h now w id rootPid conf capBlock nv).1 = fileEvents w.
Proof.
  unfold StartWatch.
  destruct (negb (bEnable w)); [reflexivity|].
  destruct (negb (IsPidValid h rootPid)); [reflexivity|].
  set (prf := if String.eqb (prf_Mode (cfg_Profile conf)) ""
              then set_prf_Mode PolicyModeLearn (cfg_Profile conf) else cfg_Profile conf).
  destruct (watch_flags w (prf_Mode prf) rootPid capBlock nv) as [access perm].
  destruct (getCoreFile h w id rootPid prf) as [[w0 dirs] files] eqn:Hcore.
  destruct (addCoreFile w0 (negb nv) id dirs files) as [w0' calls] eqn:Hadd.
  destruct (StartWatch_targets _ _ _ _ _ _ _ _ _ _ _ Hcore Hadd) as (_ & _ & _ & Hev & _).
  set (w1 := set_groups _ _).
  assert (Hev1 : fileEvents w1 = fileEvents w) by exact Hev.
  destruct (nv || (rootPid =? 1)%Z); [exact Hev1|].
  destruct (cfg_Rule conf) as [rule|]; [|exact Hev1].
  pose proof (proj1 (UpdateAccessRules_fileEvents w1 (prf_Group prf) rootPid rule)) as Hup.
  destruct (UpdateAccessRules w1 (prf_Group prf) rootPid rule) as [w2 effs'].
  simpl in *. congruence.
Qed.

Lemma run_op_pids_distinct (op : Op) (w : FileWatch) :
  pids_distinct w -> pids_distinct (run_op op w).1.
Proof.
  intros Hinv.
  destruct op as [h now id rootPid conf capBlock nv|name rootPid conf|rootPid bLeave
                 |filePath mask params pInfo|h now|]; simpl.
  - intros path fm. rewrite StartWatch_fileEvents. apply Hinv.
  - intros path fm. rewrite (proj1 (UpdateAccessRules_fileEvents _ _ _ _)). apply Hinv.
  - unfold ContainerCleanup. destruct (negb (bEnable w)); [exact Hinv|].
    intros path fm Hfm. simpl in Hfm.
    apply map_lookup_filter_Some_1_1 in Hfm. exact (Hinv _ _ Hfm).
  - apply cbNotify_pids_distinct. exact Hinv.
  - intros path fm. rewrite HandleWatchedFiles_fileEvents, lookup_empty. discriminate.
  - exact Hinv.
Qed.

(** X2: in every state a new watcher reaches, the process records of a pending
    event have pairwise distinct pids: [cbNotify] appends a record only when
    no record of the event has its pid. *)
Theorem pending_pids_are_distinct (ProfileEnable IsAufs NVProtect : bool) (ops : list Op)
  (path : string) (fm : fileMod) :
  fileEvents (run_ops ops (NewFileWatcher ProfileEnable IsAufs NVProtect)) !! path = Some fm ->
  NoDup (pi_Pid <$> fm_pInfo fm).
Proof.
  assert (Hall : forall ops w, pids_distinct w -> pids_distinct (run_ops ops w)).
  { intros ops0. induction ops0 as [|op ops0 IH]; intros w Hinv; [exact Hinv|].
    simpl. apply IH. apply run_op_pids_distinct. exact Hinv. }
  apply Hall. intros p f Hf. simpl in Hf. rewrite lookup_empty in Hf. discriminate.
Qed.

(** ** Reports per process *)

Lemma sendMsg_procs_pids (cid path : string) (event : Z) (eventMsg : string)
  (pInfo : list ProcInfo) (prev : option ProcInfo) :
  (forall p, prev = Some p -> pi_Pid p ∉ pi_Pid <$> pInfo) ->
  NoDup (pi_Pid <$> pInfo) ->
  msg_ProcPid <$> reports (sendMsg_procs cid path event eventMsg prev pInfo)
  = pi_Pid <$> pInfo.
Proof.
  revert prev. induction pInfo as [|pi rest IH]; intros prev Hprev Hnd; [reflexivity|].
  cbn [sendMsg_procs]. rewrite reports_app, fmap_app.
  apply NoDup_cons in Hnd. destruct Hnd as [Hpi Hnd].
  rewrite (IH (Some pi)); [|intros p [= <-]; exact Hpi|exact Hnd].
  case_bool_decide as Heq.
  - exfalso. apply (Hprev pi Heq). left.
  - reflexivity.
Qed.

(** X3: for an event kind without a message, [sendMsg] sends nothing. For a
    known kind it sends one report without process identity when the event
    has no process record, and otherwise, the pids of the records being
    pairwise distinct, one report per process record, in the order of the
    records. *)
Theorem sendMsg_one_report_per_process (cid path : string) (event : Z)
  (pInfo : list ProcInfo) (mode : string) :
  NoDup (pi_Pid <$> pInfo) ->
  (fileEventMsg !! event = None -> sendMsg cid path event pInfo mode = [])
  /\ (is_Some (fileEventMsg !! event) ->
      (pInfo = [] ->
       exists msg, reports (sendMsg cid path event pInfo mode) = [msg]
                   /\ msg_ProcPath msg = "" /\ msg_ProcName msg = "" /\ msg_ProcPid msg = 0%Z)
      /\ (pInfo <> [] ->
          msg_ProcPid <$> reports (sendMsg cid path event pInfo mode) = pi_Pid <$> pInfo)).
Proof.
  intros Hnd. unfold sendMsg. split.
  - intros ->. reflexivity.
  - intros [eventMsg ->]. split.
    + intros ->. eexists. split; [reflexivity|]. repeat split.
    + intros Hne. destruct pInfo as [|pi rest]; [contradiction|].
      apply sendMsg_procs_pids; [intros p Hp; discriminate|exact Hnd].
Qed.

Lemma sendMsg_procs_origin (cid path : string) (event : Z) (eventMsg : string)
  (pInfo : list ProcInfo) (prev : option ProcInfo) (msg : MonitorMessage) :
  msg ∈ reports (sendMsg_procs cid path event eventMsg prev pInfo) ->
  exists pi, pi ∈ pInfo /\ msg = proc_msg cid path event eventMsg pi.
Proof.
  revert prev. induction pInfo as [|pi rest IH]; intros prev; cbn [sendMsg_procs].
  - intros Hin. inversion Hin.
  - rewrite reports_app, elem_of_app. intros [Hin|Hin].
    + case_bool_decide; simpl in Hin; [inversion Hin|].
      apply list_elem_of_singleton in Hin. exists pi. split; [left|exact Hin].
    + destruct (IH _ Hin) as (pi' & Hpi' & Hmsg). exists pi'. split; [right; exact Hpi'|exact Hmsg].
Qed.

Lemma denied_message : default "" (fileEventMsg !! fileEventDenied) = "File access was denied.".
Proof. vm_compute. reflexivity. Qed.

(** X4: every report [sendMsg] sends for an event with process records carries
    the identity of one of them; when that record is marked [Deny], the
    report has the action [Deny] and the message "File access was denied."
    whatever the event kind, and otherwise the action [Violate] and the
    message of the event kind. *)
Theorem sendMsg_deny_overrides_kind (cid path : string) (event : Z) (pInfo : list ProcInfo)
  (mode : string) (msg : MonitorMessage) :
  pInfo <> [] ->
  msg ∈ reports (sendMsg cid path event pInfo mode) ->
  exists pi,
    pi ∈ pInfo
    /\ msg_ProcPid msg = pi_Pid pi /\ msg_ProcName msg = pi_Name pi
    /\ msg_ProcPath msg = pi_Path pi /\ msg_ProcPPath msg = pi_PPath pi
    /\ msg_ID msg = cid /\ msg_Path msg = path
    /\ (pi_Deny pi = true ->
        msg_Action msg = PolicyActionDeny /\ msg_Msg msg = "File access was denied.")
    /\ (pi_Deny pi = false ->
        msg_Action msg = PolicyActionViolate /\ fileEventMsg !! event = Some (msg_Msg msg)).
Proof.
  intros Hne Hin. unfold sendMsg in Hin.
  destruct (fileEventMsg !! event) as [eventMsg|] eqn:Hmsg; [|inversion Hin].
  destruct pInfo as [|pi0 rest]; [contradiction|].
  apply sendMsg_procs_origin in Hin. destruct Hin as (pi & Hpi & ->).
  exists pi. split; [exact Hpi|]. unfold proc_msg. cbn [msg_ProcPid msg_ProcName msg_ProcPath
    msg_ProcPPath msg_ID msg_Path msg_Action msg_Msg new_msg].
  repeat (split; [reflexivity|]). split.
  - intros ->. split; [reflexivity|apply denied_message].
  - intros ->. split; reflexivity.
Qed.

(** ** The flush of learned rules *)

Lemma group_learned_elem (grp : groupInfo) (req : CLUSFileAccessRuleReq) :
  req ∈ group_learned grp <->
  exists rule, learnRules grp !! req_Filter req = Some rule /\ req_Path req ∈ rule
               /\ req_GroupName req = prf_Group (profile grp).
Proof.
  unfold group_learned. rewrite list_elem_of_bind. split.
  - intros ([flt rule] & Hreq & Hin). apply elem_of_map_to_list in Hin.
    apply list_elem_of_fmap in Hreq. destruct Hreq as (prf & -> & Hprf).
    apply elem_of_elements in Hprf. exists rule. simpl. auto.
  - intros (rule & Hl & Hp & Hg). exists (req_Filter req, rule). split.
    + apply list_elem_of_fmap. exists (req_Path req). split.
      * destruct req as [gn f p]. simpl in *. rewrite Hg. reflexivity.
      * apply elem_of_elements. exact Hp.
    + apply elem_of_map_to_list. exact Hl.
Qed.

Lemma group_learned_empty (grp : groupInfo) : learnRules grp = ∅ -> group_learned grp = [].
Proof. intros He. unfold group_learned. rewrite He, map_to_list_empty. reflexivity. Qed.

Lemma learnRules_size_zero (grp : groupInfo) :
  (0 <? size (learnRules grp))%nat = false -> learnRules grp = ∅.
Proof. intros Hs. apply Nat.ltb_ge in Hs. apply map_size_empty_iff. lia. Qed.

Lemma bind_nil {A B : Type} (f : A -> list B) (l : list A) :
  Forall (fun x => f x = []) l -> l ≫= f = [].
Proof.
  induction 1 as [|x l Hx _ IH]; [reflexivity|].
  change ((x :: l) ≫= f) with (f x ++ l ≫= f). rewrite Hx, IH. reflexivity.
Qed.

Lemma reportLearningRules_nothing_learned (w : FileWatch) :
  (forall pid g, groups w !! pid = Some g -> learnRules g = ∅) ->
  reportLearningRules w = (w, []).
Proof.
  intros Hnone. unfold reportLearningRules.
  rewrite bind_nil.
  - simpl. f_equal.
    assert (Hg : (fun grp => if (0 <? size (learnRules grp))%nat
                             then set_learnRules ∅ grp else grp) <$> groups w = groups w).
    { apply map_eq. intros pid. rewrite lookup_fmap.
      destruct (groups w !! pid) as [g|] eqn:Hpid; [|reflexivity]. simpl.
      rewrite (Hnone _ _ Hpid), map_size_empty. reflexivity. }
    rewrite Hg. destruct w. reflexivity.
  - apply Forall_forall. intros [pid g] Hin. apply elem_of_map_to_list in Hin.
    rewrite (Hnone _ _ Hin), map_size_empty. reflexivity.
Qed.

(** X9: [reportLearningRules] hands over, in at most one [SendRule] call and
    only when there is one, exactly the learned rules of all groups: a
    request per group, filter key and learned process path. Afterwards no
    group holds a learned rule, all other fields of the groups, the pending
    events and the store are as before, and a second flush sends nothing. *)
Theorem reportLearningRules_hands_over_all (w : FileWatch) :
  let w' := (reportLearningRules w).1 in
  let effs := (reportLearningRules w).2 in
  (effs = [] \/ exists reqs, effs = [SendRule reqs] /\ reqs <> [])
  /\ (forall req,
        (exists reqs, SendRule reqs ∈ effs /\ req ∈ reqs)
        <-> exists pid g rule,
              groups w !! pid = Some g
              /\ learnRules g !! req_Filter req = Some rule /\ req_Path req ∈ rule
              /\ req_GroupName req = prf_Group (profile g))
  /\ (forall pid,
        option_Forall2 (fun g g' => same_fields g g' /\ learnRules g' = ∅)
          (groups w !! pid) (groups w' !! pid))
  /\ fileEvents w' = fileEvents w /\ finfos w' = finfos w /\ bEnable w' = bEnable w
  /\ reportLearningRules w' = (w', []).
Proof.
  intros w' effs.
  set (learned := (map_to_list (groups w) ≫=
    (fun '(_, grp) => if (0 <? size (learnRules grp))%nat then group_learned grp else []))).
  assert (Heffs : effs = if (0 <? length learned)%nat then [SendRule learned] else [])
    by reflexivity.
  assert (Hlearned : forall req, req ∈ learned <->
            exists pid g rule, groups w !! pid = Some g
              /\ learnRules g !! req_Filter req = Some rule /\ req_Path req ∈ rule
              /\ req_GroupName req = prf_Group (profile g)).
  { intros req. unfold learned. rewrite list_elem_of_bind. split.
    - intros ([pid g] & Hreq & Hin). apply elem_of_map_to_list in Hin.
      destruct (0 <? size (learnRules g))%nat; [|inversion Hreq].
      apply group_learned_elem in Hreq. destruct Hreq as (rule & Hrule).
      exists pid, g, rule. split; [exact Hin|exact Hrule].
    - intros (pid & g & rule & Hg & Hl & Hp & Hn). exists (pid, g). split.
      + destruct (0 <? size (learnRules g))%nat eqn:Hs.
        * apply group_learned_elem. exists rule. auto.
        * apply learnRules_size_zero in Hs. rewrite Hs, lookup_empty in Hl. discriminate.
      + apply elem_of_map_to_list. exact Hg. }
  assert (Hgroups : forall pid,
            option_Forall2 (fun g g' => same_fields g g' /\ learnRules g' = ∅)
              (groups w !! pid) (groups w' !! pid)).
  { intros pid. unfold w', reportLearningRules. cbn [fst groups set_groups].
    rewrite lookup_fmap. destruct (groups w !! pid) as [g|]; simpl; constructor.
    destruct (0 <? size (learnRules g))%nat eqn:Hs.
    - split; [repeat split|reflexivity].
    - split; [apply same_fields_refl|apply learnRules_size_zero; exact Hs]. }
  split; [|split; [|split; [exact Hgroups|]]].
  - rewrite Heffs. destruct learned as [|r l]; [left; reflexivity|].
    right. exists (r :: l). split; [reflexivity|discriminate].
  - intros req. rewrite <- Hlearned, Heffs. split.
    + intros (reqs & Hin & Hreq). destruct (0 <? length learned)%nat; [|inversion Hin].
      apply list_elem_of_singleton in Hin. injection Hin as <-. exact Hreq.
    + intros Hreq. exists learned. split; [|exact Hreq].
      destruct learned; [inversion Hreq|]. simpl. left.
  - repeat (split; [reflexivity|]).
    apply reportLearningRules_nothing_learned. intros pid g' Hg'.
    specialize (Hgroups pid). rewrite Hg' in Hgroups. inversion Hgroups as [g g0 [_ He]|].
    exact He.
Qed.

(** ** Rule updates *)

(** X10: on an enabled watcher, [UpdateAccessRules] for a container without a
    group changes nothing and makes no driver call. For a known container it
    makes one [UpdateAccessRule] call and replaces the group's applied rules
    by those of the update: a filter key has applied rules afterwards
    exactly when the update has a customer-added rule for it, and they are
    that rule's applications. Learned rules and the other fields of the
    group, and all other groups, stay as they were. *)
Theorem UpdateAccessRules_replaces_applied (w : FileWatch) (name : string) (rootPid : Z)
  (conf : CLUSFileAccessRule) :
  bEnable w = true ->
  let w' := (UpdateAccessRules w name rootPid conf).1 in
  let effs := (UpdateAccessRules w name rootPid conf).2 in
  (groups w !! rootPid = None -> w' = w /\ effs = [])
  /\ (forall grp, groups w !! rootPid = Some grp ->
        effs = [FaUpdateAccessRule rootPid conf]
        /\ exists grp',
             groups w' !! rootPid = Some grp'
             /\ learnRules grp' = learnRules grp /\ profile grp' = profile grp
             /\ mode grp' = mode grp /\ startAt grp' = startAt grp
             /\ bNeuvector grp' = bNeuvector grp
             /\ forall k apps,
                  applyRules grp' !! k = Some apps
                  <-> exists rule, ar_Filters conf !! k = Some rule
                                   /\ afr_CustomerAdd rule = true
                                   /\ apps = list_to_set (afr_Apps rule))
  /\ (forall pid, pid <> rootPid -> groups w' !! pid = groups w !! pid)
  /\ fileEvents w' = fileEvents w /\ finfos w' = finfos w.
Proof.
  intros Hen w' effs. unfold w', effs, UpdateAccessRules. rewrite Hen. cbn [negb].
  destruct (groups w !! rootPid) as [grp|] eqn:Hgrp.
  - split; [discriminate|]. split; [|split; [|split; reflexivity]].
    + intros g [= <-]. split; [reflexivity|].
      exists (set_applyRules (apply_rules_of conf) grp). cbn [fst groups set_groups].
      rewrite lookup_insert_eq. split; [reflexivity|]. repeat (split; [reflexivity|]).
      intros k apps. cbn [applyRules set_applyRules]. unfold apply_rules_of.
      rewrite lookup_fmap, fmap_Some. split.
      * intros (rule & Hrule & ->). apply map_lookup_filter_Some in Hrule.
        destruct Hrule as [Hrule Hadd]. exists rule. auto.
      * intros (rule & Hrule & Hadd & ->). exists rule. split; [|reflexivity].
        apply map_lookup_filter_Some. split; [exact Hrule|exact Hadd].
    + intros pid Hne. cbn [fst groups set_groups]. apply lookup_insert_ne. congruence.
  - split; [intros _; split; reflexivity|]. split; [discriminate|].
    split; [reflexivity|split; reflexivity].
Qed.

(** ** Learning twice *)

Lemma learn_procs_saturated (applied learned : gset string) (pInfo : list ProcInfo) :
  (forall pf, pf ∈ pInfo -> pi_Path pf <> "" -> pi_Path pf ∉ applied -> pi_Path pf ∈ learned) ->
  learn_procs applied learned pInfo = learned.
Proof.
  unfold learn_procs. induction pInfo as [|pf pInfo IH]; intros Hsat; [reflexivity|].
  simpl.
  assert (Hstep : (if negb (String.eqb (pi_Path pf) "") then
                     if negb (bool_decide (pi_Path pf ∈ applied))
                        && negb (bool_decide (pi_Path pf ∈ learned))
                     then {[pi_Path pf]} ∪ learned else learned
                   else learned) = learned).
  { destruct (String.eqb_spec (pi_Path pf) "") as [He|Hne]; [reflexivity|]. simpl.
    case_bool_decide as Ha; [reflexivity|]. simpl.
    case_bool_decide as Hl; [reflexivity|].
    exfalso. apply Hl. apply Hsat; [left|exact Hne|exact Ha]. }
  rewrite Hstep. apply IH. intros pf' Hin. apply Hsat. right. exact Hin.
Qed.

Lemma set_learnRules_same (g : groupInfo) : set_learnRules (learnRules g) g = g.
Proof. destruct g. reflexivity. Qed.

Lemma addLearnedRules_saturated (g : groupInfo) (flt : CLUSFileMonitorFilter)
  (pInfo : list ProcInfo) :
  (forall a pf, applyRules g !! filterIndexKey flt = Some a -> pf ∈ pInfo ->
                pi_Path pf <> "" -> pi_Path pf ∉ a ->
                pi_Path pf ∈ learned_at g (filterIndexKey flt)) ->
  addLearnedRules g flt pInfo = g.
Proof.
  intros Hsat. unfold addLearnedRules.
  destruct (applyRules g !! filterIndexKey flt) as [a|] eqn:Ha; [|reflexivity].
  fold (learned_at g (filterIndexKey flt)).
  rewrite learn_procs_saturated by (intros pf; apply (Hsat a pf eq_refl)).
  unfold learned_at.
  destruct (learnRules g !! filterIndexKey flt) as [l|] eqn:Hl; cbn [default].
  - rewrite insert_id by exact Hl. rewrite set_learnRules_same. case_match; reflexivity.
  - rewrite size_empty. reflexivity.
Qed.

Lemma learn_filters_saturated (path : string) (pInfo : list ProcInfo)
  (filters : list CLUSFileMonitorFilter) (g : groupInfo) :
  (forall flt a pf, flt ∈ filters -> learns_from path flt ->
     applyRules g !! filterIndexKey flt = Some a -> pf ∈ pInfo ->
     pi_Path pf <> "" -> pi_Path pf ∉ a ->
     pi_Path pf ∈ learned_at g (filterIndexKey flt)) ->
  learn_filters path pInfo g filters = g.
Proof.
  induction filters as [|flt filters IH]; intros Hsat; [reflexivity|].
  simpl.
  assert (Hstep : (if flt_CustomerAdd flt && filterPathMatch path flt
                   then addLearnedRules g flt pInfo else g) = g).
  { destruct (learn_step_cases path flt) as [[-> Hlf]|[-> _]]; [|reflexivity].
    apply addLearnedRules_saturated. intros a pf. apply Hsat; [left|exact Hlf]. }
  rewrite Hstep. apply IH. intros flt' a pf Hin. apply Hsat. right. exact Hin.
Qed.

Lemma learned_group_idempotent (g : groupInfo) (fmod : fileMod) (path : string) :
  learned_group (learned_group g fmod path) fmod path = learned_group g fmod path.
Proof.
  destruct (learned_group_fields g fmod path) as (_ & Hprof & Hmode & Happ & _).
  unfold learned_group at 1. rewrite Hmode, Hprof.
  unfold learned_group.
  destruct (String.eqb (mode g) PolicyModeLearn && (0 <? length (fm_pInfo fmod))%nat) eqn:Hc;
    [|reflexivity].
  unfold learned_group in Happ. rewrite Hc in Happ.
  set (g1 := learn_filters path (fm_pInfo fmod) g (prf_Filters (profile g))) in *.
  set (g2 := learn_filters path (fm_pInfo fmod) g1 (prf_FiltersCRD (profile g))) in *.
  assert (Happ1 : applyRules g1 = applyRules g).
  { destruct (learn_filters_fields path (fm_pInfo fmod) (prf_Filters (profile g)) g)
      as (_&_&_&Ha&_). exact Ha. }
  assert (H1 : learn_filters path (fm_pInfo fmod) g2 (prf_Filters (profile g)) = g2).
  { apply learn_filters_saturated. intros flt a pf Hin Hlf Ha Hpf Hne Hna.
    rewrite Happ in Ha. apply learn_filters_mono.
    apply (learn_filters_adds _ _ _ _ _ a); assumption. }
  rewrite H1.
  apply learn_filters_saturated. intros flt a pf Hin Hlf Ha Hpf Hne Hna.
  rewrite Happ, <- Happ1 in Ha.
  apply (learn_filters_adds _ _ _ _ _ a); assumption.
Qed.

(** X7: learning is idempotent: when [learnFromEvents] has handled an event,
    handling the same event again leaves the state as it is and sends the
    same reports. *)
Theorem learnFromEvents_twice (w : FileWatch) (rootPid : Z) (fmod : fileMod) (path : string)
  (event now : Z) :
  let w1 := (learnFromEvents w rootPid fmod path event now).1 in
  (learnFromEvents w1 rootPid fmod path event now).1 = w1
  /\ reports (learnFromEvents w1 rootPid fmod path event now).2
     = reports (learnFromEvents w rootPid fmod path event now).2.
Proof.
  intros w1.
  assert (Hw1 : w1 = match groups w !! rootPid with
                     | None => w
                     | Some g =>
                         if String.eqb (mode g) PolicyModeLearn
                            && (0 <? length (fm_pInfo fmod))%nat
                         then set_groups (<[rootPid := learned_group g fmod path]> (groups w)) w
                         else w
                     end) by apply learnFromEvents_state.
  destruct (groups w !! rootPid) as [g|] eqn:Hg.
  - destruct (String.eqb (mode g) PolicyModeLearn && (0 <? length (fm_pInfo fmod))%nat) eqn:Hc.
    + destruct (learned_group_fields g fmod path) as (_ & _ & Hmode & _ & Hstart).
      assert (Hg1 : groups w1 !! rootPid = Some (learned_group g fmod path)).
      { rewrite Hw1. simpl. apply lookup_insert_eq. }
      split.
      * rewrite learnFromEvents_state, Hg1, Hmode, Hc, learned_group_idempotent.
        rewrite Hw1. cbn [groups set_groups]. rewrite insert_insert_eq.
        destruct w. reflexivity.
      * rewrite !learnFromEvents_reports, Hg1, Hg, Hmode, Hstart. rewrite Hw1. reflexivity.
    + rewrite Hw1. split; [|reflexivity].
      rewrite learnFromEvents_state, Hg, Hc. reflexivity.
  - rewrite Hw1. split; [|reflexivity].
    rewrite learnFromEvents_state, Hg. reflexivity.
Qed.

(** ** [StartWatch] *)

Lemma foldl_effects_inv {A : Type} (P : FileWatch -> list Effect -> Prop)
  (f : FileWatch * list Effect -> A -> FileWatch * list Effect) (l : list A) :
  (forall w effs a, P w effs -> P (f (w, effs) a).1 (f (w, effs) a).2) ->
  forall w effs, P w effs -> P (foldl f (w, effs) l).1 (foldl f (w, effs) l).2.
Proof.
  intros Hf. induction l as [|a l IH]; intros w effs HP; [exact HP|].
  simpl. specialize (Hf w effs a HP). destruct (f (w, effs) a) as [w' effs'].
  apply IH. exact Hf.
Qed.

Lemma addFile_add_calls (w : FileWatch) (b : bool) (l : loc) :
  Forall (fun e => is_add_call e = true) (addFile w b l).
Proof. unfold addFile. repeat case_match; repeat constructor. Qed.

Lemma addDir_add_calls (w : FileWatch) (b : bool) (l : loc) (files : gmap string loc) :
  Forall (fun e => is_add_call e = true) (addDir w b l files).
Proof. unfold addDir. repeat case_match; repeat constructor. Qed.

Lemma addCoreFile_add_calls (w : FileWatch) (bIncINotify : bool) (cid : string)
  (dirList : gmap string loc) (singleFiles : list loc) :
  Forall (fun e => is_add_call e = true) (addCoreFile w bIncINotify cid dirList singleFiles).2.
Proof.
  unfold addCoreFile.
  match goal with
  | |- context [foldl ?f (w, []) singleFiles] =>
      pose proof (foldl_effects_inv (fun _ effs => Forall (fun e => is_add_call e = true) effs)
                    f singleFiles) as H1
  end.
  cbv beta in H1.
  match type of H1 with
  | ?hyp -> _ => assert (Hstep : hyp)
  end.
  { intros w0 effs a Hall. cbn beta iota.
    repeat case_match; cbn [fst snd]; try exact Hall;
      apply Forall_app; (split; [exact Hall|apply addFile_add_calls]). }
  specialize (H1 Hstep w [] ltac:(constructor)). clear Hstep.
  destruct (foldl _ (w, []) singleFiles) as [w1 effs1]. cbn [fst snd] in H1.
  apply (foldl_effects_inv (fun _ effs => Forall (fun e => is_add_call e = true) effs));
    [|exact H1].
  intros w0 effs [k dir] Hall. cbn beta iota.
  destruct (stamp_children cid (fi_Children (finfos w0 !!! dir)) w0) as [w2 files].
  cbn [fst snd]. apply Forall_app. split; [exact Hall|apply addDir_add_calls].
Qed.

(** [StartWatch] on an enabled watcher with a valid root pid, in one
    equation. *)
Lemma StartWatch_shape (h : Host) (now : Z) (w : FileWatch) (id : string) (rootPid : Z)
  (conf : FsmonConfig) (capBlock nv : bool) :
  bEnable w = true -> IsPidValid h rootPid = true ->
  let prf := effective_profile conf in
  let armed :=
    (let '(w0, dirs, files) := getCoreFile h w id rootPid prf in
     addCoreFile w0 (negb nv) id dirs files) in
  let grp :=
    set_profile_mode prf (prf_Mode prf) (default (new_group nv prf now) (groups w !! rootPid)) in
  let flags := watch_flags w (prf_Mode prf) rootPid capBlock nv in
  let effs :=
    FaSetMode rootPid flags.1 flags.2 capBlock nv :: armed.2 ++ [FaStartMonitor rootPid] in
  only_finfos w armed.1
  /\ StartWatch h now w id rootPid conf capBlock nv =
     if nv || (rootPid =? 1)%Z
     then (set_groups (<[rootPid := grp]> (groups w)) armed.1, effs)
     else match cfg_Rule conf with
          | Some rule =>
              (set_groups (<[rootPid := set_applyRules (apply_rules_of rule) grp]> (groups w))
                 armed.1,
               effs ++ [FaUpdateAccessRule rootPid rule])
          | None => (set_groups (<[rootPid := grp]> (groups w)) armed.1, effs)
          end.
Proof.
  intros Hen Hvalid. unfold StartWatch, effective_profile. rewrite Hen, Hvalid. cbn [negb].
  set (prf := if String.eqb (prf_Mode (cfg_Profile conf)) ""
              then set_prf_Mode PolicyModeLearn (cfg_Profile conf) else cfg_Profile conf).
  cbv zeta.
  destruct (watch_flags w (prf_Mode prf) rootPid capBlock nv) as [access perm].
  destruct (getCoreFile h w id rootPid prf) as [[w0 dirs] files] eqn:Hcore.
  destruct (addCoreFile w0 (negb nv) id dirs files) as [w0' calls] eqn:Hadd.
  pose proof (StartWatch_targets _ _ _ _ _ _ _ _ _ _ _ Hcore Hadd) as Hframe.
  split; [exact Hframe|].
  destruct Hframe as (Hen0 & _ & _ & _ & Hg0). cbn [fst snd].
  rewrite Hg0.
  assert (Hgrp : match groups w !! rootPid with
                 | Some grp => grp
                 | None => {| bNeuvector := nv; profile := prf; mode := "";
                              applyRules := ∅; learnRules := ∅; startAt := now |}
                 end = default (new_group nv prf now) (groups w !! rootPid)).
  { destruct (groups w !! rootPid); reflexivity. }
  rewrite Hgrp.
  destruct (nv || (rootPid =? 1)%Z); [reflexivity|].
  destruct (cfg_Rule conf) as [rule|]; [|reflexivity].
  erewrite UpdateAccessRules_enabled;
    [|cbn [bEnable set_groups]; rewrite Hen0; exact Hen
     |cbn [groups set_groups]; apply lookup_insert_eq].
  cbn [groups set_groups]. rewrite insert_insert_eq. destruct w0'. reflexivity.
Qed.

(** X12: a [StartWatch] on an enabled watcher with a valid root pid leaves the
    container with a group that has the profile of the call ([Learn]
    standing in for an empty mode) and its mode. For a container the
    watcher knows already, the start time, the learned rules and the
    agent flag of its group are kept; the applied rules are replaced by
    those of the call's rule only when one is given and the container is
    neither the host nor the agent's own, and are kept otherwise. All other
    groups and the pending events are as before. *)
Theorem StartWatch_registers_group (h : Host) (now : Z) (w : FileWatch) (id : string)
  (rootPid : Z) (conf : FsmonConfig) (capBlock bNeuvectorSvc : bool) :
  bEnable w = true -> IsPidValid h rootPid = true ->
  let w' := (StartWatch h now w id rootPid conf capBlock bNeuvectorSvc).1 in
  let old := default (new_group bNeuvectorSvc (effective_profile conf) now)
               (groups w !! rootPid) in
  (exists grp,
     groups w' !! rootPid = Some grp
     /\ profile grp = effective_profile conf
     /\ mode grp = prf_Mode (effective_profile conf)
     /\ startAt grp = startAt old /\ learnRules grp = learnRules old
     /\ bNeuvector grp = bNeuvector old
     /\ applyRules grp =
        if bNeuvectorSvc || (rootPid =? 1)%Z then applyRules old
        else match cfg_Rule conf with
             | Some rule => apply_rules_of rule
             | None => applyRules old
             end)
  /\ (forall pid, pid <> rootPid -> groups w' !! pid = groups w !! pid)
  /\ fileEvents w' = fileEvents w.
Proof.
  intros Hen Hvalid w' old.
  destruct (StartWatch_shape h now w id rootPid conf capBlock bNeuvectorSvc Hen Hvalid)
    as [Hframe Heq].
  unfold w'. rewrite Heq. clear Heq.
  destruct Hframe as (_ & _ & _ & Hev & _).
  destruct (bNeuvectorSvc || (rootPid =? 1)%Z); [|destruct (cfg_Rule conf) as [rule|]];
    cbn [fst groups set_groups fileEvents].
  all: split; [eexists; split; [apply lookup_insert_eq|repeat split]
              |split; [intros pid Hne; apply lookup_insert_ne; congruence|exact Hev]].
Qed.

Lemma addLearnedRules_no_rules (g : groupInfo) (flt : CLUSFileMonitorFilter)
  (pInfo : list ProcInfo) :
  applyRules g = ∅ -> addLearnedRules g flt pInfo = g.
Proof. intros He. unfold addLearnedRules. rewrite He, lookup_empty. reflexivity. Qed.

Lemma learn_filters_no_rules (path : string) (pInfo : list ProcInfo)
  (filters : list CLUSFileMonitorFilter) (g : groupInfo) :
  applyRules g = ∅ -> learn_filters path pInfo g filters = g.
Proof.
  intros He. induction filters as [|flt filters IH]; [reflexivity|].
  simpl. rewrite (addLearnedRules_no_rules g flt pInfo He).
  destruct (flt_CustomerAdd flt && filterPathMatch path flt); exact IH.
Qed.

Lemma learned_group_no_rules (g : groupInfo) (fmod : fileMod) (path : string) :
  applyRules g = ∅ -> learned_group g fmod path = g.
Proof.
  intros He. unfold learned_group. case_match; [|reflexivity].
  rewrite (learn_filters_no_rules _ _ _ g He). apply learn_filters_no_rules. exact He.
Qed.

(** X13: for the host (root pid 1) and for the agent's own container,
    [StartWatch] never asks for access events (the [access] flag of
    [SetMode] is false), makes no rule update whatever rule the call
    carries, and leaves the applied rules of the group as they were. A
    group registered this way has no applied rules, so that events of the
    container teach it nothing. *)
Theorem StartWatch_host_and_agent_get_no_rules (h : Host) (now : Z) (w : FileWatch)
  (id : string) (rootPid : Z) (conf : FsmonConfig) (capBlock bNeuvectorSvc : bool) :
  bEnable w = true -> IsPidValid h rootPid = true ->
  bNeuvectorSvc = true \/ rootPid = 1%Z ->
  let w' := (StartWatch h now w id rootPid conf capBlock bNeuvectorSvc).1 in
  let effs := (StartWatch h now w id rootPid conf capBlock bNeuvectorSvc).2 in
  (exists perm rest, effs = FaSetMode rootPid false perm capBlock bNeuvectorSvc :: rest)
  /\ Forall (fun e => is_rule_update e = false) effs
  /\ exists grp,
       groups w' !! rootPid = Some grp
       /\ (forall old, groups w !! rootPid = Some old -> applyRules grp = applyRules old)
       /\ (groups w !! rootPid = None ->
           applyRules grp = ∅
           /\ forall fmod path, learned_group grp fmod path = grp).
Proof.
  intros Hen Hvalid Hwho w' effs.
  destruct (StartWatch_shape h now w id rootPid conf capBlock bNeuvectorSvc Hen Hvalid)
    as [_ Heq].
  unfold w', effs. rewrite Heq. clear Heq.
  assert (Hc : bNeuvectorSvc || (rootPid =? 1)%Z = true).
  { destruct Hwho as [-> | ->]; [reflexivity|apply orb_true_r]. }
  rewrite Hc. cbn [fst snd].
  set (prf := effective_profile conf).
  destruct (watch_flags w (prf_Mode prf) rootPid capBlock bNeuvectorSvc) as [access perm]
    eqn:Hflags.
  assert (Haccess : access = false).
  { destruct (watch_flags_spec _ _ _ _ _ _ _ Hflags) as [_ Hacc].
    destruct access; [|reflexivity].
    destruct (proj1 Hacc eq_refl) as (_ & Hpid & Hnv & _).
    destruct Hwho; congruence. }
  subst access. cbn [fst snd].
  split; [eexists _, _; reflexivity|]. split.
  - constructor; [reflexivity|]. apply Forall_app. split; [|repeat constructor].
    eapply Forall_impl.
    + destruct (getCoreFile h w id rootPid prf) as [[w0 dirs] files].
      apply addCoreFile_add_calls.
    + intros e He. destruct e; simpl in *; congruence.
  - eexists. cbn [groups set_groups]. split; [apply lookup_insert_eq|]. split.
    + intros old ->. reflexivity.
    + intros ->. cbn [default]. split; [reflexivity|].
      intros fmod path. apply learned_group_no_rules. reflexivity.
Qed.

Lemma addCoreFile_nothing (w : FileWatch) (b : bool) (cid : string) :
  addCoreFile w b cid ∅ [] = (w, []).
Proof. unfold addCoreFile. cbn [foldl]. rewrite map_to_list_empty. reflexivity. Qed.

(** X15: when the walk of the container's root file system fails, [StartWatch]
    arms no target: the only driver calls are [SetMode], [StartMonitor]
    and the rule update, and the store of objects is as before; the group
    is registered all the same. *)
Theorem StartWatch_failed_walk_arms_nothing (h : Host) (now : Z) (w : FileWatch)
  (id : string) (rootPid : Z) (conf : FsmonConfig) (capBlock bNeuvectorSvc : bool) :
  bEnable w = true -> IsPidValid h rootPid = true ->
  getRootFs h rootPid id (effective_profile conf) = None ->
  let w' := (StartWatch h now w id rootPid conf capBlock bNeuvectorSvc).1 in
  let effs := (StartWatch h now w id rootPid conf capBlock bNeuvectorSvc).2 in
  Forall (fun e => is_add_call e = false) effs
  /\ (exists access perm rules,
        effs = FaSetMode rootPid access perm capBlock bNeuvectorSvc
               :: FaStartMonitor rootPid :: rules
        /\ Forall (fun e => is_rule_update e = true) rules)
  /\ finfos w' = finfos w
  /\ is_Some (groups w' !! rootPid).
Proof.
  intros Hen Hvalid Hwalk w' effs.
  destruct (StartWatch_shape h now w id rootPid conf capBlock bNeuvectorSvc Hen Hvalid)
    as [_ Heq].
  unfold w', effs. rewrite Heq. clear Heq.
  unfold getCoreFile. rewrite Hwalk, addCoreFile_nothing. cbn [fst snd app].
  destruct (bNeuvectorSvc || (rootPid =? 1)%Z); [|destruct (cfg_Rule conf) as [rule|]];
    cbn [fst snd app finfos set_groups groups].
  all: split; [repeat constructor|].
  all: split; [eexists _, _, _; split; [reflexivity|repeat constructor]|].
  all: split; [reflexivity|rewrite lookup_insert_eq; eexists; reflexivity].
Qed.

(** ** The flush of pending events *)

Lemma handleEvent_dead (h : Host) (now : Z) (w : FileWatch) (fullPath : string)
  (fmod : fileMod) :
  IsPidValid h (ParseContainerFilePath fullPath).1 = false ->
  handleEvent h now w fullPath fmod = (w, []).
Proof.
  intros Hdead. pose proof (handleEvent_unfold h now w fullPath fmod) as Hu.
  cbn zeta in Hu. rewrite Hu, Hdead. reflexivity.
Qed.

Lemma handleEvents_dead (h : Host) (now : Z) (events : list (string * fileMod))
  (w : FileWatch) :
  Forall (fun kv => IsPidValid h (ParseContainerFilePath kv.1).1 = false) events ->
  handleEvents h now w events = (w, []).
Proof.
  induction 1 as [|[fp fm] events Hd _ IH]; [reflexivity|].
  rewrite handleEvents_cons, (handleEvent_dead _ _ _ _ _ Hd). cbn [fst snd app].
  rewrite IH. reflexivity.
Qed.

(** X21: a flush that finds only events of containers whose root pid is no
    longer valid drops them (no event is pending afterwards) and does
    nothing else: no driver call, no report, no change of the groups or of
    the store. *)
Theorem flush_drops_events_of_dead_containers (h : Host) (now : Z) (w : FileWatch) :
  (forall fullPath fmod,
     fileEvents w !! fullPath = Some fmod ->
     IsPidValid h (ParseContainerFilePath fullPath).1 = false) ->
  HandleWatchedFiles h now w = (set_fileEvents ∅ w, []).
Proof.
  intros Hdead. unfold HandleWatchedFiles. apply handleEvents_dead.
  apply Forall_forall. intros [fp fm] Hin. apply elem_of_map_to_list in Hin.
  exact (Hdead _ _ Hin).
Qed.

Lemma handleEvents_reports_origin (h : Host) (now : Z) (events : list (string * fileMod))
  (w : FileWatch) (msg : MonitorMessage) :
  msg ∈ reports (handleEvents h now w events).2 ->
  exists fullPath fmod w1 event,
    (fullPath, fmod) ∈ events
    /\ only_learned w w1
    /\ IsPidValid h (ParseContainerFilePath fullPath).1 = true
    /\ msg ∈ reports (learnFromEvents w1 (ParseContainerFilePath fullPath).1 fmod
                       (ParseContainerFilePath fullPath).2 event now).2.
Proof.
  revert w. induction events as [|[fp fm] events IH]; intros w.
  - intros Hin. inversion Hin.
  - rewrite handleEvents_cons. cbn [snd]. rewrite reports_app, elem_of_app.
    intros [Hin|Hin].
    + destruct (IsPidValid h (ParseContainerFilePath fp).1) eqn:Hvalid.
      * apply handleEvent_reports in Hin. destruct Hin as (w1 & event & Hw1 & Hin).
        exists fp, fm, w1, event. split; [left|]. split; [apply only_finfos_learned; exact Hw1|].
        split; [exact Hvalid|exact Hin].
      * rewrite (handleEvent_dead _ _ _ _ _ Hvalid) in Hin. inversion Hin.
    + apply IH in Hin. destruct Hin as (fp' & fm' & w1 & event & Hev & Hw1 & Hvalid & Hin).
      exists fp', fm', w1, event. split; [right; exact Hev|].
      split; [|split; [exact Hvalid|exact Hin]].
      eapply only_learned_trans; [apply handleEvent_only_learned|exact Hw1].
Qed.

Lemma sendMsg_origin (cid path : string) (event : Z) (pInfo : list ProcInfo) (mode : string)
  (msg : MonitorMessage) :
  msg ∈ reports (sendMsg cid path event pInfo mode) ->
  (pInfo = [] /\ msg_ProcPid msg = 0%Z /\ msg_ProcPath msg = "")
  \/ exists pi, pi ∈ pInfo /\ msg_ProcPid msg = pi_Pid pi /\ msg_ProcPath msg = pi_Path pi.
Proof.
  unfold sendMsg. destruct (fileEventMsg !! event) as [eventMsg|]; [|intros Hin; inversion Hin].
  destruct pInfo as [|pi0 rest].
  - intros Hin. apply list_elem_of_singleton in Hin. subst msg. left. repeat split.
  - intros Hin. right.
    assert (Hor : exists pi, pi ∈ pi0 :: rest /\ msg = proc_msg cid path event eventMsg pi).
    { revert Hin. generalize (@None ProcInfo). generalize (pi0 :: rest). clear.
      intros l. induction l as [|pi l IH]; intros prev; cbn [sendMsg_procs].
      - intros Hin. inversion Hin.
      - rewrite reports_app, elem_of_app. intros [Hin|Hin].
        + case_bool_decide; simpl in Hin; [inversion Hin|].
          apply list_elem_of_singleton in Hin. exists pi. split; [left|exact Hin].
        + destruct (IH _ Hin) as (pi' & Hpi' & Hmsg).
          exists pi'. split; [right; exact Hpi'|exact Hmsg]. }
    destruct Hor as (pi & Hpi & ->). exists pi. repeat split. exact Hpi.
Qed.

(** X22: every report of a flush stems from a pending event of a container whose
    root pid is valid and which has a group: the report names a process of
    the event's records, or none when the event has no record. Events of
    containers without a group are never reported. *)
Theorem flush_reports_stem_from_pending_events (h : Host) (now : Z) (w : FileWatch)
  (msg : MonitorMessage) :
  msg ∈ reports (HandleWatchedFiles h now w).2 ->
  exists fullPath fmod,
    fileEvents w !! fullPath = Some fmod
    /\ IsPidValid h (ParseContainerFilePath fullPath).1 = true
    /\ is_Some (groups w !! (ParseContainerFilePath fullPath).1)
    /\ ((fm_pInfo fmod = [] /\ msg_ProcPid msg = 0%Z /\ msg_ProcPath msg = "")
        \/ exists pi, pi ∈ fm_pInfo fmod /\ msg_ProcPid msg = pi_Pid pi
                      /\ msg_ProcPath msg = pi_Path pi).
Proof.
  intros Hin. unfold HandleWatchedFiles in Hin.
  apply handleEvents_reports_origin in Hin.
  destruct Hin as (fp & fm & w1 & event & Hev & Hw1 & Hvalid & Hin).
  apply elem_of_map_to_list in Hev. exists fp, fm.
  split; [exact Hev|]. split; [exact Hvalid|].
  rewrite learnFromEvents_reports in Hin.
  destruct Hw1 as (_ & _ & _ & Hgroups). specialize (Hgroups (ParseContainerFilePath fp).1).
  cbn [groups set_fileEvents] in Hgroups.
  destruct (groups w1 !! (ParseContainerFilePath fp).1) as [grp|]; [|inversion Hin].
  split; [inversion Hgroups; eexists; reflexivity|].
  destruct (isRunTimeAddedFile _ && _); [inversion Hin|].
  destruct (negb _ || _); [|inversion Hin].
  exact (sendMsg_origin _ _ _ _ _ _ Hin).
Qed.

(** ** The kinds the classifiers give *)

Lemma kinds_have_messages (event : Z) :
  In event [fileEventAttr; fileEventDirAttr; fileEventCreate; fileEventModified;
            fileEventRemoved; fileEventSymCreate; fileEventDirSymCreate;
            fileEventDirCreate; fileEventDirRemoved; fileEventAccessed;
            fileEventMovedFrom; fileEventMovedTo; fileEventDirMovedFrom;
            fileEventDirMovedTo] ->
  is_Some (fileEventMsg !! event) /\ event <> 0%Z.
Proof.
  cbn [In]. intros Hin.
  repeat (destruct Hin as [<-|Hin]; [split; [eexists; vm_compute; reflexivity|discriminate]|]).
  contradiction.
Qed.

Lemma sym_create_event_cases (h : Host) (fullPath : string) (pid : Z) :
  sym_create_event h fullPath pid = fileEventSymCreate
  \/ sym_create_event h fullPath pid = fileEventDirSymCreate.
Proof. unfold sym_create_event. repeat case_match; auto. Qed.

Lemma handleFileEvents_kind (h : Host) (w : FileWatch) (fmod : fileMod) (info : option Z)
  (fullPath : string) (pid : Z) :
  let event := (handleFileEvents h w fmod info fullPath pid).2 in
  (info <> None /\ event = 0%Z)
  \/ In event [fileEventAttr; fileEventModified; fileEventRemoved; fileEventAccessed;
               fileEventMovedFrom; fileEventMovedTo].
Proof.
  unfold handleFileEvents, modified_by_mask. cbn [In].
  destruct info as [m|]; repeat case_match; cbn [snd]; auto 10.
  all: left; split; [discriminate|reflexivity].
Qed.

Lemma handleDirEvents_kind (h : Host) (w : FileWatch) (fmod : fileMod) (info : option Z)
  (fullPath path : string) (pid : Z) :
  let event := (handleDirEvents h w fmod info fullPath path pid).2 in
  (info <> None /\ event = 0%Z)
  \/ In event [fileEventAttr; fileEventDirAttr; fileEventCreate; fileEventModified;
               fileEventRemoved; fileEventSymCreate; fileEventDirSymCreate;
               fileEventDirCreate; fileEventDirRemoved; fileEventAccessed;
               fileEventMovedFrom; fileEventMovedTo; fileEventDirMovedFrom;
               fileEventDirMovedTo].
Proof.
  unfold handleDirEvents. cbn [In].
  destruct (sym_create_event_cases h fullPath pid) as [Hs|Hs].
  all: destruct info as [m|]; repeat case_match; cbn [snd]; rewrite ?Hs; auto 20.
  all: left; split; [discriminate|reflexivity].
Qed.

(** X23: the classifiers give only kinds that have a message, or no kind at all
    (0): [handleFileEvents] one of attribute change, modified, removed,
    accessed, moved from and moved to; [handleDirEvents] these and the
    kinds of directories and symbolic links. Neither gives the kinds
    denied, replaced or link modified. A path that no longer exists always
    gets a kind. *)
Theorem classifiers_give_known_kinds (h : Host) (w : FileWatch) (fmod : fileMod)
  (info : option Z) (fullPath path : string) (pid : Z) :
  let file_kind := (handleFileEvents h w fmod info fullPath pid).2 in
  let dir_kind := (handleDirEvents h w fmod info fullPath path pid).2 in
  (file_kind = 0%Z /\ info <> None
   \/ is_Some (fileEventMsg !! file_kind) /\ file_kind <> 0%Z
      /\ In file_kind [fileEventAttr; fileEventModified; fileEventRemoved; fileEventAccessed;
                       fileEventMovedFrom; fileEventMovedTo])
  /\ (dir_kind = 0%Z /\ info <> None
      \/ is_Some (fileEventMsg !! dir_kind) /\ dir_kind <> 0%Z
         /\ ~ In dir_kind [fileEventDenied; fileEventReplaced; fileEventSymModified;
                           fileEventDirSymModified]).
Proof.
  intros file_kind dir_kind. split.
  - destruct (handleFileEvents_kind h w fmod info fullPath pid) as [[Hi H0]|Hin].
    + left. split; assumption.
    + right. fold file_kind in Hin.
      assert (Hk : is_Some (fileEventMsg !! file_kind) /\ file_kind <> 0%Z).
      { apply kinds_have_messages. cbn [In] in *. intuition. }
      split; [apply Hk|]. split; [apply Hk|exact Hin].
  - destruct (handleDirEvents_kind h w fmod info fullPath path pid) as [[Hi H0]|Hin].
    + left. split; assumption.
    + right. fold dir_kind in Hin.
      destruct (kinds_have_messages _ Hin) as [Hm Hz].
      split; [exact Hm|]. split; [exact Hz|].
      cbn [In] in *. intros Hbad.
      repeat (destruct Hin as [Hin|Hin];
              [rewrite <- Hin in Hbad; vm_compute in Hbad;
               repeat (destruct Hbad as [Hbad|Hbad]; [discriminate|]); contradiction|]).
      contradiction.
Qed.

(** ** Hashes and content changes *)

(** X24: when a plain file that still exists has been read or written (and
    neither moved nor changed in its attributes) and its hash can be
    computed, [handleFileEvents] makes no driver call and leaves the file's
    current hash in its object. With the hash of the object unchanged the
    event is an access and the state is untouched; with a different,
    known hash before, it is a modification. Classified again with the
    same evidence and content, the event is an access: a content change is
    reported once. *)
Theorem content_change_is_reported_once (h : Host) (w : FileWatch) (fmod : fileMod) (m : Z)
  (fullPath : string) (pid : Z) (hash : Hash) :
  mask_has (fm_mask fmod) inodeMovedMask = false ->
  mask_has (fm_mask fmod) syscall.IN_ATTRIB = false ->
  mask_has (fm_mask fmod)
    (Z.lor (Z.lor syscall.IN_ACCESS syscall.IN_CLOSE_WRITE) syscall.IN_MODIFY) = true ->
  GetFileHash h fullPath = Some hash ->
  let r := handleFileEvents h w fmod (Some m) fullPath pid in
  let old := fi_Hash (finfos w !!! fm_finfo fmod) in
  r.1.2 = []
  /\ fi_Hash (finfos r.1.1 !!! fm_finfo fmod) = hash
  /\ (hash = old -> r.2 = fileEventAccessed /\ r.1.1 = w)
  /\ (hash <> old -> old <> 0%N -> r.2 = fileEventModified)
  /\ (hash <> old -> old = 0%N -> r.2 = modified_by_mask (fm_mask fmod))
  /\ handleFileEvents h r.1.1 fmod (Some m) fullPath pid = (r.1.1, [], fileEventAccessed).
Proof.
  intros Hmoved Hattr Hrw Hhash r old.
  assert (Hagain : forall w0, fi_Hash (finfos w0 !!! fm_finfo fmod) = hash ->
            handleFileEvents h w0 fmod (Some m) fullPath pid = (w0, [], fileEventAccessed)).
  { intros w0 Hw0. unfold handleFileEvents. rewrite Hmoved, Hattr, Hrw, Hhash, Hw0.
    rewrite N.eqb_refl. reflexivity. }
  assert (Hr : r = if negb (hash =? old)%N
                  then (update_finfo (set_fi_Hash hash) (fm_finfo fmod) w, [],
                        if negb (HashZero old) then fileEventModified
                        else modified_by_mask (fm_mask fmod))
                  else (w, [], fileEventAccessed)).
  { unfold r, handleFileEvents. rewrite Hmoved, Hattr, Hrw, Hhash. cbv zeta. fold old.
    destruct (negb (hash =? old)%N); [|reflexivity].
    destruct (negb (HashZero old)); reflexivity. }
  rewrite Hr. clear Hr.
  destruct (N.eqb_spec hash old) as [Heq|Hne]; cbn [negb fst snd].
  - split; [reflexivity|]. split; [symmetry; exact Heq|].
    split; [intros _; split; reflexivity|]. split; [intros Hc; contradiction|].
    split; [intros Hc; contradiction|]. apply Hagain. symmetry. exact Heq.
  - assert (Hnew : fi_Hash (finfos (update_finfo (set_fi_Hash hash) (fm_finfo fmod) w)
                            !!! fm_finfo fmod) = hash).
    { unfold update_finfo. cbn [finfos set_finfos]. rewrite lookup_total_insert_eq.
      reflexivity. }
    split; [reflexivity|]. split; [exact Hnew|].
    split; [intros Hc; contradiction|].
    unfold HashZero. destruct (N.eqb_spec old 0) as [Hz|Hnz]; cbn [negb].
    all: split; [intros _ Hc; first [contradiction|reflexivity]|].
    all: split; [intros _ Hc; first [contradiction|reflexivity]|].
    all: apply Hagain; exact Hnew.
Qed.

(** ** New sub-directories *)

(** X25: when a directory appears below a watched directory (the event has
    [IN_CREATE] and not [IN_MOVED_TO]), [handleDirEvents] reports a
    directory creation and re-points the object of the watched directory to
    the new sub-directory: its path and mode become those of the
    sub-directory. When that sub-directory vanishes later, the event is
    therefore classified as the removal of the watched directory itself,
    and no watch is released. *)
Theorem new_subdirectory_repoints_watched_directory (h : Host) (w : FileWatch)
  (fmod : fileMod) (m : Z) (fullPath path : string) (pid : Z) :
  os.IsDir m = true ->
  mask_has (fm_mask fmod) (Z.lor syscall.IN_MOVED_TO syscall.IN_CREATE) = true ->
  mask_has (fm_mask fmod) syscall.IN_MOVED_TO = false ->
  let r := handleDirEvents h w fmod (Some m) fullPath path pid in
  r.2 = fileEventDirCreate
  /\ fi_Path (finfos r.1.1 !!! fm_finfo fmod) = fullPath
  /\ fi_FileMode (finfos r.1.1 !!! fm_finfo fmod) = m
  /\ forall (h' : Host) (fmod' : fileMod) (path' : string) (pid' : Z),
       fm_finfo fmod' = fm_finfo fmod ->
       handleDirEvents h' r.1.1 fmod' None fullPath path' pid'
       = (r.1.1, [], fileEventDirRemoved).
Proof.
  intros Hdir Hcreate Hmoved r.
  set (w1 := update_finfo (fun fi => set_fi_FileMode m (set_fi_Path fullPath fi))
               (fm_finfo fmod) w).
  assert (Hw1 : finfos w1 !! fm_finfo fmod
                = Some (set_fi_FileMode m (set_fi_Path fullPath (finfos w !!! fm_finfo fmod)))).
  { unfold w1, update_finfo. cbn [finfos set_finfos]. apply lookup_insert_eq. }
  assert (Hobj : finfos r.1.1 !! fm_finfo fmod
                 = Some (set_fi_FileMode m (set_fi_Path fullPath (finfos w !!! fm_finfo fmod)))
                 /\ r.2 = fileEventDirCreate).
  { unfold r, handleDirEvents. rewrite Hcreate, Hmoved, Hdir. cbv zeta. fold w1.
    destruct (negb (fr_recursive (fi_Filter (finfos w1 !!! fm_finfo fmod)))); cbn [fst snd].
    - split; [exact Hw1|reflexivity].
    - split; [apply add_new_dir_keeps; exact Hw1|reflexivity]. }
  destruct Hobj as [Hobj Hkind].
  assert (Htotal : finfos r.1.1 !!! fm_finfo fmod
                   = set_fi_FileMode m (set_fi_Path fullPath (finfos w !!! fm_finfo fmod))).
  { apply lookup_total_correct. exact Hobj. }
  split; [exact Hkind|]. rewrite Htotal. split; [reflexivity|]. split; [reflexivity|].
  intros h' fmod' path' pid' Hsame. unfold handleDirEvents. cbv zeta.
  rewrite Hsame, Htotal. cbn [fi_Path set_fi_FileMode set_fi_Path].
  rewrite String.eqb_refl. reflexivity.
Qed.

(** ** [ContainerCleanup] and the other containers *)

(** X26: [ContainerCleanup] touches one container only: the groups of all other
    root pids, the pending events of all paths outside the container and
    the store of objects are as before. On an enabled watcher it makes one
    cleanup call on each driver. Cleaning up the same container again
    leaves the state as it is. *)
Theorem ContainerCleanup_spares_other_containers (w : FileWatch) (rootPid : Z) (bLeave : bool) :
  let w' := (ContainerCleanup w rootPid bLeave).1 in
  (forall pid, pid <> rootPid -> groups w' !! pid = groups w !! pid)
  /\ (forall path, (ParseContainerFilePath path).1 <> rootPid ->
        fileEvents w' !! path = fileEvents w !! path)
  /\ finfos w' = finfos w /\ bEnable w' = bEnable w
  /\ (bEnable w = true ->
      (ContainerCleanup w rootPid bLeave).2
      = [FaContainerCleanup rootPid; InoContainerCleanup rootPid])
  /\ (ContainerCleanup w' rootPid bLeave).1 = w'.
Proof.
  intros w'. unfold w', ContainerCleanup.
  destruct (bEnable w) eqn:Hen; cbn [negb fst snd].
  2:{ rewrite Hen. cbn [negb fst]. repeat split; try reflexivity. discriminate. }
  cbn [groups fileEvents finfos bEnable set_groups set_fileEvents]. rewrite Hen. cbn [negb fst].
  split; [|split; [|split; [reflexivity|split; [reflexivity|split; [reflexivity|]]]]].
  - intros pid Hne. destruct (groups w !! rootPid) as [g|]; [|reflexivity].
    destruct bLeave; [apply lookup_delete_ne|apply lookup_insert_ne]; congruence.
  - intros path Hne. rewrite map_lookup_filter.
    destruct (fileEvents w !! path) as [fm|]; [|reflexivity].
    cbn [mbind option_bind]. apply option_guard_True. exact Hne.
  - unfold set_groups, set_fileEvents.
    cbn [bEnable aufs bNVProtect fileEvents groups finfos]. f_equal.
    + apply map_filter_filter_l. intros; assumption.
    + destruct (groups w !! rootPid) as [g|] eqn:Hg.
      * destruct bLeave.
        -- rewrite lookup_delete_eq. reflexivity.
        -- rewrite lookup_insert_eq, insert_insert_eq. reflexivity.
      * rewrite Hg. reflexivity.
Qed.

(** ** The counters of [GetProbeData] *)

Lemma same_groups_size (m m' : gmap Z groupInfo) :
  (forall pid, option_Forall2 same_fields (m !! pid) (m' !! pid)) -> size m' = size m.
Proof.
  intros Hsame. rewrite <- (size_dom m), <- (size_dom m'). f_equal.
  apply set_eq. intros pid. rewrite !elem_of_dom. specialize (Hsame pid).
  inversion Hsame; split; intros [? ?]; first [discriminate|eexists; reflexivity].
Qed.

(** X27: the counters [GetProbeData] gives on an enabled watcher follow the
    state: after a flush no file event is counted and the number of groups
    is as before; after a [ContainerCleanup] the number of file events has
    not grown, and the number of groups is one less when the container
    leaves and had a group, and as before otherwise. *)
Theorem probe_counters_follow_state (h h' : Host) (now : Z) (w : FileWatch) (rootPid : Z)
  (bLeave : bool) :
  bEnable w = true ->
  exists d d_flush d_clean,
    GetProbeData h w = Some d
    /\ GetProbeData h (HandleWatchedFiles h' now w).1 = Some d_flush
    /\ GetProbeData h (ContainerCleanup w rootPid bLeave).1 = Some d_clean
    /\ NFileEvents d_flush = 0%Z /\ NGroups d_flush = NGroups d
    /\ (NFileEvents d_clean <= NFileEvents d)%Z
    /\ NGroups d_clean =
       (if bLeave && bool_decide (is_Some (groups w !! rootPid))
        then NGroups d - 1 else NGroups d)%Z.
Proof.
  intros Hen. unfold GetProbeData.
  destruct (handleEvents_only_learned h' now (map_to_list (fileEvents w)) (set_fileEvents ∅ w))
    as (Hen' & _ & Hev & Hgroups).
  fold (HandleWatchedFiles h' now w) in Hen', Hev, Hgroups.
  cbn [bEnable fileEvents groups set_fileEvents] in Hen', Hev, Hgroups.
  rewrite Hen', Hen, Hev.
  assert (Hclean : bEnable (ContainerCleanup w rootPid bLeave).1 = true).
  { unfold ContainerCleanup. rewrite Hen. exact Hen. }
  rewrite Hclean. cbn [negb].
  eexists _, _, _. split; [reflexivity|]. split; [reflexivity|]. split; [reflexivity|].
  cbn [NFileEvents NGroups].
  split; [rewrite map_size_empty; reflexivity|].
  split; [rewrite (same_groups_size _ _ Hgroups); reflexivity|].
  unfold ContainerCleanup. rewrite Hen. cbn [negb fst groups fileEvents set_groups set_fileEvents].
  split.
  - apply Nat2Z.inj_le. apply map_subseteq_size. apply map_filter_subseteq.
  - destruct (groups w !! rootPid) as [g|] eqn:Hg.
    + rewrite bool_decide_eq_true_2 by (eexists; reflexivity).
      destruct bLeave; cbn [andb].
      * rewrite map_size_delete_Some by (eexists; exact Hg).
        assert (0 < size (groups w))%nat.
        { destruct (size (groups w)) eqn:Hs; [|lia].
          apply map_size_empty_iff in Hs. rewrite Hs, lookup_empty in Hg. discriminate. }
        lia.
      * rewrite map_size_insert_Some by (eexists; exact Hg). reflexivity.
    + rewrite bool_decide_eq_false_2 by (intros [? ?]; discriminate).
      rewrite andb_false_r. reflexivity.
Qed.

(** ** The alert of the process guard *)

Lemma effective_profile_group (conf : FsmonConfig) :
  prf_Group (effective_profile conf) = prf_Group (cfg_Profile conf).
Proof. unfold effective_profile. case_match; reflexivity. Qed.

(** X28: [SendNVProcessAlert] follows the life of the group: once [StartWatch]
    has registered the container, an alert is sent as one report with the
    action [Deny], the alert text and the group name of the profile of the
    call, naming the given process; once [ContainerCleanup] has let the
    container leave, alerts for it are dropped. *)
Theorem process_alert_follows_group (h : Host) (now : Z) (w : FileWatch) (id : string)
  (rootPid : Z) (conf : FsmonConfig) (capBlock bNeuvectorSvc : bool)
  (ppid : Z) (cid path ppath : string) :
  bEnable w = true -> IsPidValid h rootPid = true ->
  (exists msg,
     SendNVProcessAlert (StartWatch h now w id rootPid conf capBlock bNeuvectorSvc).1
       rootPid ppid cid path ppath = [SendReport msg]
     /\ msg_Group msg = prf_Group (cfg_Profile conf)
     /\ msg_Action msg = PolicyActionDeny /\ msg_Msg msg = fsNvProtectProcAlert
     /\ msg_ID msg = cid /\ msg_Path msg = path
     /\ msg_ProcPid msg = ppid /\ msg_ProcPPid msg = ppid
     /\ msg_ProcPath msg = path /\ msg_ProcPPath msg = ppath)
  /\ SendNVProcessAlert (ContainerCleanup w rootPid true).1 rootPid ppid cid path ppath = [].
Proof.
  intros Hen Hvalid. split.
  - destruct (StartWatch_shape h now w id rootPid conf capBlock bNeuvectorSvc Hen Hvalid)
      as [_ Heq].
    rewrite Heq. clear Heq. unfold SendNVProcessAlert.
    destruct (bNeuvectorSvc || (rootPid =? 1)%Z); [|destruct (cfg_Rule conf) as [rule|]];
      cbn [fst groups set_groups]; rewrite lookup_insert_eq.
    all: eexists; split; [reflexivity|].
    all: cbn [msg_Group msg_Action msg_Msg msg_ID msg_Path msg_ProcPid msg_ProcPPid
              msg_ProcPath msg_ProcPPath profile set_profile_mode set_applyRules].
    all: repeat split; apply effective_profile_group.
  - unfold SendNVProcessAlert, ContainerCleanup. rewrite Hen.
    cbn [negb fst groups set_groups set_fileEvents].
    destruct (groups w !! rootPid) as [g|] eqn:Hg.
    + rewrite lookup_delete_eq. reflexivity.
    + rewrite Hg. reflexivity.
Qed.

(** ** One report per process *)

Lemma handleEvent_reports_eq (h : Host) (now : Z) (w : FileWatch) (fullPath : string)
  (fmod : fileMod) :
  reports (handleEvent h now w fullPath fmod).2 = []
  \/ exists w1 event,
       reports (handleEvent h now w fullPath fmod).2
       = reports (learnFromEvents w1 (ParseContainerFilePath fullPath).1 fmod
                    (ParseContainerFilePath fullPath).2 event now).2.
Proof.
  pose proof (handleEvent_unfold h now w fullPath fmod) as Hu. cbn zeta in Hu. rewrite Hu.
  destruct (IsPidValid h _); [|left; reflexivity].
  match goal with |- context [negb (?r.2 =? 0)%Z] => set (res := r) end.
  pose proof (classifier_frame h w fmod (Lstat h fullPath) fullPath
                (ParseContainerFilePath fullPath).2 (ParseContainerFilePath fullPath).1
                (os.IsDir (fi_FileMode (finfos w !!! fm_finfo fmod))
                 || match Lstat h fullPath with Some m => os.IsDir m | None => false end))
    as [_ Hrep].
  fold res in Hrep.
  destruct (negb (res.2 =? 0)%Z); cbn [snd].
  - right. exists res.1.1, res.2. rewrite reports_app, Hrep. reflexivity.
  - left. exact Hrep.
Qed.

(** X5: in every state a new watcher reaches, the handling of a pending event
    at a flush reports it once per process that the callbacks recorded for
    it, in the order of the records and never twice for a pid, or (for an
    event without a record) in one report without a process, or not at
    all. *)
Theorem pending_event_is_reported_once_per_process (ProfileEnable IsAufs NVProtect : bool)
  (ops : list Op) (fullPath : string) (fmod : fileMod) (h : Host) (now : Z)
  (w' : FileWatch) :
  fileEvents (run_ops ops (NewFileWatcher ProfileEnable IsAufs NVProtect)) !! fullPath
  = Some fmod ->
  let sent := reports (handleEvent h now w' fullPath fmod).2 in
  sent = []
  \/ (fm_pInfo fmod <> [] /\ msg_ProcPid <$> sent = pi_Pid <$> fm_pInfo fmod)
  \/ (fm_pInfo fmod = [] /\ exists msg, sent = [msg] /\ msg_ProcPid msg = 0%Z).
Proof.
  intros Hpending sent.
  assert (Hnd : NoDup (pi_Pid <$> fm_pInfo fmod)).
  { assert (Hall : forall ops w, pids_distinct w -> pids_distinct (run_ops ops w)).
    { intros ops0. induction ops0 as [|op ops0 IH]; intros w Hinv; [exact Hinv|].
      simpl. apply IH. apply run_op_pids_distinct. exact Hinv. }
    eapply Hall; [|exact Hpending].
    intros p f Hf. simpl in Hf. rewrite lookup_empty in Hf. discriminate. }
  destruct (handleEvent_reports_eq h now w' fullPath fmod) as [Hnone|(w1 & event & Heq)];
    [left; exact Hnone|].
  unfold sent. rewrite Heq, learnFromEvents_reports.
  destruct (groups w1 !! _) as [grp|]; [|left; reflexivity].
  destruct (isRunTimeAddedFile _ && _); [left; reflexivity|].
  destruct (negb _ || _); [|left; reflexivity].
  unfold sendMsg. destruct (fileEventMsg !! event) as [eventMsg|]; [|left; reflexivity].
  destruct (fm_pInfo fmod) as [|pi rest] eqn:Hp.
  - right. right. split; [reflexivity|]. eexists. split; reflexivity.
  - right. left. split; [discriminate|].
    apply sendMsg_procs_pids; [intros p Hc; discriminate|exact Hnd].
Qed.

(** ** The targets of one filter *)

Lemma getDirFileList_loops (w : FileWatch) (pid : Z) (res : WalkPathResult)
  (filter : CLUSFileMonitorFilter) :
  getDirFileList w pid res filter =
  let base := GoStrings.unescape_dots (flt_Path filter) in
  let '(w1, dirList) := foldl (dir_step pid filter base) (w, ∅) (wr_Dirs res) in
  let '(w2, singleFiles) := foldl (file_step pid filter base dirList) (w1, []) (wr_Files res) in
  (w2, dirList, singleFiles).
Proof. reflexivity. Qed.

Lemma takes_dir_spec (filter : CLUSFileMonitorFilter) (dir : string) :
  let base := GoStrings.unescape_dots (flt_Path filter) in
  (negb (String.eqb dir base) && negb (GoStrings.HasPrefix dir (base +:+ "/")) = false
   /\ negb (flt_Recursive filter) && (String.length base <? String.length dir)%nat = false)
  <-> takes_dir filter dir.
Proof.
  intros base. unfold takes_dir. fold base. split.
  - intros [Hin Hrec].
    destruct (String.eqb_spec dir base) as [Heq|Hne]; [left; exact Heq|].
    cbn [negb andb] in Hin. apply negb_false_iff in Hin.
    destruct (flt_Recursive filter); [right; split; [reflexivity|exact Hin]|].
    cbn [negb andb] in Hrec. apply Nat.ltb_ge in Hrec.
    apply HasPrefix_length in Hin. rewrite length_append_slash in Hin. lia.
  - intros [->|[Hrec Hpre]].
    + rewrite String.eqb_refl, Nat.ltb_irrefl, andb_false_r. split; reflexivity.
    + rewrite Hrec, Hpre, andb_false_r. split; reflexivity.
Qed.

Lemma dir_step_cases (pid : Z) (filter : CLUSFileMonitorFilter) (w : FileWatch)
  (dirList : gmap string loc) (d : DirData) :
  let base := GoStrings.unescape_dots (flt_Path filter) in
  (~ takes_dir filter (dd_Dir d) /\ dir_step pid filter base (w, dirList) d = (w, dirList))
  \/ (takes_dir filter (dd_Dir d)
      /\ exists l,
           finfos w !! l = None
           /\ dir_step pid filter base (w, dirList) d
              = (set_finfos (<[l := new_finfo (dd_Mode d) (ContainerFilePath pid (dd_Dir d))
                                      filter]> (finfos w)) w,
                 <[ContainerFilePath pid (dd_Dir d) := l]> dirList)).
Proof.
  intros base. pose proof (takes_dir_spec filter (dd_Dir d)) as Hspec. cbv zeta in Hspec.
  fold base in Hspec. unfold dir_step.
  destruct (negb (String.eqb (dd_Dir d) base)
            && negb (GoStrings.HasPrefix (dd_Dir d) (base +:+ "/"))) eqn:H1.
  - left. split; [|reflexivity]. intros Ht. apply Hspec in Ht. destruct Ht; discriminate.
  - destruct (negb (flt_Recursive filter)
              && (String.length base <? String.length (dd_Dir d))%nat) eqn:H2.
    + left. split; [|reflexivity]. intros Ht. apply Hspec in Ht. destruct Ht; discriminate.
    + right. split; [apply Hspec; split; reflexivity|].
      exists (fresh (dom (finfos w))). split; [|reflexivity].
      apply not_elem_of_dom. apply is_fresh.
Qed.

Lemma built_for_new (filter : CLUSFileMonitorFilter) (fpath : string) (mode : Z) :
  built_for filter fpath mode (new_finfo mode fpath filter).
Proof. reflexivity. Qed.

Lemma dirs_loop (pid : Z) (filter : CLUSFileMonitorFilter) (dirs : list DirData)
  (w : FileWatch) (dirList : gmap string loc) :
  let base := GoStrings.unescape_dots (flt_Path filter) in
  let r := foldl (dir_step pid filter base) (w, dirList) dirs in
  (forall l x, finfos w !! l = Some x -> finfos r.1 !! l = Some x)
  /\ (forall k, is_Some (r.2 !! k) <->
        is_Some (dirList !! k)
        \/ exists d, d ∈ dirs /\ k = ContainerFilePath pid (dd_Dir d)
                     /\ takes_dir filter (dd_Dir d))
  /\ (forall k l, r.2 !! k = Some l ->
        dirList !! k = Some l
        \/ exists d fi, d ∈ dirs /\ k = ContainerFilePath pid (dd_Dir d)
                        /\ takes_dir filter (dd_Dir d)
                        /\ finfos r.1 !! l = Some fi /\ built_for filter k (dd_Mode d) fi).
Proof.
  intros base. revert w dirList.
  induction dirs as [|d dirs IH]; intros w dirList r.
  - cbn [foldl] in r. unfold r. cbn [fst snd]. split; [auto|]. split; [|auto].
    intros k. split; [auto|]. intros [Hk|(d & Hd & _)]; [exact Hk|inversion Hd].
  - cbn [foldl] in r.
    destruct (dir_step_cases pid filter w dirList d) as [[Hno Hstep]|[Hyes (l0 & Hfresh & Hstep)]];
      fold base in Hstep; unfold r; rewrite Hstep.
    + specialize (IH w dirList). cbv zeta in IH. destruct IH as (Hkeep & Hdom & Hobj).
      split; [exact Hkeep|]. split.
      * intros k. rewrite Hdom. split.
        -- intros [Hk|(d' & Hd' & Hrest)]; [left; exact Hk|].
           right. exists d'. split; [right; exact Hd'|exact Hrest].
        -- intros [Hk|(d' & Hd' & Hkey & Ht)]; [left; exact Hk|].
           apply elem_of_cons in Hd'. destruct Hd' as [->|Hd']; [contradiction|].
           right. exists d'. auto.
      * intros k l Hl. destruct (Hobj k l Hl) as [Hk|(d' & fi & Hd' & Hrest)]; [left; exact Hk|].
        right. exists d', fi. split; [right; exact Hd'|exact Hrest].
    + set (w1 := set_finfos _ w) in *.
      set (dl1 := <[ContainerFilePath pid (dd_Dir d) := l0]> dirList) in *.
      specialize (IH w1 dl1). cbv zeta in IH. destruct IH as (Hkeep & Hdom & Hobj).
      assert (Hkeep0 : forall l x, finfos w !! l = Some x -> finfos w1 !! l = Some x).
      { intros l x Hl. unfold w1. cbn [finfos set_finfos].
        rewrite lookup_insert_ne; [exact Hl|]. intros <-. congruence. }
      split; [intros l x Hl; apply Hkeep, Hkeep0, Hl|]. split.
      * intros k. rewrite Hdom. unfold dl1. split.
        -- intros [Hk|(d' & Hd' & Hrest)].
           ++ destruct (decide (ContainerFilePath pid (dd_Dir d) = k)) as [<-|Hne].
              ** right. exists d. split; [left|]. split; [reflexivity|exact Hyes].
              ** rewrite lookup_insert_ne in Hk by exact Hne. left. exact Hk.
           ++ right. exists d'. split; [right; exact Hd'|exact Hrest].
        -- intros [Hk|(d' & Hd' & Hkey & Ht)].
           ++ left. destruct (decide (ContainerFilePath pid (dd_Dir d) = k)) as [<-|Hne].
              ** rewrite lookup_insert_eq. eexists; reflexivity.
              ** rewrite lookup_insert_ne by exact Hne. exact Hk.
           ++ apply elem_of_cons in Hd'. destruct Hd' as [->|Hd'].
              ** left. rewrite Hkey, lookup_insert_eq. eexists; reflexivity.
              ** right. exists d'. auto.
      * intros k l Hl. destruct (Hobj k l Hl) as [Hk|(d' & fi & Hd' & Hrest)].
        -- unfold dl1 in Hk.
           destruct (decide (ContainerFilePath pid (dd_Dir d) = k)) as [<-|Hne].
           ++ rewrite lookup_insert_eq in Hk. injection Hk as <-.
              right. exists d, (new_finfo (dd_Mode d) (ContainerFilePath pid (dd_Dir d)) filter).
              split; [left|]. split; [reflexivity|]. split; [exact Hyes|].
              split; [|apply built_for_new].
              apply Hkeep. unfold w1. cbn [finfos set_finfos]. apply lookup_insert_eq.
           ++ rewrite lookup_insert_ne in Hk by exact Hne. left. exact Hk.
        -- right. exists d', fi. split; [right; exact Hd'|exact Hrest].
Qed.

Lemma update_children_keeps (di l c : loc) (w : FileWatch) (fi : FileInfoExt) :
  finfos w !! l = Some fi ->
  exists fi',
    finfos (update_finfo (fun x => set_fi_Children (fi_Children x ++ [c]) x) di w) !! l
    = Some fi'
    /\ set_fi_Children [] fi' = set_fi_Children [] fi
    /\ forall x, x ∈ fi_Children fi -> x ∈ fi_Children fi'.
Proof.
  intros Hl. unfold update_finfo. cbn [finfos set_finfos].
  destruct (decide (di = l)) as [->|Hne].
  - rewrite lookup_insert_eq, (lookup_total_correct _ _ _ Hl).
    eexists. split; [reflexivity|]. split; [reflexivity|].
    intros x Hx. cbn [fi_Children set_fi_Children]. apply elem_of_app. left. exact Hx.
  - rewrite lookup_insert_ne by exact Hne. exists fi. auto.
Qed.

Lemma file_step_keeps (pid : Z) (filter : CLUSFileMonitorFilter) (base : string)
  (dirList : gmap string loc) (w : FileWatch) (singles : list loc) (f : FileData)
  (l : loc) (fi : FileInfoExt) :
  finfos w !! l = Some fi ->
  exists fi',
    finfos (file_step pid filter base dirList (w, singles) f).1 !! l = Some fi'
    /\ set_fi_Children [] fi' = set_fi_Children [] fi
    /\ forall x, x ∈ fi_Children fi -> x ∈ fi_Children fi'.
Proof.
  intros Hl. unfold file_step.
  destruct (skips_file filter base (fd_File f)); [exists fi; auto|].
  pose proof (alloc_finfo_keeps (new_finfo (fd_Mode f) (ContainerFilePath pid (fd_File f)) filter)
                w l fi Hl) as Hk.
  destruct (alloc_finfo _ w) as [l' w'] eqn:Halloc. cbn [snd] in Hk.
  destruct (dirList !! filepath.Dir (ContainerFilePath pid (fd_File f))) as [di|].
  - cbn [fst]. apply update_children_keeps. exact Hk.
  - exists fi. auto.
Qed.

Lemma files_loop_keeps (pid : Z) (filter : CLUSFileMonitorFilter) (base : string)
  (dirList : gmap string loc) (files : list FileData) (w : FileWatch) (singles : list loc) :
  let r := foldl (file_step pid filter base dirList) (w, singles) files in
  (forall l fi, finfos w !! l = Some fi ->
     exists fi', finfos r.1 !! l = Some fi'
                 /\ set_fi_Children [] fi' = set_fi_Children [] fi
                 /\ forall x, x ∈ fi_Children fi -> x ∈ fi_Children fi')
  /\ (forall s, s ∈ singles -> s ∈ r.2).
Proof.
  revert w singles. induction files as [|f files IH]; intros w singles r.
  - unfold r. cbn [foldl fst snd]. split; [intros l fi Hl; exists fi; auto|auto].
  - cbn [foldl] in r.
    assert (Hs : forall s, s ∈ singles -> s ∈ (file_step pid filter base dirList (w, singles) f).2).
    { intros s Hs. unfold file_step. repeat case_match; cbn [snd]; simplify_eq;
        try exact Hs. apply elem_of_app. left. exact Hs. }
    pose proof (file_step_keeps pid filter base dirList w singles f) as Hk.
    destruct (file_step pid filter base dirList (w, singles) f) as [w1 singles1].
    cbn [fst snd] in Hk, Hs.
    specialize (IH w1 singles1). cbv zeta in IH. destruct IH as [IHk IHs].
    split.
    + intros l fi Hl. destruct (Hk l fi Hl) as (fi1 & Hl1 & Heq1 & Hch1).
      destruct (IHk l fi1 Hl1) as (fi2 & Hl2 & Heq2 & Hch2).
      exists fi2. split; [exact Hl2|]. split; [congruence|auto].
    + intros s Hin. apply IHs, Hs, Hin.
Qed.

Lemma files_loop (pid : Z) (filter : CLUSFileMonitorFilter) (base : string)
  (dirList : gmap string loc) (files : list FileData) (w : FileWatch) (singles : list loc)
  (f : FileData) :
  let r := foldl (file_step pid filter base dirList) (w, singles) files in
  let fpath := ContainerFilePath pid (fd_File f) in
  f ∈ files -> skips_file filter base (fd_File f) = false ->
  exists l fi,
    finfos r.1 !! l = Some fi /\ built_for filter fpath (fd_Mode f) fi
    /\ match dirList !! filepath.Dir fpath with
       | Some di => exists dobj, finfos r.1 !! di = Some dobj /\ l ∈ fi_Children dobj
       | None => l ∈ r.2
       end.
Proof.
  revert w singles. induction files as [|f0 files IH]; intros w singles r fpath Hin Hsel.
  - inversion Hin.
  - cbn [foldl] in r. apply elem_of_cons in Hin. destruct Hin as [<-|Hin].
    2:{ destruct (file_step pid filter base dirList (w, singles) f0) as [w1 singles1].
        apply IH; assumption. }
    clear IH.
    assert (Hstep : exists l fi w1 singles1,
              file_step pid filter base dirList (w, singles) f = (w1, singles1)
              /\ finfos w1 !! l = Some fi /\ built_for filter fpath (fd_Mode f) fi
              /\ match dirList !! filepath.Dir fpath with
                 | Some di => exists dobj, finfos w1 !! di = Some dobj /\ l ∈ fi_Children dobj
                 | None => l ∈ singles1
                 end).
    { unfold file_step. rewrite Hsel. fold fpath.
      unfold alloc_finfo. set (l := fresh (dom (finfos w))).
      set (w0 := set_finfos (<[l := new_finfo (fd_Mode f) fpath filter]> (finfos w)) w).
      assert (Hl0 : finfos w0 !! l = Some (new_finfo (fd_Mode f) fpath filter)).
      { unfold w0. cbn [finfos set_finfos]. apply lookup_insert_eq. }
      destruct (dirList !! filepath.Dir fpath) as [di|].
      - destruct (update_children_keeps di l l w0 _ Hl0) as (fi' & Hl' & Heq & _).
        exists l, fi'. eexists _, _. split; [reflexivity|]. split; [exact Hl'|].
        split; [unfold built_for; rewrite Heq; reflexivity|].
        unfold update_finfo. cbn [finfos set_finfos]. rewrite lookup_insert_eq.
        eexists. split; [reflexivity|]. cbn [fi_Children set_fi_Children].
        apply elem_of_app. right. left.
      - exists l, (new_finfo (fd_Mode f) fpath filter). eexists _, _.
        split; [reflexivity|]. split; [exact Hl0|]. split; [reflexivity|].
        apply elem_of_app. right. left. }
    destruct Hstep as (l & fi & w1 & singles1 & Hstep & Hl & Hbuilt & Hwhere).
    unfold r. rewrite Hstep.
    destruct (files_loop_keeps pid filter base dirList files w1 singles1) as [Hk Hs].
    destruct (Hk l fi Hl) as (fi' & Hl' & Heq & _).
    exists l, fi'. split; [exact Hl'|]. split; [unfold built_for; rewrite Heq; exact Hbuilt|].
    destruct (dirList !! filepath.Dir fpath) as [di|].
    + destruct Hwhere as (dobj & Hdi & Hch).
      destruct (Hk di dobj Hdi) as (dobj' & Hdi' & _ & Hch'). exists dobj'. auto.
    + apply Hs. exact Hwhere.
Qed.

(** X16: what [getDirFileList] selects for one filter from the result of the
    walk. The directories it returns are those of the walk that the filter
    takes: its base directory, and the directories below it when the filter
    is recursive (a filter that is not recursive never gets a
    sub-directory); each is returned under its host path with an object
    built from the filter: protected exactly when the behaviour of the
    filter is to block, user-added as the filter is, with the filter's key.
    Every file of the walk that is not passed over has such an object, kept
    as a child of its directory when that directory was returned, and
    returned as a single file otherwise. Nothing but the store of objects
    changes. *)
Theorem getDirFileList_selects (w : FileWatch) (pid : Z) (res : WalkPathResult)
  (filter : CLUSFileMonitorFilter) :
  let r := getDirFileList w pid res filter in
  let base := GoStrings.unescape_dots (flt_Path filter) in
  (forall k, is_Some (r.1.2 !! k) <->
     exists d, d ∈ wr_Dirs res /\ k = ContainerFilePath pid (dd_Dir d)
               /\ takes_dir filter (dd_Dir d))
  /\ (forall k l, r.1.2 !! k = Some l ->
        exists d fi, d ∈ wr_Dirs res /\ k = ContainerFilePath pid (dd_Dir d)
                     /\ finfos r.1.1 !! l = Some fi /\ built_for filter k (dd_Mode d) fi)
  /\ (forall f, f ∈ wr_Files res -> skips_file filter base (fd_File f) = false ->
        exists l fi,
          finfos r.1.1 !! l = Some fi
          /\ built_for filter (ContainerFilePath pid (fd_File f)) (fd_Mode f) fi
          /\ match r.1.2 !! filepath.Dir (ContainerFilePath pid (fd_File f)) with
             | Some di => exists dobj, finfos r.1.1 !! di = Some dobj /\ l ∈ fi_Children dobj
             | None => l ∈ r.2
             end)
  /\ only_finfos w r.1.1.
Proof.
  intros r base.
  split; [|split; [|split; [|apply getDirFileList_frame]]].
  all: unfold r; rewrite getDirFileList_loops; cbv zeta; fold base.
  all: destruct (dirs_loop pid filter (wr_Dirs res) w ∅) as (Hkeep & Hdom & Hobj);
       fold base in Hkeep, Hdom, Hobj;
       destruct (foldl (dir_step pid filter base) (w, ∅) (wr_Dirs res)) as [w1 dirList];
       cbn [fst snd] in Hkeep, Hdom, Hobj.
  all: pose proof (files_loop_keeps pid filter base dirList (wr_Files res) w1 []) as Hfk;
       pose proof (files_loop pid filter base dirList (wr_Files res) w1 []) as Hfl;
       destruct (foldl (file_step pid filter base dirList) (w1, []) (wr_Files res))
         as [w2 singles];
       cbn [fst snd] in Hfk, Hfl |- *.
  - intros k. rewrite Hdom. split; [|auto].
    intros [[x Hx]|Hd]; [rewrite lookup_empty in Hx; discriminate|exact Hd].
  - intros k l Hl. destruct (Hobj k l Hl) as [Hk|(d & fi & Hd & Hkey & _ & Hfi & Hbuilt)].
    + rewrite lookup_empty in Hk. discriminate.
    + destruct (proj1 Hfk l fi Hfi) as (fi' & Hfi' & Heq & _).
      exists d, fi'. split; [exact Hd|]. split; [exact Hkey|]. split; [exact Hfi'|].
      unfold built_for. rewrite Heq. exact Hbuilt.
  - intros f Hf Hsel. exact (Hfl f Hf Hsel).
Qed.

(** ** Enumeration and matching *)

(** X17: the files [getDirFileList] takes below the base of a filter are those
    its match predicate accepts: for a filter with a regular expression
    that compiles against the directory of the file, a file below the base
    that is not passed over satisfies [filterPathMatch]. When the
    expression does not compile, the enumeration takes the file all the
    same, while [filterPathMatch] rejects it. *)
Theorem enumerated_files_match_filter (filter : CLUSFileMonitorFilter) (file : string) :
  let base := GoStrings.unescape_dots (flt_Path filter) in
  file <> base -> flt_Regex filter <> "" ->
  skips_file filter base file = false ->
  GoStrings.HasPrefix file (base +:+ "/") = true
  /\ (flt_Recursive filter = true \/ filepath.Dir file = base)
  /\ match regexp_Compile ("^" +:+ (filepath.Dir file +:+ "/" +:+ flt_Regex filter) +:+ "$") with
     | Some _ => filterPathMatch file filter = true
     | None => filterPathMatch file filter = false
     end.
Proof.
  intros base Hne Hregex Hsel. unfold skips_file in Hsel.
  destruct (String.eqb_spec file base) as [Heq|_]; [contradiction|].
  cbn [negb] in Hsel.
  apply orb_false_iff in Hsel. destruct Hsel as [Hsel Hrec].
  apply orb_false_iff in Hsel. destruct Hsel as [Hpre Hmatch].
  apply negb_false_iff in Hpre. split; [exact Hpre|]. split.
  - destruct (flt_Recursive filter); [left; reflexivity|right].
    cbn [negb andb] in Hrec. apply negb_false_iff in Hrec.
    apply String.eqb_eq. exact Hrec.
  - unfold filterPathMatch.
    destruct (String.eqb_spec (flt_Regex filter) "") as [He|_]; [contradiction|].
    cbv zeta.
    destruct (regexp_Compile _) as [rgx|]; [|reflexivity].
    apply negb_false_iff in Hmatch. exact Hmatch.
Qed.

(** ** Arming the targets *)

Lemma addCoreFile_loops (w : FileWatch) (bIncINotify : bool) (cid : string)
  (dirList : gmap string loc) (singleFiles : list loc) :
  addCoreFile w bIncINotify cid dirList singleFiles =
  foldl (dir_arm_step bIncINotify cid)
        (foldl (single_step bIncINotify cid dirList) (w, []) singleFiles)
        (map_to_list dirList).
Proof.
  unfold addCoreFile, single_step, dir_arm_step.
  destruct (foldl _ (w, []) singleFiles) as [w1 effs1]. reflexivity.
Qed.

Lemma update_finfo_lookup (f : FileInfoExt -> FileInfoExt) (l l' : loc) (w : FileWatch) :
  finfos (update_finfo f l w) !!! l'
  = if decide (l = l') then f (finfos w !!! l) else finfos w !!! l'.
Proof.
  unfold update_finfo. cbn [finfos set_finfos].
  destruct (decide (l = l')) as [->|Hne].
  - apply lookup_total_insert_eq.
  - apply lookup_total_insert_ne. exact Hne.
Qed.

(** An update that keeps the path of an object, and its container id
    unless it sets it to [cid]. *)
Lemma update_finfo_keeps (cid : string) (f : FileInfoExt -> FileInfoExt) (l : loc)
  (w : FileWatch) :
  (forall x, fi_Path (f x) = fi_Path x) ->
  (forall x, fi_ContainerId (f x) = fi_ContainerId x \/ fi_ContainerId (f x) = cid) ->
  forall l',
    fi_Path (finfos (update_finfo f l w) !!! l') = fi_Path (finfos w !!! l')
    /\ (fi_ContainerId (finfos w !!! l') = cid ->
        fi_ContainerId (finfos (update_finfo f l w) !!! l') = cid).
Proof.
  intros Hpath Hcid l'. rewrite update_finfo_lookup.
  destruct (decide (l = l')) as [->|Hne]; [|auto].
  split; [apply Hpath|]. intros Hs. destruct (Hcid (finfos w !!! l')); congruence.
Qed.

Lemma keeps_stamps_refl (cid : string) (w : FileWatch) : keeps_stamps cid w w.
Proof. split; [reflexivity|]. intros l. auto. Qed.

Lemma keeps_stamps_trans (cid : string) (w1 w2 w3 : FileWatch) :
  keeps_stamps cid w1 w2 -> keeps_stamps cid w2 w3 -> keeps_stamps cid w1 w3.
Proof.
  intros [He1 H1] [He2 H2]. split; [congruence|]. intros l.
  destruct (H1 l) as [Hp1 Hs1]. destruct (H2 l) as [Hp2 Hs2].
  split; [congruence|auto].
Qed.

Lemma keeps_stamps_update (cid : string) (f : FileInfoExt -> FileInfoExt) (l : loc)
  (w : FileWatch) :
  (forall x, fi_Path (f x) = fi_Path x) ->
  (forall x, fi_ContainerId (f x) = fi_ContainerId x \/ fi_ContainerId (f x) = cid) ->
  keeps_stamps cid w (update_finfo f l w).
Proof.
  intros Hpath Hcid. split; [reflexivity|]. intros l'.
  apply update_finfo_keeps; assumption.
Qed.

Lemma stamp_update (cid : string) (l : loc) (w : FileWatch) :
  keeps_stamps cid w (update_finfo (set_fi_ContainerId cid) l w)
  /\ fi_ContainerId (finfos (update_finfo (set_fi_ContainerId cid) l w) !!! l) = cid.
Proof.
  split.
  - apply keeps_stamps_update; [reflexivity|]. intros x. right. reflexivity.
  - rewrite update_finfo_lookup. destruct (decide (l = l)); [reflexivity|contradiction].
Qed.

Lemma stamp_children_spec (cid : string) (children : list loc) (w : FileWatch) :
  keeps_stamps cid w (stamp_children cid children w).1
  /\ forall k l, (stamp_children cid children w).2 !! k = Some l ->
       fi_ContainerId (finfos (stamp_children cid children w).1 !!! l) = cid.
Proof.
  unfold stamp_children.
  assert (Hgen : forall (files0 : gmap string loc) (w0 : FileWatch),
    (forall k l, files0 !! k = Some l -> fi_ContainerId (finfos w0 !!! l) = cid) ->
    let r := foldl (fun '(w, files) file =>
                      let w' := update_finfo (set_fi_ContainerId cid) file w in
                      (w', <[filepath.Base (fi_Path (finfos w' !!! file)) := file]> files))
                   (w0, files0) children in
    keeps_stamps cid w0 r.1
    /\ forall k l, r.2 !! k = Some l -> fi_ContainerId (finfos r.1 !!! l) = cid).
  { induction children as [|c children IH]; intros files0 w0 Hfiles r.
    - split; [apply keeps_stamps_refl|exact Hfiles].
    - cbn [foldl] in r.
      destruct (stamp_update cid c w0) as [Hk Hc].
      set (w1 := update_finfo (set_fi_ContainerId cid) c w0) in *.
      specialize (IH (<[filepath.Base (fi_Path (finfos w1 !!! c)) := c]> files0) w1).
      cbv zeta in IH. destruct IH as [IHk IHf].
      + intros k l Hl.
        destruct (decide (filepath.Base (fi_Path (finfos w1 !!! c)) = k)) as [<-|Hne].
        * rewrite lookup_insert_eq in Hl. injection Hl as <-. exact Hc.
        * rewrite lookup_insert_ne in Hl by exact Hne.
          apply (proj2 Hk). exact (Hfiles _ _ Hl).
      + split; [eapply keeps_stamps_trans; [exact Hk|exact IHk]|exact IHf]. }
  apply Hgen. intros k l Hl. rewrite lookup_empty in Hl. discriminate.
Qed.

Lemma calls_stamped_app (cid : string) (w w' : FileWatch) (effs effs' : list Effect) :
  keeps_stamps cid w w' -> calls_stamped cid w effs -> calls_stamped cid w' effs' ->
  calls_stamped cid w' (effs ++ effs').
Proof.
  intros [_ Hk] H1 H2 e l He Hl. apply elem_of_app in He. destruct He as [He|He].
  - apply (proj2 (Hk l)). exact (H1 e l He Hl).
  - exact (H2 e l He Hl).
Qed.

Lemma addFile_stamped (cid : string) (w : FileWatch) (b : bool) (finfo : loc) :
  fi_ContainerId (finfos w !!! finfo) = cid -> calls_stamped cid w (addFile w b finfo).
Proof.
  intros Hs e l He Hl. unfold addFile in He.
  destruct (negb (bEnable w)); [inversion He|].
  apply elem_of_cons in He. destruct He as [->|He].
  - apply list_elem_of_singleton in Hl. subst l. exact Hs.
  - destruct (_ && _); [|inversion He].
    apply list_elem_of_singleton in He. subst e.
    apply list_elem_of_singleton in Hl. subst l. exact Hs.
Qed.

Lemma addDir_stamped (cid : string) (w : FileWatch) (b : bool) (dir : loc)
  (files : gmap string loc) :
  fi_ContainerId (finfos w !!! dir) = cid ->
  (forall k l, files !! k = Some l -> fi_ContainerId (finfos w !!! l) = cid) ->
  calls_stamped cid w (addDir w b dir files).
Proof.
  intros Hs Hfiles e l He Hl. unfold addDir in He.
  destruct (negb (bEnable w)); [inversion He|].
  apply elem_of_cons in He. destruct He as [->|He].
  - cbn [call_objects] in Hl. apply elem_of_cons in Hl. destruct Hl as [->|Hl]; [exact Hs|].
    apply list_elem_of_fmap in Hl. destruct Hl as ([k l0] & -> & Hin).
    apply elem_of_map_to_list in Hin. exact (Hfiles _ _ Hin).
  - destruct b; [|inversion He].
    apply list_elem_of_singleton in He. subst e.
    apply list_elem_of_singleton in Hl. subst l. exact Hs.
Qed.

Lemma single_step_spec (b : bool) (cid : string) (dirList : gmap string loc)
  (w : FileWatch) (effs : list Effect) (finfo : loc) :
  let r := single_step b cid dirList (w, effs) finfo in
  let p := fi_Path (finfos w !!! finfo) in
  keeps_stamps cid w r.1
  /\ (calls_stamped cid w effs -> calls_stamped cid r.1 r.2)
  /\ (exists more, r.2 = effs ++ more
        /\ Forall (fun e => finfo ∈ call_objects e) more
        /\ (bEnable w = true ->
            dirList !! filepath.Dir p = None \/ isRunTimeAddedFile p = true ->
            exists flt prot ua, FaAddMonitorFile p flt prot ua finfo ∈ more)
        /\ (forall di, dirList !! filepath.Dir p = Some di -> isRunTimeAddedFile p = false ->
            more = [] /\ finfo ∈ fi_Children (finfos r.1 !!! di))).
Proof.
  intros r p. unfold r, single_step. fold p.
  assert (Harm : let w1 := update_finfo (set_fi_ContainerId cid) finfo w in
            keeps_stamps cid w w1
            /\ (calls_stamped cid w effs ->
                calls_stamped cid w1 (effs ++ addFile w1 b finfo))
            /\ Forall (fun e => finfo ∈ call_objects e) (addFile w1 b finfo)
            /\ (bEnable w = true ->
                exists flt prot ua, FaAddMonitorFile p flt prot ua finfo ∈ addFile w1 b finfo)).
  { intros w1. destruct (stamp_update cid finfo w) as [Hk Hs]. fold w1 in Hk, Hs.
    split; [exact Hk|]. split; [|split].
    - intros Hc. eapply calls_stamped_app; [exact Hk|exact Hc|].
      apply addFile_stamped. exact Hs.
    - unfold addFile. repeat case_match; repeat constructor.
    - intros Hen. unfold addFile. replace (bEnable w1) with (bEnable w) by reflexivity.
      rewrite Hen. cbn [negb]. eexists _, _, _.
      replace (fi_Path (finfos w1 !!! finfo)) with p; [left|].
      symmetry. apply (proj2 Hk finfo). }
  cbv zeta in Harm. destruct Harm as (Hk & Hc & Hobj & Hcall).
  destruct (dirList !! filepath.Dir p) as [di|] eqn:Hdi.
  - destruct (isRunTimeAddedFile p) eqn:Hrt; cbn [negb fst snd].
    + split; [exact Hk|]. split; [exact Hc|]. eexists. split; [reflexivity|].
      split; [exact Hobj|]. split; [intros Hen _; exact (Hcall Hen)|].
      intros di' _ Hc'. discriminate.
    + set (w1 := update_finfo (set_fi_Filter (fi_Filter (finfos w !!! di))) finfo w).
      assert (Hk1 : keeps_stamps cid w w1).
      { apply keeps_stamps_update; [reflexivity|]. intros x. left. reflexivity. }
      assert (Hk2 : keeps_stamps cid w1
                (update_finfo (fun d => set_fi_Children (fi_Children d ++ [finfo]) d) di w1)).
      { apply keeps_stamps_update; [reflexivity|]. intros x. left. reflexivity. }
      pose proof (keeps_stamps_trans _ _ _ _ Hk1 Hk2) as Hk12.
      split; [exact Hk12|]. split.
      * intros Hcs e l He Hl. apply (proj2 (proj2 Hk12 l)). exact (Hcs e l He Hl).
      * exists []. split; [rewrite app_nil_r; reflexivity|]. split; [constructor|].
        split; [intros _ [Hc'|Hc']; discriminate|].
        intros di' [= <-] _. split; [reflexivity|].
        rewrite update_finfo_lookup. destruct (decide (di = di)); [|contradiction].
        cbn [fi_Children set_fi_Children]. apply elem_of_app. right. left.
  - cbn [fst snd]. split; [exact Hk|]. split; [exact Hc|]. eexists. split; [reflexivity|].
    split; [exact Hobj|]. split; [intros Hen _; exact (Hcall Hen)|].
    intros di' Hc'. discriminate.
Qed.

Lemma dir_arm_step_spec (b : bool) (cid : string) (w : FileWatch) (effs : list Effect)
  (k : string) (dir : loc) :
  let r := dir_arm_step b cid (w, effs) (k, dir) in
  keeps_stamps cid w r.1
  /\ (calls_stamped cid w effs -> calls_stamped cid r.1 r.2)
  /\ exists more, r.2 = effs ++ more
       /\ (bEnable w = true ->
           exists flt prot ua files,
             FaAddMonitorDirFile (fi_Path (finfos w !!! dir)) flt prot ua files dir ∈ more).
Proof.
  intros r. unfold r, dir_arm_step.
  destruct (stamp_children_spec cid (fi_Children (finfos w !!! dir)) w) as [Hk1 Hfiles].
  destruct (stamp_children cid (fi_Children (finfos w !!! dir)) w) as [w1 files].
  cbn [fst snd] in Hk1, Hfiles |- *.
  destruct (stamp_update cid dir w1) as [Hk2 Hs].
  set (w2 := update_finfo (set_fi_ContainerId cid) dir w1) in *.
  pose proof (keeps_stamps_trans _ _ _ _ Hk1 Hk2) as Hk.
  split; [exact Hk|]. split.
  - intros Hc. eapply calls_stamped_app; [exact Hk|exact Hc|].
    apply addDir_stamped; [exact Hs|].
    intros k0 l Hl. apply (proj2 (proj2 Hk2 l)). exact (Hfiles _ _ Hl).
  - eexists. split; [reflexivity|]. intros Hen. unfold addDir.
    rewrite (proj1 Hk), Hen. cbn [negb]. eexists _, _, _, _.
    rewrite (proj1 (proj2 Hk dir)). left.
Qed.

Lemma foldl_steps {A : Type} (cid : string)
  (f : FileWatch * list Effect -> A -> FileWatch * list Effect) (l : list A) :
  (forall w effs a,
     keeps_stamps cid w (f (w, effs) a).1
     /\ (calls_stamped cid w effs -> calls_stamped cid (f (w, effs) a).1 (f (w, effs) a).2)
     /\ exists more, (f (w, effs) a).2 = effs ++ more) ->
  forall w effs,
    keeps_stamps cid w (foldl f (w, effs) l).1
    /\ (calls_stamped cid w effs ->
        calls_stamped cid (foldl f (w, effs) l).1 (foldl f (w, effs) l).2)
    /\ exists more, (foldl f (w, effs) l).2 = effs ++ more.
Proof.
  intros Hf. induction l as [|a l IH]; intros w effs.
  - cbn [foldl fst snd]. split; [apply keeps_stamps_refl|]. split; [auto|].
    exists []. rewrite app_nil_r. reflexivity.
  - cbn [foldl]. destruct (Hf w effs a) as (Hk & Hc & more & Hm).
    destruct (f (w, effs) a) as [w1 effs1]. cbn [fst snd] in Hk, Hc, Hm.
    destruct (IH w1 effs1) as (IHk & IHc & more' & IHm).
    split; [eapply keeps_stamps_trans; eassumption|]. split; [auto|].
    exists (more ++ more'). rewrite IHm, Hm, app_assoc. reflexivity.
Qed.

Lemma single_steps (b : bool) (cid : string) (dirList : gmap string loc)
  (singleFiles : list loc) (w : FileWatch) (effs : list Effect) :
  keeps_stamps cid w (foldl (single_step b cid dirList) (w, effs) singleFiles).1
  /\ (calls_stamped cid w effs ->
      calls_stamped cid (foldl (single_step b cid dirList) (w, effs) singleFiles).1
        (foldl (single_step b cid dirList) (w, effs) singleFiles).2)
  /\ exists more, (foldl (single_step b cid dirList) (w, effs) singleFiles).2 = effs ++ more.
Proof.
  apply foldl_steps. intros w0 effs0 finfo.
  destruct (single_step_spec b cid dirList w0 effs0 finfo) as (Hk & Hc & more & Hm & _).
  split; [exact Hk|]. split; [exact Hc|]. exists more. exact Hm.
Qed.

Lemma dir_arm_steps (b : bool) (cid : string) (dirs : list (string * loc))
  (w : FileWatch) (effs : list Effect) :
  keeps_stamps cid w (foldl (dir_arm_step b cid) (w, effs) dirs).1
  /\ (calls_stamped cid w effs ->
      calls_stamped cid (foldl (dir_arm_step b cid) (w, effs) dirs).1
        (foldl (dir_arm_step b cid) (w, effs) dirs).2)
  /\ exists more, (foldl (dir_arm_step b cid) (w, effs) dirs).2 = effs ++ more.
Proof.
  apply foldl_steps. intros w0 effs0 [k dir].
  destruct (dir_arm_step_spec b cid w0 effs0 k dir) as (Hk & Hc & more & Hm & _).
  split; [exact Hk|]. split; [exact Hc|]. exists more. exact Hm.
Qed.

Lemma single_steps_arm (b : bool) (cid : string) (dirList : gmap string loc)
  (singleFiles : list loc) (w : FileWatch) (effs : list Effect) (finfo : loc) :
  let p := fi_Path (finfos w !!! finfo) in
  bEnable w = true -> finfo ∈ singleFiles ->
  dirList !! filepath.Dir p = None \/ isRunTimeAddedFile p = true ->
  exists flt prot ua,
    FaAddMonitorFile p flt prot ua finfo
    ∈ (foldl (single_step b cid dirList) (w, effs) singleFiles).2.
Proof.
  intros p Hen Hin Hcase. revert w effs p Hen Hcase.
  induction singleFiles as [|s singleFiles IH]; intros w effs p Hen Hcase; [inversion Hin|].
  cbn [foldl].
  destruct (single_step_spec b cid dirList w effs s) as (Hk & _ & more & Hm & _ & Harm & _).
  destruct (single_step b cid dirList (w, effs) s) as [w1 effs1] eqn:Hstep.
  cbn [fst snd] in Hk, Hm, Harm.
  apply elem_of_cons in Hin. destruct Hin as [->|Hin].
  - destruct (Harm Hen Hcase) as (flt & prot & ua & Hcall).
    destruct (single_steps b cid dirList singleFiles w1 effs1) as (_ & _ & more' & Hm').
    exists flt, prot, ua. rewrite Hm', Hm. apply elem_of_app. left.
    apply elem_of_app. right. exact Hcall.
  - destruct Hk as [Hen1 Hk].
    replace p with (fi_Path (finfos w1 !!! finfo)) by apply (Hk finfo).
    apply IH; [exact Hin|congruence|].
    rewrite (proj1 (Hk finfo)). exact Hcase.
Qed.

Lemma dir_arm_steps_arm (b : bool) (cid : string) (dirs : list (string * loc))
  (w : FileWatch) (effs : list Effect) (k : string) (dir : loc) :
  bEnable w = true -> (k, dir) ∈ dirs ->
  exists flt prot ua files,
    FaAddMonitorDirFile (fi_Path (finfos w !!! dir)) flt prot ua files dir
    ∈ (foldl (dir_arm_step b cid) (w, effs) dirs).2.
Proof.
  intros Hen Hin. revert w effs Hen.
  induction dirs as [|[k0 d0] dirs IH]; intros w effs Hen; [inversion Hin|].
  cbn [foldl].
  destruct (dir_arm_step_spec b cid w effs k0 d0) as (Hk & _ & more & Hm & Harm).
  destruct (dir_arm_step b cid (w, effs) (k0, d0)) as [w1 effs1] eqn:Hstep.
  cbn [fst snd] in Hk, Hm, Harm.
  apply elem_of_cons in Hin. destruct Hin as [[= -> ->]|Hin].
  - destruct (Harm Hen) as (flt & prot & ua & files & Hcall).
    destruct (dir_arm_steps b cid dirs w1 effs1) as (_ & _ & more' & Hm').
    exists flt, prot, ua, files. rewrite Hm', Hm. apply elem_of_app. left.
    apply elem_of_app. right. exact Hcall.
  - destruct Hk as [Hen1 Hk].
    replace (fi_Path (finfos w !!! dir)) with (fi_Path (finfos w1 !!! dir)) by apply (Hk dir).
    apply IH; [exact Hin|congruence].
Qed.

Lemma addCoreFile_without_inotify (w : FileWatch) (cid : string)
  (dirList : gmap string loc) (singleFiles : list loc) :
  Forall (fun e => is_ino_call e = false) (addCoreFile w false cid dirList singleFiles).2.
Proof.
  unfold addCoreFile.
  match goal with
  | |- context [foldl ?f (w, []) singleFiles] =>
      pose proof (foldl_effects_inv (fun _ effs => Forall (fun e => is_ino_call e = false) effs)
                    f singleFiles) as H1
  end.
  cbv beta in H1.
  match type of H1 with
  | ?hyp -> _ => assert (Hstep : hyp)
  end.
  { intros w0 effs a Hall. cbn beta iota.
    repeat case_match; cbn [fst snd]; try exact Hall;
      apply Forall_app; (split; [exact Hall|]);
      unfold addFile; cbn [andb]; repeat case_match; repeat constructor. }
  specialize (H1 Hstep w [] ltac:(constructor)). clear Hstep.
  destruct (foldl _ (w, []) singleFiles) as [w1 effs1]. cbn [fst snd] in H1.
  apply (foldl_effects_inv (fun _ effs => Forall (fun e => is_ino_call e = false) effs));
    [|exact H1].
  intros w0 effs [k dir] Hall. cbn beta iota.
  destruct (stamp_children cid (fi_Children (finfos w0 !!! dir)) w0) as [w2 files].
  cbn [fst snd]. apply Forall_app. split; [exact Hall|].
  unfold addDir. cbn iota. repeat case_match; repeat constructor.
Qed.

(** X20: what [addCoreFile] arms on an enabled watcher. A single file whose
    directory is not among the directories, or which is one of the files
    the runtime adds, is armed by a call of its own; every directory is
    armed by a call for the directory. Every object a call arms (the
    target, and the files handed over with a directory) carries the
    container id afterwards, and no path of an object changes. Without
    inotify ([bIncINotify] false) no call goes to inotify. *)
Theorem addCoreFile_arms_stamped_targets (w : FileWatch) (bIncINotify : bool) (cid : string)
  (dirList : gmap string loc) (singleFiles : list loc) :
  bEnable w = true ->
  let w' := (addCoreFile w bIncINotify cid dirList singleFiles).1 in
  let effs := (addCoreFile w bIncINotify cid dirList singleFiles).2 in
  (forall finfo,
     finfo ∈ singleFiles ->
     dirList !! filepath.Dir (fi_Path (finfos w !!! finfo)) = None
     \/ isRunTimeAddedFile (fi_Path (finfos w !!! finfo)) = true ->
     exists flt prot ua,
       FaAddMonitorFile (fi_Path (finfos w !!! finfo)) flt prot ua finfo ∈ effs)
  /\ (forall k dir,
        dirList !! k = Some dir ->
        exists flt prot ua files,
          FaAddMonitorDirFile (fi_Path (finfos w !!! dir)) flt prot ua files dir ∈ effs)
  /\ (forall e l, e ∈ effs -> l ∈ call_objects e -> fi_ContainerId (finfos w' !!! l) = cid)
  /\ (forall l, fi_Path (finfos w' !!! l) = fi_Path (finfos w !!! l))
  /\ (bIncINotify = false -> Forall (fun e => is_ino_call e = false) effs).
Proof.
  intros Hen w' effs. unfold w', effs.
  assert (Hino : bIncINotify = false ->
            Forall (fun e => is_ino_call e = false)
              (addCoreFile w bIncINotify cid dirList singleFiles).2).
  { intros ->. apply addCoreFile_without_inotify. }
  revert Hino. rewrite addCoreFile_loops. intros Hino.
  destruct (single_steps bIncINotify cid dirList singleFiles w []) as (Hk1 & Hc1 & more1 & Hm1).
  pose proof (single_steps_arm bIncINotify cid dirList singleFiles w [] ) as Harm1.
  destruct (foldl (single_step bIncINotify cid dirList) (w, []) singleFiles) as [w1 effs1].
  cbn [fst snd] in Hk1, Hc1, Hm1, Harm1.
  destruct (dir_arm_steps bIncINotify cid (map_to_list dirList) w1 effs1)
    as (Hk2 & Hc2 & more2 & Hm2).
  split; [|split; [|split; [|split]]].
  - intros finfo Hin Hcase. destruct (Harm1 finfo Hen Hin Hcase) as (flt & prot & ua & Hcall).
    exists flt, prot, ua. rewrite Hm2. apply elem_of_app. left. exact Hcall.
  - intros k dir Hdir.
    destruct (dir_arm_steps_arm bIncINotify cid (map_to_list dirList) w1 effs1 k dir)
      as (flt & prot & ua & files & Hcall).
    + rewrite (proj1 Hk1). exact Hen.
    + apply elem_of_map_to_list. exact Hdir.
    + exists flt, prot, ua, files. rewrite <- (proj1 (proj2 Hk1 dir)). exact Hcall.
  - apply Hc2, Hc1. intros e l He. inversion He.
  - intros l. rewrite (proj1 (proj2 Hk2 l)). apply (proj2 Hk1 l).
  - exact Hino.
Qed.

(** ** The directories of a profile *)

Lemma getDirAndFileList_loops (w : FileWatch) (pid : Z) (res : WalkPathResult)
  (filter : CLUSFileMonitorFilter) (dirList : gmap string loc) :
  getDirAndFileList w pid res filter dirList =
  let '(w1, dirs, singles) := getDirFileList w pid res filter in
  let '(w2, dirList') := foldl merge_step (w1, dirList) (map_to_list dirs) in
  (w2, dirList', singles).
Proof. reflexivity. Qed.

Lemma built_for_path (filter : CLUSFileMonitorFilter) (fpath : string) (mode : Z)
  (fi : FileInfoExt) :
  built_for filter fpath mode fi -> fi_Path fi = fpath.
Proof.
  unfold built_for. intros Hb.
  change (fi_Path fi) with (fi_Path (set_fi_Children [] fi)). rewrite Hb. reflexivity.
Qed.

Lemma getDirFileList_keys (w : FileWatch) (pid : Z) (res : WalkPathResult)
  (filter : CLUSFileMonitorFilter) (k : string) (di : loc) :
  (getDirFileList w pid res filter).1.2 !! k = Some di ->
  fi_Path (finfos (getDirFileList w pid res filter).1.1 !!! di) = k.
Proof.
  rewrite getDirFileList_loops. cbv zeta.
  set (base := GoStrings.unescape_dots (flt_Path filter)).
  destruct (dirs_loop pid filter (wr_Dirs res) w ∅) as (_ & _ & Hobj).
  fold base in Hobj.
  destruct (foldl (dir_step pid filter base) (w, ∅) (wr_Dirs res)) as [w1 dirs].
  cbn [fst snd] in Hobj.
  pose proof (files_loop_keeps pid filter base dirs (wr_Files res) w1 []) as [Hfk _].
  destruct (foldl (file_step pid filter base dirs) (w1, []) (wr_Files res)) as [w2 singles].
  cbn [fst snd] in Hfk |- *.
  intros Hdi. destruct (Hobj k di Hdi) as [Hc|(d & fi & _ & _ & _ & Hfi & Hbuilt)].
  - rewrite lookup_empty in Hc. discriminate.
  - destruct (Hfk di fi Hfi) as (fi' & Hfi' & Heq & _).
    rewrite (lookup_total_correct _ _ _ Hfi').
    change (fi_Path fi') with (fi_Path (set_fi_Children [] fi')). rewrite Heq.
    apply (built_for_path filter k (dd_Mode d)). exact Hbuilt.
Qed.

Lemma merge_steps (dirs : list (string * loc)) (w : FileWatch) (dirList : gmap string loc) :
  (forall k di, (k, di) ∈ dirs -> fi_Path (finfos w !!! di) = k) ->
  let r := foldl merge_step (w, dirList) dirs in
  (forall k diExist, dirList !! k = Some diExist -> r.2 !! k = Some diExist)
  /\ (forall k, is_Some (r.2 !! k) <-> is_Some (dirList !! k) \/ exists di, (k, di) ∈ dirs).
Proof.
  revert w dirList. induction dirs as [|[k0 d0] dirs IH]; intros w dirList Hkeys r.
  - unfold r. cbn [foldl snd]. split; [auto|]. intros k. split; [auto|].
    intros [Hk|[di Hdi]]; [exact Hk|inversion Hdi].
  - cbn [foldl] in r.
    assert (Hk0 : fi_Path (finfos w !!! d0) = k0) by (apply Hkeys; left).
    assert (Hstep : exists w1 dl1,
              merge_step (w, dirList) (k0, d0) = (w1, dl1)
              /\ (forall l, fi_Path (finfos w1 !!! l) = fi_Path (finfos w !!! l))
              /\ (forall k diExist, dirList !! k = Some diExist -> dl1 !! k = Some diExist)
              /\ (forall k, is_Some (dl1 !! k) <-> is_Some (dirList !! k) \/ k = k0)).
    { unfold merge_step. rewrite Hk0.
      destruct (dirList !! k0) as [diExist|] eqn:Hex.
      - eexists _, _. split; [reflexivity|]. split.
        + intros l. rewrite update_finfo_lookup. destruct (decide (diExist = l)) as [->|];
            reflexivity.
        + split; [auto|]. intros k. split; [auto|].
          intros [Hk| ->]; [exact Hk|eexists; exact Hex].
      - eexists _, _. split; [reflexivity|]. split; [reflexivity|]. split.
        + intros k diExist Hk. rewrite lookup_insert_ne; [exact Hk|]. congruence.
        + intros k. destruct (decide (k0 = k)) as [<-|Hne].
          * rewrite lookup_insert_eq. split; [auto|]. intros _. eexists; reflexivity.
          * rewrite lookup_insert_ne by exact Hne. split; [auto|].
            intros [Hk|Hk]; [exact Hk|congruence]. }
    destruct Hstep as (w1 & dl1 & Hstep & Hpath & Hkeep & Hdom).
    unfold r. rewrite Hstep.
    specialize (IH w1 dl1). cbv zeta in IH. destruct IH as [IHkeep IHdom].
    + intros k di Hin. rewrite Hpath. apply Hkeys. right. exact Hin.
    + split; [intros k diExist Hk; apply IHkeep, Hkeep, Hk|].
      intros k. rewrite IHdom, Hdom. split.
      * intros [[Hk|Heq]|[di Hdi]]; [left; exact Hk| |].
        -- subst k. right. exists d0. left.
        -- right. exists di. right. exact Hdi.
      * intros [Hk|[di Hdi]]; [left; left; exact Hk|].
        apply elem_of_cons in Hdi. destruct Hdi as [[= -> ->]|Hdi].
        -- left. right. reflexivity.
        -- right. exists di. exact Hdi.
Qed.

(** X18: [getDirAndFileList] merges the directories of one filter into those of
    the filters before it: a directory that is there already keeps its
    object (that of the first filter that took it), and the directories
    afterwards are those from before and those the filter takes from the
    walk. *)
Theorem getDirAndFileList_merges (w : FileWatch) (pid : Z) (res : WalkPathResult)
  (filter : CLUSFileMonitorFilter) (dirList : gmap string loc) :
  let r := getDirAndFileList w pid res filter dirList in
  (forall k diExist, dirList !! k = Some diExist -> r.1.2 !! k = Some diExist)
  /\ (forall k, is_Some (r.1.2 !! k) <->
        is_Some (dirList !! k)
        \/ exists d, d ∈ wr_Dirs res /\ k = ContainerFilePath pid (dd_Dir d)
                     /\ takes_dir filter (dd_Dir d))
  /\ r.2 = (getDirFileList w pid res filter).2
  /\ only_finfos w r.1.1.
Proof.
  intros r.
  assert (Hdirs : forall k, is_Some ((getDirFileList w pid res filter).1.2 !! k) <->
            exists d, d ∈ wr_Dirs res /\ k = ContainerFilePath pid (dd_Dir d)
                      /\ takes_dir filter (dd_Dir d)).
  { intros k. rewrite getDirFileList_loops. cbv zeta.
    set (base := GoStrings.unescape_dots (flt_Path filter)).
    destruct (dirs_loop pid filter (wr_Dirs res) w ∅) as (_ & Hdom & _).
    fold base in Hdom.
    destruct (foldl (dir_step pid filter base) (w, ∅) (wr_Dirs res)) as [w1 dirs].
    destruct (foldl (file_step pid filter base dirs) (w1, []) (wr_Files res)) as [w2 singles].
    cbn [fst snd] in Hdom |- *. rewrite Hdom. split; [|auto].
    intros [[x Hx]|Hd]; [rewrite lookup_empty in Hx; discriminate|exact Hd]. }
  pose proof (getDirFileList_keys w pid res filter) as Hkeys.
  split; [|split; [|split; [|apply getDirAndFileList_frame]]].
  all: unfold r; rewrite getDirAndFileList_loops.
  all: destruct (getDirFileList w pid res filter) as [[w1 dirs] singles];
       cbn [fst snd] in Hdirs, Hkeys.
  all: destruct (merge_steps (map_to_list dirs) w1 dirList) as [Hkeep Hdom];
       [intros k di Hin; apply elem_of_map_to_list in Hin; exact (Hkeys k di Hin)|].
  all: destruct (foldl merge_step (w1, dirList) (map_to_list dirs)) as [w2 dirList'];
       cbn [fst snd] in Hkeep, Hdom |- *.
  - exact Hkeep.
  - intros k. rewrite Hdom, <- Hdirs. split.
    + intros [Hk|[di Hdi]]; [left; exact Hk|].
      right. apply elem_of_map_to_list in Hdi. eexists; exact Hdi.
    + intros [Hk|[di Hdi]]; [left; exact Hk|].
      right. exists di. apply elem_of_map_to_list. exact Hdi.
  - reflexivity.
Qed.

Lemma getDirAndFileList_dom (w : FileWatch) (pid : Z) (res : WalkPathResult)
  (filter : CLUSFileMonitorFilter) (dirList : gmap string loc) (k : string) :
  is_Some ((getDirAndFileList w pid res filter dirList).1.2 !! k) <->
  is_Some (dirList !! k)
  \/ exists d, d ∈ wr_Dirs res /\ k = ContainerFilePath pid (dd_Dir d)
               /\ takes_dir filter (dd_Dir d).
Proof.
  assert (Hdirs : forall k, is_Some ((getDirFileList w pid res filter).1.2 !! k) <->
            exists d, d ∈ wr_Dirs res /\ k = ContainerFilePath pid (dd_Dir d)
                      /\ takes_dir filter (dd_Dir d)).
  { intros k'. rewrite getDirFileList_loops. cbv zeta.
    set (base := GoStrings.unescape_dots (flt_Path filter)).
    destruct (dirs_loop pid filter (wr_Dirs res) w ∅) as (_ & Hdom & _).
    fold base in Hdom.
    destruct (foldl (dir_step pid filter base) (w, ∅) (wr_Dirs res)) as [w1 dirs].
    destruct (foldl (file_step pid filter base dirs) (w1, []) (wr_Files res)) as [w2 singles].
    cbn [fst snd] in Hdom |- *. rewrite Hdom. split; [|auto].
    intros [[x Hx]|Hd]; [rewrite lookup_empty in Hx; discriminate|exact Hd]. }
  pose proof (getDirFileList_keys w pid res filter) as Hkeys.
  rewrite getDirAndFileList_loops.
  destruct (getDirFileList w pid res filter) as [[w1 dirs] singles];
    cbn [fst snd] in Hdirs, Hkeys.
  destruct (merge_steps (map_to_list dirs) w1 dirList) as [_ Hdom];
    [intros k' di Hin; apply elem_of_map_to_list in Hin; exact (Hkeys k' di Hin)|].
  destruct (foldl merge_step (w1, dirList) (map_to_list dirs)) as [w2 dirList'];
    cbn [fst snd] in Hdom |- *.
  rewrite Hdom, <- Hdirs. split.
  - intros [Hk|[di Hdi]]; [left; exact Hk|].
    right. apply elem_of_map_to_list in Hdi. eexists; exact Hdi.
  - intros [Hk|[di Hdi]]; [left; exact Hk|].
    right. exists di. apply elem_of_map_to_list. exact Hdi.
Qed.

(** X19: the directories [getCoreFile] returns for a profile are exactly the
    directories of the walk that some filter of the profile ([Filters] or
    [FiltersCRD]) takes, each under its host path; when the walk fails
    there is none, and no single file either. *)
Theorem getCoreFile_directories (h : Host) (w : FileWatch) (cid : string) (pid : Z)
  (profile : CLUSFileMonitorProfile) :
  match getRootFs h pid cid profile with
  | Some res =>
      forall k, is_Some ((getCoreFile h w cid pid profile).1.2 !! k) <->
        exists filter d,
          filter ∈ prf_Filters profile ++ prf_FiltersCRD profile
          /\ d ∈ wr_Dirs res /\ k = ContainerFilePath pid (dd_Dir d)
          /\ takes_dir filter (dd_Dir d)
  | None => getCoreFile h w cid pid profile = (w, ∅, [])
  end.
Proof.
  unfold getCoreFile. destruct (getRootFs h pid cid profile) as [res|]; [|reflexivity].
  assert (Hgen : forall filters w0 (dl0 : gmap string loc) (s0 : list loc) k,
    is_Some ((foldl (fun '(w, dirList, singleFiles) filter =>
                       let '(w', dirList', singles) :=
                         getDirAndFileList w pid res filter dirList in
                       (w', dirList', singleFiles ++ singles))
                    (w0, dl0, s0) filters).1.2 !! k)
    <-> is_Some (dl0 !! k)
        \/ exists filter d, filter ∈ filters /\ d ∈ wr_Dirs res
                            /\ k = ContainerFilePath pid (dd_Dir d)
                            /\ takes_dir filter (dd_Dir d)).
  { induction filters as [|filter filters IH]; intros w0 dl0 s0 k.
    - cbn [foldl fst snd]. split; [auto|].
      intros [Hk|(f & d & Hf & _)]; [exact Hk|inversion Hf].
    - cbn [foldl].
      pose proof (getDirAndFileList_dom w0 pid res filter dl0 k) as Hdom.
      destruct (getDirAndFileList w0 pid res filter dl0) as [[w1 dl1] singles].
      cbn [fst snd] in Hdom. rewrite IH, Hdom. split.
      + intros [[Hk|(d & Hd)]|(f & d & Hf & Hd)].
        * left. exact Hk.
        * right. exists filter, d. split; [left|exact Hd].
        * right. exists f, d. split; [right; exact Hf|exact Hd].
      + intros [Hk|(f & d & Hf & Hd)]; [left; left; exact Hk|].
        apply elem_of_cons in Hf. destruct Hf as [->|Hf].
        * left. right. exists d. exact Hd.
        * right. exists f, d. split; [exact Hf|exact Hd]. }
  intros k. rewrite Hgen. split; [|auto].
  intros [[x Hx]|Hd]; [rewrite lookup_empty in Hx; discriminate|exact Hd].
Qed.

(** ** When an event is reported *)

(** X6: [learnFromEvents] reports an event exactly when the container has a
    group, the kind has a message, the path is not a file the runtime adds
    (or, for such a file, the kind is not an access and the group is at
    least 60 seconds old), and the kind is not an access or the mode of the
    group is [Enforce] or [Evaluate]. In particular a change is reported
    in every mode, and an access never in mode [Learn]. *)
Theorem event_is_reported_iff (w : FileWatch) (rootPid : Z) (fmod : fileMod) (path : string)
  (event now : Z) :
  reports (learnFromEvents w rootPid fmod path event now).2 <> []
  <-> exists grp,
        groups w !! rootPid = Some grp
        /\ is_Some (fileEventMsg !! event)
        /\ (isRunTimeAddedFile (filepath.Join2 "/root" path) = false
            \/ (event <> fileEventAccessed /\ (sixty_seconds <= now - startAt grp)%Z))
        /\ (event <> fileEventAccessed
            \/ mode grp = PolicyModeEnforce \/ mode grp = PolicyModeEvaluate).
Proof.
  rewrite learnFromEvents_reports.
  destruct (groups w !! rootPid) as [grp|].
  2:{ split; [intros Hne; contradiction|]. intros (g & Hg & _). discriminate. }
  assert (Hsend : forall cid p m,
            reports (sendMsg cid p event (fm_pInfo fmod) m) <> []
            <-> is_Some (fileEventMsg !! event)).
  { intros cid p m. split; [|apply sendMsg_nonempty].
    unfold sendMsg. destruct (fileEventMsg !! event) as [eventMsg|].
    - intros _. eexists. reflexivity.
    - intros Hne. contradiction. }
  destruct (isRunTimeAddedFile _) eqn:Hrt; cbn [andb].
  - destruct (Z.eqb_spec event fileEventAccessed) as [Hacc|Hacc]; cbn [orb negb].
    + split; [intros Hne; contradiction|].
      intros (g & _ & _ & [Hc|[Hc _]] & _); [discriminate|contradiction].
    + destruct (Z.ltb_spec (now - startAt grp) sixty_seconds) as [Hyoung|Hold].
      * split; [intros Hne; contradiction|].
        intros (g & [= <-] & _ & [Hc|[_ Hc]] & _); [discriminate|lia].
      * rewrite Hsend. split.
        -- intros Hmsg. exists grp. split; [reflexivity|]. split; [exact Hmsg|].
           split; [right; split; assumption|left; exact Hacc].
        -- intros (g & _ & Hmsg & _). exact Hmsg.
  - destruct (Z.eqb_spec event fileEventAccessed) as [Hacc|Hacc]; cbn [orb negb].
    + destruct (String.eqb_spec (mode grp) PolicyModeEnforce) as [He|He]; cbn [orb].
      * rewrite Hsend. split.
        -- intros Hmsg. exists grp. split; [reflexivity|]. split; [exact Hmsg|].
           split; [left; reflexivity|right; left; exact He].
        -- intros (g & _ & Hmsg & _). exact Hmsg.
      * destruct (String.eqb_spec (mode grp) PolicyModeEvaluate) as [Hv|Hv].
        -- rewrite Hsend. split.
           ++ intros Hmsg. exists grp. split; [reflexivity|]. split; [exact Hmsg|].
              split; [left; reflexivity|right; right; exact Hv].
           ++ intros (g & _ & Hmsg & _). exact Hmsg.
        -- split; [intros Hne; contradiction|].
           intros (g & [= <-] & _ & _ & [Hc|[Hc|Hc]]); contradiction.
    + rewrite Hsend. split.
      * intros Hmsg. exists grp. split; [reflexivity|]. split; [exact Hmsg|].
        split; [left; reflexivity|left; exact Hacc].
      * intros (g & _ & Hmsg & _). exact Hmsg.
Qed.

(** ** From an event to a learned rule *)

(** X8: the way of a learned rule: when an event with process records is
    handled for a group in mode [Learn], a process path that is neither
    empty nor applied, seen on a path that a customer-added filter of the
    profile matches and for whose key the group has applied rules, is
    handed over by the next flush of the learned rules, as a request naming
    the group of the profile, the key of the filter and the process path. *)
Theorem learned_rule_is_handed_over (w : FileWatch) (rootPid : Z) (fmod : fileMod)
  (path : string) (event now : Z) (grp : groupInfo) (flt : CLUSFileMonitorFilter)
  (applied : gset string) (pf : ProcInfo) :
  groups w !! rootPid = Some grp ->
  mode grp = PolicyModeLearn ->
  flt ∈ prf_Filters (profile grp) ++ prf_FiltersCRD (profile grp) ->
  flt_CustomerAdd flt = true -> filterPathMatch path flt = true ->
  applyRules grp !! filterIndexKey flt = Some applied ->
  pf ∈ fm_pInfo fmod -> pi_Path pf <> "" -> pi_Path pf ∉ applied ->
  exists reqs,
    (reportLearningRules (learnFromEvents w rootPid fmod path event now).1).2
    = [SendRule reqs]
    /\ {| req_GroupName := prf_Group (profile grp); req_Filter := filterIndexKey flt;
          req_Path := pi_Path pf |} ∈ reqs.
Proof.
  intros Hg Hmode Hflt Hadd Hmatch Happ Hpf Hne Hna.
  assert (Hlen : (0 <? length (fm_pInfo fmod))%nat = true).
  { destruct (fm_pInfo fmod); [inversion Hpf|reflexivity]. }
  rewrite learnFromEvents_state, Hg, Hmode, String.eqb_refl, Hlen. cbn [andb].
  set (g1 := learned_group grp fmod path).
  set (w1 := set_groups _ w).
  assert (Hlf : learns_from path flt) by (split; assumption).
  assert (Hin : pi_Path pf ∈ learned_at g1 (filterIndexKey flt)).
  { unfold g1, learned_group. rewrite Hmode, String.eqb_refl, Hlen. cbn [andb].
    apply elem_of_app in Hflt. destruct Hflt as [Hflt|Hflt].
    - apply learn_filters_mono. apply (learn_filters_adds _ _ _ _ _ applied); assumption.
    - apply (learn_filters_adds _ _ _ _ _ applied); try assumption.
      destruct (learn_filters_fields path (fm_pInfo fmod) (prf_Filters (profile grp)) grp)
        as (_&_&_&Ha&_).
      rewrite Ha. exact Happ. }
  apply learned_at_elem in Hin. destruct Hin as (rule & Hrule & Hp).
  destruct (learned_group_fields grp fmod path) as (_ & Hprof & _).
  fold g1 in Hprof.
  set (req := {| req_GroupName := prf_Group (profile grp); req_Filter := filterIndexKey flt;
                 req_Path := pi_Path pf |}).
  unfold reportLearningRules. cbn [snd].
  set (learned := map_to_list (groups w1) ≫= _).
  assert (Hreq : req ∈ learned).
  { unfold learned. apply list_elem_of_bind. exists (rootPid, g1). split.
    - destruct (0 <? size (learnRules g1))%nat eqn:Hs.
      + apply group_learned_elem. exists rule. cbn [req_Filter req_Path req_GroupName req].
        rewrite Hprof. auto.
      + apply learnRules_size_zero in Hs. rewrite Hs, lookup_empty in Hrule. discriminate.
    - apply elem_of_map_to_list. unfold w1. cbn [groups set_groups]. apply lookup_insert_eq. }
  exists learned. split; [|exact Hreq].
  destruct learned; [inversion Hreq|reflexivity].
Qed.

(** ** The calls of [StartWatch] *)

(** X14: the driver calls of a [StartWatch] on an enabled watcher with a valid
    root pid, in their order: [SetMode], then the calls that arm the
    targets, then [StartMonitor], then at most one rule update. For the
    agent's own container no call goes to inotify. *)
Theorem StartWatch_calls_in_order (h : Host) (now : Z) (w : FileWatch) (id : string)
  (rootPid : Z) (conf : FsmonConfig) (capBlock bNeuvectorSvc : bool) :
  bEnable w = true -> IsPidValid h rootPid = true ->
  exists access perm arm rules,
    (StartWatch h now w id rootPid conf capBlock bNeuvectorSvc).2
    = FaSetMode rootPid access perm capBlock bNeuvectorSvc
      :: arm ++ FaStartMonitor rootPid :: rules
    /\ Forall (fun e => is_add_call e = true) arm
    /\ (bNeuvectorSvc = true -> Forall (fun e => is_ino_call e = false) arm)
    /\ (rules = []
        \/ exists rule,
             cfg_Rule conf = Some rule /\ rules = [FaUpdateAccessRule rootPid rule]
             /\ bNeuvectorSvc = false /\ rootPid <> 1%Z).
Proof.
  intros Hen Hvalid.
  destruct (StartWatch_shape h now w id rootPid conf capBlock bNeuvectorSvc Hen Hvalid)
    as [_ Heq].
  rewrite Heq. clear Heq.
  set (prf := effective_profile conf).
  set (armed := let '(w0, dirs, files) := getCoreFile h w id rootPid prf in
                addCoreFile w0 (negb bNeuvectorSvc) id dirs files).
  assert (Harm : Forall (fun e => is_add_call e = true) armed.2
                 /\ (bNeuvectorSvc = true -> Forall (fun e => is_ino_call e = false) armed.2)).
  { unfold armed. destruct (getCoreFile h w id rootPid prf) as [[w0 dirs] files].
    split; [apply addCoreFile_add_calls|].
    intros ->. apply addCoreFile_without_inotify. }
  destruct Harm as [Hadd Hino].
  destruct bNeuvectorSvc; cbn [orb].
  - eexists _, _, armed.2, []. cbn [snd]. split; [reflexivity|].
    split; [exact Hadd|]. split; [exact Hino|left; reflexivity].
  - destruct (Z.eqb_spec rootPid 1) as [Hone|Hother].
    + eexists _, _, armed.2, []. cbn [snd]. split; [reflexivity|].
      split; [exact Hadd|]. split; [exact Hino|left; reflexivity].
    + destruct (cfg_Rule conf) as [rule|].
      * eexists _, _, armed.2, [FaUpdateAccessRule rootPid rule]. cbn [snd]. split.
        -- cbn [app]. rewrite <- app_assoc. reflexivity.
        -- split; [exact Hadd|]. split; [exact Hino|].
           right. exists rule. auto.
      * eexists _, _, armed.2, []. cbn [snd]. split; [reflexivity|].
        split; [exact Hadd|]. split; [exact Hino|left; reflexivity].
Qed.

(** ** Invariants of the groups *)

Lemma learn_filters_all (P : groupInfo -> Prop) (path : string) (pInfo : list ProcInfo)
  (filters : list CLUSFileMonitorFilter) (g : groupInfo) :
  (forall g flt pInfo, P g -> P (addLearnedRules g flt pInfo)) ->
  P g -> P (learn_filters path pInfo g filters).
Proof.
  intros Hlearn. revert g. induction filters as [|flt filters IH]; intros g Hg; [exact Hg|].
  simpl. apply IH. case_match; [apply Hlearn|]; exact Hg.
Qed.

Lemma learned_group_all (P : groupInfo -> Prop) (g : groupInfo) (fmod : fileMod)
  (path : string) :
  (forall g flt pInfo, P g -> P (addLearnedRules g flt pInfo)) ->
  P g -> P (learned_group g fmod path).
Proof.
  intros Hlearn Hg. unfold learned_group. case_match; [|exact Hg].
  apply learn_filters_all; [exact Hlearn|]. apply learn_filters_all; assumption.
Qed.

(** A property of groups that learning, rule updates, resets and
    [StartWatch] keep holds for all groups along every run. *)
Lemma run_op_groups_all (P : groupInfo -> Prop) :
  (forall g flt pInfo, P g -> P (addLearnedRules g flt pInfo)) ->
  (forall g a, P g -> P (set_applyRules a g)) ->
  (forall g, P g -> P (set_learnRules ∅ g)) ->
  (forall g nv now conf,
     P g \/ g = new_group nv (effective_profile conf) now ->
     P (set_profile_mode (effective_profile conf) (prf_Mode (effective_profile conf)) g)) ->
  forall op w, groups_all P w -> groups_all P (run_op op w).1.
Proof.
  intros Hlearn Happly Hreset Hstart op w Hinv.
  assert (Hinsert : forall (w0 : FileWatch) (m : gmap Z groupInfo) pid g,
            groups_all P w0 -> P g -> m = <[pid := g]> (groups w0) ->
            forall pid' g', m !! pid' = Some g' -> P g').
  { intros w0 m pid g Hw0 Hg -> pid' g' Hg'.
    destruct (decide (pid = pid')) as [<-|Hne].
    - rewrite lookup_insert_eq in Hg'. injection Hg' as <-. exact Hg.
    - rewrite lookup_insert_ne in Hg' by exact Hne. exact (Hw0 _ _ Hg'). }
  destruct op as [h now id rootPid conf capBlock nv|name rootPid conf|rootPid bLeave
                 |filePath mask params pInfo|h now|]; cbn [run_op].
  - destruct (bEnable w) eqn:Hen; [|unfold StartWatch; rewrite Hen; exact Hinv].
    destruct (IsPidValid h rootPid) eqn:Hvalid;
      [|unfold StartWatch; rewrite Hen, Hvalid; exact Hinv].
    destruct (StartWatch_shape h now w id rootPid conf capBlock nv Hen Hvalid) as [_ Heq].
    rewrite Heq. clear Heq.
    assert (Hgrp : P (set_profile_mode (effective_profile conf)
                        (prf_Mode (effective_profile conf))
                        (default (new_group nv (effective_profile conf) now)
                           (groups w !! rootPid)))).
    { apply (Hstart _ nv now conf).
      destruct (groups w !! rootPid) as [g|] eqn:Hg; [left; exact (Hinv _ _ Hg)|right].
      reflexivity. }
    destruct (nv || (rootPid =? 1)%Z); [|destruct (cfg_Rule conf) as [rule|]];
      cbn [fst]; intros pid' g' Hg'; cbn [groups set_groups] in Hg'.
    + exact (Hinsert w _ _ _ Hinv Hgrp eq_refl _ _ Hg').
    + exact (Hinsert w _ _ _ Hinv (Happly _ _ Hgrp) eq_refl _ _ Hg').
    + exact (Hinsert w _ _ _ Hinv Hgrp eq_refl _ _ Hg').
  - unfold UpdateAccessRules. destruct (negb (bEnable w)); [exact Hinv|].
    destruct (groups w !! rootPid) as [g|] eqn:Hg; [|exact Hinv].
    cbn [fst]. intros pid' g' Hg'. cbn [groups set_groups] in Hg'.
    exact (Hinsert w _ _ _ Hinv (Happly _ _ (Hinv _ _ Hg)) eq_refl _ _ Hg').
  - unfold ContainerCleanup. destruct (negb (bEnable w)); [exact Hinv|].
    cbn [fst]. intros pid' g' Hg'. cbn [groups set_groups set_fileEvents] in Hg'.
    destruct (groups w !! rootPid) as [g|] eqn:Hg; [|exact (Hinv _ _ Hg')].
    destruct bLeave.
    + apply lookup_delete_Some in Hg'. exact (Hinv _ _ (proj2 Hg')).
    + exact (Hinsert w _ _ _ Hinv (Happly _ _ (Hreset _ (Hinv _ _ Hg))) eq_refl _ _ Hg').
  - unfold cbNotify. repeat case_match; exact Hinv.
  - unfold HandleWatchedFiles.
    assert (Hgen : forall events w0, groups_all P w0 ->
              groups_all P (handleEvents h now w0 events).1).
    { induction events as [|[fp fm] events IH]; intros w0 Hw0; [exact Hw0|].
      rewrite handleEvents_cons. cbn [fst]. apply IH.
      pose proof (handleEvent_unfold h now w0 fp fm) as Hu. cbn zeta in Hu. rewrite Hu.
      destruct (IsPidValid h _); [|exact Hw0].
      match goal with |- context [negb (?r.2 =? 0)%Z] => set (res := r) end.
      pose proof (classifier_frame h w0 fm (Lstat h fp) fp
                    (ParseContainerFilePath fp).2 (ParseContainerFilePath fp).1
                    (os.IsDir (fi_FileMode (finfos w0 !!! fm_finfo fm))
                     || match Lstat h fp with Some m => os.IsDir m | None => false end))
        as [(_&_&_&_&Hg1) _].
      fold res in Hg1.
      assert (Hw1 : groups_all P res.1.1) by (intros p g; rewrite Hg1; apply Hw0).
      destruct (negb (res.2 =? 0)%Z); cbn [fst]; [|exact Hw1].
      rewrite learnFromEvents_state.
      destruct (groups res.1.1 !! _) as [g|] eqn:Hg; [|exact Hw1].
      destruct (String.eqb (mode g) PolicyModeLearn && _) eqn:Hc; [|exact Hw1].
      intros pid' g' Hg'. cbn [groups set_groups] in Hg'.
      refine (Hinsert res.1.1 _ _ _ Hw1 _ eq_refl _ _ Hg').
      apply learned_group_all; [exact Hlearn|]. exact (Hw1 _ _ Hg). }
    apply Hgen. exact Hinv.
  - intros pid' g' Hg'. unfold reportLearningRules in Hg'. cbn [fst groups set_groups] in Hg'.
    apply lookup_fmap_Some in Hg'. destruct Hg' as (g & <- & Hg).
    destruct (0 <? size (learnRules g))%nat; [apply Hreset|]; exact (Hinv _ _ Hg).
Qed.

Lemma run_ops_groups_all (P : groupInfo -> Prop) :
  (forall g flt pInfo, P g -> P (addLearnedRules g flt pInfo)) ->
  (forall g a, P g -> P (set_applyRules a g)) ->
  (forall g, P g -> P (set_learnRules ∅ g)) ->
  (forall g nv now conf,
     P g \/ g = new_group nv (effective_profile conf) now ->
     P (set_profile_mode (effective_profile conf) (prf_Mode (effective_profile conf)) g)) ->
  forall ops en au nv, groups_all P (run_ops ops (NewFileWatcher en au nv)).
Proof.
  intros Hlearn Happly Hreset Hstart ops en au nv.
  assert (Hall : forall ops w, groups_all P w -> groups_all P (run_ops ops w)).
  { intros ops0. induction ops0 as [|op ops0 IH]; intros w Hinv; [exact Hinv|].
    simpl. apply IH. apply run_op_groups_all; assumption. }
  apply Hall. intros pid g Hg. simpl in Hg. rewrite lookup_empty in Hg. discriminate.
Qed.

(** X29: in every state a new watcher reaches, the mode of every group is the
    mode of its profile, and it is not empty (given that the name of the
    mode [Learn], which stands in for an empty mode, is not empty). *)
Theorem group_mode_follows_profile (ProfileEnable IsAufs NVProtect : bool) (ops : list Op)
  (pid : Z) (g : groupInfo) :
  PolicyModeLearn <> "" ->
  groups (run_ops ops (NewFileWatcher ProfileEnable IsAufs NVProtect)) !! pid = Some g ->
  mode g = prf_Mode (profile g) /\ mode g <> "".
Proof.
  intros Hlearn Hg.
  refine (run_ops_groups_all mode_set _ _ _ _ ops ProfileEnable IsAufs NVProtect pid g Hg).
  - intros g0 flt pInfo Hg0. destruct (addLearnedRules_fields g0 flt pInfo) as (_&Hp&Hm&_).
    unfold mode_set. rewrite Hp, Hm. exact Hg0.
  - intros g0 a Hg0. exact Hg0.
  - intros g0 Hg0. exact Hg0.
  - intros g0 nv now conf _. split; [reflexivity|].
    cbn [mode set_profile_mode]. unfold effective_profile.
    destruct (String.eqb_spec (prf_Mode (cfg_Profile conf)) "") as [He|Hne].
    + exact Hlearn.
    + exact Hne.
Qed.

Lemma learn_procs_proper (applied learned : gset string) (pInfo : list ProcInfo) :
  "" ∉ learned -> "" ∉ learn_procs applied learned pInfo.
Proof.
  intros Hl Hin. apply learn_procs_elem in Hin.
  destruct Hin as [Hin|(_ & Hne & _)]; [exact (Hl Hin)|exact (Hne eq_refl)].
Qed.

Lemma addLearnedRules_proper (g : groupInfo) (flt : CLUSFileMonitorFilter)
  (pInfo : list ProcInfo) :
  learned_proper g -> learned_proper (addLearnedRules g flt pInfo).
Proof.
  intros Hg k l Hl. unfold addLearnedRules in Hl.
  destruct (applyRules g !! filterIndexKey flt) as [a|]; [|exact (Hg k l Hl)].
  destruct (0 <? size _)%nat eqn:Hs; [|exact (Hg k l Hl)].
  cbn [learnRules set_learnRules] in Hl.
  destruct (decide (filterIndexKey flt = k)) as [<-|Hne].
  - rewrite lookup_insert_eq in Hl. injection Hl as <-. split.
    + intros He. rewrite He, size_empty in Hs. discriminate.
    + apply learn_procs_proper.
      destruct (learnRules g !! filterIndexKey flt) as [l0|] eqn:Hl0; cbn [default].
      * exact (proj2 (Hg _ _ Hl0)).
      * apply not_elem_of_empty.
  - rewrite lookup_insert_ne in Hl by exact Hne. exact (Hg k l Hl).
Qed.

(** X30: in every state a new watcher reaches, no learned set of a group is
    empty, and none holds the empty process path: a group has learned
    something exactly when its map of learned rules has an entry. *)
Theorem learned_sets_are_proper (ProfileEnable IsAufs NVProtect : bool) (ops : list Op)
  (pid : Z) (g : groupInfo) (k : string) (l : gset string) :
  groups (run_ops ops (NewFileWatcher ProfileEnable IsAufs NVProtect)) !! pid = Some g ->
  learnRules g !! k = Some l ->
  (exists p, p ∈ l) /\ ("" ∉ l).
Proof.
  intros Hg Hl.
  assert (Hproper : learned_proper g).
  { refine (run_ops_groups_all learned_proper _ _ _ _ ops ProfileEnable IsAufs NVProtect
              pid g Hg).
    - intros g0 flt pInfo. apply addLearnedRules_proper.
    - intros g0 a Hg0. exact Hg0.
    - intros g0 _ k0 l0 Hl0. cbn [learnRules set_learnRules] in Hl0.
      rewrite lookup_empty in Hl0. discriminate.
    - intros g0 nv now conf [Hg0| ->]; [exact Hg0|].
      intros k0 l0 Hl0. cbn [learnRules set_profile_mode new_group] in Hl0.
      rewrite lookup_empty in Hl0. discriminate. }
  destruct (Hproper k l Hl) as [Hne Hempty]. split; [|exact Hempty].
  apply set_choose_L. exact Hne.
Qed.

End FsmonFurther.

(** * The model on the example states *)

Section Examples.
Local Existing Instance demo_platform.

(** ** Go's library functions *)

Example Clean_double_slash : filepath.Clean "/root//etc/hosts" = "/root/etc/hosts".
Proof. reflexivity. Qed.

Example Clean_dots : filepath.Clean "a/./b/../../c/" = "c".
Proof. reflexivity. Qed.

Example Clean_above_root : filepath.Clean "/../a/b/../.." = "/".
Proof. reflexivity. Qed.

Example Clean_keeps_leading_dotdot : filepath.Clean "../../a/.." = "../..".
Proof. reflexivity. Qed.

Example Dir_of_file : filepath.Dir "/lib/x86_64/libc.so.6" = "/lib/x86_64".
Proof. reflexivity. Qed.

Example Dir_below_root : filepath.Dir "/lib" = "/".
Proof. reflexivity. Qed.

Example Dir_of_name : filepath.Dir "hosts" = ".".
Proof. reflexivity. Qed.

Example Base_trailing_slash : filepath.Base "/tmp/x/" = "x".
Proof. reflexivity. Qed.

Example Index_found : GoStrings.Index "/proc/42/root/usr/lib" "/root/" = 8%Z.
Proof. reflexivity. Qed.

Example Index_missing : GoStrings.Index "/usr/lib" "/root/" = (-1)%Z.
Proof. reflexivity. Qed.

Example HasSuffix_short : GoStrings.HasSuffix "/etc/hosts" "/root/etc/hosts" = false.
Proof. reflexivity. Qed.

Example regexp_libc :
  (fun r => Re.matches r "/lib/x86_64/libc.so.6") <$> Re.compile "^/lib/x86_64/libc\..*$"
  = Some true.
Proof. vm_compute. reflexivity. Qed.

Example regexp_other_dir :
  (fun r => Re.matches r "/lib/x86_64/libc.so.6") <$> Re.compile "^//libc\..*$" = Some false.
Proof. vm_compute. reflexivity. Qed.

Example regexp_outside_fragment : Re.compile "^/lib/(a|b)$" = None.
Proof. vm_compute. reflexivity. Qed.

Example parse_proc_path_hosts : parse_proc_path "/proc/42/root/etc/hosts" = (42%Z, "/etc/hosts").
Proof. vm_compute. reflexivity. Qed.

(** ** Enumerating targets *)

Example getBaseDirPrefix_ImportantFiles :
  getBaseDirPrefix
    <$> [ flt_passwd; flt_libc;
          {| flt_Behavior := "monitor_change"; flt_Path := "/home/.*/\.ssh"; flt_Regex := ".*";
             flt_Recursive := false; flt_CustomerAdd := false; flt_DerivedGroup := "" |};
          {| flt_Behavior := "monitor_change"; flt_Path := "/etc/resolv\.conf";
             flt_Regex := ""; flt_Recursive := false; flt_CustomerAdd := false;
             flt_DerivedGroup := "" |} ]
  = ["/etc"; "/lib"; "/home"; "/etc"].
Proof. vm_compute. reflexivity. Qed.

Example StartWatch_arms_passwd :
  (run_op (demo_start host_passwd "" None) (NewFileWatcher true false false)).2
  = [ FaSetMode 42 true false false false;
      FaAddMonitorFile "/proc/42/root/etc/passwd"
        {| fr_path := "/etc/passwd/"; fr_recursive := false |} false true 1%positive;
      InoAddMonitorFile "/proc/42/root/etc/passwd" 1%positive;
      FaStartMonitor 42 ].
Proof. vm_compute. reflexivity. Qed.

Example StartWatch_arms_tmp :
  (run_op (demo_start host_tmp "Monitor" None) (NewFileWatcher true false false)).2
  = [ FaSetMode 42 false false false false;
      FaAddMonitorDirFile "/proc/42/root/tmp" {| fr_path := "/tmp/.*"; fr_recursive := true |}
        false true ∅ 1%positive;
      InoAddMonitorDirFile "/proc/42/root/tmp" 1%positive;
      FaStartMonitor 42 ].
Proof. vm_compute. reflexivity. Qed.

(** ** A disabled watcher *)

(** The operations that test [bEnable], at a watcher built with
    [ProfileEnable = false]. *)
Lemma disabled_watcher_witness :
  bEnable (NewFileWatcher false false false) = false
  /\ StartWatch host_passwd 0 (NewFileWatcher false false false) "c1" 42
       (demo_conf "" (Some (demo_rule []))) true false
     = (NewFileWatcher false false false, [])
  /\ GetProbeData host_passwd (NewFileWatcher false false false) = None.
Proof.
  pose proof (disabled_watcher_is_inert host_passwd 0 (NewFileWatcher false false false)
                "c1" "nv.web" 42 (demo_conf "" (Some (demo_rule []))) (demo_rule [])
                true false true eq_refl) as (Hs & _ & _ & _ & _ & Hp).
  split; [reflexivity|]. split; [exact Hs|exact Hp].
Defined.

(** ** The match predicate *)

(** C3 fails as stated: for the filter [/lib] with regex [libc\..*] (one of
    [ImportantFiles]) and the library in a subdirectory, the code matches,
    with "^/lib/x86_64/libc\..*$", and the predicate of the spec, with
    "^//libc\..*$" from the directory of the filter's path, does not. *)
Lemma filterPathMatch_not_filter_dir :
  filterPathMatch "/lib/x86_64/libc.so.6" flt_libc = true
  /\ spec_filterPathMatch "/lib/x86_64/libc.so.6" flt_libc = false.
Proof. split; vm_compute; reflexivity. Qed.

(** C3, at the library in a subdirectory of /lib: the code matches it with
    "^/lib/x86_64/libc\..*$", and the enumeration takes it. *)
Lemma filterPathMatch_covered_witness :
  flt_Regex flt_libc <> ""
  /\ GoStrings.HasPrefix "/lib/x86_64/libc.so.6"
       (GoStrings.unescape_dots (flt_Path flt_libc) +:+ "/") = true
  /\ flt_Recursive flt_libc = true
  /\ filterPathMatch "/lib/x86_64/libc.so.6" flt_libc = true
  /\ skips_file flt_libc "/lib" "/lib/x86_64/libc.so.6" = false.
Proof.
  assert (Hne : flt_Regex flt_libc <> "") by discriminate.
  pose proof (proj2 (filterPathMatch_on_covered_paths "/lib/x86_64/libc.so.6" flt_libc)
                Hne eq_refl (or_introl eq_refl)) as [Hiff Henum].
  assert (Hm : filterPathMatch "/lib/x86_64/libc.so.6" flt_libc = true).
  { apply Hiff. eexists. split; vm_compute; reflexivity. }
  split; [exact Hne|]. split; [reflexivity|]. split; [reflexivity|].
  split; [exact Hm|].
  apply Henum; [eexists; vm_compute; reflexivity|exact Hm].
Defined.

(** The match predicate does not read the path of a filter that has a
    regex: a file outside /tmp matches the filter of /tmp, which the
    enumeration passes over. *)
Example filterPathMatch_outside_filter_path :
  filterPathMatch "/etc/shadow" flt_tmp = true
  /\ skips_file flt_tmp "/tmp" "/etc/shadow" = true.
Proof. split; vm_compute; reflexivity. Qed.

(** ** Starting a watch *)

(** C4, at the first [StartWatch] of container 42 with an empty mode. *)
Lemma StartWatch_mode_and_flags_witness :
  bEnable (NewFileWatcher true false false) = true
  /\ IsPidValid host_passwd 42 = true
  /\ exists m access perm calls g,
       m = (if String.eqb (prf_Mode (cfg_Profile (demo_conf "" None))) "" then PolicyModeLearn
            else prf_Mode (cfg_Profile (demo_conf "" None)))
       /\ (StartWatch host_passwd 0 (NewFileWatcher true false false) "c1" 42
             (demo_conf "" None) true false).2
          = FaSetMode 42 access perm true false :: calls
       /\ groups (StartWatch host_passwd 0 (NewFileWatcher true false false) "c1" 42
                    (demo_conf "" None) true false).1 !! 42%Z = Some g
       /\ mode g = m /\ prf_Mode (profile g) = m
       /\ (perm = true <->
           m = PolicyModeEnforce /\ aufs (NewFileWatcher true false false) = false /\ true = true)
       /\ (access = true <->
           perm = false /\ 42%Z <> 1%Z /\ false = false /\ m = PolicyModeLearn).
Proof.
  split; [reflexivity|]. split; [reflexivity|].
  exact (StartWatch_mode_and_flags host_passwd 0 (NewFileWatcher true false false) "c1" 42
           (demo_conf "" None) true false eq_refl eq_refl).
Defined.

(** ** The notification callback *)

(** C8 fails as stated: after an event with [IN_IGNORED] for a path of the
    watched /tmp, the pending events hold nothing for the path, and the next
    flush classifies and reports nothing. *)
Lemma ignored_event_is_not_recorded :
  fileEvents (cbNotify w_watching_tmp "/proc/42/root/tmp/x" syscall.IN_IGNORED 1%positive None).1
    !! "/proc/42/root/tmp/x" = None
  /\ (HandleWatchedFiles host_tmp 5000000000
        (cbNotify w_watching_tmp "/proc/42/root/tmp/x" syscall.IN_IGNORED 1%positive None).1).2
     = [].
Proof. split; vm_compute; reflexivity. Qed.

(** C8 as amended, at that event. *)
Lemma cbNotify_ignored_witness :
  Z.land syscall.IN_IGNORED syscall.IN_IGNORED = syscall.IN_IGNORED
  /\ (cbNotify w_watching_tmp "/proc/42/root/tmp/x" syscall.IN_IGNORED 1%positive None).2
     = [FaRemoveMonitorFile "/proc/42/root/tmp/x"; InoRemoveMonitorFile "/proc/42/root/tmp/x"]
  /\ (cbNotify w_watching_tmp "/proc/42/root/tmp/x" syscall.IN_IGNORED 1%positive None).1
     = w_watching_tmp.
Proof.
  split; [reflexivity|].
  assert (Hbits : Z.land syscall.IN_IGNORED syscall.IN_IGNORED <> 0%Z
                  \/ Z.land syscall.IN_IGNORED syscall.IN_UNMOUNT <> 0%Z)
    by (left; discriminate).
  pose proof (cbNotify_ignored_event_is_dropped w_watching_tmp "/proc/42/root/tmp/x"
                syscall.IN_IGNORED 1%positive None Hbits) as (He & Hw & _).
  split; [exact He|exact Hw].
Defined.

(** ** Files the container runtime writes at start *)

(** C5, at a change of /etc/hosts five seconds after the start of the
    group. *)
Lemma runtime_added_files_witness :
  (5000000000 - startAt (groups w_learn_rules !!! 42%Z) < sixty_seconds)%Z
  /\ reports (learnFromEvents w_learn_rules 42 fmod_access "/etc/hosts"
                fileEventModified 5000000000).2 = [].
Proof.
  split; [reflexivity|].
  apply (proj1 (runtime_added_files_are_suppressed host_passwd 5000000000
                  w_learn_rules 42 fmod_access "" "/etc/hosts" fileEventModified
                  (or_introl eq_refl))).
  right. intros grp Hg. vm_compute in Hg. injection Hg as <-. reflexivity.
Defined.

(** ** The path of a report *)

(** The flush that found the new symbolic link reported its creation under
    the path of the link. *)
Example link_creation_is_reported :
  (fun m => (msg_Path m, msg_Msg m))
    <$> reports
          (HandleWatchedFiles host_lib 5000000000
             (run_ops
                [ demo_start host_lib "Monitor" None;
                  OpCbNotify "/proc/42/root/lib/libc.so" syscall.IN_CREATE 1%positive None ]
                (NewFileWatcher true false false))).2
  = [("/lib/libc.so", "File symlink was created.")].
Proof. vm_compute. reflexivity. Qed.

(** C9, at a write through the symbolic link /lib/libc.so, whose target on
    the host is /proc/42/root/usr/lib/libc.so.6: the report names
    /usr/lib/libc.so.6. *)
Lemma report_carries_link_target_witness :
  fi_Link (finfos w_watching_link !!! fm_finfo fmod_link_modified)
  = "/proc/42/root/usr/lib/libc.so.6"
  /\ exists msg,
       msg ∈ reports (learnFromEvents w_watching_link 42 fmod_link_modified "/lib/libc.so"
                        fileEventModified 5000000000).2
       /\ msg_Path msg = "/usr/lib/libc.so.6".
Proof.
  split; [vm_compute; reflexivity|].
  eexists. split.
  - vm_compute. left.
  - match goal with |- msg_Path ?m = _ =>
      pose proof (report_carries_link_target w_watching_link 42 fmod_link_modified
                    "/lib/libc.so" fileEventModified 5000000000
                    "/proc/42/root/usr/lib/libc.so.6" m) as Hthm
    end.
    assert (Hne : "/proc/42/root/usr/lib/libc.so.6" <> "") by discriminate.
    destruct Hthm as (_ & Hcut & _).
    + vm_compute. reflexivity.
    + exact Hne.
    + vm_compute. left.
    + rewrite (Hcut 8%nat).
      * reflexivity.
      * apply Index_first_index; [discriminate|reflexivity].
      * lia.
Defined.

(** ** A file created and deleted within one window *)

(** C7 fails as stated: [x] was created in the watched /tmp and deleted
    again before the flush; the pending event holds [IN_CREATE] and
    [IN_DELETE] only, the file is gone, and the flush sends one report,
    "File deleted from watched directory.". *)
Lemma created_then_deleted_sends_a_report :
  fileEvents w_created_deleted !! "/proc/42/root/tmp/x" = Some fmod_created_deleted
  /\ Lstat host_tmp "/proc/42/root/tmp/x" = None
  /\ (fun m => (msg_Path m, msg_Msg m))
       <$> reports (HandleWatchedFiles host_tmp 5000000000 w_created_deleted).2
     = [("/tmp/x", "File deleted from watched directory.")].
Proof. repeat split; vm_compute; reflexivity. Qed.

(** C7 as amended, at that flush, and at the flush after a directory was
    made and removed in the watched /tmp: the path is released on both
    drivers and one report is sent, "File deleted from watched
    directory.". *)
Lemma created_then_deleted_witness :
  mask_has (fm_mask fmod_created_deleted) inodeMovedMask = false
  /\ Lstat host_tmp "/proc/42/root/tmp/x" = None
  /\ fileEvents w_created_deleted = {[ "/proc/42/root/tmp/x" := fmod_created_deleted ]}
  /\ (HandleWatchedFiles host_tmp 5000000000 w_created_deleted).2
     = [ FaRemoveMonitorFile "/proc/42/root/tmp/x";
         InoRemoveMonitorFile "/proc/42/root/tmp/x";
         SendReport (new_msg "c1" "/tmp/x" fileEventRemoved
                       "File deleted from watched directory.") ]
  /\ mask_has (fm_mask fmod_dir_created_deleted) inodeMovedMask = false
  /\ fileEvents w_dir_created_deleted
     = {[ "/proc/42/root/tmp/d" := fmod_dir_created_deleted ]}
  /\ (HandleWatchedFiles host_tmp 5000000000 w_dir_created_deleted).2
     = [ FaRemoveMonitorFile "/proc/42/root/tmp/d";
         InoRemoveMonitorFile "/proc/42/root/tmp/d";
         SendReport (new_msg "c1" "/tmp/d" fileEventRemoved
                       "File deleted from watched directory.") ].
Proof.
  assert (Hx : fileEvents w_created_deleted
               = {[ "/proc/42/root/tmp/x" := fmod_created_deleted ]})
    by (vm_compute; reflexivity).
  assert (Hd : fileEvents w_dir_created_deleted
               = {[ "/proc/42/root/tmp/d" := fmod_dir_created_deleted ]})
    by (vm_compute; reflexivity).
  pose proof (created_then_deleted_is_reported_removed host_tmp 5000000000
                w_created_deleted "/proc/42/root/tmp/x" fmod_created_deleted
                eq_refl eq_refl) as (_ & _ & Hfx & _).
  pose proof (created_then_deleted_is_reported_removed host_tmp 5000000000
                w_dir_created_deleted "/proc/42/root/tmp/d" fmod_dir_created_deleted
                eq_refl eq_refl) as (_ & _ & Hfd & _).
  split; [reflexivity|]. split; [reflexivity|]. split; [exact Hx|].
  split; [rewrite (Hfx Hx); vm_compute; reflexivity|].
  split; [reflexivity|]. split; [exact Hd|].
  rewrite (Hfd Hd). vm_compute. reflexivity.
Defined.

(** ** Cleaning up after a container *)

Lemma w_created_deleted_reachable : reachable w_created_deleted.
Proof.
  apply reachable_run_ops.
  - apply (reachable_run_ops [demo_start host_tmp "Monitor" None]);
      [apply reachable_new|repeat split].
  - repeat split; vm_compute; reflexivity.
Qed.

(** C6, at the container with a pending event under its /tmp. *)
Lemma ContainerCleanup_witness :
  reachable w_created_deleted
  /\ is_Some (groups w_created_deleted !! 42%Z)
  /\ is_Some (fileEvents w_created_deleted !! "/proc/42/root/tmp/x")
  /\ groups (ContainerCleanup w_created_deleted 42 true).1 !! 42%Z = None
  /\ fileEvents (ContainerCleanup w_created_deleted 42 true).1 !! "/proc/42/root/tmp/x" = None.
Proof.
  split; [exact w_created_deleted_reachable|].
  split; [eexists; vm_compute; reflexivity|].
  split; [eexists; vm_compute; reflexivity|].
  pose proof (ContainerCleanup_leaves_no_residue w_created_deleted 42
                w_created_deleted_reachable) as [[Hg He] _].
  split; [exact Hg|]. apply He. vm_compute. reflexivity.
Defined.

(** ** The learning engine *)

(** C2 fails as stated: the group is in mode [Learn], the customer-added
    filter of /etc/passwd accepts the path, and /bin/vi is not in
    [apply_rules] under the filter's key, which has no entry there; vi's
    access leaves [learn_rules] without an entry under the key. *)
Lemma nothing_learned_without_rules :
  exists g g',
    groups w_learn_no_rules !! 42%Z = Some g
    /\ mode g = PolicyModeLearn
    /\ flt_passwd ∈ prf_Filters (profile g)
    /\ flt_CustomerAdd flt_passwd = true
    /\ filterPathMatch "/etc/passwd" flt_passwd = true
    /\ fm_pInfo fmod_access = [proc_vi]
    /\ pi_Path proc_vi = "/bin/vi"
    /\ applyRules g !! filterIndexKey flt_passwd = None
    /\ groups (learnFromEvents w_learn_no_rules 42 fmod_access "/etc/passwd"
                 fileEventAccessed 5000000000).1 !! 42%Z = Some g'
    /\ learnRules g' !! filterIndexKey flt_passwd = None.
Proof.
  exists (groups w_learn_no_rules !!! 42%Z),
    (groups (learnFromEvents w_learn_no_rules 42 fmod_access "/etc/passwd"
               fileEventAccessed 5000000000).1 !!! 42%Z).
  repeat split; try (vm_compute; reflexivity).
  vm_compute. left.
Qed.

(** C2 as amended, at the same access in a group whose [apply_rules] hold
    an (empty) entry for the filter. *)
Lemma learnFromEvents_learns_witness :
  groups w_learn_rules !! 42%Z = Some (groups w_learn_rules !!! 42%Z)
  /\ mode (groups w_learn_rules !!! 42%Z) = PolicyModeLearn
  /\ applyRules (groups w_learn_rules !!! 42%Z) !! filterIndexKey flt_passwd = Some ∅
  /\ exists g' l,
       groups (learnFromEvents w_learn_rules 42 fmod_access "/etc/passwd"
                 fileEventAccessed 5000000000).1 !! 42%Z = Some g'
       /\ learnRules g' !! filterIndexKey flt_passwd = Some l
       /\ "/bin/vi" ∈ l.
Proof.
  assert (Hg : groups w_learn_rules !! 42%Z = Some (groups w_learn_rules !!! 42%Z))
    by (vm_compute; reflexivity).
  assert (Hmode : mode (groups w_learn_rules !!! 42%Z) = PolicyModeLearn)
    by (vm_compute; reflexivity).
  assert (Ha : applyRules (groups w_learn_rules !!! 42%Z) !! filterIndexKey flt_passwd = Some ∅)
    by (vm_compute; reflexivity).
  split; [exact Hg|]. split; [exact Hmode|]. split; [exact Ha|].
  assert (Hprocs : fm_pInfo fmod_access <> []) by discriminate.
  destruct (proj1 (learnFromEvents_learns w_learn_rules 42 fmod_access "/etc/passwd"
                     fileEventAccessed 5000000000 (groups w_learn_rules !!! 42%Z) Hg)
              Hmode Hprocs) as (g' & Hg' & _ & Hadds & _).
  destruct (Hadds flt_passwd ∅ proc_vi) as (l & Hl & Hin).
  - vm_compute. left.
  - reflexivity.
  - reflexivity.
  - exact Ha.
  - left.
  - discriminate.
  - apply not_elem_of_empty.
  - exists g', l. split; [exact Hg'|]. split; [exact Hl|exact Hin].
Defined.

(** ** Disjointness of learned and applied rules *)

(** C1 fails as stated: the watcher learns /bin/vi for /etc/passwd from an
    access, and a rule update then installs /bin/vi for the same filter;
    in the state reached, /bin/vi is in both sets. *)
Lemma learned_path_becomes_applied :
  ops_allowed (NewFileWatcher true false false) ops_learn_then_apply
  /\ exists g l a,
       groups (run_ops ops_learn_then_apply (NewFileWatcher true false false)) !! 42%Z = Some g
       /\ learnRules g !! "/etc/passwd/" = Some l
       /\ applyRules g !! "/etc/passwd/" = Some a
       /\ "/bin/vi" ∈ l /\ "/bin/vi" ∈ a.
Proof.
  split; [repeat split; vm_compute; reflexivity|].
  exists (groups (run_ops ops_learn_then_apply (NewFileWatcher true false false)) !!! 42%Z),
    {["/bin/vi"]}, {["/bin/vi"]}.
  repeat split; try (vm_compute; reflexivity); apply elem_of_singleton; reflexivity.
Qed.

Lemma fresh_rules_new (en au nv : bool) (rootPid : Z) (conf : CLUSFileAccessRule) :
  fresh_rules (NewFileWatcher en au nv) rootPid conf.
Proof. intros g f l r app Hg. simpl in Hg. rewrite lookup_empty in Hg. discriminate. Qed.

(** C1 as amended, at the run in which the update installs /bin/cat. *)
Lemma disjointness_witness :
  ops_keep_learned (NewFileWatcher true false false) ops_learn_then_other
  /\ rules_disjoint (run_ops ops_learn_then_other (NewFileWatcher true false false)).
Proof.
  assert (Hkeep : ops_keep_learned (NewFileWatcher true false false) ops_learn_then_other).
  { split; [apply fresh_rules_new|]. split; [exact I|]. split; [exact I|].
    split; [|exact I].
    intros g f l r app Hg Hl Hr Hc Happ.
    vm_compute in Hg. injection Hg as <-.
    unfold demo_rule in Hr. cbn [ar_Filters] in Hr.
    apply lookup_singleton_Some in Hr. destruct Hr as [<- <-].
    vm_compute in Hl. injection Hl as <-.
    apply list_elem_of_singleton in Happ. subst app.
    apply (bool_decide_unpack _). vm_compute. exact I. }
  split; [exact Hkeep|].
  apply (disjointness_is_kept true false false ops_learn_then_other Hkeep).
Defined.

End Examples.

(** * Further properties on the example states *)

Section FurtherExamples.
Local Existing Instance demo_platform.

(** ** Filter keys *)

(** X11 at an example: two filters for the same files, one of them added by a
    customer to block: they share their key. *)
Lemma filterIndexKey_injective_witness :
  has_slash (flt_Regex flt_libc) = false
  /\ has_slash (flt_Regex flt_libc_block) = false
  /\ filterIndexKey flt_libc = filterIndexKey flt_libc_block
  /\ flt_Path flt_libc = flt_Path flt_libc_block
  /\ flt_Regex flt_libc = flt_Regex flt_libc_block.
Proof.
  split; [reflexivity|]. split; [reflexivity|]. split; [reflexivity|].
  exact (filterIndexKey_injective flt_libc flt_libc_block eq_refl eq_refl eq_refl).
Defined.

(** With a '/' in the regular expression two filters can share a key
    without sharing their path. *)
Example filterIndexKey_collision :
  filterIndexKey {| flt_Behavior := ""; flt_Path := "/a"; flt_Regex := "b/c";
                    flt_Recursive := false; flt_CustomerAdd := true; flt_DerivedGroup := "" |}
  = filterIndexKey {| flt_Behavior := ""; flt_Path := "/a/b"; flt_Regex := "c";
                      flt_Recursive := false; flt_CustomerAdd := true;
                      flt_DerivedGroup := "" |}.
Proof. reflexivity. Qed.

(** ** Callbacks *)

(** X1 at an example: the burst on /tmp/x leaves one event with the three
    masks, the object of the first callback, and the records of vi and cat. *)
Lemma cbNotify_burst_witness :
  fileEvents w_watching_tmp !! "/proc/42/root/tmp/x" = None
  /\ Forall (fun e : Z * loc * option ProcInfo => recorded_mask e.1.1)
       ((syscall.IN_CREATE, 1%positive, Some proc_vi) :: burst_rest)
  /\ exists fm,
       fileEvents (cbNotify_all w_watching_tmp "/proc/42/root/tmp/x"
                     ((syscall.IN_CREATE, 1%positive, Some proc_vi) :: burst_rest))
         !! "/proc/42/root/tmp/x" = Some fm
       /\ fm_mask fm = 0x10a%Z /\ fm_finfo fm = 1%positive
       /\ fm_pInfo fm = [proc_vi; proc_cat].
Proof.
  assert (Hnone : fileEvents w_watching_tmp !! "/proc/42/root/tmp/x" = None)
    by (vm_compute; reflexivity).
  assert (Hall : Forall (fun e : Z * loc * option ProcInfo => recorded_mask e.1.1)
                   ((syscall.IN_CREATE, 1%positive, Some proc_vi) :: burst_rest)).
  { repeat constructor. }
  split; [exact Hnone|]. split; [exact Hall|].
  destruct (cbNotify_burst_is_one_event w_watching_tmp "/proc/42/root/tmp/x"
              syscall.IN_CREATE 1%positive (Some proc_vi) burst_rest Hnone Hall)
    as (fm & Hfm & Hmask & Hfinfo & Hprocs & _).
  exists fm. split; [exact Hfm|]. split; [rewrite Hmask; reflexivity|].
  split; [exact Hfinfo|]. rewrite Hprocs. reflexivity.
Defined.

(** X2 at an example: after the callbacks of [ops_two_writers] the event of
    /etc/passwd holds vi once and cat once. *)
Lemma pending_pids_witness :
  fileEvents (run_ops ops_two_writers (NewFileWatcher true false false))
    !! "/proc/42/root/etc/passwd" = Some fmod_two_writers
  /\ NoDup (pi_Pid <$> fm_pInfo fmod_two_writers).
Proof.
  assert (Hfm : fileEvents (run_ops ops_two_writers (NewFileWatcher true false false))
                  !! "/proc/42/root/etc/passwd" = Some fmod_two_writers)
    by (vm_compute; reflexivity).
  split; [exact Hfm|].
  exact (pending_pids_are_distinct true false false ops_two_writers
           "/proc/42/root/etc/passwd" fmod_two_writers Hfm).
Defined.

(** ** Reports *)

(** X3 at an example: a modification seen by vi and by cat gives two reports,
    in that order; a kind without a message gives none. *)
Lemma sendMsg_per_process_witness :
  NoDup (pi_Pid <$> [proc_vi; proc_cat])
  /\ msg_ProcPid <$> reports (sendMsg "c1" "/etc/passwd" fileEventModified
                                [proc_vi; proc_cat] "Protect") = [100%Z; 101%Z]
  /\ sendMsg "c1" "/etc/passwd" 0 [proc_vi; proc_cat] "Protect" = [].
Proof.
  assert (Hnd : NoDup (pi_Pid <$> [proc_vi; proc_cat])).
  { apply (bool_decide_unpack _). vm_compute. exact I. }
  split; [exact Hnd|].
  split.
  - destruct (sendMsg_one_report_per_process "c1" "/etc/passwd" fileEventModified
                [proc_vi; proc_cat] "Protect" Hnd) as [_ Hsome].
    assert (Hmsg : is_Some (fileEventMsg !! fileEventModified))
      by (eexists; vm_compute; reflexivity).
    destruct (Hsome Hmsg) as [_ Hpids].
    rewrite Hpids; [reflexivity|discriminate].
  - destruct (sendMsg_one_report_per_process "c1" "/etc/passwd" 0
                [proc_vi; proc_cat] "Protect" Hnd) as [Hnone _].
    apply Hnone. vm_compute. reflexivity.
Defined.

(** X4 at an example: the report for cat, whose access was denied, says so,
    although the event is a modification. *)
Lemma sendMsg_deny_witness :
  [proc_vi; proc_cat] <> []
  /\ proc_msg "c1" "/etc/passwd" fileEventModified "File was modified." proc_cat
     ∈ reports (sendMsg "c1" "/etc/passwd" fileEventModified [proc_vi; proc_cat] "Protect")
  /\ exists pi,
       pi ∈ [proc_vi; proc_cat]
       /\ pi_Pid pi = 101%Z
       /\ (pi_Deny pi = true ->
           msg_Action (proc_msg "c1" "/etc/passwd" fileEventModified "File was modified."
                         proc_cat) = PolicyActionDeny
           /\ msg_Msg (proc_msg "c1" "/etc/passwd" fileEventModified "File was modified."
                         proc_cat) = "File access was denied.").
Proof.
  assert (Hne : [proc_vi; proc_cat] <> []) by discriminate.
  assert (Hin : proc_msg "c1" "/etc/passwd" fileEventModified "File was modified." proc_cat
                ∈ reports (sendMsg "c1" "/etc/passwd" fileEventModified
                             [proc_vi; proc_cat] "Protect")).
  { assert (Hrep : reports (sendMsg "c1" "/etc/passwd" fileEventModified
                              [proc_vi; proc_cat] "Protect")
                   = [proc_msg "c1" "/etc/passwd" fileEventModified "File was modified." proc_vi;
                      proc_msg "c1" "/etc/passwd" fileEventModified "File was modified."
                        proc_cat])
      by (vm_compute; reflexivity).
    rewrite Hrep. right. left. }
  split; [exact Hne|]. split; [exact Hin|].
  destruct (sendMsg_deny_overrides_kind "c1" "/etc/passwd" fileEventModified
              [proc_vi; proc_cat] "Protect" _ Hne Hin)
    as (pi & Hpi & Hpid & _ & _ & _ & _ & _ & Hdeny & _).
  exists pi. split; [exact Hpi|]. split; [symmetry; exact Hpid|exact Hdeny].
Defined.

(** ** Rule updates *)

(** X10 at an example: an update for container 42 that names cat for
    /etc/passwd. *)
Lemma UpdateAccessRules_replaces_witness :
  bEnable w_learn_rules = true
  /\ (UpdateAccessRules w_learn_rules "nv.web" 42 (demo_rule ["/bin/cat"])).2
     = [FaUpdateAccessRule 42 (demo_rule ["/bin/cat"])]
  /\ exists grp',
       groups (UpdateAccessRules w_learn_rules "nv.web" 42 (demo_rule ["/bin/cat"])).1 !! 42%Z
       = Some grp'
       /\ applyRules grp' !! "/etc/passwd/" = Some (list_to_set ["/bin/cat"])
       /\ applyRules grp' !! "/tmp/.*" = None.
Proof.
  assert (Hen : bEnable w_learn_rules = true) by (vm_compute; reflexivity).
  split; [exact Hen|].
  destruct (UpdateAccessRules_replaces_applied w_learn_rules "nv.web" 42
              (demo_rule ["/bin/cat"]) Hen) as (_ & Hknown & _).
  destruct (groups w_learn_rules !! 42%Z) as [grp|] eqn:Hgrp;
    [|vm_compute in Hgrp; discriminate].
  destruct (Hknown grp eq_refl) as (Heffs & grp' & Hgrp' & _ & _ & _ & _ & _ & Hrules).
  split; [exact Heffs|]. exists grp'. split; [exact Hgrp'|]. split.
  - apply Hrules. exists {| afr_Apps := ["/bin/cat"]; afr_CustomerAdd := true |}.
    split; [reflexivity|]. split; reflexivity.
  - destruct (applyRules grp' !! "/tmp/.*") as [apps|] eqn:Happs; [|reflexivity].
    apply Hrules in Happs. destruct Happs as (rule & Hrule & _).
    vm_compute in Hrule. discriminate.
Defined.

(** ** Starting a watch *)

(** X12 at an example: a second [StartWatch] of container 42, seven seconds
    after the first, now in mode [Enforce]: the group has the new mode and its
    old start time. *)
Lemma StartWatch_registers_witness :
  bEnable w_learn_rules = true
  /\ IsPidValid host_passwd 42 = true
  /\ exists grp,
       groups (StartWatch host_passwd 7000000000 w_learn_rules "c1" 42
                 (demo_conf "Protect" None) false false).1 !! 42%Z = Some grp
       /\ mode grp = "Protect" /\ startAt grp = 0%Z
       /\ applyRules grp !! "/etc/passwd/" = Some ∅.
Proof.
  assert (Hen : bEnable w_learn_rules = true) by (vm_compute; reflexivity).
  split; [exact Hen|]. split; [reflexivity|].
  destruct (StartWatch_registers_group host_passwd 7000000000 w_learn_rules "c1" 42
              (demo_conf "Protect" None) false false Hen eq_refl)
    as ((grp & Hgrp & _ & Hmode & Hstart & _ & _ & Happ) & _).
  exists grp. split; [exact Hgrp|]. split; [rewrite Hmode; reflexivity|].
  split; [rewrite Hstart; vm_compute; reflexivity|].
  rewrite Happ. vm_compute. reflexivity.
Defined.

(** X13 at an example: a [StartWatch] for the host, with a rule that names vi:
    no rule update is made and the group has no applied rules. *)
Lemma StartWatch_host_witness :
  bEnable (NewFileWatcher true false false) = true
  /\ IsPidValid host_passwd 1 = true
  /\ Forall (fun e => is_rule_update e = false)
       (StartWatch host_passwd 0 (NewFileWatcher true false false) "host" 1
          (demo_conf "" (Some (demo_rule ["/bin/vi"]))) true false).2
  /\ exists grp,
       groups (StartWatch host_passwd 0 (NewFileWatcher true false false) "host" 1
                 (demo_conf "" (Some (demo_rule ["/bin/vi"]))) true false).1 !! 1%Z
       = Some grp
       /\ applyRules grp = ∅.
Proof.
  split; [reflexivity|]. split; [reflexivity|].
  destruct (StartWatch_host_and_agent_get_no_rules host_passwd 0
              (NewFileWatcher true false false) "host" 1
              (demo_conf "" (Some (demo_rule ["/bin/vi"]))) true false
              eq_refl eq_refl (or_intror eq_refl))
    as (_ & Hcalls & grp & Hgrp & _ & Hnew).
  split; [exact Hcalls|]. exists grp. split; [exact Hgrp|].
  apply Hnew. reflexivity.
Defined.

(** X15 at an example: on a host whose walker fails, the [StartWatch] of
    container 42 arms nothing and registers the group. *)
Lemma StartWatch_failed_walk_witness :
  bEnable (NewFileWatcher true false false) = true
  /\ IsPidValid empty_host 42 = true
  /\ getRootFs empty_host 42 "c1" (effective_profile (demo_conf "" None)) = None
  /\ Forall (fun e => is_add_call e = false)
       (StartWatch empty_host 0 (NewFileWatcher true false false) "c1" 42
          (demo_conf "" None) true false).2
  /\ is_Some (groups (StartWatch empty_host 0 (NewFileWatcher true false false) "c1" 42
                       (demo_conf "" None) true false).1 !! 42%Z).
Proof.
  split; [reflexivity|]. split; [reflexivity|]. split; [reflexivity|].
  destruct (StartWatch_failed_walk_arms_nothing empty_host 0
              (NewFileWatcher true false false) "c1" 42 (demo_conf "" None) true false
              eq_refl eq_refl eq_refl) as (Hnone & _ & _ & Hgrp).
  split; [exact Hnone|exact Hgrp].
Defined.

(** X14 at an example: the calls of the first [StartWatch] of container 42
    with a rule. *)
Lemma StartWatch_calls_witness :
  bEnable (NewFileWatcher true false false) = true
  /\ IsPidValid host_tmp 42 = true
  /\ exists access perm arm rules,
       (StartWatch host_tmp 0 (NewFileWatcher true false false) "c1" 42
          (demo_conf "" (Some (demo_rule []))) true false).2
       = FaSetMode 42 access perm true false :: arm ++ FaStartMonitor 42 :: rules
       /\ Forall (fun e => is_add_call e = true) arm
       /\ (false = true -> Forall (fun e => is_ino_call e = false) arm)
       /\ (rules = []
           \/ exists rule,
                cfg_Rule (demo_conf "" (Some (demo_rule []))) = Some rule
                /\ rules = [FaUpdateAccessRule 42 rule]
                /\ false = false /\ 42%Z <> 1%Z).
Proof.
  split; [reflexivity|]. split; [reflexivity|].
  exact (StartWatch_calls_in_order host_tmp 0 (NewFileWatcher true false false) "c1" 42
           (demo_conf "" (Some (demo_rule []))) true false eq_refl eq_refl).
Defined.

(** ** The flush *)

(** X21 at an example: the container of the pending event of /tmp/x is gone:
    the flush drops the event and does nothing else. *)
Lemma flush_dead_container_witness :
  is_Some (fileEvents w_created_deleted !! "/proc/42/root/tmp/x")
  /\ HandleWatchedFiles host_dead 5000000000 w_created_deleted
     = (set_fileEvents ∅ w_created_deleted, []).
Proof.
  split; [eexists; vm_compute; reflexivity|].
  apply (flush_drops_events_of_dead_containers host_dead 5000000000 w_created_deleted).
  intros fullPath fmod _. reflexivity.
Defined.

(** X22 at an example: the report of the flush of [w_created_deleted] stems
    from the pending event of /tmp/x. *)
Lemma flush_reports_witness :
  exists msg fullPath fmod,
    msg ∈ reports (HandleWatchedFiles host_tmp 5000000000 w_created_deleted).2
    /\ fileEvents w_created_deleted !! fullPath = Some fmod
    /\ IsPidValid host_tmp (ParseContainerFilePath fullPath).1 = true
    /\ is_Some (groups w_created_deleted !! (ParseContainerFilePath fullPath).1).
Proof.
  assert (Hsent : exists msg,
            msg ∈ reports (HandleWatchedFiles host_tmp 5000000000 w_created_deleted).2).
  { destruct (reports (HandleWatchedFiles host_tmp 5000000000 w_created_deleted).2)
      as [|msg rest] eqn:Hrep; [vm_compute in Hrep; discriminate|].
    exists msg. left. }
  destruct Hsent as [msg Hin].
  destruct (flush_reports_stem_from_pending_events host_tmp 5000000000 w_created_deleted
              msg Hin) as (fullPath & fmod & Hfm & Hvalid & Hgrp & _).
  exists msg, fullPath, fmod. split; [exact Hin|]. split; [exact Hfm|].
  split; [exact Hvalid|exact Hgrp].
Defined.

(** X5 at an example: the two writers of /etc/passwd are reported once each. *)
Lemma reported_once_per_process_witness :
  fileEvents (run_ops ops_two_writers (NewFileWatcher true false false))
    !! "/proc/42/root/etc/passwd" = Some fmod_two_writers
  /\ msg_ProcPid <$>
       reports (handleEvent host_passwd 5000000000
                  (run_ops ops_two_writers (NewFileWatcher true false false))
                  "/proc/42/root/etc/passwd" fmod_two_writers).2
     = pi_Pid <$> fm_pInfo fmod_two_writers.
Proof.
  assert (Hfm : fileEvents (run_ops ops_two_writers (NewFileWatcher true false false))
                  !! "/proc/42/root/etc/passwd" = Some fmod_two_writers)
    by (vm_compute; reflexivity).
  split; [exact Hfm|].
  destruct (pending_event_is_reported_once_per_process true false false ops_two_writers
              "/proc/42/root/etc/passwd" fmod_two_writers host_passwd 5000000000
              (run_ops ops_two_writers (NewFileWatcher true false false)) Hfm)
    as [Hnone|[[_ Hpids]|[Hc _]]].
  - vm_compute in Hnone. discriminate.
  - exact Hpids.
  - discriminate.
Defined.

(** ** Hashes *)

(** X24 at an example: the first hash of /etc/passwd after a write: the write
    is a modification, and the same evidence again is an access. *)
Lemma content_change_witness :
  mask_has (fm_mask fmod_written) inodeMovedMask = false
  /\ mask_has (fm_mask fmod_written) syscall.IN_ATTRIB = false
  /\ GetFileHash (host_hash 7%N) "/proc/42/root/etc/passwd" = Some 7%N
  /\ (handleFileEvents (host_hash 7%N) w_learn_rules fmod_written (Some 420%Z)
        "/proc/42/root/etc/passwd" 42).2 = fileEventModified
  /\ fi_Hash (finfos (handleFileEvents (host_hash 7%N) w_learn_rules fmod_written (Some 420%Z)
                        "/proc/42/root/etc/passwd" 42).1.1 !!! 1%positive) = 7%N
  /\ (handleFileEvents (host_hash 7%N)
        (handleFileEvents (host_hash 7%N) w_learn_rules fmod_written (Some 420%Z)
           "/proc/42/root/etc/passwd" 42).1.1
        fmod_written (Some 420%Z) "/proc/42/root/etc/passwd" 42).2 = fileEventAccessed.
Proof.
  split; [reflexivity|]. split; [reflexivity|]. split; [reflexivity|].
  destruct (content_change_is_reported_once (host_hash 7%N) w_learn_rules fmod_written 420
              "/proc/42/root/etc/passwd" 42 7%N eq_refl eq_refl eq_refl eq_refl)
    as (_ & Hhash & _ & _ & Hfirst & Hagain).
  split; [|split; [exact Hhash|rewrite Hagain; reflexivity]].
  rewrite Hfirst; [reflexivity| |]; vm_compute; [discriminate|reflexivity].
Defined.

(** ** Sub-directories *)

(** X25 at an example: the directory /tmp/sub is made below the watched /tmp:
    the object of /tmp now has the path of /tmp/sub, and the removal of
    /tmp/sub is taken for the removal of the watched directory. *)
Lemma new_subdirectory_witness :
  os.IsDir (Z.lor os.ModeDir 493) = true
  /\ mask_has (fm_mask fmod_mkdir) syscall.IN_MOVED_TO = false
  /\ fi_Path (finfos w_watching_tmp !!! 1%positive) = "/proc/42/root/tmp"
  /\ fi_Path (finfos (handleDirEvents host_tmp w_watching_tmp fmod_mkdir
                        (Some (Z.lor os.ModeDir 493)) "/proc/42/root/tmp/sub" "/tmp/sub" 42).1.1
              !!! 1%positive) = "/proc/42/root/tmp/sub"
  /\ (handleDirEvents host_tmp
        (handleDirEvents host_tmp w_watching_tmp fmod_mkdir
           (Some (Z.lor os.ModeDir 493)) "/proc/42/root/tmp/sub" "/tmp/sub" 42).1.1
        fmod_created_deleted None "/proc/42/root/tmp/sub" "/tmp/sub" 42).2
     = fileEventDirRemoved.
Proof.
  split; [reflexivity|]. split; [reflexivity|]. split; [vm_compute; reflexivity|].
  destruct (new_subdirectory_repoints_watched_directory host_tmp w_watching_tmp fmod_mkdir
              (Z.lor os.ModeDir 493) "/proc/42/root/tmp/sub" "/tmp/sub" 42
              eq_refl eq_refl eq_refl) as (_ & Hpath & _ & Hgone).
  split; [exact Hpath|].
  rewrite (Hgone host_tmp fmod_created_deleted "/tmp/sub" 42%Z eq_refl). reflexivity.
Defined.

(** ** Counters and alerts *)

(** X27 at an example: the counters on [w_created_deleted], after its flush
    and after the container has left. *)
Lemma probe_counters_witness :
  bEnable w_created_deleted = true
  /\ exists d d_flush d_clean,
       GetProbeData host_tmp w_created_deleted = Some d
       /\ GetProbeData host_tmp (HandleWatchedFiles host_tmp 5000000000 w_created_deleted).1
          = Some d_flush
       /\ GetProbeData host_tmp (ContainerCleanup w_created_deleted 42 true).1 = Some d_clean
       /\ NFileEvents d = 1%Z /\ NGroups d = 1%Z
       /\ NFileEvents d_flush = 0%Z /\ NGroups d_flush = 1%Z
       /\ NGroups d_clean = 0%Z.
Proof.
  assert (Hen : bEnable w_created_deleted = true) by (vm_compute; reflexivity).
  split; [exact Hen|].
  destruct (probe_counters_follow_state host_tmp host_tmp 5000000000 w_created_deleted 42 true
              Hen) as (d & d_flush & d_clean & Hd & Hflush & Hclean & Hev & Hgr & _ & Hgc).
  exists d, d_flush, d_clean. split; [exact Hd|]. split; [exact Hflush|].
  split; [exact Hclean|].
  assert (Hd' : NFileEvents d = 1%Z /\ NGroups d = 1%Z).
  { vm_compute in Hd. injection Hd as <-. split; reflexivity. }
  destruct Hd' as [Hn Hg]. split; [exact Hn|]. split; [exact Hg|].
  split; [exact Hev|]. split; [rewrite Hgr; exact Hg|].
  rewrite Hgc, Hg. vm_compute. reflexivity.
Defined.

(** X28 at an example: an alert for container 42 after its [StartWatch], and
    after it has left. *)
Lemma process_alert_witness :
  bEnable (NewFileWatcher true false false) = true
  /\ IsPidValid host_passwd 42 = true
  /\ (exists msg,
        SendNVProcessAlert
          (StartWatch host_passwd 0 (NewFileWatcher true false false) "c1" 42
             (demo_conf "" None) true false).1 42 77 "c1" "/bin/nc" "/bin/sh"
        = [SendReport msg]
        /\ msg_Group msg = "nv.web" /\ msg_Action msg = "deny" /\ msg_ProcPid msg = 77%Z)
  /\ SendNVProcessAlert (ContainerCleanup w_learn_rules 42 true).1 42 77 "c1" "/bin/nc" "/bin/sh"
     = [].
Proof.
  split; [reflexivity|]. split; [reflexivity|]. split.
  - destruct (process_alert_follows_group host_passwd 0 (NewFileWatcher true false false)
                "c1" 42 (demo_conf "" None) true false 77 "c1" "/bin/nc" "/bin/sh"
                eq_refl eq_refl) as [(msg & Hmsg & Hgroup & Haction & _ & _ & _ & Hpid & _) _].
    exists msg. split; [exact Hmsg|]. split; [exact Hgroup|]. split; [exact Haction|exact Hpid].
  - assert (Hen : bEnable w_learn_rules = true) by (vm_compute; reflexivity).
    exact (proj2 (process_alert_follows_group host_passwd 0 w_learn_rules
                    "c1" 42 (demo_conf "" None) true false 77 "c1" "/bin/nc" "/bin/sh"
                    Hen eq_refl)).
Defined.

(** ** Enumeration *)

(** X17 at an example: a file below /tmp that the enumeration takes for
    [flt_tmp] matches the filter. *)
Lemma enumerated_files_witness :
  "/tmp/x" <> GoStrings.unescape_dots (flt_Path flt_tmp)
  /\ flt_Regex flt_tmp <> ""
  /\ skips_file flt_tmp (GoStrings.unescape_dots (flt_Path flt_tmp)) "/tmp/x" = false
  /\ filterPathMatch "/tmp/x" flt_tmp = true.
Proof.
  assert (H1 : "/tmp/x" <> GoStrings.unescape_dots (flt_Path flt_tmp)) by discriminate.
  assert (H2 : flt_Regex flt_tmp <> "") by discriminate.
  assert (H3 : skips_file flt_tmp (GoStrings.unescape_dots (flt_Path flt_tmp)) "/tmp/x" = false)
    by (vm_compute; reflexivity).
  split; [exact H1|]. split; [exact H2|]. split; [exact H3|].
  destruct (enumerated_files_match_filter flt_tmp "/tmp/x" H1 H2 H3) as (_ & _ & Hmatch).
  destruct (regexp_Compile _) as [rgx|] eqn:Hc in Hmatch; [exact Hmatch|].
  vm_compute in Hc. discriminate.
Defined.

(** X20 at an example: the object of /etc/passwd, a single file, is armed by a
    call of its own and carries the container id afterwards. *)
Lemma addCoreFile_arms_witness :
  bEnable w_enumerated = true
  /\ (exists flt prot ua,
        FaAddMonitorFile (fi_Path (finfos w_enumerated !!! 1%positive)) flt prot ua 1%positive
        ∈ (addCoreFile w_enumerated true "c1" ∅ [1%positive]).2)
  /\ fi_ContainerId (finfos (addCoreFile w_enumerated true "c1" ∅ [1%positive]).1
                     !!! 1%positive) = "c1"
  /\ fi_Path (finfos w_enumerated !!! 1%positive) = "/proc/42/root/etc/passwd".
Proof.
  assert (Hen : bEnable w_enumerated = true) by (vm_compute; reflexivity).
  split; [exact Hen|].
  destruct (addCoreFile_arms_stamped_targets w_enumerated true "c1" ∅ [1%positive] Hen)
    as (Hsingle & _ & Hstamped & _).
  destruct (Hsingle 1%positive) as (flt & prot & ua & Hcall).
  { left. }
  { left. apply lookup_empty. }
  split; [exists flt, prot, ua; exact Hcall|].
  split; [|vm_compute; reflexivity].
  apply (Hstamped _ 1%positive Hcall). left.
Defined.

(** ** Learning *)

(** X8 at an example: vi reads /etc/passwd in mode [Learn]: the next flush of
    the learned rules hands over the rule for vi. *)
Lemma learned_rule_witness :
  groups w_learn_rules !! 42%Z = Some (groups w_learn_rules !!! 42%Z)
  /\ mode (groups w_learn_rules !!! 42%Z) = PolicyModeLearn
  /\ applyRules (groups w_learn_rules !!! 42%Z) !! filterIndexKey flt_passwd = Some ∅
  /\ exists reqs,
       (reportLearningRules
          (learnFromEvents w_learn_rules 42 fmod_access "/etc/passwd" fileEventAccessed
             5000000000).1).2 = [SendRule reqs]
       /\ {| req_GroupName := "nv.web"; req_Filter := "/etc/passwd/"; req_Path := "/bin/vi" |}
          ∈ reqs.
Proof.
  assert (Hg : groups w_learn_rules !! 42%Z = Some (groups w_learn_rules !!! 42%Z))
    by (vm_compute; reflexivity).
  assert (Hmode : mode (groups w_learn_rules !!! 42%Z) = PolicyModeLearn)
    by (vm_compute; reflexivity).
  assert (Happ : applyRules (groups w_learn_rules !!! 42%Z) !! filterIndexKey flt_passwd
                 = Some ∅) by (vm_compute; reflexivity).
  split; [exact Hg|]. split; [exact Hmode|]. split; [exact Happ|].
  assert (Hflt : flt_passwd ∈ prf_Filters (profile (groups w_learn_rules !!! 42%Z))
                              ++ prf_FiltersCRD (profile (groups w_learn_rules !!! 42%Z))).
  { assert (Hf : prf_Filters (profile (groups w_learn_rules !!! 42%Z))
                 = [flt_passwd; flt_tmp; flt_libc]) by (vm_compute; reflexivity).
    rewrite Hf. left. }
  assert (Hprof : prf_Group (profile (groups w_learn_rules !!! 42%Z)) = "nv.web")
    by (vm_compute; reflexivity).
  destruct (learned_rule_is_handed_over w_learn_rules 42 fmod_access "/etc/passwd"
              fileEventAccessed 5000000000 (groups w_learn_rules !!! 42%Z) flt_passwd ∅
              proc_vi Hg Hmode Hflt eq_refl eq_refl Happ)
    as (reqs & Hsent & Hreq).
  { left. }
  { discriminate. }
  { apply not_elem_of_empty. }
  exists reqs. split; [exact Hsent|]. rewrite Hprof in Hreq. exact Hreq.
Defined.

(** ** Invariants of the groups *)

(** X29 at an example: the group of container 42 after it has learned vi. *)
Lemma group_mode_witness :
  PolicyModeLearn <> ""
  /\ groups (run_ops ops_learn (NewFileWatcher true false false)) !! 42%Z
     = Some (groups (run_ops ops_learn (NewFileWatcher true false false)) !!! 42%Z)
  /\ mode (groups (run_ops ops_learn (NewFileWatcher true false false)) !!! 42%Z)
     = prf_Mode (profile (groups (run_ops ops_learn (NewFileWatcher true false false))
                            !!! 42%Z))
  /\ mode (groups (run_ops ops_learn (NewFileWatcher true false false)) !!! 42%Z) <> "".
Proof.
  assert (Hlearn : PolicyModeLearn <> "") by discriminate.
  assert (Hg : groups (run_ops ops_learn (NewFileWatcher true false false)) !! 42%Z
               = Some (groups (run_ops ops_learn (NewFileWatcher true false false)) !!! 42%Z))
    by (vm_compute; reflexivity).
  split; [exact Hlearn|]. split; [exact Hg|].
  exact (group_mode_follows_profile true false false ops_learn 42 _ Hlearn Hg).
Defined.

(** X30 at an example: the set it has learned for /etc/passwd holds vi. *)
Lemma learned_sets_witness :
  groups (run_ops ops_learn (NewFileWatcher true false false)) !! 42%Z
  = Some (groups (run_ops ops_learn (NewFileWatcher true false false)) !!! 42%Z)
  /\ learnRules (groups (run_ops ops_learn (NewFileWatcher true false false)) !!! 42%Z)
       !! "/etc/passwd/" = Some {["/bin/vi"]}
  /\ (exists p : string, p ∈ ({["/bin/vi"]} : gset string))
  /\ ("" ∉ ({["/bin/vi"]} : gset string)).
Proof.
  assert (Hg : groups (run_ops ops_learn (NewFileWatcher true false false)) !! 42%Z
               = Some (groups (run_ops ops_learn (NewFileWatcher true false false)) !!! 42%Z))
    by (vm_compute; reflexivity).
  assert (Hl : learnRules (groups (run_ops ops_learn (NewFileWatcher true false false))
                             !!! 42%Z) !! "/etc/passwd/" = Some {["/bin/vi"]})
    by (vm_compute; reflexivity).
  split; [exact Hg|]. split; [exact Hl|].
  exact (learned_sets_are_proper true false false ops_learn 42 _ "/etc/passwd/" _ Hg Hl).
Defined.

End FurtherExamples.
